(** * thelaby-cipher: the reconcile pipeline of [upload.js], embedded in Rocq

    The development follows the richer variant of the upload script
    ([upload.js], first part) and the helper modules [src/labyrinth.js],
    [src/page.js] and [src/image.js].  JavaScript strings are carried as
    their UTF-8 byte strings, JS objects used as dictionaries as finite maps
    or, where the enumeration order is observable, as association lists in
    enumeration order.  Remote (browser) calls are answered by an abstract
    remote machine; every call the script issues is recorded in a trace. *)

From Stdlib Require Import ZArith Ascii String Lia.
From stdpp Require Import gmap strings list fin_maps sorting.


(* ===================================================================== *)
(** * Part I: definitions                                                  *)
(* ===================================================================== *)

(** ** JavaScript strings *)

Module Js.

(** The double quote, which the messages of the script embed. *)
Definition dq : string := String "034"%char EmptyString.

(** [String.prototype.toLowerCase] restricted to what a case-insensitive
    regular expression without the [u] flag compares: ASCII letters fold,
    every other code unit only matches itself. *)
Definition lower (c : ascii) : ascii :=
  let n := nat_of_ascii c in
  if (65 <=? n)%nat && (n <=? 90)%nat then ascii_of_nat (n + 32) else c.

Definition eqb_ci (a b : ascii) : bool := Ascii.eqb (lower a) (lower b).

(** [pat] matches at the head of [s], letters compared without case. *)
Fixpoint prefix_ci (pat s : string) : bool :=
  match pat with
  | EmptyString => true
  | String p pat' =>
      match s with
      | EmptyString => false
      | String c s' => eqb_ci p c && prefix_ci pat' s'
      end
  end.

(** [/pat/i.test(s)] for a pattern made of literal characters. *)
Fixpoint test_ci (pat s : string) : bool :=
  prefix_ci pat s ||
  match s with
  | EmptyString => false
  | String _ s' => test_ci pat s'
  end.

(** [s.includes(pat)], case sensitive. *)
Fixpoint includes (pat s : string) : bool :=
  String.prefix pat s ||
  match s with
  | EmptyString => false
  | String _ s' => includes pat s'
  end.

(** Truthiness of a string value: only the empty string is falsy. *)
Definition truthy_str (s : string) : bool :=
  match s with EmptyString => false | _ => true end.

(** Truthiness of a possibly absent string property. *)
Definition truthy_ostr (o : option string) : bool :=
  match o with Some s => truthy_str s | None => false end.

(** Decimal rendering of a non-negative integer, as template literals do. *)
Definition digit (n : nat) : ascii := ascii_of_nat (48 + n mod 10).

Fixpoint dec_fuel (fuel n : nat) (acc : string) : string :=
  match fuel with
  | O => acc
  | S fuel' =>
      let acc' := String (digit n) acc in
      if (n <? 10)%nat then acc' else dec_fuel fuel' (n / 10) acc'
  end.

Definition dec (n : nat) : string := dec_fuel (S n) n EmptyString.

End Js.

(* ===================================================================== *)
(** ** Effects: the run monad                                              *)
(* ===================================================================== *)

(** What a [throw] carries.  Every error the script and the browser layer
    raise is an [Error] object with a message; [NoValue] is the [undefined]
    that [throw lastError] raises when the retry loop never ran. *)
Inductive thrown : Type :=
| Err (message : string)
| NoValue.

(** How a computation ends: a value, an exception on its way to the nearest
    [catch], or [process.exit(code)], which nothing catches. *)
Inductive res (A : Type) : Type :=
| Ok (a : A)
| Throw (e : thrown)
| Exit (code : nat).
Arguments Ok {A} a.
Arguments Throw {A} e.
Arguments Exit {A} code.

Module Monad.
Section WithWorld.
Context {W : Type}.

Definition M (A : Type) : Type := W -> res A * W.

Definition ret {A} (a : A) : M A := fun w => (Ok a, w).

Definition bind {A B} (m : M A) (k : A -> M B) : M B :=
  fun w =>
    match m w with
    | (Ok a, w') => k a w'
    | (Throw e, w') => (Throw e, w')
    | (Exit c, w') => (Exit c, w')
    end.

Definition throw {A} (e : thrown) : M A := fun w => (Throw e, w).

Definition exit {A} (code : nat) : M A := fun w => (Exit code, w).

Definition get : M W := fun w => (Ok w, w).

Definition modify (f : W -> W) : M unit := fun w => (Ok tt, f w).

(** [try { m } catch (e) { h e }] *)
Definition try_catch {A} (m : M A) (h : thrown -> M A) : M A :=
  fun w =>
    match m w with
    | (Throw e, w') => h e w'
    | r => r
    end.

(** [for (const x of l) { body x }] *)
Fixpoint for_each {A} (l : list A) (body : A -> M unit) : M unit :=
  match l with
  | [] => ret tt
  | x :: l' => bind (body x) (fun _ => for_each l' body)
  end.

(** A loop that threads the loop-carried variables [s] through its body. *)
Fixpoint fold_each {A S} (l : list A) (body : S -> A -> M S) (s : S) : M S :=
  match l with
  | [] => ret s
  | x :: l' => bind (body s x) (fun s' => fold_each l' body s')
  end.

(** [m] only takes a world to worlds that [Rel] relates to it. *)
Definition respects (Rel : W -> W -> Prop) {A} (m : M A) : Prop :=
  forall w r w', m w = (r, w') -> Rel w w'.

End WithWorld.
Arguments M W A : clear implicits.
End Monad.
Import Monad.

Declare Scope run_scope.
Delimit Scope run_scope with run.
Notation "'let*' x := m 'in' k" := (bind m (fun x => k))
  (at level 10, x name, m at level 100, k at level 200) : run_scope.
Notation "'let*' ' p := m 'in' k" := (bind m (fun x => match x with p => k end))
  (at level 10, p pattern, m at level 100, k at level 200) : run_scope.
Notation "'do*' m 'in' k" := (bind m (fun _ => k))
  (at level 10, m at level 100, k at level 200) : run_scope.

(* ===================================================================== *)
(** ** Retry utility ([upload.js], RETRY_CONFIG, isRetryableError, withRetry) *)
(* ===================================================================== *)

Module Retry.

Definition maxRetries : nat := 3.
Definition delayMs : nat := 1000.

(** RETRY_CONFIG.retryableErrors: ten literal patterns, all flagged [i]. *)
Definition retryableErrors : list string :=
  [ "timeout"; "exceeded"; "Waiting failed"; "ECONNRESET"; "ECONNREFUSED";
    "ETIMEDOUT"; "net::"; "Navigation failed"; "Protocol error";
    "Target closed" ].

(** [RETRY_CONFIG.retryableErrors.some(pattern => pattern.test(message))] *)
Definition retryableMessage (message : string) : bool :=
  existsb (fun pattern => Js.test_ci pattern message) retryableErrors.

Section WithWorld.
Context {W : Type}.
(** [await new Promise(r => setTimeout(r, ms))] as the world records it. *)
Variable sleep : nat -> M W unit.

(** [isRetryableError(error)]: reading [.message] of [undefined] raises a
    TypeError of its own. *)
Definition isRetryableError (error : thrown) : M W bool :=
  match error with
  | Err message => ret (retryableMessage message)
  | NoValue => throw (Err "Cannot read properties of undefined (reading 'message')")
  end.

(** The [for] loop of [withRetry]: [todo] counts the iterations the loop
    condition [attempt <= maxRetries] still admits. *)
Fixpoint withRetry_loop {A} (fn : M W A) (maxRetries todo attempt : nat)
    (lastError : thrown) : M W A :=
  match todo with
  | O => throw lastError
  | S todo' =>
      try_catch fn (fun error =>
        (let* retryable := isRetryableError error in
         if negb retryable || (attempt =? maxRetries)%nat
         then throw error
         else
           do* sleep (delayMs * attempt) in
           withRetry_loop fn maxRetries todo' (S attempt) error)%run)
  end.

Definition withRetry {A} (fn : M W A) (maxRetries : nat) : M W A :=
  withRetry_loop fn maxRetries maxRetries 1 NoValue.

End WithWorld.

(** *** Observing a retried call

    A world that counts what [withRetry] does to a stateful operation
    [op] over a base state [B]: every invocation and every delay is
    appended to a log. *)
Inductive observed : Type :=
| Invoked
| Slept (ms : nat).

Section Observed.
Context {B A : Type}.
Variable op : B -> res A * B.

Definition fn : M (B * list observed) A :=
  fun w => let (r, b') := op (fst w) in (r, (b', snd w ++ [Invoked])).

Definition sleep (ms : nat) : M (B * list observed) unit :=
  fun w => (Ok tt, (fst w, snd w ++ [Slept ms])).

(** The base state after [i] invocations, and what invocation [i]
    (counted from 0) answers. *)
Fixpoint state_after (b0 : B) (i : nat) : B :=
  match i with
  | O => b0
  | S i' => snd (op (state_after b0 i'))
  end.

Definition outcome (b0 : B) (i : nat) : res A := fst (op (state_after b0 i)).

(** An outcome of the transient class: an Error whose message matches one
    of the retryable patterns. *)
Definition transient (r : res A) : bool :=
  match r with
  | Throw (Err message) => retryableMessage message
  | _ => false
  end.

(** What the caller of [withRetry] sees of the deciding outcome. *)
Definition propagated (r : res A) : res A :=
  match r with
  | Throw NoValue => Throw (Err "Cannot read properties of undefined (reading 'message')")
  | _ => r
  end.

(** The log of a run decided by invocation [k] (counted from 0). *)
Fixpoint schedule (k : nat) : list observed :=
  match k with
  | O => [Invoked]
  | S k' => schedule k' ++ [Slept (delayMs * k); Invoked]
  end.

(** The invocation that decides a run of three attempts. *)
Definition deciding (b0 : B) : nat :=
  if transient (outcome b0 0)
  then if transient (outcome b0 1) then 2 else 1
  else 0.

End Observed.
End Retry.

(* ===================================================================== *)
(** ** Tags ([src/labyrinth.js], TAG_MAP and tagsToIds)                    *)
(* ===================================================================== *)

Module Tags.

(** The own properties of the TAG_MAP object literal. *)
Definition TAG_MAP : list (string * Z) :=
  [ ("problem", 1); ("story", 2); ("expert", 3); ("no-search", 4);
    ("search", 5); ("specific-person", 6); ("event", 7); ("parody", 8);
    ("movie", 9); ("tv", 10); ("comic", 11); ("singer", 12); ("actor", 13);
    ("nonsense", 14); ("cute", 15); ("game", 16); ("long", 17);
    ("short", 18); ("horror", 19); ("escape", 20); ("puzzle", 21);
    ("mobile-ok", 22); ("no-mobile", 23); ("streaming-ok", 24);
    ("문제", 1); ("스토리", 2); ("전문지식", 3); ("검색불필요", 4);
    ("검색필요", 5); ("특정인물", 6); ("이벤트", 7); ("패러디", 8);
    ("영화", 9); ("TV프로그램", 10); ("만화", 11); ("가수", 12);
    ("배우", 13); ("넌센스", 14); ("귀염뽀짝", 15); ("게임", 16);
    ("장편미궁", 17); ("단편미궁", 18); ("공포", 19); ("방탈출", 20);
    ("퍼즐", 21); ("모바일가능", 22); ("모바일불가능", 23);
    ("방송송출허용", 24) ]%Z.

(** What an object literal inherits from [Object.prototype]: a property
    read [TAG_MAP[tag]] finds these when [tag] is not an own key. *)
Definition objectPrototypeKeys : list string :=
  [ "constructor"; "hasOwnProperty"; "isPrototypeOf"; "propertyIsEnumerable";
    "toLocaleString"; "toString"; "valueOf"; "__proto__";
    "__defineGetter__"; "__defineSetter__"; "__lookupGetter__";
    "__lookupSetter__" ].

(** An element of the array [tags] as [JSON.parse] can deliver it. *)
Inductive tag : Type :=
| TagNumber (n : Z)
| TagString (s : string)
| TagOther.          (* null, a boolean, an array or an object *)

(** An element of the array [tagsToIds] returns. *)
Inductive tagId : Type :=
| IdNumber (n : Z)
| IdInherited (key : string).   (* the member of Object.prototype under [key] *)

Fixpoint assoc (k : string) (l : list (string * Z)) : option Z :=
  match l with
  | [] => None
  | (k', v) :: l' => if String.eqb k k' then Some v else assoc k l'
  end.

(** [TAG_MAP[tag]]: own property first, then the prototype chain;
    [None] is [undefined]. *)
Definition TAG_MAP_get (key : string) : option tagId :=
  match assoc key TAG_MAP with
  | Some n => Some (IdNumber n)
  | None =>
      if existsb (String.eqb key) objectPrototypeKeys
      then Some (IdInherited key) else None
  end.

(** Truthiness of what [TAG_MAP[tag]] delivered: a number unless it is 0,
    any inherited member (functions and the prototype object). *)
Definition truthy_id (i : tagId) : bool :=
  match i with
  | IdNumber n => negb (n =? 0)%Z
  | IdInherited _ => true
  end.

(** The loop of [tagsToIds]; the second component collects the
    [console.warn] lines. *)
Fixpoint tagsToIds_loop (tags : list tag) (ids : list tagId) (warns : list string)
    : list tagId * list string :=
  match tags with
  | [] => (ids, warns)
  | TagNumber n :: tags' => tagsToIds_loop tags' (ids ++ [IdNumber n]) warns
  | TagString s :: tags' =>
      match TAG_MAP_get s with
      | Some id =>
          if truthy_id id
          then tagsToIds_loop tags' (ids ++ [id]) warns
          else tagsToIds_loop tags' ids (warns ++ ["[labyrinth] Unknown tag: " +:+ s])
      | None => tagsToIds_loop tags' ids (warns ++ ["[labyrinth] Unknown tag: " +:+ s])
      end
  | TagOther :: tags' => tagsToIds_loop tags' ids warns
  end.

(** [tagsToIds(tags)]; [None] stands for an argument that is not an array. *)
Definition tagsToIds_log (tags : option (list tag)) : list tagId * list string :=
  match tags with
  | None => ([], [])
  | Some l => let (ids, warns) := tagsToIds_loop l [] [] in (take 5 ids, warns)
  end.

Definition tagsToIds (tags : option (list tag)) : list tagId :=
  fst (tagsToIds_log tags).

End Tags.

(* ===================================================================== *)
(** ** JSON values and [JSON.stringify]                                    *)
(* ===================================================================== *)

Module Json.

(** A value as [JSON.parse] delivers it.  A number is carried by the text
    [Number.prototype.toString] prints for it, which is canonical; the
    members of an object stand in the order [JSON.stringify] and
    [Object.entries] enumerate them. *)
#[local] Unset Elimination Schemes.
Inductive json : Type :=
| JNull
| JBool (b : bool)
| JNum (literal : string)
| JStr (s : string)
| JArr (items : list json)
| JObj (members : list (string * json)).
#[local] Set Elimination Schemes.

Definition hexdigit (n : N) : ascii :=
  ascii_of_N (if (n <? 10)%N then 48 + n else 87 + n).

(** QuoteJSONString, one code unit at a time: the two delimiters and the
    control characters are escaped, everything else is copied. *)
Definition escape_char (c : ascii) : string :=
  let n := N_of_ascii c in
  if (n =? 34)%N then String "\" (String c "")
  else if (n =? 92)%N then String "\" (String c "")
  else if (n =? 8)%N then "\b"
  else if (n =? 9)%N then "\t"
  else if (n =? 10)%N then "\n"
  else if (n =? 12)%N then "\f"
  else if (n =? 13)%N then "\r"
  else if (n <? 32)%N
       then "\u00" +:+ String (hexdigit (n / 16)) (String (hexdigit (n mod 16)) "")
  else String c "".

Fixpoint escape (s : string) : string :=
  match s with
  | EmptyString => ""
  | String c s' => escape_char c +:+ escape s'
  end.

Definition quote (s : string) : string := Js.dq +:+ escape s +:+ Js.dq.

(** [JSON.stringify(j)] without indentation: the text of a value, the
    elements of an array and the members of an object separated by commas. *)
Fixpoint stringify (j : json) : string :=
  match j with
  | JNull => "null"
  | JBool true => "true"
  | JBool false => "false"
  | JNum literal => literal
  | JStr s => quote s
  | JArr [] => "[]"
  | JArr (x :: items) =>
      "[" +:+ stringify x +:+
      (fix more (l : list json) : string :=
         match l with
         | [] => "]"
         | y :: l' => "," +:+ stringify y +:+ more l'
         end) items
  | JObj [] => "{}"
  | JObj ((k, v) :: members) =>
      "{" +:+ quote k +:+ ":" +:+ stringify v +:+
      (fix more (l : list (string * json)) : string :=
         match l with
         | [] => "}"
         | (k', v') :: l' => "," +:+ quote k' +:+ ":" +:+ stringify v' +:+ more l'
         end) members
  end.

(** The characters of a number as JavaScript prints it. *)
Definition numeric_char (c : ascii) : bool :=
  existsb (Ascii.eqb c) (list_ascii_of_string "0123456789-+.e").

(** The values [JSON.parse] delivers: a number literal is a non-empty run
    of numeric characters. *)
Fixpoint parsed (j : json) : bool :=
  match j with
  | JNull | JBool _ | JStr _ => true
  | JNum literal =>
      Js.truthy_str literal && forallb numeric_char (list_ascii_of_string literal)
  | JArr items => forallb parsed items
  | JObj members =>
      (fix all (l : list (string * json)) : bool :=
         match l with
         | [] => true
         | (_, v) :: l' => parsed v && all l'
         end) members
  end.

(** ToBoolean. *)
Definition truthy (j : json) : bool :=
  match j with
  | JNull => false
  | JBool b => b
  | JNum literal => negb (String.eqb literal "0")
  | JStr s => Js.truthy_str s
  | JArr _ | JObj _ => true
  end.

(** [j[key]] for an own property of an object read from JSON; [None] is
    [undefined]. *)
Fixpoint assoc (key : string) (members : list (string * json)) : option json :=
  match members with
  | [] => None
  | (k, v) :: l => if String.eqb key k then Some v else assoc key l
  end.

Definition prop (key : string) (j : json) : option json :=
  match j with
  | JObj members => assoc key members
  | _ => None
  end.

(** A property read where the script goes on to use a string. *)
Definition prop_str (key : string) (j : json) : option string :=
  match prop key j with
  | Some (JStr s) => Some s
  | _ => None
  end.

Definition truthy_prop (key : string) (j : json) : bool :=
  match prop key j with
  | Some v => truthy v
  | None => false
  end.

End Json.
Export Json (json(..)).

(* ===================================================================== *)
(** ** MD5 ([crypto.createHash('md5')], RFC 1321)                          *)
(* ===================================================================== *)

Module Md5.
Local Open Scope Z_scope.

Definition wrap (x : Z) : Z := x mod 2 ^ 32.

Definition rotl (x c : Z) : Z :=
  wrap (Z.lor (Z.shiftl x c) (Z.shiftr x (32 - c))).

Definition not32 (x : Z) : Z := Z.lxor x 0xffffffff.

Definition K : list Z :=
  [ 0xd76aa478; 0xe8c7b756; 0x242070db; 0xc1bdceee;
    0xf57c0faf; 0x4787c62a; 0xa8304613; 0xfd469501;
    0x698098d8; 0x8b44f7af; 0xffff5bb1; 0x895cd7be;
    0x6b901122; 0xfd987193; 0xa679438e; 0x49b40821;
    0xf61e2562; 0xc040b340; 0x265e5a51; 0xe9b6c7aa;
    0xd62f105d; 0x02441453; 0xd8a1e681; 0xe7d3fbc8;
    0x21e1cde6; 0xc33707d6; 0xf4d50d87; 0x455a14ed;
    0xa9e3e905; 0xfcefa3f8; 0x676f02d9; 0x8d2a4c8a;
    0xfffa3942; 0x8771f681; 0x6d9d6122; 0xfde5380c;
    0xa4beea44; 0x4bdecfa9; 0xf6bb4b60; 0xbebfbc70;
    0x289b7ec6; 0xeaa127fa; 0xd4ef3085; 0x04881d05;
    0xd9d4d039; 0xe6db99e5; 0x1fa27cf8; 0xc4ac5665;
    0xf4292244; 0x432aff97; 0xab9423a7; 0xfc93a039;
    0x655b59c3; 0x8f0ccc92; 0xffeff47d; 0x85845dd1;
    0x6fa87e4f; 0xfe2ce6e0; 0xa3014314; 0x4e0811a1;
    0xf7537e82; 0xbd3af235; 0x2ad7d2bb; 0xeb86d391 ].

Definition shifts : list Z :=
  [ 7; 12; 17; 22; 7; 12; 17; 22; 7; 12; 17; 22; 7; 12; 17; 22;
    5; 9; 14; 20; 5; 9; 14; 20; 5; 9; 14; 20; 5; 9; 14; 20;
    4; 11; 16; 23; 4; 11; 16; 23; 4; 11; 16; 23; 4; 11; 16; 23;
    6; 10; 15; 21; 6; 10; 15; 21; 6; 10; 15; 21; 6; 10; 15; 21 ].

Definition bytes_of (s : string) : list Z :=
  map (fun c => Z.of_N (N_of_ascii c)) (list_ascii_of_string s).

(** A little-endian rendering of [x] on [n] bytes. *)
Fixpoint le_bytes (n : nat) (x : Z) : list Z :=
  match n with
  | O => []
  | S n' => x mod 256 :: le_bytes n' (x / 256)
  end.

Definition pad (msg : list Z) : list Z :=
  let n := Z.of_nat (length msg) in
  msg ++ [0x80] ++ repeat 0 (Z.to_nat ((55 - n) mod 64)) ++ le_bytes 8 (8 * n).

(** The 32-bit little-endian words of a byte sequence. *)
Fixpoint words (fuel : nat) (bs : list Z) : list Z :=
  match fuel, bs with
  | S fuel', b0 :: b1 :: b2 :: b3 :: bs' =>
      (b0 + 256 * b1 + 65536 * b2 + 16777216 * b3) :: words fuel' bs'
  | _, _ => []
  end.

Fixpoint blocks (fuel : nat) (ws : list Z) : list (list Z) :=
  match fuel, ws with
  | S fuel', _ :: _ => take 16 ws :: blocks fuel' (drop 16 ws)
  | _, _ => []
  end.

Definition state : Type := (Z * Z * Z * Z)%type.

Definition step (m : list Z) (st : state) (i : nat) : state :=
  let '(a, b, c, d) := st in
  let iz := Z.of_nat i in
  let '(f, g) :=
    if (i <? 16)%nat
    then (Z.lor (Z.land b c) (Z.land (not32 b) d), iz)
    else if (i <? 32)%nat
    then (Z.lor (Z.land d b) (Z.land (not32 d) c), (5 * iz + 1) mod 16)
    else if (i <? 48)%nat
    then (Z.lxor b (Z.lxor c d), (3 * iz + 5) mod 16)
    else (Z.lxor c (Z.lor b (not32 d)), (7 * iz) mod 16) in
  let f' := wrap (f + a + nth i K 0 + nth (Z.to_nat g) m 0) in
  (d, wrap (b + rotl f' (nth i shifts 0)), b, c).

Definition compress (st : state) (m : list Z) : state :=
  let '(a0, b0, c0, d0) := st in
  let '(a, b, c, d) := fold_left (step m) (seq 0 64) st in
  (wrap (a0 + a), wrap (b0 + b), wrap (c0 + c), wrap (d0 + d)).

Definition init : state := (0x67452301, 0xefcdab89, 0x98badcfe, 0x10325476).

Definition hexbyte (b : Z) : string :=
  String (Json.hexdigit (Z.to_N (b / 16)))
    (String (Json.hexdigit (Z.to_N (b mod 16))) "").

Definition hex (bs : list Z) : string :=
  fold_right (fun b acc => hexbyte b +:+ acc) "" bs.

(** [crypto.createHash('md5').update(s).digest('hex')] *)
Definition md5 (s : string) : string :=
  let bs := pad (bytes_of s) in
  let ws := words (length bs) bs in
  let '(a, b, c, d) := fold_left compress (blocks (length ws) ws) init in
  hex (le_bytes 4 a ++ le_bytes 4 b ++ le_bytes 4 c ++ le_bytes 4 d).

End Md5.

(* ===================================================================== *)
(** ** Page fingerprint ([upload.js], computePageHash)                     *)
(* ===================================================================== *)

Module Hash.
Import Json.

(** [imageChecksums.sort()]: the default comparison orders strings by
    their code units, which for the hexadecimal checksums is the order of
    their bytes. *)
Definition sort (l : list string) : list string := merge_sort String.le l.

(** [JSON.stringify({ html, json: jsonData, images: imageChecksums.sort() })] *)
Definition combined (html : string) (jsonData : json) (imageChecksums : list string)
    : string :=
  stringify
    (JObj [ ("html", JStr html);
            ("json", jsonData);
            ("images", JArr (map JStr (sort imageChecksums))) ]).

Definition computePageHash (html : string) (jsonData : json)
    (imageChecksums : list string) : string :=
  Md5.md5 (combined html jsonData imageChecksums).

End Hash.

(* ===================================================================== *)
(** ** Reading JSON text back (definitions used by the proofs)             *)
(* ===================================================================== *)

Module JsonText.
Import Json.

Definition unhex (c : ascii) : option N :=
  let n := N_of_ascii c in
  if (48 <=? n)%N && (n <=? 57)%N then Some (n - 48)%N
  else if (97 <=? n)%N && (n <=? 102)%N then Some (n - 87)%N
  else None.

Definition unescape_head (s : string) : option (ascii * string) :=
  match s with
  | EmptyString => None
  | String c r =>
      if (N_of_ascii c =? 92)%N then
        match r with
        | EmptyString => None
        | String e r' =>
            let n := N_of_ascii e in
            if (n =? 34)%N || (n =? 92)%N then Some (e, r')
            else if (n =? 98)%N then Some (ascii_of_N 8, r')
            else if (n =? 116)%N then Some (ascii_of_N 9, r')
            else if (n =? 110)%N then Some (ascii_of_N 10, r')
            else if (n =? 102)%N then Some (ascii_of_N 12, r')
            else if (n =? 114)%N then Some (ascii_of_N 13, r')
            else if (n =? 117)%N then
              match r' with
              | String _ (String _ (String h (String l r''))) =>
                  match unhex h, unhex l with
                  | Some a, Some b => Some (ascii_of_N (16 * a + b), r'')
                  | _, _ => None
                  end
              | _ => None
              end
            else None
        end
      else if (N_of_ascii c =? 34)%N then None
      else Some (c, r)
  end.

(** What may follow a value inside a JSON text: nothing, or a character
    that no number contains. *)
Definition terminated (r : string) : Prop :=
  match r with
  | EmptyString => True
  | String c _ => numeric_char c = false
  end.

(** The first character of the text of a value tells its kind. *)
Inductive kind : Type := KNull | KTrue | KFalse | KNum | KStr | KArr | KObj.

Definition kind_of (j : json) : kind :=
  match j with
  | JNull => KNull
  | JBool true => KTrue
  | JBool false => KFalse
  | JNum _ => KNum
  | JStr _ => KStr
  | JArr _ => KArr
  | JObj _ => KObj
  end.

Definition kind_of_head (s : string) : option kind :=
  match s with
  | EmptyString => None
  | String c _ =>
      if Ascii.eqb c "n" then Some KNull
      else if Ascii.eqb c "t" then Some KTrue
      else if Ascii.eqb c "f" then Some KFalse
      else if Ascii.eqb c "034" then Some KStr
      else if Ascii.eqb c "[" then Some KArr
      else if Ascii.eqb c "{" then Some KObj
      else if numeric_char c then Some KNum
      else None
  end.

(** The tails of arrays and objects, as named functions. *)
Fixpoint more_items (l : list json) : string :=
  match l with
  | [] => "]"
  | y :: l' => "," +:+ stringify y +:+ more_items l'
  end.

Fixpoint more_members (l : list (string * json)) : string :=
  match l with
  | [] => "}"
  | (k, v) :: l' => "," +:+ quote k +:+ ":" +:+ stringify v +:+ more_members l'
  end.

Fixpoint all_parsed (l : list (string * json)) : bool :=
  match l with
  | [] => true
  | (_, v) :: l' => parsed v && all_parsed l'
  end.

Definition prefix_free (j1 : json) : Prop :=
  forall j2 r1 r2,
    parsed j1 = true -> parsed j2 = true -> terminated r1 -> terminated r2 ->
    stringify j1 +:+ r1 = stringify j2 +:+ r2 -> j1 = j2 /\ r1 = r2.

Definition page_json_example : json :=
  JObj [("title", JStr "Start"); ("answers", JArr [JObj [("answer", JStr "42"); ("next", JStr "page/end")]])].

End JsonText.

(* ===================================================================== *)
(** ** Recorded state and page classification ([upload.js], determinePageStates) *)
(* ===================================================================== *)

(** The content of a [{page}.meta] file, as far as the script reads and
    writes it.  [readPageMeta] delivers [{}] for a missing file: all four
    fields absent. *)
Record PageMeta : Type := {
  pm_id : option string;
  pm_hash : option string;
  pm_is_first : option bool;
  pm_is_ending : option json;
}.

Definition emptyMeta : PageMeta :=
  {| pm_id := None; pm_hash := None; pm_is_first := None; pm_is_ending := None |}.

Module States.

(** The entries the script pushes for the abnormal states. *)
Record Incomplete : Type := {
  inc_name : string;
  inc_hasMeta : bool;
  inc_metaId : option string;
}.

Record Residual : Type := {
  res_name : string;
  res_id : option string;
  res_inPageIds : bool;
}.

Record PageStates : Type := {
  normal : list string;
  new : list string;
  json_missing : list Incomplete;
  html_missing : list Incomplete;
  orphan : list string;
  pageIds_missing : list (string * string);
  residual_meta : list Residual;
}.

Definition noStates : PageStates :=
  {| normal := []; new := []; json_missing := []; html_missing := [];
     orphan := []; pageIds_missing := []; residual_meta := [] |}.

Section Determine.
Variables htmlNames jsonNames metaNames pageIds : list string.
(** [metas]: page name to the meta object loaded for it. *)
Variable metas : gmap string PageMeta.

(** [new Set(names).has(name)] *)
Definition has (names : list string) (name : string) : bool :=
  bool_decide (name ∈ names).

(** [meta?.id] *)
Definition metaIdOf (name : string) : option string :=
  match metas !! name with
  | Some meta => pm_id meta
  | None => None
  end.

(** [metaId ? knownIds.has(metaId) : false] *)
Definition inPageIdsOf (metaId : option string) : bool :=
  match metaId with
  | Some i => Js.truthy_str i && has pageIds i
  | None => false
  end.

(** "Build ID to name mapping from metas": later names overwrite. *)
Definition idToName : gmap string string :=
  foldl (fun acc name =>
           match metaIdOf name with
           | Some i => if Js.truthy_str i then <[i := name]> acc else acc
           | None => acc
           end) ∅ metaNames.

(** [states.normal.push(name)] and its like. *)
Definition push_normal (name : string) (s : PageStates) : PageStates :=
  {| normal := normal s ++ [name]; new := new s; json_missing := json_missing s;
     html_missing := html_missing s; orphan := orphan s;
     pageIds_missing := pageIds_missing s; residual_meta := residual_meta s |}.

Definition push_new (name : string) (s : PageStates) : PageStates :=
  {| normal := normal s; new := new s ++ [name]; json_missing := json_missing s;
     html_missing := html_missing s; orphan := orphan s;
     pageIds_missing := pageIds_missing s; residual_meta := residual_meta s |}.

Definition push_json_missing (item : Incomplete) (s : PageStates) : PageStates :=
  {| normal := normal s; new := new s; json_missing := json_missing s ++ [item];
     html_missing := html_missing s; orphan := orphan s;
     pageIds_missing := pageIds_missing s; residual_meta := residual_meta s |}.

Definition push_html_missing (item : Incomplete) (s : PageStates) : PageStates :=
  {| normal := normal s; new := new s; json_missing := json_missing s;
     html_missing := html_missing s ++ [item]; orphan := orphan s;
     pageIds_missing := pageIds_missing s; residual_meta := residual_meta s |}.

Definition push_orphan (i : string) (s : PageStates) : PageStates :=
  {| normal := normal s; new := new s; json_missing := json_missing s;
     html_missing := html_missing s; orphan := orphan s ++ [i];
     pageIds_missing := pageIds_missing s; residual_meta := residual_meta s |}.

Definition push_pageIds_missing (item : string * string) (s : PageStates) : PageStates :=
  {| normal := normal s; new := new s; json_missing := json_missing s;
     html_missing := html_missing s; orphan := orphan s;
     pageIds_missing := pageIds_missing s ++ [item]; residual_meta := residual_meta s |}.

Definition push_residual_meta (item : Residual) (s : PageStates) : PageStates :=
  {| normal := normal s; new := new s; json_missing := json_missing s;
     html_missing := html_missing s; orphan := orphan s;
     pageIds_missing := pageIds_missing s; residual_meta := residual_meta s ++ [item] |}.

(** "Check each HTML file" *)
Definition checkHtml (states : PageStates) (name : string) : PageStates :=
  let hasJson := has jsonNames name in
  let hasMeta := has metaNames name in
  let metaId := metaIdOf name in
  let inPageIds := inPageIdsOf metaId in
  if hasJson then
    if hasMeta && Js.truthy_ostr metaId && inPageIds
    then push_normal name states
    else if negb hasMeta
    then push_new name states
    else if hasMeta && Js.truthy_ostr metaId && negb inPageIds
    then push_pageIds_missing (name, default "" metaId) states
    else states
  else
    push_json_missing
      {| inc_name := name; inc_hasMeta := hasMeta; inc_metaId := metaId |} states.

(** "Check JSON files without HTML" *)
Definition checkJson (states : PageStates) (name : string) : PageStates :=
  if negb (has htmlNames name)
  then push_html_missing
         {| inc_name := name; inc_hasMeta := has metaNames name;
            inc_metaId := metaIdOf name |} states
  else states.

(** "Check meta files without HTML and JSON" *)
Definition checkMeta (states : PageStates) (name : string) : PageStates :=
  if negb (has htmlNames name) && negb (has jsonNames name)
  then push_residual_meta
         {| res_name := name; res_id := metaIdOf name;
            res_inPageIds := inPageIdsOf (metaIdOf name) |} states
  else states.

(** "Check pageIds without meta (orphan IDs)": [!idToName[id]] also holds
    when the recorded name is the empty string. *)
Definition checkId (states : PageStates) (i : string) : PageStates :=
  if negb (Js.truthy_ostr (idToName !! i))
  then push_orphan i states
  else states.

Definition determinePageStates : PageStates :=
  let states := foldl checkHtml noStates htmlNames in
  let states := foldl checkJson states jsonNames in
  let states := foldl checkMeta states metaNames in
  foldl checkId states pageIds.

(** *** The categories as selections (used to state the classification facts) *)

(** The conditions of the branches of "Check each HTML file"; the last is
    the case none of them takes. *)
Definition isNormal (name : string) : bool :=
  has jsonNames name && has metaNames name
  && Js.truthy_ostr (metaIdOf name) && inPageIdsOf (metaIdOf name).

Definition isNew (name : string) : bool :=
  has jsonNames name && negb (has metaNames name).

Definition isMissing (name : string) : bool :=
  has jsonNames name && has metaNames name
  && Js.truthy_ostr (metaIdOf name) && negb (inPageIdsOf (metaIdOf name)).

Definition isUnclassified (name : string) : bool :=
  has jsonNames name && has metaNames name && negb (Js.truthy_ostr (metaIdOf name)).

Definition noJson (name : string) : bool := negb (has jsonNames name).
Definition noHtml (name : string) : bool := negb (has htmlNames name).
Definition metaOnly (name : string) : bool :=
  negb (has htmlNames name) && negb (has jsonNames name).
Definition isOrphan (i : string) : bool := negb (Js.truthy_ostr (idToName !! i)).

Definition incomplete (name : string) : Incomplete :=
  {| inc_name := name; inc_hasMeta := has metaNames name; inc_metaId := metaIdOf name |}.
Definition missing (name : string) : string * string :=
  (name, default "" (metaIdOf name)).
Definition residual (name : string) : Residual :=
  {| res_name := name; res_id := metaIdOf name;
     res_inPageIds := inPageIdsOf (metaIdOf name) |}.

End Determine.

(** The page names the categories hold. *)
Definition names_of (states : PageStates) : list string :=
  normal states ++ new states ++ (inc_name <$> json_missing states)
  ++ (inc_name <$> html_missing states) ++ (pageIds_missing states).*1
  ++ (res_name <$> residual_meta states).

End States.

(* ===================================================================== *)
(** ** More of JavaScript: string measures and objects used as dictionaries *)
(* ===================================================================== *)

Module JsString.

(** [s.length] counts UTF-16 code units: one per character of the basic
    plane, two per character beyond it (a four-byte UTF-8 sequence). *)
Fixpoint utf16_length (s : string) : nat :=
  match s with
  | EmptyString => 0
  | String c s' =>
      let n := N_of_ascii c in
      (if (n <? 128)%N then 1
       else if (n <? 192)%N then 0
       else if (n <? 240)%N then 1
       else 2) + utf16_length s'
  end.

(** The three-byte UTF-8 sequences of WhiteSpace and LineTerminator:
    U+1680, U+2000..U+200A, U+2028, U+2029, U+202F, U+205F, U+3000,
    U+FEFF. *)
Definition space3 (a b c : N) : bool :=
  ((a =? 225) && (b =? 154) && (c =? 128))%N
  || ((a =? 226) && (b =? 128)
      && (((128 <=? c) && (c <=? 138)) || (c =? 168) || (c =? 169) || (c =? 175)))%N
  || ((a =? 226) && (b =? 129) && (c =? 159))%N
  || ((a =? 227) && (b =? 128) && (c =? 128))%N
  || ((a =? 239) && (b =? 187) && (c =? 191))%N.

(** [s.trim() === '']: every character is white space. *)
Fixpoint blank (s : string) : bool :=
  match s with
  | EmptyString => true
  | String c1 r1 =>
      let n1 := N_of_ascii c1 in
      if (((9 <=? n1) && (n1 <=? 13)) || (n1 =? 32))%N then blank r1
      else
        match r1 with
        | EmptyString => false
        | String c2 r2 =>
            let n2 := N_of_ascii c2 in
            if ((n1 =? 194) && (n2 =? 160))%N then blank r2
            else
              match r2 with
              | EmptyString => false
              | String c3 r3 =>
                  if space3 n1 n2 (N_of_ascii c3) then blank r3 else false
              end
        end
  end.

(** The value of a string of decimal digits, [None] for any other string. *)
Fixpoint digits_value (s : string) (acc : N) : option N :=
  match s with
  | EmptyString => Some acc
  | String c s' =>
      let n := N_of_ascii c in
      if ((48 <=? n) && (n <=? 57))%N
      then digits_value s' (10 * acc + (n - 48))%N
      else None
  end.

(** An array index: the canonical decimal text of an integer below
    2^32 - 1.  Such property keys are enumerated first, in numeric order. *)
Definition array_index (key : string) : option N :=
  match key with
  | EmptyString => None
  | String c rest =>
      if Ascii.eqb c "0" && Js.truthy_str rest then None
      else
        match digits_value key 0 with
        | Some n => if (String.length key <=? 10)%nat && (n <? 4294967295)%N
                    then Some n else None
        | None => None
        end
  end.

End JsString.

(** An object used as a dictionary: own string-keyed properties in the
    order of their creation.  (The members of [Object.prototype] are left
    out: the keys of these dictionaries are page names that passed
    validation against the page inventory, site-assigned numeric ids and
    file paths.) *)
Module JsObject.
Section Obj.
Context {V : Type}.

Definition obj : Type := list (string * V).

(** [o[key]] *)
Fixpoint get (key : string) (o : obj) : option V :=
  match o with
  | [] => None
  | (k, v) :: o' => if String.eqb key k then Some v else get key o'
  end.

(** [o[key] = v]: an existing property keeps its place. *)
Fixpoint set (key : string) (v : V) (o : obj) : obj :=
  match o with
  | [] => [(key, v)]
  | (k, v') :: o' =>
      if String.eqb key k then (k, v) :: o' else (k, v') :: set key v o'
  end.

Definition is_index (kv : string * V) : bool :=
  match JsString.array_index kv.1 with Some _ => true | None => false end.

Definition index_le (a b : string * V) : Prop :=
  (default 0 (JsString.array_index a.1) <= default 0 (JsString.array_index b.1))%N.

#[local] Instance index_le_dec : RelDecision index_le.
Proof. intros a b. unfold index_le. apply _. Defined.

(** [Object.entries(o)]: array indices in ascending numeric order, then
    the other keys in the order of their creation. *)
Definition entries (o : obj) : list (string * V) :=
  merge_sort index_le (List.filter is_index o)
  ++ List.filter (fun kv => negb (is_index kv)) o.

(** [Object.keys(o)] *)
Definition keys (o : obj) : list string := (entries o).*1.

End Obj.
Arguments obj V : clear implicits.
End JsObject.

(* ===================================================================== *)
(** ** Page validation ([upload.js], validatePageJson and validateAllPages) *)
(* ===================================================================== *)

Module Validate.
Import Json.

(** [String(v)], as a template literal and [RegExp.prototype.test]
    coerce a value. *)
Fixpoint toString (j : json) : string :=
  match j with
  | JNull => "null"
  | JBool true => "true"
  | JBool false => "false"
  | JNum literal => literal
  | JStr s => s
  | JArr items =>
      (fix join (l : list json) : string :=
         match l with
         | [] => ""
         | [x] => match x with JNull => "" | _ => toString x end
         | x :: l' =>
             match x with JNull => "" | _ => toString x end +:+ "," +:+ join l'
         end) items
  | JObj _ => "[object Object]"
  end.

Definition hex_char (c : ascii) : bool :=
  let n := N_of_ascii c in
  (((48 <=? n) && (n <=? 57)) || ((65 <=? n) && (n <=? 70))
   || ((97 <=? n) && (n <=? 102)))%N.

(** [/^#[0-9a-fA-F]{6}$/.test(s)] *)
Definition background_color_pattern (s : string) : bool :=
  match s with
  | String c0 (String c1 (String c2 (String c3 (String c4 (String c5 (String c6 EmptyString)))))) =>
      Ascii.eqb c0 "#" && hex_char c1 && hex_char c2 && hex_char c3
      && hex_char c4 && hex_char c5 && hex_char c6
  | _ => false
  end.

(** PAGE_VALIDATION *)
Definition title_maxLength : nat := 100.
Definition header_display_allowedValues : list string :=
  ["labyrinth_title"; "page_title"; "none"].

(** [allPageNames.includes(v)]: only a string can be found. *)
Definition includes_value (names : list string) (v : json) : bool :=
  match v with
  | JStr s => bool_decide (s ∈ names)
  | _ => false
  end.

(** A property the script calls [.trim()] on once it is truthy. *)
Inductive text : Type :=
| Falsy                      (* absent, or a falsy value *)
| Text (s : string)
| NotText.                   (* a truthy value without [.trim] *)

Definition text_prop (key : string) (j : json) : text :=
  match prop key j with
  | None => Falsy
  | Some (JStr s) => if Js.truthy_str s then Text s else Falsy
  | Some v => if truthy v then NotText else Falsy
  end.

Definition typeError (what : string) : thrown := Err ("TypeError: " +:+ what).

Section Page.
Variable pageName : string.
Variable allPageNames : list string.

Definition tag (message : string) : string := "[" +:+ pageName +:+ "] " +:+ message.

(** One turn of the loop over [pageData.answers]; [errors] is the array
    both checks push to. *)
Definition validateAnswer (errors : list string) (i : nat) (ans : json)
    : res (list string) :=
  match ans with
  | JNull => Throw (typeError "Cannot read properties of null (reading 'answer')")
  | _ =>
      let next_check (errors : list string) : list string :=
        match prop "next" ans with
        | Some next =>
            if truthy next && negb (includes_value allPageNames next)
            then errors ++
                 [ tag ("answers[" +:+ Js.dec i
                        +:+ "].next가 존재하지 않는 페이지를 참조합니다: "
                        +:+ Js.dq +:+ toString next +:+ Js.dq) ]
            else errors
        | None => errors
        end in
      let empty := tag ("answers[" +:+ Js.dec i +:+ "].answer가 비어있습니다.") in
      match text_prop "answer" ans with
      | Falsy => Ok (next_check (errors ++ [empty]))
      | Text s => Ok (next_check (if JsString.blank s then errors ++ [empty] else errors))
      | NotText => Throw (typeError "ans.answer.trim is not a function")
      end
  end.

Fixpoint validateAnswers (errors : list string) (i : nat) (answers : list json)
    : res (list string) :=
  match answers with
  | [] => Ok errors
  | ans :: rest =>
      match validateAnswer errors i ans with
      | Ok errors' => validateAnswers errors' (S i) rest
      | Throw e => Throw e
      | Exit c => Exit c
      end
  end.

(** [validatePageJson(pageName, pageData, allPageNames)]: the errors and
    the warnings, or the TypeError a wrongly typed field raises. *)
Definition validatePageJson (pageData : json) : res (list string * list string) :=
  (* Required: title *)
  match
    match text_prop "title" pageData with
    | Falsy => Ok [tag "title 필드가 필요합니다."]
    | Text s =>
        if JsString.blank s then Ok [tag "title 필드가 필요합니다."]
        else if (title_maxLength <? JsString.utf16_length s)%nat
        then Ok [tag ("title이 " +:+ Js.dec title_maxLength +:+ "자를 초과합니다.")]
        else Ok []
    | NotText => Throw (typeError "pageData.title.trim is not a function")
    end
  with
  | Throw e => Throw e
  | Exit c => Exit c
  | Ok errors =>
      (* background_color format *)
      let errors :=
        match prop "background_color" pageData with
        | Some color =>
            if truthy color && negb (background_color_pattern (toString color))
            then errors ++
                 [ tag ("background_color 형식이 잘못되었습니다: " +:+ toString color
                        +:+ " (예: #000000)") ]
            else errors
        | None => errors
        end in
      (* header_display valid values *)
      let warnings :=
        match prop "header_display" pageData with
        | Some display =>
            if truthy display
               && negb (includes_value header_display_allowedValues display)
            then [ tag ("header_display 값이 잘못되었습니다: " +:+ toString display
                        +:+ " (허용: labyrinth_title, page_title, none)") ]
            else []
        | None => []
        end in
      (* Validate answers *)
      match
        match prop "answers" pageData with
        | Some (JArr answers) => validateAnswers errors 0 answers
        | _ => Ok errors
        end
      with
      | Throw e => Throw e
      | Exit c => Exit c
      | Ok errors =>
          (* is_ending validation *)
          let warnings :=
            match prop "is_ending" pageData with
            | Some (JBool _) | None => warnings
            | Some _ => warnings ++ [tag "is_ending은 true/false여야 합니다."]
            end in
          Ok (errors, warnings)
      end
  end.

End Page.

(** [validateAllPages(pages)] over the entries [(name, pageInfo.json)] of
    the [pages] object, in enumeration order. *)
Fixpoint validateEach (allPageNames : list string) (entries : list (string * json))
    (allErrors allWarnings : list string) : res (list string * list string) :=
  match entries with
  | [] => Ok (allErrors, allWarnings)
  | (name, json) :: rest =>
      match validatePageJson name allPageNames json with
      | Ok (errors, warnings) =>
          validateEach allPageNames rest (allErrors ++ errors) (allWarnings ++ warnings)
      | Throw e => Throw e
      | Exit c => Exit c
      end
  end.

Definition validateAllPages (entries : list (string * json))
    : res (list string * list string) :=
  validateEach entries.*1 entries [] [].

End Validate.

(** The reads of page metadata the phases of [main] share. *)
Module PageData.
Import Json.

(** [x || fallback] on a property that may be absent. *)
Definition or_else (x : option json) (fallback : json) : json :=
  match x with
  | Some v => if truthy v then v else fallback
  | None => fallback
  end.

(** [pageData.answers || []], to be iterated. *)
Definition answersOf (pageData : json) : res (list json) :=
  match prop "answers" pageData with
  | Some (JArr items) => Ok items
  | Some v =>
      if truthy v then Throw (Validate.typeError "answers is not iterable") else Ok []
  | None => Ok []
  end.

(** [ans.explanation || ''], on which [.includes] is called. *)
Definition explanationOf (ans : json) : res string :=
  match ans with
  | JNull =>
      Throw (Validate.typeError "Cannot read properties of null (reading 'explanation')")
  | _ =>
      match prop "explanation" ans with
      | Some (JStr s) => Ok s
      | Some v =>
          if truthy v
          then Throw (Validate.typeError "explanationHtml.includes is not a function")
          else Ok ""
      | None => Ok ""
      end
  end.

(** [config.first_page || config.start_page || null] *)
Definition firstPageOf (config : json) : option json :=
  match prop "first_page" config with
  | Some v => if truthy v then Some v else
                match prop "start_page" config with
                | Some v' => if truthy v' then Some v' else None
                | None => None
                end
  | None =>
      match prop "start_page" config with
      | Some v' => if truthy v' then Some v' else None
      | None => None
      end
  end.

(** [firstPage === name] *)
Definition is_first (firstPage : option json) (name : string) : bool :=
  match firstPage with
  | Some (JStr s) => String.eqb s name
  | _ => false
  end.

End PageData.

(* ===================================================================== *)
(** ** The content tree, the remote site and the world of a run            *)
(* ===================================================================== *)

(** The content of [labyrinth.meta]. *)
Record LabyMeta : Type := {
  lm_id : option string;
  lm_hash : option string;
  lm_images : option (gmap string string);   (* checksum to uploaded URL *)
  lm_pageIds : option (list string);
}.

Definition emptyLabyMeta : LabyMeta :=
  {| lm_id := None; lm_hash := None; lm_images := None; lm_pageIds := None |}.

(** The content folder.  Page files are keyed by the page name (the path
    below the folder without its extension); [assets] holds the bytes of
    the image files by their resolved path. *)
Record Disk : Type := {
  config : json;                           (* labyrinth.json *)
  labyMetaFile : option LabyMeta;          (* labyrinth.meta *)
  htmlFiles : gmap string string;          (* {page}.html *)
  jsonFiles : gmap string json;            (* {page}.json *)
  metaFiles : gmap string PageMeta;        (* {page}.meta *)
  assets : gmap string string;
}.

Definition set_labyMetaFile (m : option LabyMeta) (d : Disk) : Disk :=
  {| config := config d; labyMetaFile := m; htmlFiles := htmlFiles d;
     jsonFiles := jsonFiles d; metaFiles := metaFiles d; assets := assets d |}.

Definition set_metaFiles (m : gmap string PageMeta) (d : Disk) : Disk :=
  {| config := config d; labyMetaFile := labyMetaFile d; htmlFiles := htmlFiles d;
     jsonFiles := jsonFiles d; metaFiles := m; assets := assets d |}.

(** The argument of [fillPageForm]. *)
Record FormData : Type := {
  fd_title : option json;
  fd_bgColor : json;
  fd_isFirst : bool;
  fd_isEnding : json;
  fd_hasAnswers : bool;
  fd_hint : json;
  fd_hint_enabled : json;
  fd_content : string;
}.

(** The operations of the browser layer the script awaits.  Each stands
    for the whole of the function of [src/login.js], [src/labyrinth.js],
    [src/page.js] or [src/image.js] of that name: a single round trip that
    answers a value or raises. *)
Inductive Call : Type :=
| Login
| CreateLabyrinth (config : json)
| UpdateLabyrinth (labyrinthId : string) (config : json)
| DeletePage (labyrinthId pageId : string)
| NavigateToCreatePage (labyrinthId : string)
| NavigateToEditPage (labyrinthId pageId : string)
| UploadImage (imagePath : string)
| FillPageForm (data : FormData)
| AddAnswer (answer : option json) (isPublic : json) (explanation : string)
| ClearAnswers
| SubmitPageForm (labyrinthId : option string) (pageTitle : option json)
| ClearParentConnections
| SetParentConnection (parentPageId : string) (answerIndex : nat)
| SetEditorContent (html : string)
| Logout.

(** What a call answers. *)
Inductive value : Type :=
| VNone                      (* undefined or null *)
| VBool (b : bool)
| VStr (s : string).

Inductive reply : Type :=
| Returned (v : value)
| Raised (message : string).

Definition truthy_value (v : value) : bool :=
  match v with
  | VNone => false
  | VBool b => b
  | VStr s => Js.truthy_str s
  end.

(** A truthy answer read as an id or a URL.  Where the script expects
    one, the function it calls answers a string or [null]; an answer of
    another kind counts as none. *)
Definition value_string (v : value) : option string :=
  match v with
  | VStr s => if Js.truthy_str s then Some s else None
  | _ => None
  end.

(** What a run leaves in its trace: every call with what the site
    answered, and every delay. *)
Inductive Event : Type :=
| Called (c : Call) (r : reply)
| Waited (ms : nat).

(** The calls that change pages or assets on the site. *)
Definition page_mutation (c : Call) : bool :=
  match c with
  | DeletePage _ _ | NavigateToCreatePage _ | NavigateToEditPage _ _
  | UploadImage _ | FillPageForm _ | AddAnswer _ _ _ | ClearAnswers
  | SubmitPageForm _ _ | ClearParentConnections | SetParentConnection _ _
  | SetEditorContent _ => true
  | Login | CreateLabyrinth _ | UpdateLabyrinth _ _ | Logout => false
  end.

(** Every call but opening and closing the session. *)
Definition remote_mutation (c : Call) : bool :=
  match c with
  | Login | Logout => false
  | _ => true
  end.

Definition calls (trace : list Event) : list Call :=
  omap (fun e => match e with Called c _ => Some c | Waited _ => None end) trace.

(** The calls the site answered with a value. *)
Definition answered (trace : list Event) : list (Call * value) :=
  omap (fun e => match e with
                 | Called c (Returned v) => Some (c, v)
                 | _ => None
                 end) trace.

Section World.
(** The state of the remote site. *)
Context {R : Type}.

Record World : Type := {
  remote : R;
  trace : list Event;
  disk : Disk;
  stderr : list string;              (* the lines of [log.error] and [log.fail] *)
}.

(** How the site answers a call. *)
Variable site : Call -> R -> reply * R.

Definition call (c : Call) : M World value :=
  fun w =>
    let (r, remote') := site c (remote w) in
    let w' := {| remote := remote'; trace := trace w ++ [Called c r];
                 disk := disk w; stderr := stderr w |} in
    match r with
    | Returned v => (Ok v, w')
    | Raised message => (Throw (Err message), w')
    end.

(** [await new Promise(r => setTimeout(r, ms))] *)
Definition sleep (ms : nat) : M World unit :=
  modify (fun w => {| remote := remote w; trace := trace w ++ [Waited ms];
                      disk := disk w; stderr := stderr w |}).

(** [log.error(line)], [log.fail(line)] *)
Definition logError (line : string) : M World unit :=
  modify (fun w => {| remote := remote w; trace := trace w; disk := disk w;
                      stderr := stderr w ++ [line] |}).

Definition readDisk : M World Disk := fun w => (Ok (disk w), w).

Definition writeDisk (f : Disk -> Disk) : M World unit :=
  modify (fun w => {| remote := remote w; trace := trace w; disk := f (disk w);
                      stderr := stderr w |}).

(** [fs.writeFileSync(metaPath, JSON.stringify(labyMeta, null, 4))] *)
Definition writeLabyMeta (labyMeta : LabyMeta) : M World unit :=
  writeDisk (set_labyMetaFile (Some labyMeta)).

(** [writePageMeta(contentPath, pagePath, meta)] *)
Definition writePageMeta (name : string) (meta : PageMeta) : M World unit :=
  writeDisk (fun d => set_metaFiles (<[name := meta]> (metaFiles d)) d).

(** [deletePageMeta(contentPath, pagePath)] *)
Definition deletePageMeta (name : string) : M World unit :=
  writeDisk (fun d => set_metaFiles (delete name (metaFiles d)) d).

(** [withRetry(() => c, description)] with the default number of attempts. *)
Definition retried (c : Call) : M World value :=
  Retry.withRetry sleep (call c) Retry.maxRetries.

Definition lift {A} (r : res A) : M World A := fun w => (r, w).

(** A computation on the files alone, given by the lines it logs and its
    result. *)
Definition emit {A} (l : list string * res A) : M World A :=
  bind (for_each l.1 logError) (fun _ => lift l.2).

End World.
Arguments World R : clear implicits.

(** The directory scans.  The order in which [readdirSync] lists a
    directory is left to the file system; the model lists the names in the
    order of the map. *)
Definition findPageHtmlFiles (d : Disk) : list string := (map_to_list (htmlFiles d)).*1.
Definition findPageJsonFiles (d : Disk) : list string := (map_to_list (jsonFiles d)).*1.
Definition findPageMetaFiles (d : Disk) : list string := (map_to_list (metaFiles d)).*1.

(** [readPageMeta]: [{}] for a missing file. *)
Definition readPageMeta (d : Disk) (name : string) : PageMeta :=
  default emptyMeta (metaFiles d !! name).

(* ===================================================================== *)
(** ** Hashes of the labyrinth, local images and the upload cache          *)
(* ===================================================================== *)

Module Laby.
Import Json.

(** LABYRINTH_DEFAULTS ([src/labyrinth.js]) *)
Definition LABYRINTH_DEFAULTS : list (string * json) :=
  [ ("title", JStr ""); ("image", JStr ""); ("description", JStr "");
    ("tags", JArr []);
    ("is_event", JBool false); ("allow_rating", JBool true);
    ("rating_threshold", JNum "1"); ("show_difficulty", JBool true);
    ("show_page_count", JBool false); ("show_ending_count", JBool false);
    ("show_badend_count", JBool false); ("clear_visibility", JStr "full");
    ("show_answer_rate", JBool false); ("block_right_click", JBool false);
    ("login_required", JBool false);
    ("start_page", JStr "") ].

(** [{ ...LABYRINTH_DEFAULTS, ...config }] *)
Definition normalizeConfig (config : json) : list (string * json) :=
  match config with
  | JObj members =>
      foldl (fun acc kv => JsObject.set kv.1 kv.2 acc) LABYRINTH_DEFAULTS members
  | _ => LABYRINTH_DEFAULTS
  end.

Section Hash.
(** [path.join(labyPath, image)] *)
Variable joinContentPath : string -> string.

(** [computeLabyrinthHash(config, labyPath)] against the image files
    [assets]. *)
Definition computeLabyrinthHash (config : json) (assets : gmap string string)
    : res string :=
  let normalized := normalizeConfig config in
  let digest (members : list (string * json)) : string :=
    Md5.md5 (stringify (JObj (JsObject.entries members))) in
  match JsObject.get "image" normalized with
  | Some (JStr image) =>
      if Js.truthy_str image then
        match assets !! joinContentPath image with
        | Some bytes =>
            Ok (digest (JsObject.set "_image_hash" (JStr (Md5.md5 bytes)) normalized))
        | None => Ok (digest normalized)
        end
      else Ok (digest normalized)
  | Some v =>
      if truthy v
      then Throw (Err "TypeError: The path argument must be of type string")
      else Ok (digest normalized)
  | None => Ok (digest normalized)
  end.

End Hash.
End Laby.

Module Images.

(** [[...new Set(l)]]: first occurrences, in order. *)
Fixpoint uniq (l : list string) : list string :=
  match l with
  | [] => []
  | x :: l' => x :: List.filter (fun y => negb (String.eqb x y)) (uniq l')
  end.

(** [path.basename(p)] for a POSIX path without a trailing slash. *)
Fixpoint basename_from (p : string) (current : string) : string :=
  match p with
  | EmptyString => String.rev current
  | String c p' =>
      if Ascii.eqb c "/" then basename_from p' EmptyString
      else basename_from p' (String c current)
  end.

Definition basename (p : string) : string := basename_from p EmptyString.

(** [url.startsWith('/') ? `https://www.thelabyrinth.co.kr${url}` : url] *)
Definition fullUrl (url : string) : string :=
  match url with
  | String c _ =>
      if Ascii.eqb c "/" then "https://www.thelabyrinth.co.kr" +:+ url else url
  | EmptyString => url
  end.

(** [updatedCache[checksum]] when truthy. *)
Definition cached (cache : gmap string string) (checksum : string) : option string :=
  match cache !! checksum with
  | Some url => if Js.truthy_str url then Some url else None
  | None => None
  end.

(** A computation on the files alone: the lines it logs with
    [log.error], and its result. *)
Definition logged (A : Type) : Type := (list string * res A)%type.

Definition logged_bind {A B} (m : logged A) (k : A -> logged B) : logged B :=
  match m.2 with
  | Ok a => (m.1 ++ (k a).1, (k a).2)
  | Throw e => (m.1, Throw e)
  | Exit c => (m.1, Exit c)
  end.

Section Scan.
(** The image references the two regular expressions of
    [findLocalImages] match in [html], in match order and without those
    that are URLs already: the text matched and the path it resolves to
    from the directory of the page [name]. *)
Variable imageRefs : string -> string -> list (string * string).
(** The image files of the content folder. *)
Variable assets : gmap string string.

(** [findLocalImages(html, pageDir, contentPath)] for the page [name]. *)
Definition scan (name html : string) : logged (list string) :=
  let refs := imageRefs name html in
  let images := List.filter (fun r => bool_decide (is_Some (assets !! r.2))) refs in
  let notFound := List.filter (fun r => negb (bool_decide (is_Some (assets !! r.2)))) refs in
  match notFound with
  | [] => ([], Ok (uniq images.*2))
  | _ =>
      ("이미지 파일을 찾을 수 없습니다:"
         :: concat ((fun r : string * string =>
                       ["  - " +:+ r.1; "    (resolved: " +:+ r.2 +:+ ")"]) <$> notFound),
       Throw (Err (Js.dec (length notFound) +:+ "개의 이미지 파일을 찾을 수 없습니다.")))
  end.

(** [calculateChecksum(filePath)] ([src/image.js]) *)
Definition checksum (filePath : string) : res string :=
  match assets !! filePath with
  | Some bytes => Ok (Md5.md5 bytes)
  | None => Throw (Err ("ENOENT: no such file or directory, open '" +:+ filePath +:+ "'"))
  end.

(** [imgPaths.map(imgPath => calculateChecksum(imgPath))] *)
Fixpoint checksums (imgPaths : list string) : res (list string) :=
  match imgPaths with
  | [] => Ok []
  | p :: rest =>
      match checksum p with
      | Ok sum =>
          match checksums rest with
          | Ok sums => Ok (sum :: sums)
          | Throw e => Throw e
          | Exit c => Exit c
          end
      | Throw e => Throw e
      | Exit c => Exit c
      end
  end.

(** "Also include explanation images in checksums": a failing scan of an
    explanation is caught and ignored. *)
Fixpoint explanationScan (name : string) (localImages : list string)
    (answers : list json) : logged (list string) :=
  match answers with
  | [] => ([], Ok localImages)
  | ans :: rest =>
      match PageData.explanationOf ans with
      | Ok explanation =>
          if Js.truthy_str explanation && Js.includes "<" explanation then
            let found := scan name explanation in
            logged_bind
              (found.1, match found.2 with
                        | Ok explImages => Ok (localImages ++ explImages)
                        | Throw _ => Ok localImages
                        | Exit c => Exit c
                        end)
              (fun localImages => explanationScan name localImages rest)
          else explanationScan name localImages rest
      | Throw e => ([], Throw e)
      | Exit c => ([], Exit c)
      end
  end.

(** The hash [main] stores in [pages[name].hash]: from the image scan of
    the content to [computePageHash]. *)
Definition pageHash (name html : string) (json : json) : logged string :=
  logged_bind (scan name html) (fun localImages =>
  logged_bind ([], PageData.answersOf json) (fun answers =>
  logged_bind (explanationScan name localImages answers) (fun localImages =>
  logged_bind ([], checksums (uniq localImages)) (fun imageChecksums =>
  ([], Ok (Hash.computePageHash html json imageChecksums)))))).

End Scan.

Section Images.
Context {R : Type}.
Variable site : Call -> R -> reply * R.
Variable imageRefs : string -> string -> list (string * string).

Definition calculateChecksum (filePath : string) : M (World R) string :=
  (let* d := readDisk in lift (checksum (assets d) filePath))%run.

Definition findLocalImages (name html : string) : M (World R) (list string) :=
  (let* d := readDisk in emit (scan imageRefs (assets d) name html))%run.

(** The loop-carried variables of [uploadNewImages]. *)
Definition uploadState : Type := (gmap string string * JsObject.obj string)%type.

(** One turn of the loop of [uploadNewImages]. *)
Definition uploadOne (st : uploadState) (imagePath : string) : M (World R) uploadState :=
  (let '(updatedCache, pathMap) := st in
   let* checksum := calculateChecksum imagePath in
   match cached updatedCache checksum with
   | Some url => ret (updatedCache, JsObject.set imagePath url pathMap)
   | None =>
       let* url := retried site (UploadImage imagePath) in
       let* st' :=
         match value_string url with
         | Some url =>
             ret (<[checksum := fullUrl url]> updatedCache,
                  JsObject.set imagePath (fullUrl url) pathMap)
         | None =>
             do* logError ("    [이미지] 실패: " +:+ basename imagePath) in
             ret (updatedCache, pathMap)
         end in
       do* sleep 50 in
       ret st'
   end)%run.

(** [uploadNewImages(browser, page, imagePaths, imageCache)]: the updated
    cache and the map from local path to URL. *)
Definition uploadNewImages (imagePaths : list string) (imageCache : gmap string string)
    : M (World R) uploadState :=
  fold_each imagePaths uploadOne (imageCache, []).

End Images.
End Images.

(* ===================================================================== *)
(** ** The run ([upload.js], main)                                          *)
(* ===================================================================== *)

Module Main.
Import Json States PageData Images.

(** An entry of the [pages] object. *)
Record PageInfo : Type := {
  pi_html : string;
  pi_json : json;
  pi_meta : PageMeta;
  pi_hash : string;
  pi_finalHtml : option string;
}.

Definition set_meta (meta : PageMeta) (p : PageInfo) : PageInfo :=
  {| pi_html := pi_html p; pi_json := pi_json p; pi_meta := meta;
     pi_hash := pi_hash p; pi_finalHtml := pi_finalHtml p |}.

Definition set_finalHtml (html : string) (p : PageInfo) : PageInfo :=
  {| pi_html := pi_html p; pi_json := pi_json p; pi_meta := pi_meta p;
     pi_hash := pi_hash p; pi_finalHtml := Some html |}.

(** [counts], the counters of the final summary. *)
Record Counts : Type := {
  deleted : nat;
  created : nat;
  updated : nat;
  connected : nat;
  failures_image : nat;
  failures_page : nat;
  failures_connect : nat;
}.

Definition noCounts : Counts :=
  {| deleted := 0; created := 0; updated := 0; connected := 0;
     failures_image := 0; failures_page := 0; failures_connect := 0 |}.

Definition count_deleted (c : Counts) : Counts :=
  {| deleted := S (deleted c); created := created c; updated := updated c;
     connected := connected c; failures_image := failures_image c;
     failures_page := failures_page c; failures_connect := failures_connect c |}.

Definition count_created (c : Counts) : Counts :=
  {| deleted := deleted c; created := S (created c); updated := updated c;
     connected := connected c; failures_image := failures_image c;
     failures_page := failures_page c; failures_connect := failures_connect c |}.

Definition count_updated (c : Counts) : Counts :=
  {| deleted := deleted c; created := created c; updated := S (updated c);
     connected := connected c; failures_image := failures_image c;
     failures_page := failures_page c; failures_connect := failures_connect c |}.

Definition count_connected (c : Counts) : Counts :=
  {| deleted := deleted c; created := created c; updated := updated c;
     connected := S (connected c); failures_image := failures_image c;
     failures_page := failures_page c; failures_connect := failures_connect c |}.

Definition count_page_failure (c : Counts) : Counts :=
  {| deleted := deleted c; created := created c; updated := updated c;
     connected := connected c; failures_image := failures_image c;
     failures_page := S (failures_page c); failures_connect := failures_connect c |}.

Definition count_connect_failure (c : Counts) : Counts :=
  {| deleted := deleted c; created := created c; updated := updated c;
     connected := connected c; failures_image := failures_image c;
     failures_page := failures_page c; failures_connect := S (failures_connect c) |}.

(** The variables of [main] that the phases read and assign.  [aliased]
    tells whether the array [pageIds] is the very array [labyMeta.pageIds]
    holds, so that a [push] to the one shows in the other. *)
Record Vars : Type := {
  labyMeta : LabyMeta;
  imageCache : gmap string string;
  pageIds : list string;
  aliased : bool;
  pages : JsObject.obj PageInfo;
  counts : Counts;
}.

(** [labyMeta] as [JSON.stringify] sees it. *)
Definition labyMeta_now (v : Vars) : LabyMeta :=
  {| lm_id := lm_id (labyMeta v); lm_hash := lm_hash (labyMeta v);
     lm_images := lm_images (labyMeta v);
     lm_pageIds := if aliased v then Some (pageIds v) else lm_pageIds (labyMeta v) |}.

(** [pageIds = pageIds.filter(id => id !== pageId)]: a new array; the old
    one stays with [labyMeta]. *)
Definition filter_pageIds (pageId : string) (v : Vars) : Vars :=
  {| labyMeta := labyMeta_now v; imageCache := imageCache v;
     pageIds := List.filter (fun i => negb (String.eqb i pageId)) (pageIds v);
     aliased := false; pages := pages v; counts := counts v |}.

(** [if (!pageIds.includes(pageId)) pageIds.push(pageId)] *)
Definition push_pageId (pageId : string) (v : Vars) : Vars :=
  {| labyMeta := labyMeta v; imageCache := imageCache v;
     pageIds := if bool_decide (pageId ∈ pageIds v) then pageIds v
                else pageIds v ++ [pageId];
     aliased := aliased v; pages := pages v; counts := counts v |}.

(** [labyMeta.pageIds = pageIds] *)
Definition assign_pageIds (v : Vars) : Vars :=
  {| labyMeta := labyMeta v; imageCache := imageCache v; pageIds := pageIds v;
     aliased := true; pages := pages v; counts := counts v |}.

(** [imageCache = newCache; labyMeta.images = imageCache] *)
Definition assign_images (newCache : gmap string string) (v : Vars) : Vars :=
  {| labyMeta := {| lm_id := lm_id (labyMeta v); lm_hash := lm_hash (labyMeta v);
                    lm_images := Some newCache;
                    lm_pageIds := lm_pageIds (labyMeta v) |};
     imageCache := newCache; pageIds := pageIds v; aliased := aliased v;
     pages := pages v; counts := counts v |}.

Definition set_pages (p : JsObject.obj PageInfo) (v : Vars) : Vars :=
  {| labyMeta := labyMeta v; imageCache := imageCache v; pageIds := pageIds v;
     aliased := aliased v; pages := p; counts := counts v |}.

Definition set_counts (f : Counts -> Counts) (v : Vars) : Vars :=
  {| labyMeta := labyMeta v; imageCache := imageCache v; pageIds := pageIds v;
     aliased := aliased v; pages := pages v; counts := f (counts v) |}.

(** What the planning part of [main] hands to the phases. *)
Record Plan : Type := {
  newPages : list string;
  updatedPages : list string;
  unchangedPages : list string;
  allPagesToDelete : list string;
  metasToDelete : list string;
}.

(** An entry of [connections[targetPageId]]. *)
Record Source : Type := {
  fromPageId : string;
  answerIndex : nat;
  fromName : string;
  src_answer : option json;
}.

Definition undefinedPage (reading : string) : thrown :=
  Validate.typeError ("Cannot read properties of undefined (reading '" +:+ reading +:+ "')").

(** "Normal pages: check if content changed" *)
Fixpoint splitNormal (pages : JsObject.obj PageInfo) (normal : list string)
    (updatedPages unchangedPages : list string) : res (list string * list string) :=
  match normal with
  | [] => Ok (updatedPages, unchangedPages)
  | name :: rest =>
      match JsObject.get name pages with
      | None => Throw (undefinedPage "meta")
      | Some pageInfo =>
          if bool_decide (pm_hash (pi_meta pageInfo) = Some (pi_hash pageInfo))
          then splitNormal pages rest updatedPages (unchangedPages ++ [name])
          else splitNormal pages rest (updatedPages ++ [name]) unchangedPages
      end
  end.

(** "Pages to delete before recreate": the meta of each such page is
    reset to [{}]. *)
Fixpoint resetMissing (pages : JsObject.obj PageInfo) (missing : list (string * string))
    : res (JsObject.obj PageInfo) :=
  match missing with
  | [] => Ok pages
  | (name, _) :: rest =>
      match JsObject.get name pages with
      | None => Throw (undefinedPage "meta")
      | Some pageInfo => resetMissing (JsObject.set name (set_meta emptyMeta pageInfo) pages) rest
      end
  end.

(** The ids and meta files the incomplete pages schedule. *)
Definition incompleteIds (pageIds : list string) (items : list Incomplete) : list string :=
  omap (fun item =>
          if inc_hasMeta item
          then match inc_metaId item with
               | Some i => if Js.truthy_str i && bool_decide (i ∈ pageIds)
                           then Some i else None
               | None => None
               end
          else None) items.

Definition incompleteMetas (items : list Incomplete) : list string :=
  omap (fun item => if inc_hasMeta item then Some (inc_name item) else None) items.

Definition residualIds (items : list Residual) : list string :=
  omap (fun item =>
          match res_id item with
          | Some i => if Js.truthy_str i && res_inPageIds item then Some i else None
          | None => None
          end) items.

(** "Categorize pages for processing" up to "Meta files to clean up". *)
Definition makePlan (states : PageStates) (pageIds : list string)
    (pages : JsObject.obj PageInfo) : res (Plan * JsObject.obj PageInfo) :=
  match splitNormal pages (normal states) [] [] with
  | Throw e => Throw e
  | Exit c => Exit c
  | Ok (updatedPages, unchangedPages) =>
      match resetMissing pages (pageIds_missing states) with
      | Throw e => Throw e
      | Exit c => Exit c
      | Ok pages' =>
          let pagesToDeleteBeforeRecreate := (pageIds_missing states).*2 in
          let pagesToDelete :=
            orphan states ++ residualIds (residual_meta states)
            ++ incompleteIds pageIds (json_missing states)
            ++ incompleteIds pageIds (html_missing states) in
          Ok ({| newPages := new states ++ (pageIds_missing states).*1;
                 updatedPages := updatedPages;
                 unchangedPages := unchangedPages;
                 allPagesToDelete := pagesToDelete ++ pagesToDeleteBeforeRecreate;
                 metasToDelete :=
                   incompleteMetas (json_missing states)
                   ++ incompleteMetas (html_missing states)
                   ++ (res_name <$> residual_meta states) |},
              pages')
      end
  end.

Section Run.
Context {R : Type}.
Variable site : Call -> R -> reply * R.
Variable imageRefs : string -> string -> list (string * string).
(** [replaceLocalImages(html, pathMap)], given the entries of [pathMap]. *)
Variable replaceLocalImages : string -> list (string * string) -> string.
Variable joinContentPath : string -> string.

Abbreviation Run := (M (World R)).

Definition findLocalImages := Images.findLocalImages (R:=R) imageRefs.
Definition uploadNewImages := Images.uploadNewImages site.

(** *** Step 2: the labyrinth *)

(** [createLabyrinth(page, config, options)]: it raises when it cannot
    read an id off the site. *)
Definition createLabyrinth (config : json) : Run string :=
  (if negb (truthy_prop "title" config) then throw (Err "미궁 제목이 필요합니다")
   else
     let* v := call site (CreateLabyrinth config) in
     match value_string v with
     | Some labyrinthSeqn => ret labyrinthSeqn
     | None => throw (Err "미궁 생성 후 ID를 가져올 수 없습니다. 사이트를 확인해주세요.")
     end)%run.

(** From "Check if labyrinth.meta exists" to "Create or update labyrinth". *)
Definition syncLabyrinth : Run LabyMeta :=
  (let* d := readDisk in
   let labyMeta := default emptyLabyMeta (labyMetaFile d) in
   do* match labyMetaFile d with
       | None => for_each (findPageMetaFiles d) deletePageMeta
       | Some _ => ret tt
       end in
   let* currentHash := lift (Laby.computeLabyrinthHash joinContentPath (config d) (assets d)) in
   if negb (Js.truthy_ostr (lm_id labyMeta)) then
     let* labyrinthId :=
       Retry.withRetry sleep (createLabyrinth (config d)) Retry.maxRetries in
     let labyMeta :=
       {| lm_id := Some labyrinthId; lm_hash := Some currentHash;
          lm_images := Some (default ∅ (lm_images labyMeta));
          lm_pageIds := Some (default [] (lm_pageIds labyMeta)) |} in
     do* writeLabyMeta labyMeta in
     ret labyMeta
   else if negb (bool_decide (lm_hash labyMeta = Some currentHash)) then
     let* _ := retried site (UpdateLabyrinth (default "" (lm_id labyMeta)) (config d)) in
     let labyMeta :=
       {| lm_id := lm_id labyMeta; lm_hash := Some currentHash;
          lm_images := lm_images labyMeta; lm_pageIds := lm_pageIds labyMeta |} in
     do* writeLabyMeta labyMeta in
     ret labyMeta
   else ret labyMeta)%run.

(** *** Loading the pages *)

(** "Load pages with both HTML and JSON": one turn of the loop. *)
Definition loadPage (jsonNames : list string)
    (acc : JsObject.obj PageInfo * gmap string PageMeta) (name : string)
    : Run (JsObject.obj PageInfo * gmap string PageMeta) :=
  (let '(pages, metas) := acc in
   if has jsonNames name then
     let* d := readDisk in
     let meta := readPageMeta d name in
     let* pages :=
       match htmlFiles d !! name, jsonFiles d !! name with
       | Some html, Some json =>
           if Js.truthy_str html && truthy json then
             let* hash := emit (pageHash imageRefs (assets d) name html json) in
             ret (JsObject.set name
                    {| pi_html := html; pi_json := json; pi_meta := meta;
                       pi_hash := hash; pi_finalHtml := None |} pages)
           else ret pages
       | _, _ => ret pages
       end in
     ret (pages, <[name := meta]> metas)
   else ret (pages, metas))%run.

(** "Load meta-only files" *)
Definition loadMetaOnly (d : Disk) (metas : gmap string PageMeta) (name : string)
    : gmap string PageMeta :=
  match metas !! name with
  | Some _ => metas
  | None => <[name := readPageMeta d name]> metas
  end.

(** *** Step 3: deletions *)

Definition deleteOne (labyrinthId : string) (v : Vars) (pageId : string) : Run Vars :=
  (let* success := call site (DeletePage labyrinthId pageId) in
   let v :=
     if truthy_value success
     then set_counts count_deleted (filter_pageIds pageId v)
     else filter_pageIds pageId v in
   do* sleep 50 in
   ret v)%run.

Definition deletePhase (labyrinthId : string) (plan : Plan) (v : Vars) : Run Vars :=
  (let* v :=
     match allPagesToDelete plan with
     | [] => ret v
     | _ =>
         let* v := fold_each (allPagesToDelete plan) (deleteOne labyrinthId) v in
         let v := assign_pageIds v in
         do* writeLabyMeta (labyMeta_now v) in
         ret v
     end in
   do* for_each (metasToDelete plan) deletePageMeta in
   ret v)%run.

(** *** Steps 4 and 5: what creating and updating a page share *)

(** "Prepare explanation HTML with images": one turn. *)
Definition processAnswer (name : string)
    (acc : list string * list (json * string)) (ans : json)
    : Run (list string * list (json * string)) :=
  (let '(localImages, processedAnswers) := acc in
   let* explanationHtml := lift (explanationOf ans) in
   let* localImages :=
     if Js.truthy_str explanationHtml && Js.includes "<" explanationHtml then
       let* explImages := findLocalImages name explanationHtml in
       ret (localImages ++ explImages)
     else ret localImages in
   ret (localImages, processedAnswers ++ [(ans, explanationHtml)]))%run.

(** "Upload all images at once": the variables, the content and the
    explanations after the substitution. *)
Definition uploadImages (v : Vars) (html : string) (localImages : list string)
    (processedAnswers : list (json * string))
    : Run (Vars * string * list (json * string)) :=
  (match localImages with
   | [] => ret (v, html, processedAnswers)
   | _ =>
       let* '(newCache, pathMap) := uploadNewImages localImages (imageCache v) in
       let v := assign_images newCache v in
       do* writeLabyMeta (labyMeta_now v) in
       let substitution := JsObject.entries pathMap in
       ret (v, replaceLocalImages html substitution,
            (fun a : json * string =>
               (a.1, if Js.truthy_str a.2 then replaceLocalImages a.2 substitution
                     else a.2)) <$> processedAnswers)
   end)%run.

Definition formData (pageData : json) (isFirst : bool) (isEnding : json)
    (hasAnswers : bool) (html : string) : FormData :=
  {| fd_title := prop "title" pageData;
     fd_bgColor := or_else (prop "background_color" pageData) (JStr "#000000");
     fd_isFirst := isFirst;
     fd_isEnding := isEnding;
     fd_hasAnswers := hasAnswers;
     fd_hint := or_else (prop "hint" pageData) (JStr "");
     fd_hint_enabled := or_else (prop "hint_enabled" pageData) (JBool false);
     fd_content := html |}.

Definition addAnswer (a : json * string) : Run unit :=
  (let* _ := call site (AddAnswer (prop "answer" a.1)
                          (or_else (prop "public" a.1) (JBool false)) a.2) in
   ret tt)%run.

(** *** Step 4: create new pages *)

Definition createOne (labyrinthId : string) (firstPage : option json)
    (v : Vars) (name : string) : Run Vars :=
  (match JsObject.get name (pages v) with
   | None => throw (undefinedPage "json")
   | Some pageInfo =>
       let pageData := pi_json pageInfo in
       let html := pi_html pageInfo in
       if negb (Js.truthy_str html) then
         do* logError "    HTML 내용이 없습니다" in ret v
       else
         let* _ := retried site (NavigateToCreatePage labyrinthId) in
         let* localImages := findLocalImages name html in
         let isFirst := is_first firstPage name in
         let isEnding := or_else (prop "is_ending" pageData) (JBool false) in
         let* answers := lift (answersOf pageData) in
         let hasAnswers := (0 <? length answers)%nat in
         let* '(localImages, processedAnswers) :=
           fold_each answers (processAnswer name) (localImages, []) in
         let* '(v, html, processedAnswers) :=
           uploadImages v html localImages processedAnswers in
         let* _ := call site (FillPageForm
                                (formData pageData isFirst isEnding hasAnswers html)) in
         do* match processedAnswers with
             | [] =>
                 if hasAnswers
                 then let* _ := call site (AddAnswer (Some (JStr "temp")) (JBool false) "") in
                      ret tt
                 else ret tt
             | _ => for_each processedAnswers addAnswer
             end in
         let* pageId :=
           retried site (SubmitPageForm (Some labyrinthId) (prop "title" pageData)) in
         match value_string pageId with
         | Some pageId =>
             let meta :=
               {| pm_id := Some pageId; pm_hash := Some (pi_hash pageInfo);
                  pm_is_first := Some isFirst; pm_is_ending := Some isEnding |} in
             do* writePageMeta name meta in
             let v := push_pageId pageId v in
             let v :=
               set_pages (JsObject.set name (set_finalHtml html (set_meta meta pageInfo))
                            (pages v)) v in
             ret (set_counts count_created v)
         | None =>
             do* logError ("  실패: " +:+ name +:+ ": 페이지 ID를 받아올 수 없습니다") in
             ret (set_counts count_page_failure v)
         end
   end)%run.

Definition createPhase (labyrinthId : string) (firstPage : option json)
    (plan : Plan) (v : Vars) : Run Vars :=
  (match newPages plan with
   | [] => ret v
   | _ =>
       let* v := fold_each (newPages plan) (createOne labyrinthId firstPage) v in
       let v := assign_pageIds v in
       do* writeLabyMeta (labyMeta_now v) in
       ret v
   end)%run.

(** "Build page name -> ID mapping" *)
Definition pageIdMapOf (pages : JsObject.obj PageInfo) : JsObject.obj string :=
  omap (fun e : string * PageInfo =>
          match pm_id (pi_meta e.2) with
          | Some i => if Js.truthy_str i then Some (e.1, i) else None
          | None => None
          end) (JsObject.entries pages).

(** *** Step 5: update modified pages *)

Definition updateOne (labyrinthId : string) (firstPage : option json)
    (v : Vars) (name : string) : Run Vars :=
  (match JsObject.get name (pages v) with
   | None => throw (undefinedPage "json")
   | Some pageInfo =>
       let pageData := pi_json pageInfo in
       let pageMeta := pi_meta pageInfo in
       match pm_id pageMeta with
       | None => ret v
       | Some pageId =>
           if negb (Js.truthy_str pageId) then ret v
           else
             let html := pi_html pageInfo in
             if negb (Js.truthy_str html) then
               do* logError "    HTML 내용이 없습니다" in ret v
             else
               let* _ := retried site (NavigateToEditPage labyrinthId pageId) in
               let* localImages := findLocalImages name html in
               let isFirst := is_first firstPage name in
               let isEnding := or_else (prop "is_ending" pageData) (JBool false) in
               let* answers := lift (answersOf pageData) in
               let hasAnswers := (0 <? length answers)%nat in
               let* '(localImages, processedAnswers) :=
                 fold_each answers (processAnswer name) (localImages, []) in
               let* '(v, html, processedAnswers) :=
                 uploadImages v html localImages processedAnswers in
               do* match localImages with
                   | [] => ret tt
                   | _ => let* _ := retried site (NavigateToEditPage labyrinthId pageId) in
                          ret tt
                   end in
               let* _ := call site (FillPageForm
                                      (formData pageData isFirst isEnding hasAnswers html)) in
               do* (if hasAnswers then
                      let* _ := call site ClearAnswers in
                      for_each processedAnswers addAnswer
                    else ret tt) in
               let* _ := retried site (SubmitPageForm None None) in
               let meta :=
                 {| pm_id := pm_id pageMeta; pm_hash := Some (pi_hash pageInfo);
                    pm_is_first := Some isFirst; pm_is_ending := Some isEnding |} in
               do* writePageMeta name meta in
               let v :=
                 set_pages (JsObject.set name (set_finalHtml html (set_meta meta pageInfo))
                              (pages v)) v in
               ret (set_counts count_updated v)
       end
   end)%run.

Definition updatePhase (labyrinthId : string) (firstPage : option json)
    (plan : Plan) (v : Vars) : Run Vars :=
  fold_each (updatedPages plan) (updateOne labyrinthId firstPage) v.

(** *** Step 6: parent connections *)

(** [pageIdMap[ans.next]] when [ans.next] is truthy. *)
Definition targetOf (pageIdMap : JsObject.obj string) (ans : json) : option string :=
  match prop "next" ans with
  | Some (JStr next) =>
      if Js.truthy_str next then JsObject.get next pageIdMap else None
  | _ => None
  end.

(** [connections[targetPageId].push(source)] *)
Definition addConnection (targetPageId : string) (source : Source)
    (connections : JsObject.obj (list Source)) : JsObject.obj (list Source) :=
  JsObject.set targetPageId
    (default [] (JsObject.get targetPageId connections) ++ [source]) connections.

(** The callback of [answers.forEach] for the page [name], on the answer
    at position [idx]. *)
Definition scanAnswer (plan : Plan) (pageIdMap : JsObject.obj string)
    (newPageIds : list string) (name fromPageId : string)
    (connections : JsObject.obj (list Source)) (idx : nat) (ans : json)
    : res (JsObject.obj (list Source)) :=
  match ans with
  | JNull => Throw (Validate.typeError "Cannot read properties of null (reading 'next')")
  | _ =>
      match targetOf pageIdMap ans with
      | Some targetPageId =>
          let isTargetNew := bool_decide (targetPageId ∈ newPageIds) in
          let isSourceNewOrUpdated :=
            bool_decide (name ∈ newPages plan) || bool_decide (name ∈ updatedPages plan) in
          if isTargetNew || isSourceNewOrUpdated
          then Ok (addConnection targetPageId
                     {| fromPageId := fromPageId; answerIndex := S idx;
                        fromName := name; src_answer := prop "answer" ans |}
                     connections)
          else Ok connections
      | None => Ok connections
      end
  end.

Fixpoint scanAnswers (plan : Plan) (pageIdMap : JsObject.obj string)
    (newPageIds : list string) (name fromPageId : string)
    (connections : JsObject.obj (list Source)) (idx : nat) (answers : list json)
    : res (JsObject.obj (list Source)) :=
  match answers with
  | [] => Ok connections
  | ans :: rest =>
      match scanAnswer plan pageIdMap newPageIds name fromPageId connections idx ans with
      | Ok connections' =>
          scanAnswers plan pageIdMap newPageIds name fromPageId connections' (S idx) rest
      | Throw e => Throw e
      | Exit c => Exit c
      end
  end.

(** "Scan all pages' answers for connections to new pages" *)
Fixpoint scanPages (plan : Plan) (pageIdMap : JsObject.obj string)
    (newPageIds : list string) (entries : list (string * PageInfo))
    (connections : JsObject.obj (list Source)) : res (JsObject.obj (list Source)) :=
  match entries with
  | [] => Ok connections
  | (name, pageInfo) :: rest =>
      match pm_id (pi_meta pageInfo) with
      | Some fromPageId =>
          if Js.truthy_str fromPageId then
            match answersOf (pi_json pageInfo) with
            | Ok answers =>
                match scanAnswers plan pageIdMap newPageIds name fromPageId
                        connections 0 answers with
                | Ok connections' => scanPages plan pageIdMap newPageIds rest connections'
                | Throw e => Throw e
                | Exit c => Exit c
                end
            | Throw e => Throw e
            | Exit c => Exit c
            end
          else scanPages plan pageIdMap newPageIds rest connections
      | None => scanPages plan pageIdMap newPageIds rest connections
      end
  end.

(** [newPages.map(name => pageIdMap[name]).filter(Boolean)] *)
Definition newPageIdsOf (plan : Plan) (pageIdMap : JsObject.obj string) : list string :=
  omap (fun name => JsObject.get name pageIdMap) (newPages plan).

Definition connectionsOf (plan : Plan) (pageIdMap : JsObject.obj string)
    (pages : JsObject.obj PageInfo) : res (JsObject.obj (list Source)) :=
  scanPages plan pageIdMap (newPageIdsOf plan pageIdMap) (JsObject.entries pages) [].

(** One source of a target: the pair of the flag [connectionSuccess] and
    the variables. *)
Definition connectOne (acc : bool * Vars) (src : Source) : Run (bool * Vars) :=
  (let '(connectionSuccess, v) := acc in
   let* success := call site (SetParentConnection (fromPageId src) (answerIndex src)) in
   if truthy_value success then ret (connectionSuccess, v)
   else ret (false, set_counts count_connect_failure v))%run.

(** [Object.entries(pageIdMap).find(([n, id]) => id === targetPageId)?.[0]
    || targetPageId] *)
Definition targetNameOf (pageIdMap : JsObject.obj string) (targetPageId : string) : string :=
  match List.find (fun e : string * string => String.eqb e.2 targetPageId)
          (JsObject.entries pageIdMap) with
  | Some e => if Js.truthy_str e.1 then e.1 else targetPageId
  | None => targetPageId
  end.

Definition linkOne (labyrinthId : string) (pageIdMap : JsObject.obj string)
    (connections : JsObject.obj (list Source)) (v : Vars) (targetPageId : string)
    : Run Vars :=
  (let sources := default [] (JsObject.get targetPageId connections) in
   let targetName := targetNameOf pageIdMap targetPageId in
   let* _ := retried site (NavigateToEditPage labyrinthId targetPageId) in
   let* _ := call site ClearParentConnections in
   let* '(connectionSuccess, v) := fold_each sources connectOne (true, v) in
   do* match JsObject.get targetName (pages v) with
       | Some pageInfo =>
           match pi_finalHtml pageInfo with
           | Some finalHtml =>
               if Js.truthy_str finalHtml
               then let* _ := call site (SetEditorContent finalHtml) in ret tt
               else ret tt
           | None => ret tt
           end
       | None => ret tt
       end in
   let* _ := retried site (SubmitPageForm None None) in
   let v := if connectionSuccess then set_counts count_connected v else v in
   do* sleep 50 in
   ret v)%run.

Definition linkPhase (labyrinthId : string) (pageIdMap : JsObject.obj string)
    (plan : Plan) (v : Vars) : Run Vars :=
  (let* connections := lift (connectionsOf plan pageIdMap (pages v)) in
   fold_each (JsObject.keys connections) (linkOne labyrinthId pageIdMap connections) v)%run.

(** *** The [try] block *)

Definition join_comma (l : list string) : string :=
  (fix join (l : list string) : string :=
     match l with
     | [] => ""
     | [x] => x
     | x :: l' => x +:+ ", " +:+ join l'
     end) l.

Definition failureSummary (c : Counts) : Run unit :=
  (if (0 <? failures_image c + failures_page c + failures_connect c)%nat then
     let failParts :=
       (if (0 <? failures_image c)%nat then ["이미지 " +:+ Js.dec (failures_image c)] else [])
       ++ (if (0 <? failures_page c)%nat then ["페이지 " +:+ Js.dec (failures_page c)] else [])
       ++ (if (0 <? failures_connect c)%nat then ["연결 " +:+ Js.dec (failures_connect c)] else []) in
     logError ("  실패: " +:+ join_comma failParts +:+ " (다음 실행 시 재시도됨)")
   else ret tt)%run.

(** What the run has learnt before it decides anything: the labyrinth
    meta after step 2, the folder as scanned, the [pages] and the [metas]
    objects. *)
Definition Survey : Type :=
  (LabyMeta * Disk * JsObject.obj PageInfo * gmap string PageMeta)%type.

(** Steps 1 and 2, the scan of the folder and the loading of the pages. *)
Definition survey : Run Survey :=
  ((* [1/6] *)
   let* _ := retried site Login in
   (* [2/6] *)
   let* labyMeta := syncLabyrinth in
   (* Find all page files, load all page data and meta *)
   let* d := readDisk in
   let htmlNames := findPageHtmlFiles d in
   let jsonNames := findPageJsonFiles d in
   let metaNames := findPageMetaFiles d in
   let* '(loaded, metas) := fold_each htmlNames (loadPage jsonNames) ([], ∅) in
   let metas := foldl (loadMetaOnly d) metas metaNames in
   ret (labyMeta, d, loaded, metas))%run.

(** The argument of [validateAllPages]. *)
Definition pageJsons (loaded : JsObject.obj PageInfo) : list (string * json) :=
  (fun e : string * PageInfo => (e.1, pi_json e.2)) <$> JsObject.entries loaded.

(** "Stop on errors": the report and [process.exit(1)]. *)
Definition report (errors : list string) : list string :=
  [""; "페이지 검증 실패:"] ++ ((fun e => "  - " +:+ e) <$> errors)
  ++ [""; "오류를 수정한 후 다시 실행해주세요."].

Definition gate (loaded : JsObject.obj PageInfo) : Run unit :=
  (let* pageValidation := lift (Validate.validateAllPages (pageJsons loaded)) in
   match pageValidation.1 with
   | [] => ret tt
   | errors =>
       do* for_each (report errors) logError in
       exit 1
   end)%run.

(** "Validate first_page reference" *)
Definition firstPageGate (firstPage : option json) (loaded : JsObject.obj PageInfo)
    : Run unit :=
  (match firstPage with
   | Some first =>
       if negb (Validate.includes_value (JsObject.keys loaded) first) then
         do* logError ("시작 페이지를 찾을 수 없습니다: " +:+ Js.dq
                       +:+ Validate.toString first +:+ Js.dq) in
         do* logError ("사용 가능한 페이지: " +:+ join_comma (JsObject.keys loaded)) in
         exit 1
       else ret tt
   | None => ret tt
   end)%run.

(** Steps 4 to 6 and the summary. *)
Definition finish (labyrinthId : string) (firstPage : option json) (plan : Plan)
    (v : Vars) : Run Counts :=
  ((* [4/6] *)
   let* v := createPhase labyrinthId firstPage plan v in
   let pageIdMap := pageIdMapOf (pages v) in
   (* [5/6] *)
   let* v := updatePhase labyrinthId firstPage plan v in
   (* [6/6] *)
   let* v := linkPhase labyrinthId pageIdMap plan v in
   do* failureSummary (counts v) in
   ret (counts v))%run.

(** [labyrinthId], [imageCache] and [pageIds] as [main] sets them up
    after step 2. *)
Definition startVars (labyMeta : LabyMeta) : Vars :=
  {| labyMeta := labyMeta;
     imageCache := default ∅ (lm_images labyMeta);
     pageIds := default [] (lm_pageIds labyMeta);
     aliased := bool_decide (is_Some (lm_pageIds labyMeta));
     pages := []; counts := noCounts |}.

(** [determinePageStates(htmlNames, jsonNames, metaNames, pageIds, metas)]
    on what the survey found. *)
Definition statesOf (s : Survey) : PageStates :=
  let '(labyMeta, d, loaded, metas) := s in
  determinePageStates (findPageHtmlFiles d) (findPageJsonFiles d)
    (findPageMetaFiles d) (pageIds (startVars labyMeta)) metas.

(** From "Determine page states" to the final summary. *)
Definition reconcile (s : Survey) : Run Counts :=
  (let '(labyMeta, d, loaded, metas) := s in
   let labyrinthId := default "" (lm_id labyMeta) in
   let v := startVars labyMeta in
   (* Determine page states *)
   let states := statesOf s in
   (* Validate all valid pages, stop on errors *)
   do* gate loaded in
   (* Determine first page from config, validate the reference *)
   let firstPage := firstPageOf (config d) in
   do* firstPageGate firstPage loaded in
   (* Categorize pages for processing *)
   let* '(plan, prepared) := lift (makePlan states (pageIds v) loaded) in
   let v := set_pages prepared v in
   (* [3/6] *)
   let* v := deletePhase labyrinthId plan v in
   finish labyrinthId firstPage plan v)%run.

(** The whole of the [try] block. *)
Definition session : Run Counts :=
  (let* s := survey in reconcile s)%run.

(** [main()] from its [try] on: the checks before it (arguments, the
    files of the folder, the account, [validateConfig]) have passed.  A
    caught error ends the process with code 1; [process.exit] skips the
    [finally] block, which therefore only runs after a completed session. *)
Definition main : Run Counts :=
  fun w =>
    match session w with
    | (Ok c, w') => (let* _ := call site Logout in ret c)%run w'
    | (Throw e, w') =>
        (do* logError "" in
         do* logError ("오류가 발생했습니다: "
                       +:+ match e with Err message => message | NoValue => "" end) in
         do* logError "상세 정보를 보려면 --verbose 옵션을 사용하세요." in
         exit 1)%run w'
    | (Exit code, w') => (Exit code, w')
    end.

End Run.
End Main.

(* ===================================================================== *)
(** ** An example site and example content trees                           *)
(* ===================================================================== *)

(** A small remote machine to run the script against.  It hands out page
    ids from a counter, keeps for every page the predecessor links saved
    with it, and changes them only the way the edit form of the site is
    driven: opening a page ticks the saved links, the script unticks and
    ticks, saving stores what is ticked. *)
Module Example.
Import Json.

Record Site : Type := {
  next_id : nat;
  site_pages : list string;
  links : list (string * list (string * nat));   (* page id: its saved predecessors *)
  editing : option string;                        (* [None]: the create form *)
  ticked : list (string * nat);
  uploads : nat;
}.

Definition site0 : Site :=
  {| next_id := 101; site_pages := []; links := []; editing := None;
     ticked := []; uploads := 0 |}.

Fixpoint linksOf (pageId : string) (l : list (string * list (string * nat)))
    : list (string * nat) :=
  match l with
  | [] => []
  | (p, s) :: l' => if String.eqb p pageId then s else linksOf pageId l'
  end.

Fixpoint setLinks (pageId : string) (s : list (string * nat))
    (l : list (string * list (string * nat))) : list (string * list (string * nat)) :=
  match l with
  | [] => [(pageId, s)]
  | (p, s') :: l' =>
      if String.eqb p pageId then (p, s) :: l' else (p, s') :: setLinks pageId s l'
  end.

Definition site (c : Call) (s : Site) : reply * Site :=
  match c with
  | Login | Logout | UpdateLabyrinth _ _ | FillPageForm _ | AddAnswer _ _ _
  | ClearAnswers | SetEditorContent _ => (Returned VNone, s)
  | CreateLabyrinth _ => (Returned (VStr "7199"), s)
  | DeletePage _ pageId =>
      (Returned (VBool (bool_decide (pageId ∈ site_pages s))),
       {| next_id := next_id s;
          site_pages := List.filter (fun p => negb (String.eqb p pageId)) (site_pages s);
          links := List.filter (fun e => negb (String.eqb e.1 pageId)) (links s);
          editing := editing s; ticked := ticked s; uploads := uploads s |})
  | NavigateToCreatePage _ =>
      (Returned VNone,
       {| next_id := next_id s; site_pages := site_pages s; links := links s;
          editing := None; ticked := []; uploads := uploads s |})
  | NavigateToEditPage _ pageId =>
      (Returned VNone,
       {| next_id := next_id s; site_pages := site_pages s; links := links s;
          editing := Some pageId; ticked := linksOf pageId (links s);
          uploads := uploads s |})
  | UploadImage _ =>
      (Returned (VStr ("/upload/" +:+ Js.dec (uploads s) +:+ ".png")),
       {| next_id := next_id s; site_pages := site_pages s; links := links s;
          editing := editing s; ticked := ticked s; uploads := S (uploads s) |})
  | ClearParentConnections =>
      (Returned VNone,
       {| next_id := next_id s; site_pages := site_pages s; links := links s;
          editing := editing s; ticked := []; uploads := uploads s |})
  | SetParentConnection parent idx =>
      if bool_decide (parent ∈ site_pages s)
      then (Returned (VBool true),
            {| next_id := next_id s; site_pages := site_pages s; links := links s;
               editing := editing s; ticked := ticked s ++ [(parent, idx)];
               uploads := uploads s |})
      else (Returned (VBool false), s)
  | SubmitPageForm _ _ =>
      match editing s with
      | None =>
          let pageId := Js.dec (next_id s) in
          (Returned (VStr pageId),
           {| next_id := S (next_id s); site_pages := site_pages s ++ [pageId];
              links := setLinks pageId (ticked s) (links s);
              editing := Some pageId; ticked := ticked s; uploads := uploads s |})
      | Some pageId =>
          (Returned (VStr pageId),
           {| next_id := next_id s; site_pages := site_pages s;
              links := setLinks pageId (ticked s) (links s);
              editing := editing s; ticked := ticked s; uploads := uploads s |})
      end
  end.

(** Image references of the examples: a page refers to the image whose
    file name its content mentions. *)
Definition imageRefs (name html : string) : list (string * string) :=
  (if Js.includes "cat.png" html then [("./image/cat.png", "/tree/image/cat.png")] else [])
  ++ (if Js.includes "kitty.png" html then [("./image/kitty.png", "/tree/image/kitty.png")] else []).

(** The substitution is not looked into by the examples: it marks the
    content with the URLs it was given. *)
Definition replaceLocalImages (html : string) (pathMap : list (string * string)) : string :=
  foldl (fun acc e => acc +:+ "<!-- " +:+ e.2 +:+ " -->") html pathMap.

Definition joinContentPath (p : string) : string := "/tree/" +:+ p.

Definition main := Main.main site imageRefs replaceLocalImages joinContentPath.

Definition world (d : Disk) (s : Site) : World Site :=
  {| remote := s; trace := []; disk := d; stderr := [] |}.

(** The same content folder in front of the site as a run left it. *)
Definition again (w : World Site) : World Site :=
  {| remote := remote w; trace := []; disk := disk w; stderr := [] |}.

Definition withJson (name : string) (j : json) (d : Disk) : Disk :=
  {| config := config d; labyMetaFile := labyMetaFile d; htmlFiles := htmlFiles d;
     jsonFiles := <[name := j]> (jsonFiles d); metaFiles := metaFiles d;
     assets := assets d |}.

Definition config0 : json :=
  JObj [("title", JStr "Example"); ("start_page", JStr "page/a")].

Definition pageA : json :=
  JObj [("title", JStr "A");
        ("answers", JArr [JObj [("answer", JStr "go"); ("next", JStr "page/b")]])].

Definition pageA_without_answer : json :=
  JObj [("title", JStr "A"); ("answers", JArr [])].

Definition pageB : json := JObj [("title", JStr "B"); ("is_ending", JBool true)].

(** Two pages, A with an answer that leads to B; nothing uploaded yet. *)
Definition tree_ab : Disk :=
  {| config := config0; labyMetaFile := None;
     htmlFiles := {[ "page/a" := "<p>A</p>"; "page/b" := "<p>B</p>" ]};
     jsonFiles := {[ "page/a" := pageA; "page/b" := pageB ]};
     metaFiles := ∅; assets := ∅ |}.

(** A page whose answer leads to a page that does not exist. *)
Definition pageA_dangling : json :=
  JObj [("title", JStr "A");
        ("answers", JArr [JObj [("answer", JStr "go"); ("next", JStr "page/nowhere")];
                          JObj [("answer", JStr ""); ("next", JStr "page/b")]])].

Definition tree_dangling : Disk := withJson "page/a" pageA_dangling tree_ab.

(** What page validation finds in it. *)
Definition dangling_errors : list string :=
  [ "[page/a] answers[0].next가 존재하지 않는 페이지를 참조합니다: "
      +:+ Js.dq +:+ "page/nowhere" +:+ Js.dq;
    "[page/a] answers[1].answer가 비어있습니다." ].

(** The first steps of a run on it, up to the loaded pages. *)
Definition dangling_survey : res Main.Survey * World Site :=
  Eval vm_compute in
    Main.survey site imageRefs joinContentPath (world tree_dangling site0).

(** The two pages next to a labyrinth whose list of page ids holds an id
    that no meta file records; the site does not know the page either. *)
Definition tree_orphan : Disk :=
  {| config := config0;
     labyMetaFile := Some {| lm_id := Some "7199"; lm_hash := None; lm_images := None;
                             lm_pageIds := Some ["900"] |};
     htmlFiles := htmlFiles tree_ab; jsonFiles := jsonFiles tree_ab;
     metaFiles := ∅; assets := ∅ |}.

Definition orphan_survey : Main.Survey :=
  Eval vm_compute in
    match (Main.survey site imageRefs joinContentPath (world tree_orphan site0)).1 with
    | Ok s => s
    | _ => (emptyLabyMeta, tree_orphan, [], ∅)
    end.

Definition orphan_world : World Site :=
  Eval vm_compute in
    (Main.survey site imageRefs joinContentPath (world tree_orphan site0)).2.

(** The two pages again; the meta file of the first records an id that
    the list of page ids lacks, and that the site does not know either. *)
Definition tree_recreate : Disk :=
  {| config := config0;
     labyMetaFile := Some {| lm_id := Some "7199"; lm_hash := None; lm_images := None;
                             lm_pageIds := Some [] |};
     htmlFiles := htmlFiles tree_ab; jsonFiles := jsonFiles tree_ab;
     metaFiles := {[ "page/a" := {| pm_id := Some "55"; pm_hash := None;
                                    pm_is_first := None; pm_is_ending := None |} ]};
     assets := ∅ |}.

Definition recreate_survey : Main.Survey :=
  Eval vm_compute in
    match (Main.survey site imageRefs joinContentPath (world tree_recreate site0)).1 with
    | Ok s => s
    | _ => (emptyLabyMeta, tree_recreate, [], ∅)
    end.

Definition recreate_world : World Site :=
  Eval vm_compute in
    (Main.survey site imageRefs joinContentPath (world tree_recreate site0)).2.

Definition recreate_counts : Main.Counts :=
  Eval vm_compute in
    match (Main.reconcile site imageRefs replaceLocalImages recreate_survey
             recreate_world).1 with
    | Ok c => c
    | _ => Main.noCounts
    end.

Definition recreate_done : World Site :=
  Eval vm_compute in
    (Main.reconcile site imageRefs replaceLocalImages recreate_survey recreate_world).2.

(** Two image files with the same bytes under different names. *)
Definition cat : string := "/tree/image/cat.png".
Definition kitty : string := "/tree/image/kitty.png".

Definition tree_images : Disk :=
  {| config := config0; labyMetaFile := None; htmlFiles := ∅; jsonFiles := ∅;
     metaFiles := ∅; assets := {[ cat := "PNG bytes"; kitty := "PNG bytes" ]} |}.

(** The uploads of a page that shows the first, then of a page that shows
    the second, with the cache handed on. *)
Definition first_upload : res Images.uploadState * World Site :=
  Eval vm_compute in
    Images.uploadNewImages site [cat] ∅ (world tree_images site0).

Definition first_cache : gmap string string :=
  Eval vm_compute in match first_upload.1 with Ok st => st.1 | _ => ∅ end.

Definition first_map : JsObject.obj string :=
  Eval vm_compute in match first_upload.1 with Ok st => st.2 | _ => [] end.

Definition second_upload : res Images.uploadState * World Site :=
  Eval vm_compute in
    Images.uploadNewImages site [kitty] first_cache first_upload.2.

Definition second_cache : gmap string string :=
  Eval vm_compute in match second_upload.1 with Ok st => st.1 | _ => ∅ end.

Definition second_map : JsObject.obj string :=
  Eval vm_compute in match second_upload.1 with Ok st => st.2 | _ => [] end.

(** A run on the two pages, and a second run on what it left. *)
Definition ab_run : res Main.Counts * World Site :=
  Eval vm_compute in main (world tree_ab site0).

Definition ab_counts : Main.Counts :=
  Eval vm_compute in match ab_run.1 with Ok c => c | _ => Main.noCounts end.

Definition ab_done : World Site := Eval vm_compute in ab_run.2.

Definition ab_again_run : res Main.Counts * World Site :=
  Eval vm_compute in main ab_done.

Definition ab_again : World Site := Eval vm_compute in ab_again_run.2.

(** The answer of A that led to B is removed after the first run, and the
    script runs again. *)
Definition ab_edited : World Site :=
  Eval vm_compute in
    {| remote := remote ab_done; trace := [];
       disk := withJson "page/a" pageA_without_answer (disk ab_done); stderr := [] |}.

Definition edited_run : res Main.Counts * World Site :=
  Eval vm_compute in main ab_edited.

Definition edited_done : World Site := Eval vm_compute in edited_run.2.

End Example.

(* ===================================================================== *)
(** ** Observing a run                                                     *)
(* ===================================================================== *)

Module Observe.

(** An event that is no call outside [allowed]. *)
Definition permits (allowed : Call -> bool) (e : Event) : Prop :=
  match e with
  | Called c _ => allowed c = true
  | Waited _ => True
  end.

(** An event that is no call but [c]. *)
Definition only (c : Call) (e : Event) : Prop :=
  match e with
  | Called c' _ => c' = c
  | Waited _ => True
  end.

(** The calls of steps 1 and 2. *)
Definition opens_labyrinth (c : Call) : bool :=
  match c with
  | Login | CreateLabyrinth _ | UpdateLabyrinth _ _ => true
  | _ => false
  end.

(** The calls of step 3. *)
Definition deleting (c : Call) : bool :=
  match c with
  | DeletePage _ _ => true
  | _ => false
  end.

(** The calls that fill in the form of a page before it is submitted. *)
Definition composing (c : Call) : bool :=
  match c with
  | NavigateToCreatePage _ | NavigateToEditPage _ _ | UploadImage _
  | FillPageForm _ | AddAnswer _ _ _ | ClearAnswers => true
  | _ => false
  end.

(** The calls of step 4, of step 5 and of step 6. *)
Definition creating (c : Call) : bool :=
  match c with
  | NavigateToCreatePage _ | UploadImage _ | FillPageForm _ | AddAnswer _ _ _
  | SubmitPageForm (Some _) _ => true
  | _ => false
  end.

Definition updating (c : Call) : bool :=
  match c with
  | NavigateToEditPage _ _ | UploadImage _ | FillPageForm _ | ClearAnswers
  | AddAnswer _ _ _ | SubmitPageForm None _ => true
  | _ => false
  end.

Definition linking (c : Call) : bool :=
  match c with
  | NavigateToEditPage _ _ | ClearParentConnections | SetParentConnection _ _
  | SetEditorContent _ | SubmitPageForm None _ => true
  | _ => false
  end.

(** The ids of the pages the run asked the site to delete. *)
Definition deletions (t : list Event) : list string :=
  omap (fun c => match c with DeletePage _ pageId => Some pageId | _ => None end)
       (calls t).

(** What the site answered to the submission of each new page. *)
Definition created (t : list Event) : list value :=
  omap (fun a : Call * value =>
          match a.1 with
          | SubmitPageForm (Some _) _ => Some a.2
          | _ => None
          end) (answered t).

(** The image files whose upload the site answered with a URL. *)
Definition uploadedPaths (t : list Event) : list string :=
  omap (fun a : Call * value =>
          match a.1 with
          | UploadImage imagePath =>
              match value_string a.2 with
              | Some _ => Some imagePath
              | None => None
              end
          | _ => None
          end) (answered t).

(** Those among [paths] whose bytes have the checksum [sum]. *)
Definition withChecksum (assets : gmap string string) (sum : string)
    (paths : list string) : list string :=
  List.filter (fun p => match Images.checksum assets p with
                       | Ok s => String.eqb s sum
                       | _ => false
                       end) paths.

(** Where a sequence of uploads that started from the cache [cache0]
    stands after the files [ups] were uploaded: the cache has kept what it
    held, every URL handed out is the one cached for the checksum, and a
    checksum is uploaded at most once and only when the cache lacks it. *)
Definition upload_inv (assets : gmap string string) (cache0 : gmap string string)
    (st : Images.uploadState) (ups : list string) : Prop :=
  (forall sum url, Images.cached cache0 sum = Some url -> st.1 !! sum = Some url)
  /\ (forall p url, JsObject.get p st.2 = Some url ->
        exists sum, Images.checksum assets p = Ok sum
                    /\ Images.cached st.1 sum = Some url)
  /\ (forall sum url, Images.cached st.1 sum = Some url ->
        Images.cached cache0 sum = Some url \/ withChecksum assets sum ups <> [])
  /\ (forall sum, length (withChecksum assets sum ups) <= 1)
  /\ (forall p sum, p ∈ ups -> Images.checksum assets p = Ok sum ->
        Images.cached cache0 sum = None /\ is_Some (Images.cached st.1 sum)).

(** Two states of the folder with the same content files. *)
Definition same_content (d d' : Disk) : Prop :=
  config d' = config d /\ htmlFiles d' = htmlFiles d
  /\ jsonFiles d' = jsonFiles d /\ assets d' = assets d.

(** [labyrinth.meta] holds what the variables of the run say. *)
Definition recorded (v : Main.Vars) (d : Disk) : Prop :=
  labyMetaFile d = Some (Main.labyMeta_now v)
  /\ default [] (lm_pageIds (Main.labyMeta_now v)) = Main.pageIds v.

(** The entry of [pages] that loading makes for the page [name], if it
    makes one: both files are there with content and the fingerprint can
    be computed. *)
Definition loadable (imageRefs : string -> string -> list (string * string))
    (d : Disk) (name : string) : option Main.PageInfo :=
  match htmlFiles d !! name, jsonFiles d !! name with
  | Some html, Some json =>
      if Js.truthy_str html && Json.truthy json then
        match (Images.pageHash imageRefs (assets d) name html json).2 with
        | Ok hash =>
            Some {| Main.pi_html := html; Main.pi_json := json;
                    Main.pi_meta := readPageMeta d name;
                    Main.pi_hash := hash; Main.pi_finalHtml := None |}
        | _ => None
        end
      else None
  | _, _ => None
  end.

(** What the creation of the page [name] left when the site answered
    [val] to its submission: with an id, the id is listed and the meta
    file of the page records it with the fingerprint of the content; with
    none, a page failure was counted. *)
Definition page_created (before after : Main.Vars) (d : Disk) (name : string)
    (val : value) : Prop :=
  exists p,
    JsObject.get name (Main.pages before) = Some p
    /\ match value_string val with
       | Some i =>
           i ∈ Main.pageIds after
           /\ exists p',
                JsObject.get name (Main.pages after) = Some p'
                /\ metaFiles d !! name = Some (Main.pi_meta p')
                /\ pm_id (Main.pi_meta p') = Some i
                /\ pm_hash (Main.pi_meta p') = Some (Main.pi_hash p)
                /\ Main.pi_html p' = Main.pi_html p
                /\ Main.pi_json p' = Main.pi_json p
                /\ Main.pi_hash p' = Main.pi_hash p
       | None =>
           Main.failures_page (Main.counts before)
           < Main.failures_page (Main.counts after)
       end.

(** The folder agrees with itself and needs nothing done: the labyrinth
    is recorded with the fingerprint of its configuration; meta files
    belong to pages that have both their files; every such page has a
    meta file, and if that records an id, the id is listed and the
    fingerprint recorded is that of the content; every listed id is
    recorded by a meta file. *)
Definition synced (imageRefs : string -> string -> list (string * string))
    (joinContentPath : string -> string) (d : Disk) : Prop :=
  exists lm h,
    labyMetaFile d = Some lm
    /\ Js.truthy_ostr (lm_id lm) = true
    /\ Laby.computeLabyrinthHash joinContentPath (config d) (assets d) = Ok h
    /\ lm_hash lm = Some h
    /\ (forall n m, metaFiles d !! n = Some m ->
          n <> "" /\ is_Some (htmlFiles d !! n) /\ is_Some (jsonFiles d !! n))
    /\ (forall n, is_Some (htmlFiles d !! n) -> is_Some (jsonFiles d !! n) ->
          exists m, metaFiles d !! n = Some m
            /\ forall i, pm_id m = Some i -> Js.truthy_str i = true ->
                 i ∈ default [] (lm_pageIds lm)
                 /\ forall p, loadable imageRefs d n = Some p ->
                              pm_hash m = Some (Main.pi_hash p))
    /\ (forall i, i ∈ default [] (lm_pageIds lm) ->
          exists n m, metaFiles d !! n = Some m /\ pm_id m = Some i
                      /\ Js.truthy_str i = true).

(** The calls that open and close the session. *)
Definition session_only (c : Call) : bool := negb (remote_mutation c).

(** No call at all. *)
Definition no_call (c : Call) : bool := false.

(** No two meta files record the same page id. *)
Definition distinct_ids (metas : gmap string PageMeta) : Prop :=
  forall n1 n2 m1 m2 i,
    metas !! n1 = Some m1 -> metas !! n2 = Some m2 ->
    pm_id m1 = Some i -> pm_id m2 = Some i -> Js.truthy_str i = true -> n1 = n2.

Section Observe.
Context {R : Type}.
Implicit Types w : World R.

(** The trace of [w'] is the trace of [w] followed by events that all
    satisfy [P]. *)
Definition continues (P : Event -> Prop) w w' : Prop :=
  exists t, trace w' = trace w ++ t /\ Forall P t.

(** The same, and the folder is as it was. *)
Definition quietly (P : Event -> Prop) w w' : Prop :=
  continues P w w' /\ disk w' = disk w.

(** [w] after [lines] went to [log.error]. *)
Definition with_stderr (lines : list string) w : World R :=
  {| remote := remote w; trace := trace w; disk := disk w;
     stderr := stderr w ++ lines |}.

End Observe.
End Observe.

(* ===================================================================== *)
(** ** The folders the run is followed on                                  *)
(* ===================================================================== *)

Module Scope.
Import Json.

(** An answer whose [explanation] is no array.  (An array has an
    [includes] of its own, which the script would call.) *)
Definition plain_answer (ans : json) : bool :=
  match prop "explanation" ans with
  | Some (JArr _) => false
  | _ => true
  end.

(** A page whose [answers] is an array of such answers, or is falsy, or
    is a value that cannot be iterated: everything but a non-empty
    string, which the script would iterate character by character where
    [PageData.answersOf] stops. *)
Definition plain_page (pageData : json) : bool :=
  match prop "answers" pageData with
  | Some (JStr s) => negb (Js.truthy_str s)
  | Some (JArr items) => forallb plain_answer items
  | _ => true
  end.

(** A folder all of whose pages are such pages. *)
Definition plain (d : Disk) : Prop :=
  map_Forall (fun (_ : string) pageData => plain_page pageData = true) (jsonFiles d).

End Scope.

Module Keeps.

(** What a step may do to the folder: the configuration, the content and
    the metadata of the pages and the image files stay as they are; only
    the [.meta] files can change. *)
Definition keeps_content {R : Type} (w w' : World R) : Prop :=
  Observe.same_content (disk w) (disk w').

End Keeps.

(* ===================================================================== *)
(** ** The phases of a run                                                *)
(* ===================================================================== *)

Module Phases.

(** A trace made of consecutive stretches, the [i]-th of events that
    satisfy the [i]-th predicate; a stretch can be empty. *)
Fixpoint stretches (Ps : list (Event -> Prop)) (t : list Event) : Prop :=
  match Ps with
  | [] => t = []
  | P :: Ps' => exists t1 t2, t = t1 ++ t2 /\ Forall P t1 /\ stretches Ps' t2
  end.

(** The trace of [w'] is the trace of [w] followed by such stretches. *)
Definition phased {R : Type} (Ps : list (Event -> Prop)) (w w' : World R) : Prop :=
  exists t, trace w' = trace w ++ t /\ stretches Ps t.

Definition is_logout (c : Call) : bool :=
  match c with Logout => true | _ => false end.

(** Steps 1 and 2, step 3, step 4, step 5 and step 6 of [main]. *)
Definition the_phases : list (Event -> Prop) :=
  [ Observe.permits Observe.opens_labyrinth; Observe.permits Observe.deleting;
    Observe.permits Observe.creating; Observe.permits Observe.updating;
    Observe.permits Observe.linking ].

End Phases.

(* ===================================================================== *)
(** ** Attempts of one call                                               *)
(* ===================================================================== *)

Module Attempts.

(** The trace of [w'] is the trace of [w] followed by at most [n] calls,
    all of them the call [c], and delays. *)
Definition attempts {R : Type} (c : Call) (n : nat) (w w' : World R) : Prop :=
  exists t, trace w' = trace w ++ t /\ Forall (Observe.only c) t /\ length (calls t) <= n.

End Attempts.

(* ===================================================================== *)
(** ** The targets of the link phase                                      *)
(* ===================================================================== *)

Module Links.
Import Json PageData Main.

(** An answer of a loaded page that leads to the page with the id
    [target], as the link phase reads it: the page [fromName src] has the
    non-empty id [fromPageId src], its answer number [answerIndex src]
    (counted from 1) has a [next] that the map from names to ids takes to
    [target]. *)
Definition leads (pageIdMap : JsObject.obj string) (pages : JsObject.obj PageInfo)
    (target : string) (src : Source) : Prop :=
  exists pageInfo answers idx ans,
    (fromName src, pageInfo) ∈ JsObject.entries pages
    /\ pm_id (pi_meta pageInfo) = Some (fromPageId src)
    /\ Js.truthy_str (fromPageId src) = true
    /\ answersOf (pi_json pageInfo) = Ok answers
    /\ answers !! idx = Some ans
    /\ answerIndex src = S idx
    /\ src_answer src = prop "answer" ans
    /\ targetOf pageIdMap ans = Some target.

(** "Only process connections TO new pages, or FROM new/updated pages" *)
Definition qualifies (plan : Plan) (pageIdMap : JsObject.obj string)
    (target : string) (src : Source) : Prop :=
  target ∈ newPageIdsOf plan pageIdMap
  \/ fromName src ∈ newPages plan \/ fromName src ∈ updatedPages plan.

(** What the link phase asks of the site for one target. *)
Definition linkCalls (labyrinthId : string) (pageIdMap : JsObject.obj string)
    (connections : JsObject.obj (list Source)) (pages : JsObject.obj PageInfo)
    (targetPageId : string) : list Call :=
  [NavigateToEditPage labyrinthId targetPageId; ClearParentConnections]
  ++ ((fun src => SetParentConnection (fromPageId src) (answerIndex src))
        <$> default [] (JsObject.get targetPageId connections))
  ++ match JsObject.get (targetNameOf pageIdMap targetPageId) pages with
     | Some pageInfo =>
         match pi_finalHtml pageInfo with
         | Some finalHtml =>
             if Js.truthy_str finalHtml then [SetEditorContent finalHtml] else []
         | None => []
         end
     | None => []
     end
  ++ [SubmitPageForm None None].

(** The [connections] object is well formed: no target twice, no target
    without a source. *)
Definition sound (connections : JsObject.obj (list Source)) : Prop :=
  NoDup connections.*1
  /\ forall target sources, JsObject.get target connections = Some sources -> sources <> [].

End Links.

(* ===================================================================== *)
(** ** Acceptable pages                                                   *)
(* ===================================================================== *)

Module Accepts.
Import Json Validate.

(** An answer that passes both checks of the loop of [validatePageJson]:
    its text is a string that is not blank, and its [next], when truthy,
    is one of the page names. *)
Definition answer_ok (allPageNames : list string) (ans : json) : Prop :=
  (exists s, text_prop "answer" ans = Text s /\ JsString.blank s = false)
  /\ forall next, prop "next" ans = Some next -> truthy next = true ->
                  includes_value allPageNames next = true.

(** What [validatePageJson] requires of a page for an empty list of
    errors. *)
Definition page_ok (allPageNames : list string) (pageData : json) : Prop :=
  (exists title, text_prop "title" pageData = Text title
                 /\ JsString.blank title = false
                 /\ JsString.utf16_length title <= title_maxLength)
  /\ (forall color, prop "background_color" pageData = Some color -> truthy color = true ->
                    background_color_pattern (toString color) = true)
  /\ (forall answers, prop "answers" pageData = Some (JArr answers) ->
                      Forall (answer_ok allPageNames) answers).

End Accepts.

(* ===================================================================== *)
(** ** Validation of the labyrinth settings ([src/labyrinth.js], validateConfig) *)
(* ===================================================================== *)

Module Config.
Import Json Validate Tags.

(** VALIDATION *)
Definition title_maxLength : nat := 100.
Definition description_maxLength : nat := 500.
Definition tags_maxLength : nat := 5.

Definition allowedExts : list string := ["bmp"; "jpg"; "jpeg"; "gif"; "png"].
Definition validVisibility : list string := ["hidden"; "count"; "list"; "full"].

(** [v.length] of a truthy value read from JSON: the length of a string
    or of an array, an own property of an object, [undefined] for a number
    or a boolean. *)
Inductive jsLength : Type :=
| LenUndefined
| LenNumber (n : nat)
| LenProperty (v : json).

Definition lengthOf (v : json) : jsLength :=
  match v with
  | JStr s => LenNumber (JsString.utf16_length s)
  | JArr items => LenNumber (length items)
  | JObj members =>
      match Json.assoc "length" members with
      | Some p => LenProperty p
      | None => LenUndefined
      end
  | _ => LenUndefined
  end.

(** [s.split('.').pop()]: what follows the last dot, the whole of [s]
    when it has none. *)
Fixpoint lastSegment_from (s : string) (current : string) : string :=
  match s with
  | EmptyString => String.rev current
  | String c s' =>
      if Ascii.eqb c "." then lastSegment_from s' EmptyString
      else lastSegment_from s' (String c current)
  end.

Definition lastSegment (s : string) : string := lastSegment_from s EmptyString.

(** [s.toLowerCase()], as far as a comparison with the allowed extensions
    can tell: the ASCII letters are folded.  (No other character
    lower-cases to one of the letters of those extensions.) *)
Fixpoint toLowerCase (s : string) : string :=
  match s with
  | EmptyString => EmptyString
  | String c s' => String (Js.lower c) (toLowerCase s')
  end.

(** [!TAG_MAP[tag]] for a string. *)
Definition unknownTag (s : string) : bool :=
  match TAG_MAP_get s with
  | Some id => negb (truthy_id id)
  | None => true
  end.

(** [tags.filter(tag => typeof tag === 'string' && !TAG_MAP[tag])] *)
Definition invalidTags (items : list json) : list string :=
  omap (fun tag => match tag with
                   | JStr s => if unknownTag s then Some s else None
                   | _ => None
                   end) items.

Section Validate.
(** [p > n] for an own property [length] that an object read from JSON
    holds: the relational comparison of JavaScript after its coercions. *)
Variable exceeds : json -> nat -> bool.

(** [v.length > n] *)
Definition longer (v : json) (n : nat) : bool :=
  match lengthOf v with
  | LenUndefined => false
  | LenNumber m => (n <? m)%nat
  | LenProperty p => exceeds p n
  end.

(** [`${v.length}`] *)
Definition lengthText (v : json) : string :=
  match lengthOf v with
  | LenUndefined => "undefined"
  | LenNumber m => Js.dec m
  | LenProperty p => toString p
  end.

(** [validateConfig(config)] for the members of the object that
    [labyrinth.json] holds: the errors, or the TypeError a wrongly typed
    setting raises.  ([main] calls it once [config.title] was truthy, which
    only an object passes.) *)
Definition validateConfig (config : list (string * json)) : res (list string) :=
  let normalized := JObj (Laby.normalizeConfig (JObj config)) in
  (* Required: title *)
  match
    match text_prop "title" normalized with
    | Falsy => Ok ["title 필드가 필요합니다."]
    | Text s =>
        if JsString.blank s then Ok ["title 필드가 필요합니다."]
        else if (title_maxLength <? JsString.utf16_length s)%nat
        then Ok ["title이 " +:+ Js.dec title_maxLength +:+ "자를 초과합니다."]
        else Ok []
    | NotText => Throw (typeError "normalized.title.trim is not a function")
    end
  with
  | Throw e => Throw e
  | Exit c => Exit c
  | Ok errors =>
      (* Description length *)
      let errors :=
        match prop "description" normalized with
        | Some d =>
            if truthy d && longer d description_maxLength
            then errors ++
                 [ "description이 " +:+ Js.dec description_maxLength
                   +:+ "자를 초과합니다. (현재: " +:+ lengthText d +:+ "자)" ]
            else errors
        | None => errors
        end in
      (* Tags count *)
      let errors :=
        match prop "tags" normalized with
        | Some t =>
            if truthy t && longer t tags_maxLength
            then errors ++ ["태그는 최대 " +:+ Js.dec tags_maxLength +:+ "개까지 가능합니다."]
            else errors
        | None => errors
        end in
      (* Validate tag names *)
      match
        match prop "tags" normalized with
        | Some t =>
            if truthy t && longer t 0 then
              match t with
              | JArr items =>
                  match invalidTags items with
                  | [] => Ok errors
                  | invalid => Ok (errors ++ ["알 수 없는 태그: " +:+ Main.join_comma invalid])
                  end
              | _ => Throw (typeError "normalized.tags.filter is not a function")
              end
            else Ok errors
        | None => Ok errors
        end
      with
      | Throw e => Throw e
      | Exit c => Exit c
      | Ok errors =>
          (* Image validation *)
          match
            match prop "image" normalized with
            | Some (JStr image) =>
                if Js.truthy_str image
                   && negb (bool_decide (toLowerCase (lastSegment image) ∈ allowedExts))
                then Ok (errors ++ ["이미지 형식이 잘못되었습니다. (허용: bmp, jpg, jpeg, gif, png)"])
                else Ok errors
            | Some v =>
                if truthy v
                then Throw (typeError "normalized.image.split is not a function")
                else Ok errors
            | None => Ok errors
            end
          with
          | Throw e => Throw e
          | Exit c => Exit c
          | Ok errors =>
              (* clear_visibility validation *)
              Ok match prop "clear_visibility" normalized with
                 | Some v =>
                     if truthy v && negb (includes_value validVisibility v)
                     then errors ++
                          ["clear_visibility 값이 잘못되었습니다. (허용: hidden, count, list, full)"]
                     else errors
                 | None => errors
                 end
          end
      end
  end.

End Validate.

(** An element of the array [tags] of the settings and the element of
    the argument of [tagsToIds] that stands for it. *)
Definition represents (item : json) (t : tag) : Prop :=
  match item, t with
  | JStr s, TagString s' => s = s'
  | JNum _, TagNumber _ => True
  | (JNull | JBool _ | JArr _ | JObj _), TagOther => True
  | _, _ => False
  end.

(** What [validateConfig] requires of the settings for an empty list of
    errors. *)
Definition config_ok (exceeds : json -> nat -> bool) (config : list (string * json)) : Prop :=
  let normalized := JObj (Laby.normalizeConfig (JObj config)) in
  (exists title, text_prop "title" normalized = Text title
                 /\ JsString.blank title = false
                 /\ JsString.utf16_length title <= title_maxLength)
  /\ (forall d, prop "description" normalized = Some d -> truthy d = true ->
                longer exceeds d description_maxLength = false)
  /\ (forall t, prop "tags" normalized = Some t -> truthy t = true ->
                longer exceeds t tags_maxLength = false
                /\ (longer exceeds t 0 = true ->
                    exists items, t = JArr items /\ invalidTags items = []))
  /\ (forall image, prop "image" normalized = Some (JStr image) ->
                    Js.truthy_str image = true ->
                    toLowerCase (lastSegment image) ∈ allowedExts)
  /\ (forall v, prop "clear_visibility" normalized = Some v -> truthy v = true ->
                includes_value validVisibility v = true).

(** The id [tagsToIds] pushes for an element, and the warning it logs
    for one. *)
Definition idOf (t : tag) : option tagId :=
  match t with
  | TagNumber n => Some (IdNumber n)
  | TagString s =>
      match TAG_MAP_get s with
      | Some id => if truthy_id id then Some id else None
      | None => None
      end
  | TagOther => None
  end.

(** An element [tagsToIds] looks at: a number or a string. *)
Definition counted (t : tag) : bool :=
  match t with
  | TagOther => false
  | _ => true
  end.

Definition warningOf (t : tag) : option string :=
  match t with
  | TagString s => if unknownTag s then Some ("[labyrinth] Unknown tag: " +:+ s) else None
  | _ => None
  end.

End Config.

(* ===================================================================== *)
(** ** The command line and the checks before the session ([upload.js]) *)
(* ===================================================================== *)

Module Cli.
Import Json Validate.

(** The result of [parseArgs]. *)
Record Options : Type := {
  contentFolder : option string;      (* [None] is [null] *)
  showBrowser : bool;
  verbose : bool;
  quiet : bool;
  help : bool;
}.

Definition noOptions : Options :=
  {| contentFolder := None; showBrowser := false; verbose := false;
     quiet := false; help := false |}.

(** One turn of the loop of [parseArgs]. *)
Definition parseArg (options : Options) (arg : string) : Options :=
  if String.eqb arg "--show-browser" then
    {| contentFolder := contentFolder options; showBrowser := true;
       verbose := verbose options; quiet := quiet options; help := help options |}
  else if String.eqb arg "--verbose" then
    {| contentFolder := contentFolder options; showBrowser := showBrowser options;
       verbose := true; quiet := quiet options; help := help options |}
  else if String.eqb arg "--quiet" || String.eqb arg "-q" then
    {| contentFolder := contentFolder options; showBrowser := showBrowser options;
       verbose := verbose options; quiet := true; help := help options |}
  else if String.eqb arg "--help" || String.eqb arg "-h" then
    {| contentFolder := contentFolder options; showBrowser := showBrowser options;
       verbose := verbose options; quiet := quiet options; help := true |}
  else if negb (String.prefix "-" arg) then
    {| contentFolder := Some arg; showBrowser := showBrowser options;
       verbose := verbose options; quiet := quiet options; help := help options |}
  else options.

(** [parseArgs()] on [process.argv.slice(2)]. *)
Definition parseArgs (args : list string) : Options := foldl parseArg noOptions args.

(** The methods of [log]. *)
Inductive channel : Type :=
| LogInfo | LogError | LogVerbose | LogSection | LogProgress | LogItem
| LogSubitem | LogSuccess | LogFail.

(** Whether a line logged on a channel is printed. *)
Definition printed (options : Options) (c : channel) : bool :=
  match c with
  | LogError | LogFail => true
  | LogVerbose => verbose options && negb (quiet options)
  | _ => negb (quiet options)
  end.

(** A file that is read and parsed as JSON. *)
Inductive file : Type :=
| Missing
| Unreadable (message : string)      (* [JSON.parse] raised *)
| Parsed (content : json).

(** [account.email || account.id] *)
Definition userIdOf (account : json) : option json :=
  match prop "email" account with
  | Some v => if truthy v then Some v else prop "id" account
  | None => prop "id" account
  end.

(** [loadAccount(contentPath)], given [account.json] at [accountPath]:
    the lines of [log.error], and the credentials or the exit. *)
Definition loadAccount (accountPath : string) (accountFile : file)
    : list string * res (json * json) :=
  match accountFile with
  | Missing =>
      ([ "account.json 파일을 찾을 수 없습니다: " +:+ accountPath;
         "account.json 파일을 생성해주세요.";
         "형식: { " +:+ Js.dq +:+ "email" +:+ Js.dq +:+ ": " +:+ Js.dq +:+ "이메일" +:+ Js.dq
           +:+ ", " +:+ Js.dq +:+ "password" +:+ Js.dq +:+ ": " +:+ Js.dq +:+ "비밀번호"
           +:+ Js.dq +:+ " }" ],
       Exit 1)
  | Unreadable message =>
      ([ "account.json 파일을 읽을 수 없습니다: " +:+ message;
         "JSON 형식이 올바른지 확인해주세요." ],
       Exit 1)
  | Parsed JNull =>
      ([], Throw (typeError "Cannot read properties of null (reading 'email')"))
  | Parsed account =>
      match userIdOf account, prop "password" account with
      | Some userId, Some password =>
          if truthy userId && truthy password then ([], Ok (userId, password))
          else
            ([ "account.json에 이메일과 비밀번호가 필요합니다.";
               "형식: { " +:+ Js.dq +:+ "email" +:+ Js.dq +:+ ": " +:+ Js.dq +:+ "이메일" +:+ Js.dq
                 +:+ ", " +:+ Js.dq +:+ "password" +:+ Js.dq +:+ ": " +:+ Js.dq +:+ "비밀번호"
                 +:+ Js.dq +:+ " }" ],
             Exit 1)
      | _, _ =>
          ([ "account.json에 이메일과 비밀번호가 필요합니다.";
             "형식: { " +:+ Js.dq +:+ "email" +:+ Js.dq +:+ ": " +:+ Js.dq +:+ "이메일" +:+ Js.dq
               +:+ ", " +:+ Js.dq +:+ "password" +:+ Js.dq +:+ ": " +:+ Js.dq +:+ "비밀번호"
               +:+ Js.dq +:+ " }" ],
           Exit 1)
      end
  end.

End Cli.

(* ===================================================================== *)
(** ** Retrying, in general                                               *)
(* ===================================================================== *)

Module RetryMore.
Import Retry.

Section Observed.
Context {B A : Type}.
Variable op : B -> res A * B.

(** The invocation (counted from 0) that decides a run in which
    invocation [i] is under way and [todo] more are allowed after it: the
    first from [i] on whose outcome is not transient, the last allowed one
    otherwise. *)
Fixpoint decidingFrom (b0 : B) (i todo : nat) : nat :=
  match todo with
  | O => i
  | S todo' => if transient (outcome op b0 i) then decidingFrom b0 (S i) todo' else i
  end.

End Observed.

(** What the log gains from invocation [i] on when invocation [k]
    decides: the invocation, then a delay and an invocation for each
    further attempt. *)
Definition gained (i k : nat) : list observed :=
  Invoked :: concat ((fun j => [Slept (delayMs * j); Invoked]) <$> seq (S i) (k - i)).

End RetryMore.

(* ===================================================================== *)
(** ** The inventory of the content folder ([upload.js], findPage...Files) *)
(* ===================================================================== *)

Module Scan.

(** What [fs.readdirSync] and [fs.statSync] show of a folder that can be
    read: its items in the order of the listing, each a directory with
    its own items, or a file (anything that is no directory). *)
#[local] Unset Elimination Schemes.
Inductive entry : Type :=
| File (item : string)
| Dir (item : string) (items : list entry).
#[local] Set Elimination Schemes.

Definition excludeDirs : list string := ["node_modules"; "lib"; ".git"; "preview"].

(** [s.endsWith(ext)] *)
Fixpoint endsWith (ext s : string) : bool :=
  String.eqb s ext
  || match s with
     | EmptyString => false
     | String _ s' => endsWith ext s'
     end.

Definition backslash : ascii := "092"%char.

(** [s.replace(/\\/g, '/')] *)
Fixpoint slashes (s : string) : string :=
  match s with
  | EmptyString => EmptyString
  | String c s' => String (if Ascii.eqb c backslash then "/"%char else c) (slashes s')
  end.

(** What follows [pat] at the head of [s], if [s] begins with [pat]. *)
Fixpoint stripPrefix (pat s : string) : option string :=
  match pat, s with
  | EmptyString, _ => Some s
  | String a pat', String b s' => if Ascii.eqb a b then stripPrefix pat' s' else None
  | String _ _, EmptyString => None
  end.

(** [s.replace(pat, '')] for a string [pat]: the first occurrence of
    [pat] goes, the later ones stay. *)
Fixpoint removeFirst (pat s : string) : string :=
  match stripPrefix pat s with
  | Some rest => rest
  | None =>
      match s with
      | EmptyString => EmptyString
      | String c s' => String c (removeFirst pat s')
      end
  end.

(** [path.relative(contentPath, path.join(dir, item))], where [dir] is
    below [contentPath] by the directories [dir], on a system whose
    separator is the slash.  (Where it is the backslash, [slashes] makes
    it the slash.) *)
Definition relativePath (dir : list string) (item : string) : string :=
  String.concat "/" (dir ++ [item]).

(** [relativePath.replace(/\\/g, '/').replace(ext, '')] *)
Definition pageNameOf (ext rel : string) : string := removeFirst ext (slashes rel).

Section ScanDir.
(** The test a file passes to be listed, and the extension taken off. *)
Variable wanted : string -> bool.
Variable ext : string.

(** One turn of the loop of [scanDir], in the directory [dir]. *)
Fixpoint scanItem (dir : list string) (e : entry) : list string :=
  match e with
  | Dir item items =>
      if bool_decide (item ∈ excludeDirs) then []
      else concat (List.map (scanItem (dir ++ [item])) items)
  | File item =>
      if wanted item then [pageNameOf ext (relativePath dir item)] else []
  end.

Definition scanDir (dir : list string) (items : list entry) : list string :=
  concat (List.map (scanItem dir) items).

(** The relative paths of the files that are listed, in the same
    order. *)
Fixpoint filesOfItem (dir : list string) (e : entry) : list string :=
  match e with
  | Dir item items =>
      if bool_decide (item ∈ excludeDirs) then []
      else concat (List.map (filesOfItem (dir ++ [item])) items)
  | File item => if wanted item then [relativePath dir item] else []
  end.

Definition filesOf (dir : list string) (items : list entry) : list string :=
  concat (List.map (filesOfItem dir) items).

End ScanDir.

Definition wantedHtml (item : string) : bool := endsWith ".html" item.

Definition wantedJson (item : string) : bool :=
  endsWith ".json" item && negb (endsWith ".meta" item)
  && negb (bool_decide (item ∈ ["labyrinth.json"; "account.json"])).

Definition wantedMeta (item : string) : bool :=
  endsWith ".meta" item && negb (bool_decide (item ∈ ["labyrinth.meta"])).

(** [findPageHtmlFiles(contentPath)], [findPageJsonFiles(contentPath)]
    and [findPageMetaFiles(contentPath)] on the items of the content
    folder. *)
Definition findPageHtmlFiles (items : list entry) : list string :=
  scanDir wantedHtml ".html" [] items.

Definition findPageJsonFiles (items : list entry) : list string :=
  scanDir wantedJson ".json" [] items.

Definition findPageMetaFiles (items : list entry) : list string :=
  scanDir wantedMeta ".meta" [] items.

(** The file [item] lies in the directory [dir] below the folder with the
    items [items], and no directory on the way to it is excluded. *)
Inductive visible : list entry -> list string -> string -> Prop :=
| visible_file items item :
    File item ∈ items -> visible items [] item
| visible_dir items d sub dir item :
    Dir d sub ∈ items -> d ∉ excludeDirs -> visible sub dir item ->
    visible items (d :: dir) item.

(** A relative path that the derivation of the page name leaves intact:
    it holds no backslash, and [ext] nowhere but at its end. *)
Definition clean (ext rel : string) : Prop :=
  slashes rel = rel
  /\ forall pre post, rel = pre +:+ ext +:+ post -> post = EmptyString.

(** The same as a test: every place where [ext] begins in [rel] is
    followed by nothing else. *)
Fixpoint endsEach (ext rel : string) : bool :=
  match stripPrefix ext rel with
  | Some rest => String.eqb rest EmptyString
  | None => true
  end
  && match rel with
     | EmptyString => true
     | String _ rel' => endsEach ext rel'
     end.

Definition cleanb (ext rel : string) : bool :=
  String.eqb (slashes rel) rel && endsEach ext rel.

(** A folder with a settings file, a page in a directory, and a library
    directory. *)
Definition sample : list entry :=
  [ File "labyrinth.json"; File "labyrinth.meta";
    Dir "page" [ File "a.html"; File "a.json"; File "a.meta"; File "account.json" ];
    Dir "lib" [ File "viewer.html" ] ].

End Scan.

(* ===================================================================== *)
(** ** Before the session ([upload.js], the head of main)                  *)
(* ===================================================================== *)

Module Preflight.
Import Json Validate Config Cli.

(** What [main] has in hand when it opens the session. *)
Record Ready : Type := {
  options : Options;
  contentPath : string;
  settings : list (string * json);      (* the members of [config] *)
  userId : json;
  password : json;
}.

Section Preflight.
(** [p > n] for an own property [length] of an object, as in [Config]. *)
Variable exceeds : json -> nat -> bool.
(** [path.resolve] and [path.join]. *)
Variable resolve : string -> string.
Variable join : string -> string -> string.
(** [fs.existsSync] on a folder, and a file as [fs.existsSync],
    [fs.readFileSync] and [JSON.parse] find it. *)
Variable folderExists : string -> bool.
Variable readJson : string -> file.

(** [main] up to the [try] block: the lines of [log.error], and what the
    session starts from, or the way the process ends.  (What goes to the
    standard output, the help text included, is left out.) *)
Definition preflight (args : list string) : list string * res Ready :=
  let args := parseArgs args in
  (* Show help if requested *)
  if help args then ([], Exit 0)
  else
    (* Validate content folder argument *)
    match contentFolder args with
    | None => (["콘텐츠 폴더가 지정되지 않았습니다."; ""], Exit 1)
    | Some contentFolder =>
        if negb (Js.truthy_str contentFolder)
        then (["콘텐츠 폴더가 지정되지 않았습니다."; ""], Exit 1)
        else
          let contentPath := resolve contentFolder in
          let configPath := join contentPath "labyrinth.json" in
          (* Check if content folder exists *)
          if negb (folderExists contentPath)
          then (["콘텐츠 폴더를 찾을 수 없습니다: " +:+ contentPath;
                 "경로를 확인해주세요."], Exit 1)
          else
            (* Read config *)
            match readJson configPath with
            | Missing =>
                (["labyrinth.json 파일을 찾을 수 없습니다: " +:+ configPath;
                  "콘텐츠 폴더에 labyrinth.json 파일을 생성해주세요."], Exit 1)
            | Unreadable message =>
                (["labyrinth.json 파일을 읽을 수 없습니다: " +:+ message;
                  "JSON 형식이 올바른지 확인해주세요."], Exit 1)
            | Parsed JNull =>
                ([], Throw (typeError "Cannot read properties of null (reading 'title')"))
            | Parsed config =>
                if negb (truthy_prop "title" config)
                then (["labyrinth.json에 title 필드가 없습니다.";
                       "미궁 제목을 지정해주세요."], Exit 1)
                else
                  (* Load account credentials *)
                  match loadAccount (join contentPath "account.json")
                          (readJson (join contentPath "account.json")) with
                  | (lines, Throw e) => (lines, Throw e)
                  | (lines, Exit code) => (lines, Exit code)
                  | (lines, Ok (userId, password)) =>
                      (* Validate config; only an object has a [title] *)
                      let members := match config with JObj members => members | _ => [] end in
                      match validateConfig exceeds members with
                      | Throw e => (lines, Throw e)
                      | Exit code => (lines, Exit code)
                      | Ok [] =>
                          (lines,
                           Ok {| options := args; contentPath := contentPath;
                                 settings := members; userId := userId;
                                 password := password |})
                      | Ok errors =>
                          (lines ++ "설정 검증 실패:" :: ((fun err => "  - " +:+ err) <$> errors),
                           Exit 1)
                      end
                  end
            end
    end.

End Preflight.

End Preflight.

(* ===================================================================== *)
(** ** What the site is asked for one page                                 *)
(* ===================================================================== *)

Module Protocol.
Import Json PageData Main.

Definition is_upload (c : Call) : bool :=
  match c with
  | UploadImage _ => true
  | _ => false
  end.

(** The calls of a trace that the site answered, the image uploads left
    out. *)
Definition formCalls (t : list Event) : list Call :=
  List.filter (fun c => negb (is_upload c)) (answered t).*1.

(** [addAnswer(page, ans.answer, ans.public || false, ans.explanationHtml)] *)
Definition answerCall (a : json * string) : Call :=
  AddAnswer (prop "answer" a.1) (or_else (prop "public" a.1) (JBool false)) a.2.

(** The explanation the script passes on for an answer: the text of
    [ans.explanation || ''], with the uploaded images put in if there were
    any. *)
Definition explained (replaceLocalImages : string -> list (string * string) -> string)
    (a : json * string) : Prop :=
  exists explanation,
    explanationOf a.1 = Ok explanation
    /\ (a.2 = explanation
        \/ exists substitution, a.2 = replaceLocalImages explanation substitution).

End Protocol.

(* ===================================================================== *)
(** ** More examples                                                       *)
(* ===================================================================== *)

Module Sample.
Import Json States Main.

(** Step 2 on the two pages of [Example.tree_ab]. *)
Definition ab_sync : res LabyMeta * World Example.Site :=
  Eval vm_compute in
    Main.syncLabyrinth Example.site Example.joinContentPath
      (Example.world Example.tree_ab Example.site0).

Definition ab_fingerprint : string :=
  Eval vm_compute in
    match Laby.computeLabyrinthHash Example.joinContentPath Example.config0 ∅ with
    | Ok h => h
    | _ => ""
    end.

(** The inventory of [Example.tree_recreate] and what the run loads from
    it. *)
Definition names_ab : list string := ["page/a"; "page/b"].

Definition metas_a : gmap string PageMeta :=
  {[ "page/a" := {| pm_id := Some "55"; pm_hash := None;
                    pm_is_first := None; pm_is_ending := None |} ]}.

Definition loaded_ab : JsObject.obj PageInfo :=
  Eval vm_compute in Example.recreate_survey.1.2.

Definition plan_ab : Plan :=
  Eval vm_compute in
    match makePlan (determinePageStates names_ab names_ab ["page/a"] [] metas_a) []
            loaded_ab with
    | Ok (plan, _) => plan
    | _ => {| newPages := []; updatedPages := []; unchangedPages := [];
              allPagesToDelete := []; metasToDelete := [] |}
    end.

Definition prepared_ab : JsObject.obj PageInfo :=
  Eval vm_compute in
    match makePlan (determinePageStates names_ab names_ab ["page/a"] [] metas_a) []
            loaded_ab with
    | Ok (_, prepared) => prepared
    | _ => []
    end.

(** The two pages once both have been created, A as page 101 and B as
    page 102, as the link phase finds them. *)
Definition linked_pages : JsObject.obj PageInfo :=
  [ ("page/a",
     {| pi_html := "<p>A</p>"; pi_json := Example.pageA;
        pi_meta := {| pm_id := Some "101"; pm_hash := None;
                      pm_is_first := Some true; pm_is_ending := Some (JBool false) |};
        pi_hash := ""; pi_finalHtml := Some "<p>A</p>" |});
    ("page/b",
     {| pi_html := "<p>B</p>"; pi_json := Example.pageB;
        pi_meta := {| pm_id := Some "102"; pm_hash := None;
                      pm_is_first := Some false; pm_is_ending := Some (JBool true) |};
        pi_hash := ""; pi_finalHtml := Some "<p>B</p>" |}) ].

Definition linked_plan : Plan :=
  {| newPages := ["page/a"; "page/b"]; updatedPages := []; unchangedPages := [];
     allPagesToDelete := []; metasToDelete := [] |}.

Definition linked_map : JsObject.obj string :=
  Eval vm_compute in pageIdMapOf linked_pages.

Definition linked_connections : JsObject.obj (list Source) :=
  Eval vm_compute in
    match connectionsOf linked_plan linked_map linked_pages with
    | Ok connections => connections
    | _ => []
    end.

Definition linked_vars : Vars :=
  {| labyMeta := emptyLabyMeta; imageCache := ∅; pageIds := ["101"; "102"];
     aliased := false; pages := linked_pages; counts := noCounts |}.

(** The link phase on these, in front of the site as the first run of
    the example left it. *)
Definition linked_run : res Vars * World Example.Site :=
  Eval vm_compute in
    Main.linkPhase Example.site "7199" linked_map linked_plan linked_vars
      (Example.again Example.ab_done).

Definition linked_vars' : Vars :=
  Eval vm_compute in match linked_run.1 with Ok v => v | _ => linked_vars end.

(** Page A created once more, and page A updated, in front of the same
    site. *)
Definition create_run : res Vars * World Example.Site :=
  Eval vm_compute in
    Main.createOne Example.site Example.imageRefs Example.replaceLocalImages
      "7199" (Some (JStr "page/a")) linked_vars "page/a" (Example.again Example.ab_done).

Definition create_vars : Vars :=
  Eval vm_compute in match create_run.1 with Ok v => v | _ => linked_vars end.

Definition update_run : res Vars * World Example.Site :=
  Eval vm_compute in
    Main.updateOne Example.site Example.imageRefs Example.replaceLocalImages
      "7199" (Some (JStr "page/a")) linked_vars "page/a" (Example.again Example.ab_done).

Definition update_vars : Vars :=
  Eval vm_compute in match update_run.1 with Ok v => v | _ => linked_vars end.

Definition pageInfoA : PageInfo :=
  Eval vm_compute in
    match JsObject.get "page/a" linked_pages with
    | Some p => p
    | None => {| pi_html := ""; pi_json := JNull;
                 pi_meta := {| pm_id := None; pm_hash := None;
                               pm_is_first := None; pm_is_ending := None |};
                 pi_hash := ""; pi_finalHtml := None |}
    end.

(** The two pages and a third one whose [.html] file is empty, and a run
    on them. *)
Definition tree_empty : Disk :=
  {| config := Example.config0; labyMetaFile := None;
     htmlFiles := {[ "page/a" := "<p>A</p>"; "page/b" := "<p>B</p>"; "page/c" := "" ]};
     jsonFiles := {[ "page/a" := Example.pageA; "page/b" := Example.pageB;
                     "page/c" := Example.pageB ]};
     metaFiles := ∅; assets := ∅ |}.

Definition empty_run : res Main.Counts * World Example.Site :=
  Eval vm_compute in Example.main (Example.world tree_empty Example.site0).

(** The checksum of the image file of the examples. *)
Definition png_sum : string := Eval vm_compute in Md5.md5 "PNG bytes".

(** Settings with two tags. *)
Definition settings : list (string * json) :=
  [ ("title", JStr "Example"); ("tags", JArr [JStr "puzzle"; JNum "7"]);
    ("image", JStr "title.PNG"); ("clear_visibility", JStr "list") ].

(** No object of the examples has a [length] of its own. *)
Definition never (v : json) (n : nat) : bool := false.

End Sample.

(* ===================================================================== *)
(** * Part II: theorems                                                    *)
(* ===================================================================== *)

(** ** The retry wrapper *)

Module RetryFacts.
Import Retry.

Lemma retryable_timeout : retryableMessage "Navigation timeout of 60000 ms exceeded" = true.
Proof. reflexivity. Qed.

Lemma retryable_case_insensitive : retryableMessage "econnreset by peer" = true.
Proof. reflexivity. Qed.

Lemma not_retryable_selector : retryableMessage "No element found for selector: #imgBtn" = false.
Proof. reflexivity. Qed.

Section Observed.
Context {B A : Type}.
Variable op : B -> res A * B.

(** C9.  [withRetry] with its default of three attempts, run on any
    stateful operation: the run is decided by the first invocation whose
    outcome is not a transient error, or by the third invocation whatever
    it answers; that outcome is what the caller gets (a value is returned,
    an error is rethrown), no invocation follows it, and before attempt
    [i+1] the wrapper waits [1000 * i] ms. *)
Theorem withRetry_default_attempts (b0 : B) :
  withRetry (sleep (B:=B)) (fn op) maxRetries (b0, []) =
    (propagated (outcome op b0 (deciding op b0)),
     (state_after op b0 (S (deciding op b0)), schedule (deciding op b0))).
Proof.
  unfold deciding, outcome, withRetry, maxRetries.
  cbv [withRetry_loop try_catch bind isRetryableError ret throw fn sleep fst snd].
  simpl state_after.
  destruct (op b0) as [r1 b1] eqn:E1. simpl.
  destruct r1 as [v|[m|]|c]; simpl; rewrite ?E1; try reflexivity.
  destruct (retryableMessage m) eqn:Rm; simpl; rewrite ?E1; simpl; [|reflexivity].
  destruct (op b1) as [r2 b2] eqn:E2. simpl.
  destruct r2 as [v|[m2|]|c]; simpl; rewrite ?E1; simpl; rewrite ?E2; try reflexivity.
  destruct (retryableMessage m2) eqn:Rm2; simpl; rewrite ?E1; simpl; rewrite ?E2; simpl;
    [|reflexivity].
  destruct (op b2) as [r3 b3] eqn:E3. simpl.
  destruct r3 as [v|[m3|]|c]; simpl; try reflexivity.
  destruct (retryableMessage m3); reflexivity.
Qed.

End Observed.
End RetryFacts.

(** ** Tags *)

Module TagsFacts.
Import Tags.

Lemma tagsToIds_loop_length tags : forall ids warns,
  length (fst (tagsToIds_loop tags ids warns)) <= length ids + length tags.
Proof.
  induction tags as [|t tags IH]; intros ids warns; cbn [tagsToIds_loop].
  - cbn. lia.
  - destruct t as [n|s|].
    + specialize (IH (ids ++ [IdNumber n]) warns). rewrite length_app in IH. cbn in *. lia.
    + destruct (TAG_MAP_get s) as [id|]; [destruct (truthy_id id)|].
      * specialize (IH (ids ++ [id]) warns). rewrite length_app in IH. cbn in *. lia.
      * specialize (IH ids (warns ++ ["[labyrinth] Unknown tag: " +:+ s])). cbn in *. lia.
      * specialize (IH ids (warns ++ ["[labyrinth] Unknown tag: " +:+ s])). cbn in *. lia.
    + specialize (IH ids warns). cbn in *. lia.
Qed.

(** Whatever the input, at most five entries come back. *)
Lemma tagsToIds_at_most_5 tags : length (tagsToIds tags) <= 5.
Proof.
  unfold tagsToIds, tagsToIds_log. destruct tags as [l|]; [|cbn; lia].
  destruct (tagsToIds_loop l [] []) as [ids warns]. cbn [fst].
  rewrite length_take. lia.
Qed.

(** Numbers pass through without any membership check. *)
Lemma tagsToIds_numbers_pass :
  tagsToIds (Some [TagNumber 99; TagNumber 0; TagNumber (-3)])
  = [IdNumber 99; IdNumber 0; IdNumber (-3)]%Z.
Proof. reflexivity. Qed.

Lemma tagsToIds_known_names :
  tagsToIds_log (Some [TagString "puzzle"; TagString "단편미궁"; TagString "nope"])
  = ([IdNumber 21; IdNumber 18]%Z, ["[labyrinth] Unknown tag: nope"]).
Proof. reflexivity. Qed.

Lemma tagsToIds_truncates :
  tagsToIds (Some (map TagNumber [1; 2; 3; 4; 5; 6; 7]%Z))
  = map IdNumber [1; 2; 3; 4; 5]%Z.
Proof. reflexivity. Qed.

(** C10 (evaluation at the failing input).  The name of a member of
    [Object.prototype] is no tag, yet [TAG_MAP[tag]] finds the inherited
    member: it is pushed instead of being dropped, no warning is logged, and
    the result holds an entry that is no number. *)
Theorem tagsToIds_inherited_key :
  tagsToIds_log (Some [TagString "constructor"; TagString "puzzle"])
  = ([IdInherited "constructor"; IdNumber 21], []).
Proof. reflexivity. Qed.

End TagsFacts.

(** ** MD5 and the page fingerprint *)

Module HashFacts.
Import Json JsonText Hash.

Example md5_empty : Md5.md5 "" = "d41d8cd98f00b204e9800998ecf8427e".
Proof. vm_compute. reflexivity. Qed.

Example md5_abc : Md5.md5 "abc" = "900150983cd24fb0d6963f7d28e17f72".
Proof. vm_compute. reflexivity. Qed.

Example md5_two_blocks :
  Md5.md5 "aaaaaaaaaaaaaaaaaaaaaaaaaaaaaaaaaaaaaaaaaaaaaaaaaaaaaaaaaaaaaaaa"
  = "014842d480b571495a4a0363793f7367".
Proof. vm_compute. reflexivity. Qed.

Example md5_utf8 : Md5.md5 "미궁" = "399595367fe6715c66174da5ace8ff0a".
Proof. vm_compute. reflexivity. Qed.


#[local] Arguments String.append : simpl nomatch.

Lemma sapp_assoc (a b c : string) : (a +:+ b) +:+ c = a +:+ b +:+ c.
Proof. induction a as [|x a IH]; simpl; [done|]. by rewrite IH. Qed.

Lemma sapp_nil_r (a : string) : a +:+ "" = a.
Proof. induction a as [|x a IH]; simpl; [done|]. by rewrite IH. Qed.

(** Nested induction over JSON values. *)
Lemma json_ind' (P : json -> Prop) :
  P JNull ->
  (forall b, P (JBool b)) ->
  (forall literal, P (JNum literal)) ->
  (forall s, P (JStr s)) ->
  (forall items, Forall P items -> P (JArr items)) ->
  (forall members, Forall (fun kv => P kv.2) members -> P (JObj members)) ->
  forall j, P j.
Proof.
  intros Hnull Hbool Hnum Hstr Harr Hobj.
  fix IH 1. intros [ |b|literal|s|items|members].
  - exact Hnull.
  - apply Hbool.
  - apply Hnum.
  - apply Hstr.
  - apply Harr. induction items as [|x items IHitems]; constructor; [apply IH|exact IHitems].
  - apply Hobj. induction members as [|[k v] members IHm]; constructor; [apply IH|exact IHm].
Qed.

Lemma unescape_escape_char (c : ascii) (r : string) :
  unescape_head (escape_char c +:+ r) = Some (c, r).
Proof. destruct c as [[] [] [] [] [] [] [] []]; reflexivity. Qed.

Lemma unescape_dq (r : string) : unescape_head (Js.dq +:+ r) = None.
Proof. reflexivity. Qed.

Lemma escape_prefix_free (s1 : string) : forall s2 r1 r2,
  escape s1 +:+ Js.dq +:+ r1 = escape s2 +:+ Js.dq +:+ r2 ->
  s1 = s2 /\ r1 = r2.
Proof.
  induction s1 as [|c1 s1 IH]; intros [|c2 s2] r1 r2 H; cbn [escape] in H.
  - simpl in H. by simplify_eq.
  - rewrite sapp_assoc in H. apply (f_equal unescape_head) in H.
    change ("" +:+ Js.dq +:+ r1) with (Js.dq +:+ r1) in H.
    by rewrite unescape_dq, unescape_escape_char in H.
  - rewrite sapp_assoc in H. apply (f_equal unescape_head) in H.
    change ("" +:+ Js.dq +:+ r2) with (Js.dq +:+ r2) in H.
    by rewrite unescape_dq, unescape_escape_char in H.
  - rewrite !sapp_assoc in H. apply (f_equal unescape_head) in H.
    rewrite !unescape_escape_char in H. injection H as -> H.
    destruct (IH _ _ _ H) as [-> ->]. done.
Qed.

Lemma quote_prefix_free (s1 s2 r1 r2 : string) :
  quote s1 +:+ r1 = quote s2 +:+ r2 -> s1 = s2 /\ r1 = r2.
Proof.
  unfold quote. rewrite !sapp_assoc. intros H.
  apply String.app_inj in H. by apply escape_prefix_free.
Qed.

(** *** Numbers *)

Lemma numeric_prefix_free (l1 : string) : forall l2 r1 r2,
  forallb numeric_char (list_ascii_of_string l1) = true ->
  forallb numeric_char (list_ascii_of_string l2) = true ->
  terminated r1 -> terminated r2 ->
  l1 +:+ r1 = l2 +:+ r2 -> l1 = l2 /\ r1 = r2.
Proof.
  induction l1 as [|c1 l1 IH]; intros [|c2 l2] r1 r2 W1 W2 T1 T2 H; simpl in *.
  - done.
  - subst r1. simpl in T1. apply andb_prop in W2 as [W2 _]. congruence.
  - subst r2. simpl in T2. apply andb_prop in W1 as [W1 _]. congruence.
  - injection H as -> H. apply andb_prop in W1 as [_ W1]. apply andb_prop in W2 as [_ W2].
    destruct (IH _ _ _ W1 W2 T1 T2 H) as [-> ->]. done.
Qed.

(** *** Values *)

Lemma numeric_char_kind c r :
  numeric_char c = true -> kind_of_head (String c r) = Some KNum.
Proof.
  unfold numeric_char. cbn [existsb list_ascii_of_string]. intros H.
  repeat (apply orb_prop in H as [H|H];
          [apply Ascii.eqb_eq in H; subst c; reflexivity|]).
  discriminate.
Qed.

Lemma stringify_head (j : json) (r : string) :
  parsed j = true -> kind_of_head (stringify j +:+ r) = Some (kind_of j).
Proof.
  destruct j as [ |[]|literal|s|[|x items]|[|[k v] members]]; intros W; try reflexivity.
  cbn [parsed stringify kind_of] in *. apply andb_prop in W as [W1 W2].
  destruct literal as [|c literal]; [done|].
  cbn [list_ascii_of_string forallb] in W2. apply andb_prop in W2 as [W2 _].
  change (String c literal +:+ r) with (String c (literal +:+ r)).
  by apply numeric_char_kind.
Qed.

Lemma stringify_kind (j1 j2 : json) (r1 r2 : string) :
  parsed j1 = true -> parsed j2 = true ->
  stringify j1 +:+ r1 = stringify j2 +:+ r2 -> kind_of j1 = kind_of j2.
Proof.
  intros W1 W2 H. apply (f_equal kind_of_head) in H.
  rewrite !stringify_head in H by done. congruence.
Qed.

Lemma stringify_not_closing (j : json) (r r' : string) (c : ascii) :
  parsed j = true -> kind_of_head (String c r') = None ->
  String c r' <> stringify j +:+ r.
Proof.
  intros W Hc H. apply (f_equal kind_of_head) in H.
  rewrite stringify_head in H by done. congruence.
Qed.

Lemma stringify_arr x items :
  stringify (JArr (x :: items)) = "[" +:+ stringify x +:+ more_items items.
Proof. reflexivity. Qed.

Lemma stringify_obj k v members :
  stringify (JObj ((k, v) :: members))
  = "{" +:+ quote k +:+ ":" +:+ stringify v +:+ more_members members.
Proof. reflexivity. Qed.

Lemma parsed_obj members : parsed (JObj members) = all_parsed members.
Proof. reflexivity. Qed.

Lemma more_items_nil r : more_items [] +:+ r = String "]" r.
Proof. reflexivity. Qed.

Lemma more_items_cons x l r :
  more_items (x :: l) +:+ r = String "," (stringify x +:+ more_items l +:+ r).
Proof. cbn [more_items]. by rewrite !sapp_assoc. Qed.

Lemma more_members_nil r : more_members [] +:+ r = String "}" r.
Proof. reflexivity. Qed.

Lemma more_members_cons k v l r :
  more_members ((k, v) :: l) +:+ r
  = String "," (quote k +:+ String ":" (stringify v +:+ more_members l +:+ r)).
Proof. cbn [more_members]. by rewrite !sapp_assoc. Qed.

Lemma stringify_arr_app x items r :
  stringify (JArr (x :: items)) +:+ r
  = String "[" (stringify x +:+ more_items items +:+ r).
Proof. rewrite stringify_arr. by rewrite !sapp_assoc. Qed.

Lemma stringify_obj_app k v members r :
  stringify (JObj ((k, v) :: members)) +:+ r
  = String "{" (quote k +:+ String ":" (stringify v +:+ more_members members +:+ r)).
Proof. rewrite stringify_obj. by rewrite !sapp_assoc. Qed.

Lemma more_items_terminated l r : terminated (more_items l +:+ r).
Proof. destruct l; reflexivity. Qed.

Lemma more_members_terminated l r : terminated (more_members l +:+ r).
Proof. destruct l as [|[??]?]; reflexivity. Qed.

Lemma more_items_prefix_free (l1 : list json) :
  Forall prefix_free l1 -> forall l2 r1 r2,
  forallb parsed l1 = true -> forallb parsed l2 = true ->
  more_items l1 +:+ r1 = more_items l2 +:+ r2 -> l1 = l2 /\ r1 = r2.
Proof.
  induction 1 as [|x1 l1 Hx _ IH]; intros [|x2 l2] r1 r2 W1 W2 H;
    rewrite ?more_items_nil, ?more_items_cons in H; try discriminate H.
  - by injection H as ->.
  - cbn [forallb] in W1, W2. apply andb_prop in W1 as [Wx1 W1], W2 as [Wx2 W2].
    injection H as H.
    destruct (Hx x2 _ _ Wx1 Wx2 (more_items_terminated _ _) (more_items_terminated _ _) H)
      as [-> H'].
    destruct (IH _ _ _ W1 W2 H') as [-> ->]. done.
Qed.

Lemma more_members_prefix_free (l1 : list (string * json)) :
  Forall (fun kv => prefix_free kv.2) l1 -> forall l2 r1 r2,
  all_parsed l1 = true -> all_parsed l2 = true ->
  more_members l1 +:+ r1 = more_members l2 +:+ r2 -> l1 = l2 /\ r1 = r2.
Proof.
  induction 1 as [|[k1 v1] l1 Hx _ IH]; intros [|[k2 v2] l2] r1 r2 W1 W2 H;
    rewrite ?more_members_nil, ?more_members_cons in H; try discriminate H.
  - by injection H as ->.
  - cbn [all_parsed] in W1, W2. apply andb_prop in W1 as [Wx1 W1], W2 as [Wx2 W2].
    cbn [snd] in Hx. injection H as H. rewrite !sapp_assoc in H.
    apply escape_prefix_free in H as [-> H]. injection H as H.
    destruct (Hx v2 _ _ Wx1 Wx2 (more_members_terminated _ _) (more_members_terminated _ _) H)
      as [-> H'].
    destruct (IH _ _ _ W1 W2 H') as [-> ->]. done.
Qed.

Lemma stringify_prefix_free (j : json) : prefix_free j.
Proof.
  induction j as [ |b1|l1|s1|items1 IH|members1 IH] using json_ind';
    intros j2 r1 r2 W1 W2 T1 T2 H;
    pose proof (stringify_kind _ _ _ _ W1 W2 H) as K;
    destruct j2 as [ |b2|l2|s2|items2|members2];
    try (destruct b1); try (destruct b2); try discriminate K.
  - by injection H as ->.
  - by injection H as ->.
  - by injection H as ->.
  - cbn [stringify parsed] in *.
    apply andb_prop in W1 as [_ W1], W2 as [_ W2].
    destruct (numeric_prefix_free _ _ _ _ W1 W2 T1 T2 H) as [-> ->]. done.
  - cbn [stringify] in H. apply quote_prefix_free in H as [-> ->]. done.
  - destruct items1 as [|x1 l1], items2 as [|x2 l2];
      rewrite ?stringify_arr_app in H.
    + by injection H as ->.
    + injection H as H. exfalso. cbn [parsed forallb] in W2.
      apply andb_prop in W2 as [W2 _].
      by eapply (stringify_not_closing x2 _ _ "]"%char).
    + injection H as H. exfalso. cbn [parsed forallb] in W1.
      apply andb_prop in W1 as [W1 _]. symmetry in H.
      by eapply (stringify_not_closing x1 _ _ "]"%char).
    + injection H as H. cbn [parsed forallb] in W1, W2.
      apply andb_prop in W1 as [Wx1 W1], W2 as [Wx2 W2].
      inversion IH as [|? ? Hx Hl]; subst.
      destruct (Hx x2 _ _ Wx1 Wx2 (more_items_terminated _ _) (more_items_terminated _ _) H)
        as [-> H'].
      destruct (more_items_prefix_free _ Hl _ _ _ W1 W2 H') as [-> ->]. done.
  - rewrite !parsed_obj in *.
    destruct members1 as [|[k1 v1] l1], members2 as [|[k2 v2] l2];
      rewrite ?stringify_obj_app in H.
    + by injection H as ->.
    + injection H as H. exfalso. destruct r1; discriminate H.
    + injection H as H. exfalso. destruct r2; discriminate H.
    + injection H as H. rewrite !sapp_assoc in H.
    apply escape_prefix_free in H as [-> H]. injection H as H.
      cbn [all_parsed] in W1, W2.
      apply andb_prop in W1 as [Wx1 W1], W2 as [Wx2 W2].
      inversion IH as [|? ? Hx Hl]; subst. cbn [snd] in Hx.
      destruct (Hx v2 _ _ Wx1 Wx2 (more_members_terminated _ _) (more_members_terminated _ _) H)
        as [-> H'].
      destruct (more_members_prefix_free _ Hl _ _ _ W1 W2 H') as [-> ->]. done.
Qed.


Lemma sort_perm (l1 l2 : list string) : l1 ≡ₚ l2 -> sort l1 = sort l2.
Proof.
  intros HP. unfold sort.
  apply (Sorted_unique String.le); try apply Sorted_merge_sort; try apply _.
  by rewrite !merge_sort_Permutation.
Qed.

Lemma combined_text html j imgs :
  combined html j imgs = stringify (JObj [("html", JStr html); ("json", j);
                                          ("images", JArr (JStr <$> sort imgs))]).
Proof. reflexivity. Qed.

Lemma parsed_strings (l : list string) : forallb parsed (JStr <$> l) = true.
Proof. induction l; [done|]. cbn. done. Qed.

Lemma combined_inj h1 j1 i1 h2 j2 i2 :
  parsed j1 = true -> parsed j2 = true ->
  combined h1 j1 i1 = combined h2 j2 i2 ->
  h1 = h2 /\ j1 = j2 /\ i1 ≡ₚ i2.
Proof.
  intros W1 W2 H. rewrite !combined_text in H.
  rewrite <-(sapp_nil_r (stringify (JObj (("html", JStr h1) :: _)))) in H.
  rewrite <-(sapp_nil_r (stringify (JObj (("html", JStr h2) :: _)))) in H.
  apply stringify_prefix_free in H as [H _]; try done.
  - injection H as -> -> H. split_and!; [done..|].
    assert (Inj (=) (=) JStr) by (by intros ?? [= ->]).
    apply (inj (fmap JStr)) in H.
    by rewrite <-(merge_sort_Permutation String.le i1), <-(merge_sort_Permutation String.le i2);
      unfold sort in H; rewrite H.
  - cbn. rewrite W1. cbn. by rewrite parsed_strings.
  - cbn. rewrite W2. cbn. by rewrite parsed_strings.
Qed.





End HashFacts.

(** ** Page classification *)

Module StatesFacts.
Import States.

(** One step of a classification loop against the matching [filter]s. *)
Ltac filter_step :=
  cbn; repeat case_decide; try tauto; cbn;
  repeat match goal with H : ?b = _ |- context [?b] => rewrite H end;
  rewrite <-?app_assoc; reflexivity.

Lemma fmap_fmap_id {A B} (f : B -> A) (g : A -> B) (l : list A) :
  (forall x, f (g x) = x) -> f <$> (g <$> l) = l.
Proof. intros H. induction l as [|x l IH]; cbn; [done|]. by rewrite H, IH. Qed.

Section Determine.
Variables htmlNames jsonNames metaNames pageIds : list string.
Variable metas : gmap string PageMeta.

Abbreviation metaIdOf := (metaIdOf metas).
Abbreviation inPageIdsOf := (inPageIdsOf pageIds).
Abbreviation idToName := (idToName metaNames metas).
Abbreviation determinePageStates :=
  (determinePageStates htmlNames jsonNames metaNames pageIds metas).

Abbreviation isNormal := (isNormal jsonNames metaNames pageIds metas).
Abbreviation isNew := (isNew jsonNames metaNames).
Abbreviation isMissing := (isMissing jsonNames metaNames pageIds metas).
Abbreviation isUnclassified := (isUnclassified jsonNames metaNames metas).
Abbreviation noJson := (noJson jsonNames).
Abbreviation noHtml := (noHtml htmlNames).
Abbreviation metaOnly := (metaOnly htmlNames jsonNames).
Abbreviation isOrphan := (isOrphan metaNames metas).
Abbreviation incomplete := (incomplete metaNames metas).
Abbreviation missing := (missing metas).
Abbreviation residual := (residual pageIds metas).

Lemma foldl_checkHtml (l : list string) : forall s,
  foldl (checkHtml jsonNames metaNames pageIds metas) s l =
  {| normal := normal s ++ filter isNormal l;
     new := new s ++ filter isNew l;
     json_missing := json_missing s ++ (incomplete <$> filter noJson l);
     html_missing := html_missing s;
     orphan := orphan s;
     pageIds_missing := pageIds_missing s ++ (missing <$> filter isMissing l);
     residual_meta := residual_meta s |}.
Proof.
  induction l as [|name l IH]; intros s.
  - cbn. rewrite !app_nil_r. by destruct s.
  - cbn [foldl]. rewrite IH. unfold checkHtml.
    rewrite !filter_cons. unfold isNormal, isNew, isMissing, noJson, incomplete, missing.
    destruct (has jsonNames name) eqn:?, (has metaNames name) eqn:?,
      (Js.truthy_ostr (metaIdOf name)) eqn:?, (inPageIdsOf (metaIdOf name)) eqn:?;
      filter_step.
Qed.

Lemma foldl_checkJson (l : list string) : forall s,
  foldl (checkJson htmlNames metaNames metas) s l =
  {| normal := normal s; new := new s; json_missing := json_missing s;
     html_missing := html_missing s ++ (incomplete <$> filter noHtml l);
     orphan := orphan s; pageIds_missing := pageIds_missing s;
     residual_meta := residual_meta s |}.
Proof.
  induction l as [|name l IH]; intros s.
  - cbn. rewrite !app_nil_r. by destruct s.
  - cbn [foldl]. rewrite IH. unfold checkJson. rewrite !filter_cons. unfold noHtml, incomplete.
    destruct (has htmlNames name) eqn:?; filter_step.
Qed.

Lemma foldl_checkMeta (l : list string) : forall s,
  foldl (checkMeta htmlNames jsonNames pageIds metas) s l =
  {| normal := normal s; new := new s; json_missing := json_missing s;
     html_missing := html_missing s; orphan := orphan s;
     pageIds_missing := pageIds_missing s;
     residual_meta := residual_meta s ++ (residual <$> filter metaOnly l) |}.
Proof.
  induction l as [|name l IH]; intros s.
  - cbn. rewrite !app_nil_r. by destruct s.
  - cbn [foldl]. rewrite IH. unfold checkMeta. rewrite !filter_cons. unfold metaOnly, residual.
    destruct (has htmlNames name) eqn:?, (has jsonNames name) eqn:?; filter_step.
Qed.

Lemma foldl_checkId (l : list string) : forall s,
  foldl (checkId metaNames metas) s l =
  {| normal := normal s; new := new s; json_missing := json_missing s;
     html_missing := html_missing s; orphan := orphan s ++ filter isOrphan l;
     pageIds_missing := pageIds_missing s; residual_meta := residual_meta s |}.
Proof.
  induction l as [|i l IH]; intros s.
  - cbn. rewrite !app_nil_r. by destruct s.
  - cbn [foldl]. rewrite IH. unfold checkId. rewrite !filter_cons. unfold isOrphan.
    destruct (Js.truthy_ostr (idToName !! i)); filter_step.
Qed.

(** Every category is a selection from one of the four inventories. *)
Lemma determinePageStates_eq :
  determinePageStates =
  {| normal := filter isNormal htmlNames;
     new := filter isNew htmlNames;
     json_missing := incomplete <$> filter noJson htmlNames;
     html_missing := incomplete <$> filter noHtml jsonNames;
     orphan := filter isOrphan pageIds;
     pageIds_missing := missing <$> filter isMissing htmlNames;
     residual_meta := residual <$> filter metaOnly metaNames |}.
Proof.
  unfold States.determinePageStates.
  rewrite foldl_checkHtml, foldl_checkJson, foldl_checkMeta, foldl_checkId.
  reflexivity.
Qed.

Lemma names_of_eq :
  names_of determinePageStates =
  filter isNormal htmlNames ++ filter isNew htmlNames ++ filter noJson htmlNames
  ++ filter noHtml jsonNames ++ filter isMissing htmlNames
  ++ filter metaOnly metaNames.
Proof.
  rewrite determinePageStates_eq. unfold names_of. cbn.
  by rewrite !fmap_fmap_id.
Qed.

(** Two selections whose conditions exclude each other share no name. *)
Ltac disjoint_filters :=
  let name := fresh "name" in
  let H1 := fresh "H" in
  let H2 := fresh "H" in
  intros name; rewrite ?elem_of_app, !list_elem_of_filter;
  unfold States.isNormal, States.isNew, States.isMissing, States.noJson,
    States.noHtml, States.metaOnly, has;
  intros H1 H2;
  repeat match goal with
    | H : _ \/ _ |- _ => destruct H
    | H : _ /\ _ |- _ => destruct H
    end;
  repeat match goal with
    | H : name ∈ ?l |- _ =>
        rewrite ?(bool_decide_eq_true_2 _ H) in *; clear H
    end;
  repeat match goal with
    | H : context [bool_decide ?P] |- _ => destruct (bool_decide P)
    | H : context [Js.truthy_ostr ?x] |- _ => destruct (Js.truthy_ostr x)
    | H : context [States.inPageIdsOf ?p ?x] |- _ => destruct (States.inPageIdsOf p x)
    end;
  cbn in *; tauto.

(** No name is put into two categories. *)
Lemma names_of_NoDup :
  NoDup htmlNames -> NoDup jsonNames -> NoDup metaNames ->
  NoDup (names_of determinePageStates).
Proof.
  intros Hh Hj Hm. rewrite names_of_eq.
  apply NoDup_app; split_and!; [by apply NoDup_filter|disjoint_filters|].
  apply NoDup_app; split_and!; [by apply NoDup_filter|disjoint_filters|].
  apply NoDup_app; split_and!; [by apply NoDup_filter|disjoint_filters|].
  apply NoDup_app; split_and!; [by apply NoDup_filter|disjoint_filters|].
  apply NoDup_app; split_and!; [by apply NoDup_filter|disjoint_filters|].
  by apply NoDup_filter.
Qed.

(** A category only holds names of the inventory. *)
Lemma names_of_sound name :
  name ∈ names_of determinePageStates ->
  name ∈ htmlNames \/ name ∈ jsonNames \/ name ∈ metaNames.
Proof.
  rewrite names_of_eq, !elem_of_app, !list_elem_of_filter. tauto.
Qed.

(** Every name of the inventory is categorised, except a page that has
    its three files but no id in its meta file. *)
Lemma names_of_complete name :
  name ∈ htmlNames \/ name ∈ jsonNames \/ name ∈ metaNames ->
  name ∈ names_of determinePageStates \/
  (name ∈ htmlNames /\ isUnclassified name = true).
Proof.
  rewrite names_of_eq, !elem_of_app, !list_elem_of_filter.
  unfold States.isNormal, States.isNew, States.isMissing, States.isUnclassified,
    States.noJson, States.noHtml, States.metaOnly, has.
  destruct (decide (name ∈ htmlNames)) as [Hh|Hh];
  destruct (decide (name ∈ jsonNames)) as [Hj|Hj];
  destruct (decide (name ∈ metaNames)) as [Hm|Hm];
  rewrite ?(bool_decide_eq_true_2 _ Hh), ?(bool_decide_eq_true_2 _ Hj),
    ?(bool_decide_eq_true_2 _ Hm), ?(bool_decide_eq_false_2 _ Hh),
    ?(bool_decide_eq_false_2 _ Hj), ?(bool_decide_eq_false_2 _ Hm);
  destruct (Js.truthy_ostr (metaIdOf name)), (inPageIdsOf (metaIdOf name));
  cbn; tauto.
Qed.

Lemma unclassified_not_in name :
  name ∈ htmlNames ->
  isUnclassified name = true -> name ∉ names_of determinePageStates.
Proof.
  intros Hh. rewrite names_of_eq, !elem_of_app, !list_elem_of_filter.
  unfold States.isNormal, States.isNew, States.isMissing, States.isUnclassified,
    States.noJson, States.noHtml, States.metaOnly, has.
  rewrite (bool_decide_eq_true_2 _ Hh).
  destruct (bool_decide (name ∈ jsonNames)),
    (bool_decide (name ∈ metaNames)), (Js.truthy_ostr (metaIdOf name)),
    (inPageIdsOf (metaIdOf name)); cbn; try discriminate; tauto.
Qed.

(** The names of the inventory are partitioned by the name categories
    as soon as every meta file of a page with content and metadata
    carries an id. *)
Lemma names_partition :
  NoDup htmlNames -> NoDup jsonNames -> NoDup metaNames ->
  (forall name, name ∈ htmlNames -> isUnclassified name = false) ->
  NoDup (names_of determinePageStates) /\
  forall name, name ∈ names_of determinePageStates <->
               name ∈ htmlNames \/ name ∈ jsonNames \/ name ∈ metaNames.
Proof.
  intros Hh Hj Hm Hid. split; [by apply names_of_NoDup|].
  intros name. split; [apply names_of_sound|].
  intros H. destruct (names_of_complete name H) as [|[Hin Hu]]; [done|].
  rewrite (Hid _ Hin) in Hu. discriminate.
Qed.

(** A known id is an orphan exactly when no meta file is recorded for
    it (or the recording one has the empty name). *)
Lemma orphan_spec i :
  i ∈ orphan determinePageStates <->
  i ∈ pageIds /\ Js.truthy_ostr (idToName !! i) = false.
Proof.
  rewrite determinePageStates_eq. cbn. rewrite list_elem_of_filter.
  unfold States.isOrphan. destruct (Js.truthy_ostr _); cbn; intuition discriminate.
Qed.

Lemma orphan_NoDup : NoDup pageIds -> NoDup (orphan determinePageStates).
Proof. intros H. rewrite determinePageStates_eq. cbn. by apply NoDup_filter. Qed.

End Determine.

(** C2 (evaluation at the failing input).  A page with its content, its
    metadata and a meta file that carries no id lands in no category at
    all. *)
Theorem determinePageStates_meta_without_id :
  let states :=
    determinePageStates ["page/start"] ["page/start"] ["page/start"] ["75331"]
      {[ "page/start" := {| pm_id := None; pm_hash := Some "0f343b0931126a20f133d67c2b018a3b";
                            pm_is_first := None; pm_is_ending := None |} ]} in
  names_of states = [] /\ orphan states = ["75331"].
Proof. vm_compute. done. Qed.

End StatesFacts.

(** ** Reasoning about runs *)

Module RunFacts.
Import Retry.

Section Monad.
Context {W : Type}.
Implicit Types w : W.

Lemma bind_ok {A B} (m : M W A) (k : A -> M W B) w b w' :
  bind m k w = (Ok b, w') ->
  exists a w1, m w = (Ok a, w1) /\ k a w1 = (Ok b, w').
Proof.
  unfold bind. destruct (m w) as [[a|e|c] w1]; intros H; try discriminate.
  by exists a, w1.
Qed.

Lemma bind_inv {A B} (m : M W A) (k : A -> M W B) w r w' :
  bind m k w = (r, w') ->
  (exists a w1, m w = (Ok a, w1) /\ k a w1 = (r, w'))
  \/ (exists e, m w = (Throw e, w') /\ r = Throw e)
  \/ (exists c, m w = (Exit c, w') /\ r = Exit c).
Proof.
  unfold bind. destruct (m w) as [[a|e|c] w1]; intros H.
  - left. by exists a, w1.
  - right; left. exists e. by simplify_eq.
  - right; right. exists c. by simplify_eq.
Qed.

Lemma for_each_app {A} (l1 l2 : list A) (body : A -> M W unit) w :
  for_each (l1 ++ l2) body w = bind (for_each l1 body) (fun _ => for_each l2 body) w.
Proof.
  revert w. induction l1 as [|x l1 IH]; intros w; cbn.
  - reflexivity.
  - unfold bind. destruct (body x w) as [[[]|e|c] w1]; try reflexivity.
    rewrite IH. reflexivity.
Qed.

(** A relation between the world before and the world after that every
    step of a computation respects. *)
Section Respects.
Variable Rel : W -> W -> Prop.
Context `{!PreOrder Rel}.

Abbreviation respects := (respects Rel).

Lemma respects_ret {A} (a : A) : respects (ret a).
Proof. intros w r w' [= <- <-]. reflexivity. Qed.

Lemma respects_throw {A} e : respects (throw (A:=A) e).
Proof. intros w r w' [= <- <-]. reflexivity. Qed.

Lemma respects_exit {A} c : respects (exit (A:=A) c).
Proof. intros w r w' [= <- <-]. reflexivity. Qed.

Lemma respects_get : respects (get (W:=W)).
Proof. intros w r w' [= <- <-]. reflexivity. Qed.

Lemma respects_bind {A B} (m : M W A) (k : A -> M W B) :
  respects m -> (forall a, respects (k a)) -> respects (bind m k).
Proof.
  intros Hm Hk w r w' H.
  apply bind_inv in H as [(a & w1 & H1 & H2)|[(e & H1 & _)|(c & H1 & _)]].
  - etrans; [by eapply Hm|by eapply Hk].
  - by eapply Hm.
  - by eapply Hm.
Qed.

Lemma respects_try_catch {A} (m : M W A) (h : thrown -> M W A) :
  respects m -> (forall e, respects (h e)) -> respects (try_catch m h).
Proof.
  intros Hm Hh w r w' H. unfold try_catch in H.
  destruct (m w) as [[a|e|c] w1] eqn:E.
  - simplify_eq. by eapply Hm.
  - etrans; [by eapply Hm|by eapply Hh].
  - simplify_eq. by eapply Hm.
Qed.

Lemma respects_for_each {A} (l : list A) (body : A -> M W unit) :
  (forall x, x ∈ l -> respects (body x)) -> respects (for_each l body).
Proof.
  induction l as [|x l IH]; intros Hb; cbn [for_each].
  - apply respects_ret.
  - apply respects_bind; [apply Hb; left|].
    intros _. apply IH. intros y Hy. apply Hb. by right.
Qed.

Lemma respects_fold_each {A S} (l : list A) (body : S -> A -> M W S) :
  (forall s x, x ∈ l -> respects (body s x)) ->
  forall s, respects (fold_each l body s).
Proof.
  induction l as [|x l IH]; intros Hb s; cbn [fold_each].
  - apply respects_ret.
  - apply respects_bind; [apply Hb; left|].
    intros s'. apply IH. intros s'' y Hy. apply Hb. by right.
Qed.

Lemma respects_withRetry_loop {A} (sleep : nat -> M W unit) (fn : M W A)
    (maxRetries todo : nat) :
  respects fn -> (forall ms, respects (sleep ms)) ->
  forall attempt lastError,
    respects (withRetry_loop sleep fn maxRetries todo attempt lastError).
Proof.
  intros Hfn Hsleep. induction todo as [|todo IH]; intros attempt lastError;
    cbn [withRetry_loop].
  - apply respects_throw.
  - apply respects_try_catch; [done|]. intros e.
    apply respects_bind.
    + destruct e; [apply respects_ret|apply respects_throw].
    + intros retryable.
      destruct (negb retryable || (attempt =? maxRetries)%nat);
        [apply respects_throw|].
      apply respects_bind; [apply Hsleep|]. intros _. apply IH.
Qed.

Lemma respects_withRetry {A} (sleep : nat -> M W unit) (fn : M W A) (maxRetries : nat) :
  respects fn -> (forall ms, respects (sleep ms)) ->
  respects (withRetry sleep fn maxRetries).
Proof. intros. by apply respects_withRetry_loop. Qed.

End Respects.
End Monad.
End RunFacts.

(** ** Frames: what a computation adds to the trace *)

Module WorldFacts.
Import Observe RunFacts.

Section World.
Context {R : Type}.
Variable site : Call -> R -> reply * R.
Implicit Types w : World R.

#[export] Instance continues_preorder (P : Event -> Prop) : PreOrder (continues (R:=R) P).
Proof.
  split.
  - intros w. exists []. by rewrite app_nil_r.
  - intros w1 w2 w3 (t1 & E1 & H1) (t2 & E2 & H2). exists (t1 ++ t2).
    rewrite E2, E1, <-app_assoc. split; [done|]. by apply Forall_app.
Qed.

Lemma continues_mono (P Q : Event -> Prop) w w' :
  (forall e, P e -> Q e) -> continues P w w' -> continues Q w w'.
Proof. intros H (t & E & Ht). exists t. split; [done|]. eapply Forall_impl; eauto. Qed.

Lemma respects_mono {A} (P Q : Event -> Prop) (m : M (World R) A) :
  (forall e, P e -> Q e) -> respects (continues P) m -> respects (continues Q) m.
Proof. intros H Hm w r w' E. eapply continues_mono; [done|]. by eapply Hm. Qed.

Lemma permits_calls (allowed : Call -> bool) (t : list Event) :
  Forall (permits allowed) t <-> Forall (fun c => allowed c = true) (calls t).
Proof.
  unfold calls. induction t as [|[c r|ms] t IH]; cbn.
  - split; constructor.
  - rewrite !Forall_cons, IH. done.
  - rewrite Forall_cons, IH. cbn. tauto.
Qed.

Lemma for_each_logError (lines : list string) w :
  for_each lines logError w = (Ok tt, with_stderr lines w).
Proof.
  revert w. induction lines as [|l lines IH]; intros w; cbn [for_each].
  - unfold ret, with_stderr. rewrite app_nil_r. by destruct w.
  - unfold bind. cbn. rewrite IH. unfold with_stderr; cbn. by rewrite <-app_assoc.
Qed.

Section Continues.
Variable P : Event -> Prop.

Lemma continues_call c :
  (forall r, P (Called c r)) -> respects (continues P) (call site c).
Proof.
  intros Hc w r w'. unfold call. destruct (site c (remote w)) as [rp remote'].
  intros H. exists [Called c rp]. destruct rp; simplify_eq; cbn; auto.
Qed.

Lemma continues_sleep ms : P (Waited ms) -> respects (continues P) (sleep (R:=R) ms).
Proof. intros Hc w r w' [= <- <-]. exists [Waited ms]. cbn. auto. Qed.

Lemma continues_logError line : respects (continues P) (logError (R:=R) line).
Proof. intros w r w' [= <- <-]. exists []. cbn. by rewrite app_nil_r. Qed.

Lemma continues_readDisk : respects (continues P) (readDisk (R:=R)).
Proof. intros w r w' [= <- <-]. reflexivity. Qed.

Lemma continues_writeDisk f : respects (continues P) (writeDisk (R:=R) f).
Proof. intros w r w' [= <- <-]. exists []. cbn. by rewrite app_nil_r. Qed.

Lemma continues_lift {A} (r : res A) : respects (continues P) (lift (R:=R) r).
Proof. intros w r' w' [= <- <-]. reflexivity. Qed.

Lemma continues_emit {A} (l : list string * res A) : respects (continues P) (emit (R:=R) l).
Proof.
  apply respects_bind; [apply _| |intros; apply continues_lift].
  apply respects_for_each; [apply _|]. intros; apply continues_logError.
Qed.

Lemma continues_retried c :
  (forall r, P (Called c r)) -> (forall ms, P (Waited ms)) ->
  respects (continues P) (retried site c).
Proof.
  intros Hc Hs. unfold retried.
  apply respects_withRetry; [apply _|by apply continues_call|].
  intros ms. by apply continues_sleep.
Qed.

End Continues.
End World.

(** Goals [respects (continues P) m], by the structure of [m]. *)
Ltac frame_step :=
  lazymatch goal with
  | |- respects _ (bind _ _) => apply respects_bind; [apply _| |intros]
  | |- respects _ (ret _) => apply respects_ret; apply _
  | |- respects _ (throw _) => apply respects_throw; apply _
  | |- respects _ (exit _) => apply respects_exit; apply _
  | |- respects _ (for_each _ _) => apply respects_for_each; [apply _|intros]
  | |- respects _ (fold_each _ _ _) => apply respects_fold_each; [apply _|intros]
  | |- respects _ (Retry.withRetry _ _ _) => apply respects_withRetry; [apply _| |intros]
  | |- respects _ (retried _ _) => apply continues_retried; [intros; try done|intros; try done]
  | |- respects _ (call _ _) => apply continues_call; intros; try done
  | |- respects _ (sleep _) => apply continues_sleep; try done
  | |- respects _ (logError _) => apply continues_logError
  | |- respects _ readDisk => apply continues_readDisk
  | |- respects _ (writeDisk _) => apply continues_writeDisk
  | |- respects _ (writeLabyMeta _) => apply continues_writeDisk
  | |- respects _ (writePageMeta _ _) => apply continues_writeDisk
  | |- respects _ (deletePageMeta _) => apply continues_writeDisk
  | |- respects _ (lift _) => apply continues_lift
  | |- respects _ (emit _) => apply continues_emit
  | |- respects _ (match ?x with _ => _ end) => destruct x
  end.
Ltac frame := repeat frame_step.

End WorldFacts.


(** ** Lists, objects and completed steps *)

Module ListFacts.

Lemma elem_of_bfilter {A} (f : A -> bool) (l : list A) (x : A) :
  x ∈ List.filter f l <-> x ∈ l /\ f x = true.
Proof. by rewrite !list_elem_of_In, filter_In. Qed.

End ListFacts.

Module ObjFacts.
Import JsObject.
Section Obj.
Context {V : Type}.
Implicit Types o : obj V.

Lemma eqb_refl' (s : string) : String.eqb s s = true.
Proof. by apply String.eqb_eq. Qed.

Lemma get_set key v o key' :
  get key' (set key v o) = if String.eqb key' key then Some v else get key' o.
Proof.
  induction o as [|[k x] o IH]; cbn.
  - reflexivity.
  - destruct (String.eqb key k) eqn:E; cbn.
    + apply String.eqb_eq in E as ->. by destruct (String.eqb key' k).
    + rewrite IH. destruct (String.eqb key' k) eqn:E'; [|done].
      apply String.eqb_eq in E' as ->.
      by rewrite String.eqb_sym, E.
Qed.

Lemma get_set_eq key v o : get key (set key v o) = Some v.
Proof. by rewrite get_set, eqb_refl'. Qed.

Lemma get_set_ne key v o key' : key' <> key -> get key' (set key v o) = get key' o.
Proof. intros H. rewrite get_set. by apply String.eqb_neq in H as ->. Qed.

End Obj.
End ObjFacts.

Module StepFacts.
Import Observe RunFacts WorldFacts.

Section World.
Context {R : Type}.
Variable site : Call -> R -> reply * R.
Implicit Types w : World R.

Lemma answered_app t1 t2 : answered (t1 ++ t2) = answered t1 ++ answered t2.
Proof. apply omap_app. Qed.

Lemma calls_app t1 t2 : calls (t1 ++ t2) = calls t1 ++ calls t2.
Proof. apply omap_app. Qed.

(** What a completed step leaves. *)
Lemma call_ok c w v w' :
  call site c w = (Ok v, w') ->
  trace w' = trace w ++ [Called c (Returned v)]
  /\ disk w' = disk w /\ stderr w' = stderr w.
Proof.
  unfold call. destruct (site c (remote w)) as [[v'|m] remote']; intros H; simplify_eq.
  done.
Qed.

Lemma sleep_ok ms w r w' :
  sleep ms w = (r, w') ->
  r = Ok tt /\ trace w' = trace w ++ [Waited ms] /\ disk w' = disk w /\ stderr w' = stderr w.
Proof. by intros [= <- <-]. Qed.

Lemma logError_ok line w r w' :
  logError line w = (r, w') ->
  r = Ok tt /\ trace w' = trace w /\ disk w' = disk w /\ stderr w' = stderr w ++ [line].
Proof. by intros [= <- <-]. Qed.

Lemma writeDisk_ok f w r w' :
  writeDisk f w = (r, w') ->
  r = Ok tt /\ trace w' = trace w /\ disk w' = f (disk w) /\ stderr w' = stderr w.
Proof. by intros [= <- <-]. Qed.

Lemma readDisk_ok w r w' : readDisk w = (r, w') -> r = Ok (disk w) /\ w' = w.
Proof. by intros [= <- <-]. Qed.

Lemma lift_ok {A} (x : res A) w r w' : lift x w = (r, w') -> r = x /\ w' = w.
Proof. by intros [= <- <-]. Qed.

Lemma emit_ok {A} (l : list string * res A) w a w' :
  emit l w = (Ok a, w') -> l.2 = Ok a /\ w' = with_stderr l.1 w.
Proof.
  unfold emit, bind. rewrite for_each_logError. by intros [<- ->]%lift_ok.
Qed.

Lemma retry_loop_ok c maxRetries todo attempt lastError w v w' :
  Retry.withRetry_loop sleep (call site c) maxRetries todo attempt lastError w = (Ok v, w') ->
  exists t, trace w' = trace w ++ t /\ answered t = [(c, v)]
            /\ Forall (only c) t
            /\ disk w' = disk w /\ stderr w' = stderr w.
Proof.
  revert attempt lastError w. induction todo as [|todo IH]; intros attempt lastError w;
    cbn [Retry.withRetry_loop]; [done|].
  unfold try_catch. destruct (call site c w) as [[v'|e|code] w1] eqn:E; [| |done].
  - intros [= -> ->]. apply call_ok in E as (E & ? & ?).
    exists [Called c (Returned v)]. repeat split; auto. by repeat constructor.
  - assert (exists m, trace w1 = trace w ++ [Called c (Raised m)]
                      /\ disk w1 = disk w /\ stderr w1 = stderr w) as (m & E1 & E2 & E3).
    { unfold call in E. destruct (site c (remote w)) as [[?|m] ?]; simplify_eq.
      by exists m. }
    intros H. apply bind_ok in H as (retryable & w2 & H1 & H).
    assert (w2 = w1) as ->.
    { unfold Retry.isRetryableError, ret, throw in H1. by destruct e; simplify_eq. }
    destruct (negb retryable || (attempt =? maxRetries)%nat); [done|].
    apply bind_ok in H as ([] & w3 & (_ & S1 & S2 & S3)%sleep_ok & H).
    apply IH in H as (t & T1 & T2 & T3 & T4 & T5).
    exists (Called c (Raised m) :: Waited (Retry.delayMs * attempt) :: t).
    rewrite T1, S1, E1, <-!app_assoc. repeat split; auto; try congruence.
    by repeat constructor.
Qed.

Lemma retried_ok c w v w' :
  retried site c w = (Ok v, w') ->
  exists t, trace w' = trace w ++ t /\ answered t = [(c, v)]
            /\ Forall (only c) t
            /\ disk w' = disk w /\ stderr w' = stderr w.
Proof. apply retry_loop_ok. Qed.

End World.
End StepFacts.

(** ** The upload cache *)

Module ImageFacts.
Import Images Observe RunFacts WorldFacts StepFacts ListFacts ObjFacts.

Lemma fullUrl_truthy url : Js.truthy_str url = true -> Js.truthy_str (fullUrl url) = true.
Proof.
  destruct url as [|c url]; [done|]. intros _. unfold fullUrl.
  by destruct (Ascii.eqb c "/").
Qed.

Lemma value_string_truthy v s : value_string v = Some s -> Js.truthy_str s = true.
Proof.
  destruct v as [|b|s']; try done. cbn. destruct (Js.truthy_str s') eqn:E; [|done].
  by intros [= <-].
Qed.

Lemma cached_Some cache sum url :
  cached cache sum = Some url <-> cache !! sum = Some url /\ Js.truthy_str url = true.
Proof.
  unfold cached. destruct (cache !! sum) as [u|].
  - destruct (Js.truthy_str u) eqn:E; split.
    + by intros [= <-].
    + by intros [[= ->] _].
    + done.
    + intros [[= ->] ?]. congruence.
  - split; [done|]. by intros [? _].
Qed.

Lemma cached_insert cache sum url sum' :
  Js.truthy_str url = true ->
  cached (<[sum := url]> cache) sum' = if decide (sum = sum') then Some url else cached cache sum'.
Proof.
  intros H. unfold cached. destruct (decide (sum = sum')) as [->|Hne].
  - by rewrite lookup_insert_eq, H.
  - by rewrite lookup_insert_ne.
Qed.

Lemma uploadedPaths_app t1 t2 : uploadedPaths (t1 ++ t2) = uploadedPaths t1 ++ uploadedPaths t2.
Proof. unfold uploadedPaths. by rewrite answered_app, omap_app. Qed.

Lemma withChecksum_app assets sum l1 l2 :
  withChecksum assets sum (l1 ++ l2) = withChecksum assets sum l1 ++ withChecksum assets sum l2.
Proof. apply List.filter_app. Qed.

Lemma withChecksum_elem assets sum p l :
  p ∈ withChecksum assets sum l <-> p ∈ l /\ checksum assets p = Ok sum.
Proof.
  unfold withChecksum. rewrite elem_of_bfilter.
  destruct (checksum assets p) as [s| |]; cbn; try (by split; intros [? ?]).
  destruct (String.eqb s sum) eqn:E.
  - apply String.eqb_eq in E as ->. by split; [intros [? _]|intros [? _]].
  - apply String.eqb_neq in E. split; [by intros [? ?]|]. intros [_ [= ?]]. done.
Qed.

Section Images.
Context {R : Type}.
Variable site : Call -> R -> reply * R.
Implicit Types (w : World R) (cache : gmap string string) (pathMap : JsObject.obj string).

Lemma uploadOne_ok cache pathMap p w cache' pathMap' w' :
  uploadOne site (cache, pathMap) p w = (Ok (cache', pathMap'), w') ->
  exists t sum,
    trace w' = trace w ++ t /\ disk w' = disk w
    /\ checksum (assets (disk w)) p = Ok sum
    /\ match cached cache sum with
       | Some url =>
           cache' = cache /\ pathMap' = JsObject.set p url pathMap /\ uploadedPaths t = []
       | None =>
           (exists url, Js.truthy_str url = true /\ cache' = <[sum := url]> cache
                        /\ pathMap' = JsObject.set p url pathMap /\ uploadedPaths t = [p])
           \/ (cache' = cache /\ pathMap' = pathMap /\ uploadedPaths t = [])
       end.
Proof.
  unfold uploadOne, calculateChecksum. intros H.
  apply bind_ok in H as (sum & w1 & H1 & H).
  apply bind_ok in H1 as (d & w0 & Hr & Hl). apply readDisk_ok in Hr as [Hr1 ->]. injection Hr1 as ->.
  apply lift_ok in Hl as [Hsum ->].
  symmetry in Hsum.
  destruct (cached cache sum) as [url|] eqn:Hc.
  - injection H as <- <- <-. exists [], sum. by rewrite Hc, app_nil_r.
  - apply bind_ok in H as (v & w2 & (t & T1 & T2 & T3 & T4 & T5)%retried_ok & H).
    apply bind_ok in H as ([cache2 pathMap2] & w3 & H2 & H).
    apply bind_ok in H as ([] & w4 & (_ & S1 & S2 & S3)%sleep_ok & [= -> -> ->]).
    exists (t ++ [Waited 50] ), sum. rewrite Hc.
    assert (U : uploadedPaths (t ++ [Waited 50])
                = match value_string v with Some _ => [p] | None => [] end).
    { rewrite uploadedPaths_app. unfold uploadedPaths. rewrite T2. cbn.
      by destruct (value_string v). }
    rewrite U. clear U.
    destruct (value_string v) as [url|] eqn:Hv.
    + injection H2 as <- <- <-. rewrite S1, T1, S2, T4, app_assoc. repeat split; auto.
      left. exists (fullUrl url). repeat split; auto.
      by eapply fullUrl_truthy, value_string_truthy.
    + apply bind_ok in H2 as ([] & w5 & (_ & L1 & L2 & L3)%logError_ok & [= <- <- <-]).
      rewrite S1, L1, T1, S2, L2, T4, app_assoc. do 3 (split; [done|]). by right.
Qed.

Lemma upload_inv_init assets cache0 : upload_inv assets cache0 (cache0, []) [].
Proof.
  unfold upload_inv. cbn. split_and!.
  - by intros sum url [? _]%cached_Some.
  - done.
  - auto.
  - intros ?. lia.
  - by intros ?? ?%elem_of_nil.
Qed.

Lemma uploadOne_inv files cache0 st ups p w st' w' :
  uploadOne site st p w = (Ok st', w') ->
  files = assets (disk w) ->
  upload_inv files cache0 st ups ->
  exists t, trace w' = trace w ++ t /\ disk w' = disk w
            /\ upload_inv files cache0 st' (ups ++ uploadedPaths t).
Proof.
  destruct st as [cache pathMap], st' as [cache' pathMap'].
  intros (t & sum & T & D & Hsum & H)%uploadOne_ok -> (I1 & I2 & I3 & I4 & I5).
  cbn [fst snd] in *.
  exists t. split; [done|]. split; [done|].
  destruct (cached cache sum) as [url|] eqn:Hc.
  - destruct H as (-> & -> & ->). rewrite app_nil_r.
    unfold upload_inv. cbn [fst snd]. split_and!; auto.
    intros p' url'. rewrite get_set. destruct (String.eqb p' p) eqn:E; [|by auto].
    apply String.eqb_eq in E as ->. intros [= <-]. eauto.
  - destruct H as [(url & Hu & -> & -> & ->)|(-> & -> & ->)].
    2:{ rewrite app_nil_r. by unfold upload_inv. }
    assert (Hfresh : withChecksum (assets (disk w)) sum ups = []).
    { destruct (withChecksum _ sum ups) as [|p0 l] eqn:E; [done|].
      assert (p0 ∈ withChecksum (assets (disk w)) sum ups) as [Hin Hp0]%withChecksum_elem
        by (rewrite E; left).
      destruct (I5 _ _ Hin Hp0) as [_ [? ?]]. congruence. }
    assert (Hnew : cached cache0 sum = None).
    { destruct (cached cache0 sum) as [u|] eqn:E; [|done].
      apply I1 in E as E'. apply cached_Some in E as [_ E].
      assert (cached cache sum = Some u) by by apply cached_Some. congruence. }
    unfold upload_inv. cbn [fst snd]. split_and!.
    + intros s u Hs. destruct (decide (sum = s)) as [<-|Hne]; [congruence|].
      rewrite lookup_insert_ne by done. auto.
    + intros p' url'. rewrite get_set. destruct (String.eqb p' p) eqn:E.
      * apply String.eqb_eq in E as ->. intros [= <-]. exists sum. split; [done|].
        rewrite cached_insert by done. by rewrite decide_True.
      * intros (s & Hs & Hcs)%I2. exists s. split; [done|].
        rewrite cached_insert by done. rewrite decide_False; [done|]. congruence.
    + intros s u. rewrite cached_insert by done. rewrite withChecksum_app.
      destruct (decide (sum = s)) as [<-|Hne].
      * intros _. right. unfold withChecksum at 2. cbn. rewrite Hsum, eqb_refl'.
        by destruct (withChecksum _ sum ups).
      * intros [?|?]%I3; [by left|right]. by destruct (withChecksum _ s ups).
    + intros s. rewrite withChecksum_app, length_app.
      unfold withChecksum at 2. cbn. rewrite Hsum.
      destruct (String.eqb sum s) eqn:E; cbn; [|specialize (I4 s); lia].
      apply String.eqb_eq in E as <-. by rewrite Hfresh.
    + intros p0 s. rewrite elem_of_app, list_elem_of_singleton.
      rewrite cached_insert by done. intros [Hin| ->] Hp0.
      * destruct (I5 _ _ Hin Hp0) as [? ?]. split; [done|]. by case_decide.
      * assert (s = sum) as -> by congruence. split; [done|]. by rewrite decide_True.
Qed.

Lemma uploads_inv files cache0 paths st ups w st' w' :
  fold_each paths (uploadOne site) st w = (Ok st', w') ->
  files = assets (disk w) ->
  upload_inv files cache0 st ups ->
  exists t, trace w' = trace w ++ t /\ disk w' = disk w
            /\ upload_inv files cache0 st' (ups ++ uploadedPaths t).
Proof.
  revert st ups w. induction paths as [|p paths IH]; intros st ups w; cbn [fold_each].
  - intros [= <- <-] _ Hinv. exists []. by rewrite !app_nil_r.
  - intros (st1 & w1 & H1 & H)%bind_ok -> Hinv.
    eapply uploadOne_inv in H1 as (t1 & T1 & D1 & Hinv1); [|done..].
    eapply IH in H as (t2 & T2 & D2 & Hinv2); [|by rewrite D1|done].
    exists (t1 ++ t2). rewrite T2, T1, D2, D1, uploadedPaths_app, <-!app_assoc.
    by rewrite <-app_assoc in Hinv2.
Qed.

Lemma uploadNewImages_inv paths cache w cache' pathMap w' :
  uploadNewImages site paths cache w = (Ok (cache', pathMap), w') ->
  exists t, trace w' = trace w ++ t /\ disk w' = disk w
            /\ upload_inv (assets (disk w)) cache (cache', pathMap) (uploadedPaths t).
Proof.
  intros H. eapply uploads_inv in H as (t & ? & ? & ?);
    [|done|apply upload_inv_init]. by exists t.
Qed.


End Images.


End ImageFacts.

(** ** The validation gate *)

Module GateFacts.
Import Json States PageData Images Main Observe RunFacts WorldFacts.

Section Run.
Context {R : Type}.
Variable site : Call -> R -> reply * R.
Variable imageRefs : string -> string -> list (string * string).
Variable replaceLocalImages : string -> list (string * string) -> string.
Variable joinContentPath : string -> string.
Implicit Types w : World R.

Abbreviation survey := (survey site imageRefs joinContentPath).
Abbreviation reconcile := (reconcile site imageRefs replaceLocalImages).
Abbreviation main := (main site imageRefs replaceLocalImages joinContentPath).

Lemma survey_continues : respects (continues (permits opens_labyrinth)) survey.
Proof.
  unfold Main.survey, syncLabyrinth, loadPage, createLabyrinth. frame.
Qed.

Lemma validateEach_errors names entries accE accW errors warnings :
  Validate.validateEach names entries accE accW = Ok (errors, warnings) ->
  accE ⊆ errors
  /\ forall name json es ws,
       (name, json) ∈ entries ->
       Validate.validatePageJson name names json = Ok (es, ws) -> es ⊆ errors.
Proof.
  revert accE accW. induction entries as [|[n j] entries IH]; intros accE accW; cbn.
  - intros [= <- <-]. split; [done|]. intros ???? H. by apply elem_of_nil in H.
  - destruct (Validate.validatePageJson n names j) as [[es ws]|e|c] eqn:E; try done.
    intros H. apply IH in H as [H1 H2]. split.
    + intros x Hx. apply H1, elem_of_app. by left.
    + intros name json es' ws' [[= -> ->]|Hin]%elem_of_cons Hv.
      * rewrite E in Hv. injection Hv as <- <-. intros x Hx. apply H1, elem_of_app. by right.
      * by eapply H2.
Qed.

(** C3 (as the script has it).  When the pages that were loaded fail
    validation, the run ends with exit code 1 right after the report: the
    world is the one the survey left, with the report added to the error
    log.  By then the only calls issued are those of steps 1 and 2: the
    login and the creation or update of the labyrinth; no call on a page
    has been made.  The report holds a line for every error of every
    page. *)
Theorem validation_gate w w1 lm d loaded metas errors warnings :
  survey w = (Ok (lm, d, loaded, metas), w1) ->
  Validate.validateAllPages (pageJsons loaded) = Ok (errors, warnings) ->
  errors <> [] ->
  main w = (Exit 1, with_stderr (report errors) w1)
  /\ (exists t, trace w1 = trace w ++ t
                /\ Forall (fun c => opens_labyrinth c = true) (calls t))
  /\ (forall name json es ws e,
        (name, json) ∈ pageJsons loaded ->
        Validate.validatePageJson name (pageJsons loaded).*1 json = Ok (es, ws) ->
        e ∈ es -> ("  - " +:+ e) ∈ report errors).
Proof.
  intros Hs Hv He. split; [|split].
  - unfold Main.main, session, bind. rewrite Hs. cbn -[report].
    unfold gate, bind, lift. rewrite Hv. cbn -[report].
    destruct errors as [|e errors]; [done|].
    rewrite for_each_logError. reflexivity.
  - apply survey_continues in Hs as (t & E & Ht). exists t. split; [done|].
    by apply permits_calls.
  - intros name json es ws e Hin Hp Hes.
    apply validateEach_errors in Hv as [_ Hv].
    unfold report. rewrite !elem_of_app. right; left.
    apply list_elem_of_fmap. exists e. split; [done|]. eapply Hv; eauto.
Qed.

End Run.

(** The gate at work on the example tree with a dangling [next]. *)
Lemma validation_gate_witness :
  exists w1,
    Example.main (Example.world Example.tree_dangling Example.site0)
    = (Exit 1, with_stderr (report Example.dangling_errors) w1)
    /\ calls (trace w1) = [Login; CreateLabyrinth Example.config0].
Proof.
  assert (Hs : Main.survey Example.site Example.imageRefs Example.joinContentPath
                 (Example.world Example.tree_dangling Example.site0)
               = Example.dangling_survey) by (vm_compute; reflexivity).
  unfold Example.dangling_survey in Hs.
  match type of Hs with
  | _ = (Ok (_, _, ?loaded, _), ?w1) =>
      assert (Hv : Validate.validateAllPages (pageJsons loaded)
                   = Ok (Example.dangling_errors, [])) by (vm_compute; reflexivity);
      exists w1
  end.
  split; [|reflexivity].
  refine (proj1 (validation_gate Example.site Example.imageRefs
                   Example.replaceLocalImages Example.joinContentPath
                   _ _ _ _ _ _ _ _ Hs Hv _)).
  discriminate.
Defined.

(** C3 as stated fails: validation finds errors in this tree, the run
    aborts, and the labyrinth has been created on the site by then. *)
Lemma validation_gate_after_labyrinth :
  Validate.validateAllPages
    [("page/a", Example.pageA_dangling); ("page/b", Example.pageB)]
  = Ok (Example.dangling_errors, [])
  /\ (Example.main (Example.world Example.tree_dangling Example.site0)).1 = Exit 1
  /\ calls (trace (Example.main (Example.world Example.tree_dangling Example.site0)).2)
     = [Login; CreateLabyrinth Example.config0]
  /\ remote_mutation (CreateLabyrinth Example.config0) = true.
Proof. vm_compute. auto. Qed.

End GateFacts.

(** ** Steps that leave the folder alone *)

Module QuietFacts.
Import Observe RunFacts WorldFacts.

Section World.
Context {R : Type}.
Variable site : Call -> R -> reply * R.
Implicit Types w : World R.

#[export] Instance quietly_preorder (P : Event -> Prop) : PreOrder (quietly (R:=R) P).
Proof.
  split.
  - intros w. by split.
  - intros w1 w2 w3 [C1 D1] [C2 D2]. split; [by etrans|congruence].
Qed.

Lemma quietly_mono {A} (P Q : Event -> Prop) (m : M (World R) A) :
  (forall e, P e -> Q e) -> respects (quietly P) m -> respects (quietly Q) m.
Proof.
  intros H Hm w r w' E. destruct (Hm w r w' E) as [C D]. split; [|done].
  by eapply continues_mono.
Qed.

Lemma quietly_continues {A} (P : Event -> Prop) (m : M (World R) A) :
  respects (quietly P) m -> respects (continues P) m.
Proof. intros Hm w r w' E. by destruct (Hm w r w' E). Qed.

Section Quietly.
Variable P : Event -> Prop.

Lemma quietly_call c :
  (forall r, P (Called c r)) -> respects (quietly P) (call site c).
Proof.
  intros Hc w r w' H. split; [by eapply continues_call|].
  unfold call in H. destruct (site c (remote w)) as [[?|?] ?]; by simplify_eq.
Qed.

Lemma quietly_sleep ms : P (Waited ms) -> respects (quietly P) (sleep (R:=R) ms).
Proof. intros Hc w r w' H. split; [by eapply continues_sleep|]. by injection H as <- <-. Qed.

Lemma quietly_logError line : respects (quietly P) (logError (R:=R) line).
Proof. intros w r w' H. split; [by eapply continues_logError|]. by injection H as <- <-. Qed.

Lemma quietly_readDisk : respects (quietly P) (readDisk (R:=R)).
Proof. intros w r w' [= <- <-]. reflexivity. Qed.

Lemma quietly_lift {A} (r : res A) : respects (quietly P) (lift (R:=R) r).
Proof. intros w r' w' [= <- <-]. reflexivity. Qed.

Lemma quietly_emit {A} (l : list string * res A) : respects (quietly P) (emit (R:=R) l).
Proof.
  apply respects_bind; [apply _| |intros; apply quietly_lift].
  apply respects_for_each; [apply _|]. intros; apply quietly_logError.
Qed.

Lemma quietly_retried c :
  (forall r, P (Called c r)) -> (forall ms, P (Waited ms)) ->
  respects (quietly P) (retried site c).
Proof.
  intros Hc Hs. unfold retried.
  apply respects_withRetry; [apply _|by apply quietly_call|].
  intros ms. by apply quietly_sleep.
Qed.

End Quietly.
End World.

(** Goals [respects (quietly P) m], by the structure of [m]. *)
Ltac quiet_step :=
  lazymatch goal with
  | |- respects _ (bind _ _) => apply respects_bind; [apply _| |intros]
  | |- respects _ (ret _) => apply respects_ret; apply _
  | |- respects _ (throw _) => apply respects_throw; apply _
  | |- respects _ (exit _) => apply respects_exit; apply _
  | |- respects _ (for_each _ _) => apply respects_for_each; [apply _|intros]
  | |- respects _ (fold_each _ _ _) => apply respects_fold_each; [apply _|intros]
  | |- respects _ (Retry.withRetry _ _ _) => apply respects_withRetry; [apply _| |intros]
  | |- respects _ (retried _ _) => apply quietly_retried; [intros; try done|intros; try done]
  | |- respects _ (call _ _) => apply quietly_call; intros; try done
  | |- respects _ (sleep _) => apply quietly_sleep; try done
  | |- respects _ (logError _) => apply quietly_logError
  | |- respects _ readDisk => apply quietly_readDisk
  | |- respects _ (lift _) => apply quietly_lift
  | |- respects _ (emit _) => apply quietly_emit
  | |- respects _ (match ?x with _ => _ end) => destruct x
  end.
Ltac quiet := repeat quiet_step.

(** From a step [H : m w = (r, w')], what it left in the world. *)
Ltac observe P H :=
  lazymatch type of H with
  | ?m ?w = (?r, ?w') =>
      let C := fresh "Q" in
      assert (C : quietly P w w');
      [ cut (respects (quietly P) m);
        [ let Hr := fresh in intros Hr; exact (Hr w r w' H) | ]
      | ]
  end.

End QuietFacts.

(** ** The calls of each phase *)

Module CallFacts.
Import Json States PageData Images Main Observe.
Import RunFacts WorldFacts StepFacts ListFacts ObjFacts.

Section Run.
Context {R : Type}.
Variable site : Call -> R -> reply * R.
Variable imageRefs : string -> string -> list (string * string).
Variable replaceLocalImages : string -> list (string * string) -> string.
Variable joinContentPath : string -> string.
Implicit Types (w : World R) (v : Vars) (plan : Plan).

Abbreviation survey := (survey site imageRefs joinContentPath).
Abbreviation reconcile := (reconcile site imageRefs replaceLocalImages).
Abbreviation main := (main site imageRefs replaceLocalImages joinContentPath).
Abbreviation deletePhase := (deletePhase site).
Abbreviation createOne := (createOne site imageRefs replaceLocalImages).
Abbreviation createPhase := (createPhase site imageRefs replaceLocalImages).
Abbreviation updateOne := (updateOne site imageRefs replaceLocalImages).
Abbreviation updatePhase := (updatePhase site imageRefs replaceLocalImages).
Abbreviation linkOne := (linkOne site).
Abbreviation linkPhase := (linkPhase site).
Abbreviation uploadImages := (Main.uploadImages site replaceLocalImages).

(** *** Which calls a phase can make *)

Lemma uploadImages_calls v html localImages processedAnswers :
  respects (continues (permits (fun c => creating c && updating c)))
    (uploadImages v html localImages processedAnswers).
Proof.
  unfold Main.uploadImages, Main.uploadNewImages, Images.uploadNewImages, uploadOne,
    calculateChecksum. frame.
Qed.

Lemma createPhase_calls labyrinthId firstPage plan v :
  respects (continues (permits creating)) (createPhase labyrinthId firstPage plan v).
Proof.
  unfold Main.createPhase, Main.createOne, processAnswer, Main.findLocalImages,
    Images.findLocalImages, addAnswer. frame.
  all: try (eapply respects_mono; [|apply uploadImages_calls];
            intros [c ?|?]; [cbn; by intros [? _]%andb_prop|done]).
Qed.

Lemma updatePhase_calls labyrinthId firstPage plan v :
  respects (continues (permits updating)) (updatePhase labyrinthId firstPage plan v).
Proof.
  unfold Main.updatePhase, Main.updateOne, processAnswer, Main.findLocalImages,
    Images.findLocalImages, addAnswer. frame.
  all: try (eapply respects_mono; [|apply uploadImages_calls];
            intros [c ?|?]; [cbn; by intros [_ ?]%andb_prop|done]).
Qed.

Lemma linkPhase_calls labyrinthId pageIdMap plan v :
  respects (continues (permits linking)) (linkPhase labyrinthId pageIdMap plan v).
Proof.
  unfold Main.linkPhase, Main.linkOne, connectOne. frame.
Qed.

End Run.
End CallFacts.

(** ** Step 3: deletions *)

Module DeleteFacts.
Import Json States PageData Images Main Observe.
Import RunFacts WorldFacts StepFacts ListFacts ObjFacts CallFacts.

Lemma deletions_app t1 t2 : deletions (t1 ++ t2) = deletions t1 ++ deletions t2.
Proof. unfold deletions. by rewrite calls_app, omap_app. Qed.

Lemma created_app t1 t2 : created (t1 ++ t2) = created t1 ++ created t2.
Proof. unfold created. by rewrite answered_app, omap_app. Qed.

Lemma permits_deletions allowed t :
  (forall labyrinthId pageId, allowed (DeletePage labyrinthId pageId) = false) ->
  Forall (permits allowed) t -> deletions t = [].
Proof.
  intros Hno. induction t as [|e t IH]; [done|]. intros [He Ht]%Forall_cons.
  change (e :: t) with ([e] ++ t). rewrite deletions_app, IH, app_nil_r by done.
  destruct e as [[] r|ms]; try done. cbn in He. by rewrite Hno in He.
Qed.

Lemma permits_created allowed t :
  (forall labyrinthId title, allowed (SubmitPageForm (Some labyrinthId) title) = false) ->
  Forall (permits allowed) t -> created t = [].
Proof.
  intros Hno. induction t as [|e t IH]; [done|]. intros [He Ht]%Forall_cons.
  change (e :: t) with ([e] ++ t). rewrite created_app, IH, app_nil_r by done.
  destruct e as [[| | | | | | | | | |[l|] ?| | | |] [v|m]|ms]; try done.
  cbn in He. by rewrite Hno in He.
Qed.

Lemma deletions_calls labyrinthId ids t :
  calls t = DeletePage labyrinthId <$> ids -> deletions t = ids.
Proof.
  unfold deletions. intros ->. induction ids as [|i ids IH]; [done|]. cbn. by rewrite IH.
Qed.

Section Run.
Context {R : Type}.
Variable site : Call -> R -> reply * R.
Implicit Types (w : World R) (v : Vars) (plan : Plan).

Abbreviation deleteOne := (deleteOne site).
Abbreviation deletePhase := (deletePhase site).

(** The ids still listed after those of [ids] were struck off. *)
Lemma deleteOne_ok labyrinthId v pageId w v' w' :
  deleteOne labyrinthId v pageId w = (Ok v', w') ->
  exists b,
    trace w' = trace w ++ [Called (DeletePage labyrinthId pageId) (Returned b); Waited 50]
    /\ disk w' = disk w
    /\ v' = (if truthy_value b then set_counts count_deleted (filter_pageIds pageId v)
             else filter_pageIds pageId v).
Proof.
  unfold Main.deleteOne. intros (b & w1 & (T1 & D1 & _)%call_ok & H)%bind_ok.
  apply bind_ok in H as ([] & w2 & (_ & T2 & D2 & _)%sleep_ok & [= <- <-]).
  exists b. rewrite T2, T1, D2, D1, <-app_assoc. done.
Qed.

Lemma deletes_ok labyrinthId ids v w v' w' :
  fold_each ids (deleteOne labyrinthId) v w = (Ok v', w') ->
  exists t,
    trace w' = trace w ++ t
    /\ calls t = DeletePage labyrinthId <$> ids
    /\ disk w' = disk w
    /\ (forall i, i ∈ pageIds v' <-> i ∈ pageIds v /\ i ∉ ids)
    /\ labyMeta_now v' = labyMeta_now v
    /\ imageCache v' = imageCache v /\ pages v' = pages v
    /\ failures_page (counts v') = failures_page (counts v).
Proof.
  revert v w. induction ids as [|pageId ids IH]; intros v w; cbn [fold_each].
  - intros [= <- <-]. exists []. rewrite app_nil_r. split_and!; try done.
    intros i. rewrite elem_of_nil. tauto.
  - intros (v1 & w1 & (b & T1 & D1 & ->)%deleteOne_ok & H)%bind_ok.
    apply IH in H as (t & T & C & D & P & L & I & G & F).
    exists ([Called (DeletePage labyrinthId pageId) (Returned b); Waited 50] ++ t).
    rewrite T, T1, D, D1, calls_app, C, L, I, G, F, <-!app_assoc.
    split_and!; try done; try by destruct (truthy_value b).
    intros i. rewrite P, elem_of_cons.
    assert (i ∈ pageIds (filter_pageIds pageId v) <-> i ∈ pageIds v /\ i <> pageId) as Hf.
    { cbn. rewrite elem_of_bfilter, negb_true_iff, String.eqb_neq. done. }
    destruct (truthy_value b); cbn [pageIds set_counts] in *; rewrite Hf; tauto.
Qed.

Lemma deleteMetas_ok names w r w' :
  for_each names deletePageMeta w = (r, w') ->
  r = Ok tt /\ trace w' = trace w /\ same_content (disk w) (disk w')
  /\ labyMetaFile (disk w') = labyMetaFile (disk w)
  /\ forall n, metaFiles (disk w') !! n
               = if bool_decide (n ∈ names) then None else metaFiles (disk w) !! n.
Proof.
  revert w. induction names as [|name names IH]; intros w; cbn [for_each].
  - intros [= <- <-]. by split_and!.
  - unfold bind. cbn. intros (-> & T & (? & ? & ? & ?) & L & M)%IH. cbn in *.
    split_and!; try done. intros n. rewrite M. cbn.
    destruct (decide (n = name)) as [->|Hne].
    + rewrite lookup_delete_eq. rewrite (bool_decide_true (_ ∈ _ :: _)) by left.
      by case_bool_decide.
    + rewrite lookup_delete_ne by done.
      destruct (bool_decide (n ∈ names)) eqn:E.
      * apply bool_decide_eq_true in E. by rewrite bool_decide_true by by right.
      * apply bool_decide_eq_false in E. rewrite bool_decide_false; [done|].
        by intros [?|?]%elem_of_cons.
Qed.

Lemma same_content_refl d : same_content d d.
Proof. done. Qed.

Lemma same_content_trans d1 d2 d3 :
  same_content d1 d2 -> same_content d2 d3 -> same_content d1 d3.
Proof. intros (?&?&?&?) (?&?&?&?). unfold same_content. split_and!; congruence. Qed.

Lemma deletePhase_ok labyrinthId plan v w v' w' :
  deletePhase labyrinthId plan v w = (Ok v', w') ->
  exists t,
    trace w' = trace w ++ t
    /\ calls t = DeletePage labyrinthId <$> allPagesToDelete plan
    /\ same_content (disk w) (disk w')
    /\ (forall n, metaFiles (disk w') !! n
                  = if bool_decide (n ∈ metasToDelete plan) then None
                    else metaFiles (disk w) !! n)
    /\ (forall i, i ∈ pageIds v' <-> i ∈ pageIds v /\ i ∉ allPagesToDelete plan)
    /\ (recorded v (disk w) -> recorded v' (disk w'))
    /\ lm_id (labyMeta_now v') = lm_id (labyMeta_now v)
    /\ lm_hash (labyMeta_now v') = lm_hash (labyMeta_now v)
    /\ imageCache v' = imageCache v /\ pages v' = pages v
    /\ failures_page (counts v') = failures_page (counts v).
Proof.
  unfold Main.deletePhase. intros (v1 & w1 & H1 & H)%bind_ok.
  apply bind_ok in H as ([] & w2 & (_ & T2 & S2 & L2 & M2)%deleteMetas_ok & [= <- <-]).
  destruct (allPagesToDelete plan) as [|pageId ids] eqn:E.
  - injection H1 as <- <-. exists []. rewrite app_nil_r. split_and!; try done.
    + intros i. rewrite elem_of_nil. tauto.
    + intros [Hr1 Hr2]. split; [congruence|done].
  - apply bind_ok in H1 as (v0 & w0 & H0 & H1).
    apply bind_ok in H1 as ([] & w3 & (_ & T3 & D3 & _)%writeDisk_ok & [= <- <-]).
    apply deletes_ok in H0 as (t & T & C & D & P & L & I & G & F).
    exists t. rewrite T2, T3, T. split_and!; try done.
    + eapply same_content_trans; [|done]. rewrite D3, D. done.
    + intros n. rewrite M2, D3, D. done.
    + intros _. split; [by rewrite L2, D3|done].
    + by apply (f_equal lm_id) in L.
    + by apply (f_equal lm_hash) in L.
Qed.

End Run.
End DeleteFacts.

(** ** The phases of a completed run *)

Module ReconcileFacts.
Import Json States PageData Images Main Observe.
Import RunFacts WorldFacts StepFacts ListFacts ObjFacts CallFacts DeleteFacts.

Section Run.
Context {R : Type}.
Variable site : Call -> R -> reply * R.
Variable imageRefs : string -> string -> list (string * string).
Variable replaceLocalImages : string -> list (string * string) -> string.
Variable joinContentPath : string -> string.
Implicit Types (w : World R) (v : Vars) (plan : Plan).

Abbreviation reconcile := (reconcile site imageRefs replaceLocalImages).
Abbreviation main := (main site imageRefs replaceLocalImages joinContentPath).
Abbreviation createPhase := (createPhase site imageRefs replaceLocalImages).
Abbreviation updatePhase := (updatePhase site imageRefs replaceLocalImages).

Lemma gate_ok loaded w w' :
  gate loaded w = (Ok tt, w') ->
  w' = w /\ exists warnings, Validate.validateAllPages (pageJsons loaded) = Ok ([], warnings).
Proof.
  unfold gate. intros ([errors warnings] & w1 & [E ->]%lift_ok & H)%bind_ok.
  destruct errors as [|e errors]; cbn in H.
  - injection H as <-. eauto.
  - apply bind_ok in H as (? & ? & _ & [=]).
Qed.

Lemma firstPageGate_ok firstPage loaded w w' :
  firstPageGate firstPage loaded w = (Ok tt, w') -> w' = w.
Proof.
  unfold firstPageGate. destruct firstPage as [first|]; [|by intros [= <-]].
  destruct (negb _); [|by intros [= <-]].
  intros (? & ? & _ & (? & ? & _ & [=])%bind_ok)%bind_ok.
Qed.

Lemma failureSummary_ok c w r w' :
  failureSummary c w = (r, w') -> r = Ok tt /\ trace w' = trace w /\ disk w' = disk w.
Proof.
  unfold failureSummary. destruct (0 <? _)%nat.
  - by intros (-> & ? & ? & _)%logError_ok.
  - by intros [= <- <-].
Qed.

(** The phases of a completed run. *)
Lemma reconcile_ok lm d loaded metas w c w' :
  reconcile (lm, d, loaded, metas) w = (Ok c, w') ->
  exists warnings plan prepared v1 w1 v2 w2 v3 w3 v4 w4,
    Validate.validateAllPages (pageJsons loaded) = Ok ([], warnings)
    /\ makePlan (statesOf (lm, d, loaded, metas)) (pageIds (startVars lm)) loaded
       = Ok (plan, prepared)
    /\ deletePhase site (default "" (lm_id lm)) plan (set_pages prepared (startVars lm)) w
       = (Ok v1, w1)
    /\ createPhase (default "" (lm_id lm)) (firstPageOf (config d)) plan v1 w1 = (Ok v2, w2)
    /\ updatePhase (default "" (lm_id lm)) (firstPageOf (config d)) plan v2 w2 = (Ok v3, w3)
    /\ linkPhase site (default "" (lm_id lm)) (pageIdMapOf (pages v2)) plan v3 w3
       = (Ok v4, w4)
    /\ c = counts v4 /\ trace w' = trace w4 /\ disk w' = disk w4.
Proof.
  unfold Main.reconcile.
  intros ([] & w0 & [-> [warnings Hv]]%gate_ok & H)%bind_ok.
  apply bind_ok in H as ([] & w0 & ->%firstPageGate_ok & H).
  apply bind_ok in H as ([plan prepared] & w0 & [Hp ->]%lift_ok & H).
  apply bind_ok in H as (v1 & w1 & H1 & H). unfold finish in H.
  apply bind_ok in H as (v2 & w2 & H2 & H).
  apply bind_ok in H as (v3 & w3 & H3 & H).
  apply bind_ok in H as (v4 & w4 & H4 & H).
  apply bind_ok in H as ([] & w5 & (_ & T & D)%failureSummary_ok & [= <- <-]).
  exists warnings, plan, prepared, v1, w1, v2, w2, v3, w3, v4, w4. by split_and!.
Qed.

End Run.
End ReconcileFacts.

(** ** The plan *)

Module IdFacts.
Import States.

Section Determine.
Variables metaNames : list string.
Variable metas : gmap string PageMeta.

Abbreviation metaIdOf := (metaIdOf metas).
Abbreviation idToName := (idToName metaNames metas).

Lemma idToName_fold (l : list string) (acc : gmap string string) i :
  let result :=
    foldl (fun acc name =>
             match metaIdOf name with
             | Some i => if Js.truthy_str i then <[i := name]> acc else acc
             | None => acc
             end) acc l in
  (forall n', result !! i = Some n' ->
     acc !! i = Some n' \/ (n' ∈ l /\ metaIdOf n' = Some i /\ Js.truthy_str i = true))
  /\ (is_Some (acc !! i)
      \/ (exists n, n ∈ l /\ metaIdOf n = Some i /\ Js.truthy_str i = true) ->
      is_Some (result !! i)).
Proof.
  revert acc. induction l as [|name l IH]; intros acc; cbn zeta; cbn [foldl].
  - split; [by left|]. intros [?|(n & []%elem_of_nil & _)]. done.
  - destruct (IH (match metaIdOf name with
                  | Some i => if Js.truthy_str i then <[i := name]> acc else acc
                  | None => acc
                  end)) as [IH1 IH2]. cbn zeta in IH1, IH2.
    split.
    + intros n' [H|(? & ? & ?)]%IH1; [|right; split_and!; [by right|done..]].
      destruct (metaIdOf name) as [j|] eqn:E; [|by left].
      destruct (Js.truthy_str j) eqn:Ej; [|by left].
      destruct (decide (j = i)) as [->|Hne].
      * rewrite lookup_insert_eq in H. injection H as <-. right. split_and!; [left|done..].
      * rewrite lookup_insert_ne in H by done. by left.
    + intros H. apply IH2.
      destruct (metaIdOf name) as [j|] eqn:E.
      * destruct (Js.truthy_str j) eqn:Ej.
        -- destruct (decide (j = i)) as [->|Hne]; [left; by rewrite lookup_insert_eq|].
           rewrite lookup_insert_ne by done.
           destruct H as [?|(n & [->|?]%elem_of_cons & Hn & ?)]; [by left| |right; eauto].
           congruence.
        -- destruct H as [?|(n & [->|?]%elem_of_cons & Hn & ?)]; [by left| |right; eauto].
           congruence.
      * destruct H as [?|(n & [->|?]%elem_of_cons & Hn & ?)]; [by left| |right; eauto].
        congruence.
Qed.

Lemma idToName_lookup i n' :
  idToName !! i = Some n' ->
  n' ∈ metaNames /\ metaIdOf n' = Some i /\ Js.truthy_str i = true.
Proof.
  intros H. destruct (idToName_fold metaNames ∅ i) as [H1 _].
  by destruct (H1 _ H) as [?|?].
Qed.

Lemma idToName_recorded n i :
  n ∈ metaNames -> metaIdOf n = Some i -> Js.truthy_str i = true ->
  exists n', idToName !! i = Some n' /\ n' ∈ metaNames.
Proof.
  intros Hn Hi Ht. destruct (idToName_fold metaNames ∅ i) as [_ H2].
  destruct H2 as [n' Hn']; [right; eauto|].
  exists n'. split; [done|]. by apply idToName_lookup in Hn' as [? _].
Qed.

End Determine.
End IdFacts.

Module PlanFacts.
Import Json States PageData Images Main Observe.
Import RunFacts WorldFacts StepFacts ListFacts ObjFacts StatesFacts IdFacts.

Lemma makePlan_ok states pageIds loaded plan prepared :
  makePlan states pageIds loaded = Ok (plan, prepared) ->
  exists updated unchanged,
    splitNormal loaded (normal states) [] [] = Ok (updated, unchanged)
    /\ resetMissing loaded (pageIds_missing states) = Ok prepared
    /\ plan =
       {| newPages := new states ++ (pageIds_missing states).*1;
          updatedPages := updated;
          unchangedPages := unchanged;
          allPagesToDelete :=
            (orphan states ++ residualIds (residual_meta states)
             ++ incompleteIds pageIds (json_missing states)
             ++ incompleteIds pageIds (html_missing states))
            ++ (pageIds_missing states).*2;
          metasToDelete :=
            incompleteMetas (json_missing states)
            ++ incompleteMetas (html_missing states)
            ++ (res_name <$> residual_meta states) |}.
Proof.
  unfold makePlan.
  destruct (splitNormal _ _ _ _) as [[updated unchanged]| |]; try done.
  destruct (resetMissing _ _) as [pages'| |]; try done.
  intros [= <- <-]. by exists updated, unchanged.
Qed.

Lemma count_absent (i : string) (l : list string) :
  i ∉ l -> filter (eq i) l = [].
Proof.
  induction l as [|j l IH]; [done|]. intros [? ?]%not_elem_of_cons.
  rewrite filter_cons_False by done. auto.
Qed.

Lemma count_NoDup (i : string) (l : list string) :
  NoDup l -> i ∈ l -> length (filter (eq i) l) = 1.
Proof.
  induction 1 as [|j l Hj Hl IH]; [by intros ?%elem_of_nil|].
  intros [->|Hin]%elem_of_cons.
  - rewrite filter_cons_True by done. by rewrite count_absent.
  - rewrite filter_cons_False; [auto|]. intros <-. done.
Qed.

Section Determine.
Variables htmlNames jsonNames metaNames pageIds : list string.
Variable metas : gmap string PageMeta.

Abbreviation states := (determinePageStates htmlNames jsonNames metaNames pageIds metas).

(** An id that some meta file with a name records is no orphan. *)
Lemma recorded_not_orphan n i :
  "" ∉ metaNames ->
  n ∈ metaNames -> metaIdOf metas n = Some i -> Js.truthy_str i = true ->
  i ∉ orphan states.
Proof.
  intros Hne Hn Hi Ht [_ Ho]%orphan_spec.
  destruct (idToName_recorded metaNames metas n i) as (n' & E & Hn'); [done..|].
  rewrite E in Ho. cbn in Ho. destruct n'; [done|discriminate].
Qed.

Lemma residualIds_recorded i :
  i ∈ residualIds (residual_meta states) ->
  exists n, n ∈ metaNames /\ metaIdOf metas n = Some i /\ Js.truthy_str i = true
            /\ i ∈ pageIds.
Proof.
  rewrite determinePageStates_eq. cbn. unfold residualIds.
  rewrite list_elem_of_omap. intros (item & (n & -> & [_ Hn]%list_elem_of_filter)%list_elem_of_fmap & H).
  cbn in H. destruct (States.metaIdOf metas n) as [j|] eqn:E; [|done].
  unfold inPageIdsOf, has in H. cbn in H.
  destruct (Js.truthy_str j) eqn:Ej; [|done]. cbn in H.
  case_bool_decide; [|done]. injection H as <-. by exists n.
Qed.

Lemma incompleteIds_recorded i names :
  i ∈ incompleteIds pageIds (incomplete metaNames metas <$> names) ->
  exists n, n ∈ metaNames /\ metaIdOf metas n = Some i /\ Js.truthy_str i = true
            /\ i ∈ pageIds.
Proof.
  unfold incompleteIds. rewrite list_elem_of_omap.
  intros (item & (n & -> & Hn)%list_elem_of_fmap & H). cbn in H.
  unfold has in H. case_bool_decide; [|done].
  destruct (States.metaIdOf metas n) as [j|] eqn:E; [|done].
  destruct (Js.truthy_str j) eqn:Ej; [|done]. cbn in H.
  case_bool_decide; [|done]. injection H as <-. by exists n.
Qed.

Lemma missingIds_recorded n i :
  (n, i) ∈ pageIds_missing states ->
  n ∈ htmlNames /\ n ∈ jsonNames /\ n ∈ metaNames /\ metaIdOf metas n = Some i
  /\ Js.truthy_str i = true /\ i ∉ pageIds.
Proof.
  rewrite determinePageStates_eq. cbn.
  intros (n' & [= -> ->] & [Hm Hn]%list_elem_of_filter)%list_elem_of_fmap.
  unfold isMissing, has in Hm.
  destruct (States.metaIdOf metas n') as [j|] eqn:E; cbn in *;
    [|by rewrite andb_false_r in Hm].
  unfold inPageIdsOf, has in Hm.
  destruct (Js.truthy_str j) eqn:Ej; cbn in Hm; [|by rewrite andb_false_r in Hm].
  repeat case_bool_decide; try done.
Qed.

Lemma orphan_once i :
  NoDup pageIds -> "" ∉ metaNames -> i ∈ orphan states ->
  length (filter (eq i)
            ((orphan states ++ residualIds (residual_meta states)
              ++ incompleteIds pageIds (json_missing states)
              ++ incompleteIds pageIds (html_missing states))
             ++ (pageIds_missing states).*2)) = 1.
Proof.
  intros Hnd Hne Ho. rewrite !filter_app, !length_app.
  rewrite (count_NoDup i (orphan states)) by (by try apply orphan_NoDup).
  rewrite !count_absent; [done|..].
  - intros ((n & j) & -> & (_ & _ & Hn & Hi & Ht & _)%missingIds_recorded)%list_elem_of_fmap.
    by eapply recorded_not_orphan.
  - rewrite determinePageStates_eq. cbn.
    intros (n & Hn & Hi & Ht & _)%incompleteIds_recorded. by eapply recorded_not_orphan.
  - rewrite determinePageStates_eq. cbn.
    intros (n & Hn & Hi & Ht & _)%incompleteIds_recorded. by eapply recorded_not_orphan.
  - intros (n & Hn & Hi & Ht & _)%residualIds_recorded. by eapply recorded_not_orphan.
Qed.

End Determine.
End PlanFacts.

(** ** Orphan ids *)

Module OrphanFacts.
Import Json States PageData Images Main Observe.
Import RunFacts WorldFacts StepFacts ListFacts ObjFacts StatesFacts CallFacts.
Import DeleteFacts ReconcileFacts IdFacts PlanFacts.

Section Run.
Context {R : Type}.
Variable site : Call -> R -> reply * R.
Variable imageRefs : string -> string -> list (string * string).
Variable replaceLocalImages : string -> list (string * string) -> string.
Implicit Types (w : World R) (v : Vars) (plan : Plan).

Abbreviation reconcile := (reconcile site imageRefs replaceLocalImages).
Abbreviation finish := (finish site imageRefs replaceLocalImages).
Abbreviation deletePhase := (deletePhase site).

Lemma finish_calls labyrinthId firstPage plan v :
  respects (continues (permits (fun c => creating c || updating c || linking c)))
    (finish labyrinthId firstPage plan v).
Proof.
  unfold Main.finish, failureSummary.
  apply respects_bind; [apply _| |intros v2].
  { eapply respects_mono; [|apply createPhase_calls].
    intros [c ?|?]; [|done]. cbn. by intros ->. }
  apply respects_bind; [apply _| |intros v3].
  { eapply respects_mono; [|apply updatePhase_calls].
    intros [c ?|?]; [|done]. cbn. intros ->. by rewrite orb_true_r. }
  apply respects_bind; [apply _| |intros v4].
  { eapply respects_mono; [|apply linkPhase_calls].
    intros [c ?|?]; [|done]. cbn. intros ->. by rewrite orb_true_r. }
  frame.
Qed.

Lemma deletes_total labyrinthId ids v w :
  (forall pageId r, exists b r', site (DeletePage labyrinthId pageId) r = (Returned b, r')) ->
  exists v' w', fold_each ids (deleteOne site labyrinthId) v w = (Ok v', w').
Proof.
  intros Hsite. revert v w. induction ids as [|i ids IH]; intros v w; cbn [fold_each].
  - by eexists _, _.
  - unfold bind at 1. unfold Main.deleteOne at 1. unfold bind at 1. unfold call at 1.
    destruct (Hsite i (remote w)) as (b & r' & ->). unfold bind, sleep, modify. cbn.
    apply IH.
Qed.

Lemma deletePhase_total labyrinthId plan v w :
  (forall pageId r, exists b r', site (DeletePage labyrinthId pageId) r = (Returned b, r')) ->
  exists v' w', deletePhase labyrinthId plan v w = (Ok v', w').
Proof.
  intros Hsite. unfold Main.deletePhase.
  assert (exists v1 w1,
            match allPagesToDelete plan with
            | [] => ret v
            | _ :: _ =>
                (let* v0 := fold_each (allPagesToDelete plan) (deleteOne site labyrinthId) v in
                 do* writeLabyMeta (labyMeta_now (assign_pageIds v0)) in
                 ret (assign_pageIds v0))%run
            end w = (Ok v1, w1)) as (v1 & w1 & H1).
  { destruct (allPagesToDelete plan) as [|i ids]; [by eexists _, _|].
    destruct (deletes_total labyrinthId (i :: ids) v w Hsite) as (v0 & w0 & H0).
    unfold bind. rewrite H0. cbn. by eexists _, _. }
  unfold bind at 1. rewrite H1.
  destruct (for_each (metasToDelete plan) deletePageMeta w1) as [r w2] eqn:E.
  unfold bind. rewrite E. apply deleteMetas_ok in E as [-> _]. by eexists _, _.
Qed.


End Run.


End OrphanFacts.

(** ** Step 4: creating pages *)

Module CreateFacts.
Import Json States PageData Images Main Observe.
Import RunFacts WorldFacts StepFacts ListFacts ObjFacts CallFacts DeleteFacts QuietFacts.

Lemma Forall2_impl_in {A B} (P Q : A -> B -> Prop) (l : list A) (k : list B) :
  Forall2 P l k -> (forall x y, x ∈ l -> P x y -> Q x y) -> Forall2 Q l k.
Proof.
  induction 1 as [|x y l k Hxy Hlk IH]; intros H; constructor.
  - apply H; [left|done].
  - apply IH. intros x' y' Hx'. apply H. by right.
Qed.

Section Run.
Context {R : Type}.
Variable site : Call -> R -> reply * R.
Variable imageRefs : string -> string -> list (string * string).
Variable replaceLocalImages : string -> list (string * string) -> string.
Implicit Types (w : World R) (v : Vars) (plan : Plan).

Abbreviation createOne := (createOne site imageRefs replaceLocalImages).
Abbreviation createPhase := (createPhase site imageRefs replaceLocalImages).
Abbreviation uploadImages := (Main.uploadImages site replaceLocalImages).

Lemma uploadNewImages_quiet imagePaths imageCache :
  respects (quietly (permits composing)) (Main.uploadNewImages site imagePaths imageCache).
Proof.
  unfold Main.uploadNewImages, Images.uploadNewImages, uploadOne, calculateChecksum. quiet.
Qed.

Lemma findLocalImages_quiet name html :
  respects (quietly (permits composing)) (Main.findLocalImages (R:=R) imageRefs name html).
Proof. unfold Main.findLocalImages, Images.findLocalImages. quiet. Qed.

Lemma processAnswers_quiet name answers acc :
  respects (quietly (permits composing))
    (fold_each answers (processAnswer (R:=R) imageRefs name) acc).
Proof.
  unfold processAnswer, Main.findLocalImages, Images.findLocalImages. quiet.
Qed.

Lemma addAnswers_quiet processedAnswers :
  respects (quietly (permits composing)) (for_each processedAnswers (addAnswer site)).
Proof. unfold addAnswer. quiet. Qed.

(** The upload step of a page: nothing but the cache and its record in
    [labyrinth.meta] change. *)
Lemma uploadImages_ok v html localImages processedAnswers w v' html' processed' w' :
  uploadImages v html localImages processedAnswers w = (Ok (v', html', processed'), w') ->
  continues (permits composing) w w'
  /\ (v' = v /\ disk w' = disk w
      \/ exists newCache,
           v' = assign_images newCache v
           /\ disk w' = set_labyMetaFile (Some (labyMeta_now v')) (disk w)).
Proof.
  unfold Main.uploadImages. destruct localImages as [|img imgs].
  - intros [= <- <- <- <-]. split; [reflexivity|by left].
  - intros ([newCache pathMap] & w1 & H1 & H)%bind_ok.
    apply bind_ok in H as ([] & w2 & (_ & T2 & D2 & _)%writeDisk_ok & [= <- <- <- <-]).
    apply uploadNewImages_quiet in H1 as [(t & T & Ht) D].
    split.
    + exists t. by rewrite T2.
    + right. exists newCache. by rewrite D2, D.
Qed.

Lemma set_labyMetaFile_content m d : same_content d (set_labyMetaFile m d).
Proof. done. Qed.

Lemma createOne_ok labyrinthId firstPage v name w v' w' :
  createOne labyrinthId firstPage v name w = (Ok v', w') ->
  (forall p, JsObject.get name (pages v) = Some p -> Js.truthy_str (pi_html p) = true) ->
  exists p t val,
    JsObject.get name (pages v) = Some p
    /\ trace w' = trace w ++ t /\ created t = [val]
    /\ same_content (disk w) (disk w')
    /\ lm_id (labyMeta_now v') = lm_id (labyMeta_now v)
    /\ lm_hash (labyMeta_now v') = lm_hash (labyMeta_now v)
    /\ match value_string val with
       | Some i =>
           exists html' isFirst isEnding,
             let meta := {| pm_id := Some i; pm_hash := Some (pi_hash p);
                            pm_is_first := Some isFirst; pm_is_ending := Some isEnding |} in
             metaFiles (disk w') = <[name := meta]> (metaFiles (disk w))
             /\ pageIds v' = pageIds (push_pageId i v)
             /\ pages v' = JsObject.set name (set_finalHtml html' (set_meta meta p)) (pages v)
             /\ failures_page (counts v') = failures_page (counts v)
       | None =>
           metaFiles (disk w') = metaFiles (disk w) /\ pageIds v' = pageIds v
           /\ pages v' = pages v
           /\ failures_page (counts v') = S (failures_page (counts v))
       end.
Proof.
  unfold Main.createOne. intros H Hhtml.
  destruct (JsObject.get name (pages v)) as [p|] eqn:Hp; [|done].
  specialize (Hhtml p eq_refl). rewrite Hhtml in H. cbn [negb] in H.
  apply bind_ok in H as (? & w1 & H1 & H).
  apply bind_ok in H as (localImages & w2 & H2 & H). cbv zeta in H.
  apply bind_ok in H as (answers & w3 & Hl & H). apply lift_ok in Hl as [Ha ->].
  apply bind_ok in H as ([localImages' processed] & w4 & H4 & H).
  apply bind_ok in H as ([[v5 html5] processed5] & w5 & H5 & H).
  apply bind_ok in H as (? & w6 & H6 & H).
  apply bind_ok in H as ([] & w7 & H7 & H).
  apply bind_ok in H as (val & w8 & (t8 & T8 & A8 & _ & D8 & _)%retried_ok & H).
  observe (permits composing) H1; [quiet|].
  apply findLocalImages_quiet in H2 as Q2.
  apply processAnswers_quiet in H4 as Q4.
  apply uploadImages_ok in H5 as [C5 V5].
  observe (permits composing) H6; [quiet|].
  observe (permits composing) H7; [unfold addAnswer; quiet|].
  assert (exists t, trace w7 = trace w ++ t /\ created t = []
                    /\ same_content (disk w) (disk w7)
                    /\ metaFiles (disk w7) = metaFiles (disk w)) as (t7 & T7 & Ct7 & S7 & M7).
  { destruct Q as [C1 D1], Q2 as [C2 D2], Q4 as [C4 D4], Q0 as [C6 D6], Q1 as [C7 D7].
    assert (continues (permits composing) w w7) as (t & T & Ht).
    { etrans; [exact C1|]. etrans; [exact C2|]. etrans; [exact C4|].
      etrans; [exact C5|]. etrans; [exact C6|]. exact C7. }
    exists t. split; [done|]. split; [by apply (permits_created composing)|].
    rewrite D7, D6. destruct V5 as [[_ ->]|(c & _ & ->)]; rewrite ?D4, ?D2, ?D1; by cbn. }
  assert (Hv5 : pageIds v5 = pageIds v /\ pages v5 = pages v /\ counts v5 = counts v
                /\ aliased v5 = aliased v
                /\ lm_id (labyMeta_now v5) = lm_id (labyMeta_now v)
                /\ lm_hash (labyMeta_now v5) = lm_hash (labyMeta_now v)).
  { by destruct V5 as [[-> _]|(c & -> & _)]. }
  destruct Hv5 as (P5 & G5 & K5 & A5 & I5 & J5).
  exists p, (t7 ++ t8), val. split; [done|].
  rewrite created_app, Ct7. unfold created at 1. rewrite A8. cbn [omap fst snd app].
  destruct (value_string val) as [i|] eqn:Ev.
  - apply bind_ok in H as ([] & w9 & (_ & T9 & D9 & _)%writeDisk_ok & [= <- <-]).
    rewrite T9, T8, T7, D9, D8, app_assoc. split_and!; try done.
    eexists _, _, _. cbn. rewrite M7, P5, G5, K5. done.
  - apply bind_ok in H as ([] & w9 & (_ & T9 & D9 & _)%logError_ok & [= <- <-]).
    rewrite T9, T8, T7, D9, D8, app_assoc. split_and!; try done.
    cbn. by rewrite K5.
Qed.

Lemma elem_of_push_pageId i j v :
  j ∈ pageIds (push_pageId i v) <-> j ∈ pageIds v \/ j = i.
Proof.
  cbn. case_bool_decide.
  - split; [by left|]. by intros [?| ->].
  - by rewrite elem_of_app, list_elem_of_singleton.
Qed.

Lemma creates_ok labyrinthId firstPage names v w v' w' :
  fold_each names (createOne labyrinthId firstPage) v w = (Ok v', w') ->
  NoDup names ->
  (forall n p, n ∈ names ->
     JsObject.get n (pages v) = Some p -> Js.truthy_str (pi_html p) = true) ->
  exists t vals,
    trace w' = trace w ++ t /\ created t = vals
    /\ same_content (disk w) (disk w')
    /\ lm_id (labyMeta_now v') = lm_id (labyMeta_now v)
    /\ lm_hash (labyMeta_now v') = lm_hash (labyMeta_now v)
    /\ failures_page (counts v) <= failures_page (counts v')
    /\ (forall i, i ∈ pageIds v -> i ∈ pageIds v')
    /\ (forall i, i ∈ pageIds v' ->
          i ∈ pageIds v \/ exists val, val ∈ vals /\ value_string val = Some i)
    /\ (forall n, n ∉ names ->
          metaFiles (disk w') !! n = metaFiles (disk w) !! n
          /\ JsObject.get n (pages v') = JsObject.get n (pages v))
    /\ Forall2 (page_created v v' (disk w')) names vals.
Proof.
  revert v w. induction names as [|name names IH]; intros v w; cbn [fold_each].
  - intros [= <- <-] _ _. exists [], []. rewrite app_nil_r.
    split_and!; first [done|by left|constructor].
  - intros (v1 & w1 & H1 & H)%bind_ok [Hname Hnd]%NoDup_cons Hpages.
    eapply createOne_ok in H1 as (p & t1 & val & Hp & T1 & C1 & S1 & I1 & J1 & Hval).
    2:{ intros p. apply Hpages. left. }
    assert (Hrest : forall n, n ∈ names -> JsObject.get n (pages v1) = JsObject.get n (pages v)).
    { intros n Hn. assert (n <> name) by (by intros ->).
      destruct (value_string val).
      - destruct Hval as (? & ? & ? & _ & _ & -> & _). by rewrite get_set_ne.
      - by destruct Hval as (_ & _ & -> & _). }
    apply IH in H as (t & vals & T & C & S & I & J & F & P1 & P2 & N & A); [|done|].
    2:{ intros n q Hn. rewrite Hrest by done. apply Hpages. by right. }
    exists (t1 ++ t), (val :: vals).
    rewrite T, T1, created_app, C1, C, I, J, I1, J1, <-app_assoc.
    assert (Hf1 : failures_page (counts v) <= failures_page (counts v1)).
    { destruct (value_string val).
      - destruct Hval as (? & ? & ? & _ & _ & _ & ->). done.
      - destruct Hval as (_ & _ & _ & ->). lia. }
    assert (Hp1 : forall i, i ∈ pageIds v -> i ∈ pageIds v1).
    { intros i Hi. destruct (value_string val).
      - destruct Hval as (? & ? & ? & _ & -> & _). apply elem_of_push_pageId. by left.
      - by destruct Hval as (_ & -> & _). }
    split_and!; try done.
    + by eapply same_content_trans.
    + lia.
    + auto.
    + intros i [Hi|(val' & ? & ?)]%P2; [|right; exists val'; split; [by right|done]].
      destruct (value_string val) as [j|] eqn:Ej.
      * destruct Hval as (? & ? & ? & _ & Hpush & _). rewrite Hpush in Hi.
        apply elem_of_push_pageId in Hi as [?| ->]; [by left|].
        right. exists val. split; [left|done].
      * destruct Hval as (_ & Hsame & _). rewrite Hsame in Hi. by left.
    + intros n [Hne Hn]%not_elem_of_cons. destruct (N n Hn) as [-> ->].
      destruct (value_string val).
      * destruct Hval as (? & ? & ? & -> & _ & -> & _).
        by rewrite lookup_insert_ne, get_set_ne.
      * by destruct Hval as (-> & _ & -> & _).
    + constructor.
      * exists p. split; [done|]. destruct (N name Hname) as [N1 N2]. cbv zeta in Hval.
        destruct (value_string val) as [i|].
        -- destruct Hval as (html' & isFirst & isEnding & M1 & Hpush & G1 & _).
           split; [apply P1; rewrite Hpush; apply elem_of_push_pageId; by right|].
           eexists. rewrite N2, G1, get_set_eq, N1, M1, lookup_insert_eq.
           by split_and!.
        -- destruct Hval as (_ & _ & _ & Hf). lia.
      * eapply Forall2_impl_in; [exact A|]. intros n val' Hn (q & Hq & Hmatch).
        exists q. rewrite <-Hrest by done. split; [done|].
        destruct (value_string val'); [done|lia].
Qed.

Lemma createPhase_ok labyrinthId firstPage plan v w v' w' :
  createPhase labyrinthId firstPage plan v w = (Ok v', w') ->
  NoDup (newPages plan) ->
  (forall n p, n ∈ newPages plan ->
     JsObject.get n (pages v) = Some p -> Js.truthy_str (pi_html p) = true) ->
  exists t vals,
    trace w' = trace w ++ t /\ created t = vals
    /\ same_content (disk w) (disk w')
    /\ lm_id (labyMeta_now v') = lm_id (labyMeta_now v)
    /\ lm_hash (labyMeta_now v') = lm_hash (labyMeta_now v)
    /\ failures_page (counts v) <= failures_page (counts v')
    /\ (forall i, i ∈ pageIds v -> i ∈ pageIds v')
    /\ (forall i, i ∈ pageIds v' ->
          i ∈ pageIds v \/ exists val, val ∈ vals /\ value_string val = Some i)
    /\ (forall n, n ∉ newPages plan ->
          metaFiles (disk w') !! n = metaFiles (disk w) !! n
          /\ JsObject.get n (pages v') = JsObject.get n (pages v))
    /\ Forall2 (page_created v v' (disk w')) (newPages plan) vals
    /\ (recorded v (disk w) -> recorded v' (disk w')).
Proof.
  unfold Main.createPhase. intros H Hnd Hpages.
  destruct (newPages plan) as [|name names] eqn:E.
  - injection H as <- <-. exists [], []. rewrite app_nil_r.
    split_and!; first [done|by left|constructor].
  - apply bind_ok in H as (v0 & w0 & H0 & H).
    apply bind_ok in H as ([] & w1 & (_ & T1 & D1 & _)%writeDisk_ok & [= <- <-]).
    apply creates_ok in H0 as (t & vals & T & C & S & I & J & F & P1 & P2 & N & A);
      [|done..].
    exists t, vals. rewrite T1, D1. by split_and!.
Qed.

End Run.
End CreateFacts.

(** ** Steps 5 and 6: updating and linking pages *)

Module UpdateFacts.
Import Json States PageData Images Main Observe.
Import RunFacts WorldFacts StepFacts ListFacts ObjFacts CallFacts DeleteFacts QuietFacts.
Import CreateFacts.

Section Run.
Context {R : Type}.
Variable site : Call -> R -> reply * R.
Variable imageRefs : string -> string -> list (string * string).
Variable replaceLocalImages : string -> list (string * string) -> string.
Implicit Types (w : World R) (v : Vars) (plan : Plan).

Abbreviation updateOne := (updateOne site imageRefs replaceLocalImages).
Abbreviation updatePhase := (updatePhase site imageRefs replaceLocalImages).

Lemma updateOne_ok labyrinthId firstPage v name w v' w' :
  updateOne labyrinthId firstPage v name w = (Ok v', w') ->
  (forall p, JsObject.get name (pages v) = Some p ->
     exists i, pm_id (pi_meta p) = Some i /\ Js.truthy_str i = true
               /\ Js.truthy_str (pi_html p) = true) ->
  exists p i html' isFirst isEnding,
    let meta := {| pm_id := Some i; pm_hash := Some (pi_hash p);
                   pm_is_first := Some isFirst; pm_is_ending := Some isEnding |} in
    JsObject.get name (pages v) = Some p /\ pm_id (pi_meta p) = Some i
    /\ same_content (disk w) (disk w')
    /\ metaFiles (disk w') = <[name := meta]> (metaFiles (disk w))
    /\ pages v' = JsObject.set name (set_finalHtml html' (set_meta meta p)) (pages v)
    /\ pageIds v' = pageIds v
    /\ (recorded v (disk w) -> recorded v' (disk w'))
    /\ lm_id (labyMeta_now v') = lm_id (labyMeta_now v)
    /\ lm_hash (labyMeta_now v') = lm_hash (labyMeta_now v)
    /\ failures_page (counts v') = failures_page (counts v).
Proof.
  unfold Main.updateOne. intros H Hpre.
  destruct (JsObject.get name (pages v)) as [p|] eqn:Hp; [|done].
  destruct (Hpre p eq_refl) as (i & Hi & Hti & Hhtml). cbv zeta in H. rewrite Hi, Hti, Hhtml in H. cbn [negb] in H.
  apply bind_ok in H as (? & w1 & H1 & H).
  apply bind_ok in H as (localImages & w2 & H2 & H). cbv zeta in H.
  apply bind_ok in H as (answers & w3 & Hl & H). apply lift_ok in Hl as [Ha ->].
  apply bind_ok in H as ([localImages' processed] & w4 & H4 & H).
  apply bind_ok in H as ([[v5 html5] processed5] & w5 & H5 & H).
  apply bind_ok in H as ([] & w6 & H6 & H).
  apply bind_ok in H as (? & w7 & H7 & H).
  apply bind_ok in H as ([] & w8 & H8 & H).
  apply bind_ok in H as (? & w9 & H9 & H).
  apply bind_ok in H as ([] & w10 & (_ & T10 & D10 & _)%writeDisk_ok & [= <- <-]).
  observe (permits updating) H1; [quiet|].
  apply (findLocalImages_quiet imageRefs) in H2 as Q2.
  apply (processAnswers_quiet imageRefs) in H4 as Q4.
  apply uploadImages_ok in H5 as [C5 V5].
  observe (permits updating) H6; [quiet|].
  observe (permits updating) H7; [quiet|].
  observe (permits updating) H8; [unfold addAnswer; quiet|].
  observe (permits updating) H9; [quiet|].
  destruct Q as [_ D1], Q2 as [_ D2], Q4 as [_ D4], Q0 as [_ D6], Q1 as [_ D7],
    Q3 as [_ D8], Q5 as [_ D9].
  assert (D : disk w9 = disk w5) by congruence.
  assert (D' : disk w4 = disk w) by congruence.
  exists p, i. eexists _, _, _. cbn zeta. rewrite D10, D. cbn [set_metaFiles metaFiles].
  destruct V5 as [[-> E5]|(c & -> & E5)]; rewrite E5, ?D'; cbn; split_and!; try done.
  intros [_ Hr]. split; done.
Qed.

Lemma updates_ok labyrinthId firstPage names v w v' w' :
  fold_each names (updateOne labyrinthId firstPage) v w = (Ok v', w') ->
  NoDup names ->
  (forall n p, n ∈ names -> JsObject.get n (pages v) = Some p ->
     exists i, pm_id (pi_meta p) = Some i /\ Js.truthy_str i = true
               /\ Js.truthy_str (pi_html p) = true) ->
  same_content (disk w) (disk w')
  /\ pageIds v' = pageIds v
  /\ (recorded v (disk w) -> recorded v' (disk w'))
  /\ lm_id (labyMeta_now v') = lm_id (labyMeta_now v)
  /\ lm_hash (labyMeta_now v') = lm_hash (labyMeta_now v)
  /\ failures_page (counts v') = failures_page (counts v)
  /\ (forall n, n ∉ names ->
        metaFiles (disk w') !! n = metaFiles (disk w) !! n
        /\ JsObject.get n (pages v') = JsObject.get n (pages v))
  /\ (forall n, n ∈ names ->
        exists p m, JsObject.get n (pages v) = Some p
                    /\ metaFiles (disk w') !! n = Some m
                    /\ pm_id m = pm_id (pi_meta p)
                    /\ pm_hash m = Some (pi_hash p)).
Proof.
  revert v w. induction names as [|name names IH]; intros v w; cbn [fold_each].
  - intros [= <- <-] _ _. split_and!; try done. by intros n ?%elem_of_nil.
  - intros (v1 & w1 & H1 & H)%bind_ok [Hname Hnd]%NoDup_cons Hpages.
    eapply updateOne_ok in H1
      as (p & i & html' & isFirst & isEnding & Hp & Hi & S1 & M1 & G1 & P1 & R1 & I1 & J1 & F1).
    2:{ intros p. apply Hpages. left. }
    cbv zeta in M1, G1.
    assert (Hrest : forall n, n <> name ->
              JsObject.get n (pages v1) = JsObject.get n (pages v)).
    { intros n Hn. by rewrite G1, get_set_ne. }
    apply IH in H as (S & P & Rc & I & J & F & N & A); [|done|].
    2:{ intros n q Hn. rewrite Hrest by (by intros ->). apply Hpages. by right. }
    split_and!; try congruence.
    + by eapply same_content_trans.
    + auto.
    + intros n [Hne Hn]%not_elem_of_cons. destruct (N n Hn) as [-> ->].
      by rewrite M1, lookup_insert_ne, Hrest.
    + intros n [->|Hn]%elem_of_cons.
      * destruct (N name Hname) as [N1 _]. exists p. eexists.
        rewrite N1, M1, lookup_insert_eq. by split_and!.
      * destruct (A n Hn) as (q & m & Hq & Hm). exists q, m.
        rewrite <-Hrest; [done|]. by intros ->.
Qed.

End Run.
End UpdateFacts.

Module LinkFacts.
Import Json States PageData Images Main Observe.
Import RunFacts WorldFacts StepFacts ListFacts ObjFacts CallFacts DeleteFacts QuietFacts.

Section Run.
Context {R : Type}.
Variable site : Call -> R -> reply * R.
Implicit Types (w : World R) (v : Vars) (plan : Plan).

Lemma linkPhase_quiet labyrinthId pageIdMap plan v :
  respects (quietly (permits linking)) (linkPhase site labyrinthId pageIdMap plan v).
Proof. unfold linkPhase, linkOne, connectOne. quiet. Qed.

(** What the link phase can change of the variables: the counters of
    connections. *)
Lemma connects_ok sources acc w acc' w' :
  fold_each sources (connectOne site) acc w = (Ok acc', w') ->
  pageIds acc'.2 = pageIds acc.2 /\ pages acc'.2 = pages acc.2
  /\ labyMeta_now acc'.2 = labyMeta_now acc.2
  /\ failures_page (counts acc'.2) = failures_page (counts acc.2).
Proof.
  revert acc w. induction sources as [|src sources IH]; intros acc w; cbn [fold_each].
  - by intros [= <- <-].
  - intros (acc1 & w1 & H1 & (-> & -> & -> & ->)%IH)%bind_ok.
    unfold connectOne in H1. destruct acc as [ok v].
    apply bind_ok in H1 as (success & w2 & _ & H1).
    by destruct (truthy_value success); injection H1 as <- <-.
Qed.

Lemma linkOne_ok labyrinthId pageIdMap connections v targetPageId w v' w' :
  linkOne site labyrinthId pageIdMap connections v targetPageId w = (Ok v', w') ->
  pageIds v' = pageIds v /\ pages v' = pages v
  /\ labyMeta_now v' = labyMeta_now v
  /\ failures_page (counts v') = failures_page (counts v).
Proof.
  unfold linkOne. intros (? & w1 & _ & H)%bind_ok.
  apply bind_ok in H as (? & w2 & _ & H).
  apply bind_ok in H as ([ok v1] & w3 & (P & G & L & F)%connects_ok & H).
  apply bind_ok in H as ([] & w4 & _ & H).
  apply bind_ok in H as (? & w5 & _ & H).
  apply bind_ok in H as ([] & w6 & _ & [= <- <-]).
  cbn in *. by destruct ok.
Qed.

Lemma linkPhase_ok labyrinthId pageIdMap plan v w v' w' :
  linkPhase site labyrinthId pageIdMap plan v w = (Ok v', w') ->
  disk w' = disk w /\ pageIds v' = pageIds v /\ pages v' = pages v
  /\ labyMeta_now v' = labyMeta_now v
  /\ failures_page (counts v') = failures_page (counts v).
Proof.
  intros H. apply linkPhase_quiet in H as Q. destruct Q as [_ D]. split; [done|].
  unfold linkPhase in H. apply bind_ok in H as (connections & w1 & _ & H).
  clear D. revert v w1 H. induction (JsObject.keys connections) as [|target targets IH];
    intros v w1; cbn [fold_each].
  - by intros [= <- <-].
  - intros (v1 & w2 & (P & G & L & F)%linkOne_ok & (-> & -> & -> & ->)%IH)%bind_ok.
    done.
Qed.

End Run.
End LinkFacts.

(** ** The survey *)

Module SurveyFacts.
Import Json States PageData Images Main Observe.
Import RunFacts WorldFacts StepFacts ListFacts ObjFacts CallFacts DeleteFacts QuietFacts.

Lemma elem_of_keys {V} (m : gmap string V) (n : string) :
  n ∈ (map_to_list m).*1 <-> is_Some (m !! n).
Proof.
  rewrite list_elem_of_fmap. split.
  - intros ([k x] & -> & H%elem_of_map_to_list). by exists x.
  - intros [x H]. exists (n, x). split; [done|]. by apply elem_of_map_to_list.
Qed.

Lemma NoDup_keys {V} (m : gmap string V) : NoDup (map_to_list m).*1.
Proof. apply NoDup_fst_map_to_list. Qed.

Lemma if_ext {A} (P Q : Prop) `{!Decision P, !Decision Q} (x y : A) :
  (P <-> Q) ->
  (if bool_decide P then x else y) = (if bool_decide Q then x else y).
Proof. intros H. by rewrite (bool_decide_ext P Q H). Qed.

Lemma tail_iff (n name : string) (names : list string) (P : Prop) :
  n <> name -> (n ∈ names /\ P <-> n ∈ name :: names /\ P).
Proof.
  intros Hne. rewrite elem_of_cons. split.
  - intros [? ?]. split; [by right|done].
  - by intros [[?|?] ?].
Qed.

Section Run.
Context {R : Type}.
Variable site : Call -> R -> reply * R.
Variable imageRefs : string -> string -> list (string * string).
Variable joinContentPath : string -> string.
Implicit Types (w : World R) (v : Vars) (plan : Plan).

Abbreviation survey := (survey site imageRefs joinContentPath).
Abbreviation syncLabyrinth := (syncLabyrinth site joinContentPath).
Abbreviation loadPage := (loadPage (R:=R) imageRefs).

Lemma createLabyrinth_ok config w labyrinthId w' :
  createLabyrinth site config w = (Ok labyrinthId, w') ->
  disk w' = disk w /\ Js.truthy_str labyrinthId = true.
Proof.
  unfold createLabyrinth. destruct (negb _); [done|].
  intros (val & w1 & (_ & D & _)%call_ok & H)%bind_ok.
  destruct (value_string val) as [i|] eqn:E; [|done].
  injection H as <- <-. split; [done|]. by eapply ImageFacts.value_string_truthy.
Qed.

Lemma retried_createLabyrinth_ok config w labyrinthId w' :
  Retry.withRetry sleep (createLabyrinth site config) Retry.maxRetries w
  = (Ok labyrinthId, w') ->
  disk w' = disk w /\ Js.truthy_str labyrinthId = true.
Proof.
  unfold Retry.withRetry. generalize 1 NoValue. generalize Retry.maxRetries at 2.
  intros todo. revert w. induction todo as [|todo IH]; intros w attempt lastError;
    cbn [Retry.withRetry_loop]; [done|].
  unfold try_catch.
  destruct (createLabyrinth site config w) as [[i|e|c] w1] eqn:E; [| |done].
  - intros [= <- <-]. by apply createLabyrinth_ok in E.
  - assert (D1 : disk w1 = disk w).
    { assert (quietly (permits opens_labyrinth) w w1) as [_ D]; [|done].
      cut (respects (quietly (R:=R) (permits opens_labyrinth)) (createLabyrinth site config)).
      { intros Hr. exact (Hr _ _ _ E). }
      unfold createLabyrinth. quiet. }
    intros (retryable & w2 & H1 & H)%bind_ok.
    assert (w2 = w1) as ->.
    { unfold Retry.isRetryableError, ret, throw in H1. by destruct e; simplify_eq. }
    destruct (negb retryable || _); [done|].
    apply bind_ok in H as ([] & w3 & (_ & _ & D3 & _)%sleep_ok & H).
    apply IH in H as [D ?]. split; [congruence|done].
Qed.

Lemma syncLabyrinth_ok w lm w' :
  syncLabyrinth w = (Ok lm, w') ->
  same_content (disk w) (disk w')
  /\ labyMetaFile (disk w') = Some lm
  /\ Js.truthy_ostr (lm_id lm) = true
  /\ (exists h, Laby.computeLabyrinthHash joinContentPath (config (disk w)) (assets (disk w))
                = Ok h /\ lm_hash lm = Some h)
  /\ (forall n, metaFiles (disk w') !! n
                = match labyMetaFile (disk w) with
                  | Some _ => metaFiles (disk w) !! n
                  | None => None
                  end).
Proof.
  unfold Main.syncLabyrinth.
  intros (d & w0 & Hr & H)%bind_ok. apply readDisk_ok in Hr as [Hd ->].
  injection Hd as ->. cbv zeta in H.
  apply bind_ok in H as ([] & w1 & H1 & H).
  assert (Hw1 : same_content (disk w) (disk w1)
                /\ labyMetaFile (disk w1) = labyMetaFile (disk w)
                /\ forall n, metaFiles (disk w1) !! n
                             = match labyMetaFile (disk w) with
                               | Some _ => metaFiles (disk w) !! n
                               | None => None
                               end).
  { destruct (labyMetaFile (disk w)) as [lm0|] eqn:E.
    - by injection H1 as <-.
    - apply deleteMetas_ok in H1 as (_ & _ & S & L & M). rewrite E in L.
      split_and!; try done.
      intros n. rewrite M. case_bool_decide as Hn; [done|].
      destruct (metaFiles (disk w) !! n) eqn:En; [|done].
      exfalso. apply Hn, elem_of_keys. by eexists. }
  destruct Hw1 as (S1 & L1 & M1).
  apply bind_ok in H as (h & w2 & Hl & H). apply lift_ok in Hl as [Hh ->].
  symmetry in Hh.
  destruct (negb (Js.truthy_ostr (lm_id (default emptyLabyMeta (labyMetaFile (disk w))))))
    eqn:Eid.
  - apply bind_ok in H as (labyrinthId & w3 & [D3 Hi]%retried_createLabyrinth_ok & H).
    apply bind_ok in H as ([] & w4 & (_ & _ & D4 & _)%writeDisk_ok & [= <- <-]).
    rewrite D4, D3. cbn. split_and!; try done. by exists h.
  - apply negb_false_iff in Eid.
    destruct (labyMetaFile (disk w)) as [lm0|] eqn:E; [|done]. cbn in *.
    destruct (negb (bool_decide (lm_hash lm0 = Some h))) eqn:Eh.
    + apply bind_ok in H as (? & w3 & (? & _ & _ & _ & D3 & _)%retried_ok & H).
      apply bind_ok in H as ([] & w4 & (_ & _ & D4 & _)%writeDisk_ok & [= <- <-]).
      rewrite D4, D3. cbn. split_and!; try done. by exists h.
    + injection H as <- <-. apply negb_false_iff, bool_decide_eq_true in Eh.
      split_and!; try done. by exists h.
Qed.

Lemma loadPage_ok jsonNames pages0 metas0 name w pages1 metas1 w' :
  loadPage jsonNames (pages0, metas0) name w = (Ok (pages1, metas1), w') ->
  trace w' = trace w /\ disk w' = disk w
  /\ if has jsonNames name then
       metas1 = <[name := readPageMeta (disk w) name]> metas0
       /\ match loadable imageRefs (disk w) name with
          | Some p => pages1 = JsObject.set name p pages0
          | None =>
              pages1 = pages0
              /\ forall html json,
                   htmlFiles (disk w) !! name = Some html ->
                   jsonFiles (disk w) !! name = Some json ->
                   Js.truthy_str html && truthy json = false
          end
     else pages1 = pages0 /\ metas1 = metas0.
Proof.
  unfold Main.loadPage. destruct (has jsonNames name); [|by intros [= <- <- <-]].
  intros (d & w0 & Hr & H)%bind_ok. apply readDisk_ok in Hr as [Hd ->].
  injection Hd as ->. cbv zeta in H.
  apply bind_ok in H as (pages2 & w1 & H1 & [= <- <- <-]).
  unfold loadable.
  destruct (htmlFiles (disk w) !! name) as [html|] eqn:Eh.
  2:{ injection H1 as <- <-. by split_and!. }
  destruct (jsonFiles (disk w) !! name) as [json|] eqn:Ej.
  2:{ injection H1 as <- <-. by split_and!. }
  destruct (Js.truthy_str html && truthy json) eqn:Et.
  2:{ injection H1 as <- <-. split_and!; try done. by intros ?? [= <-] [= <-]. }
  apply bind_ok in H1 as (h & w2 & [Hh ->]%emit_ok & [= <- <-]).
  rewrite Hh. by split_and!.
Qed.

Lemma loads_ok jsonNames names pages0 metas0 w pages1 metas1 w' :
  fold_each names (loadPage jsonNames) (pages0, metas0) w = (Ok (pages1, metas1), w') ->
  trace w' = trace w /\ disk w' = disk w
  /\ (forall n, JsObject.get n pages1
                = if bool_decide (n ∈ names /\ n ∈ jsonNames)
                  then match loadable imageRefs (disk w) n with
                       | Some p => Some p
                       | None => JsObject.get n pages0
                       end
                  else JsObject.get n pages0)
  /\ (forall n html json,
        n ∈ names -> n ∈ jsonNames ->
        htmlFiles (disk w) !! n = Some html -> jsonFiles (disk w) !! n = Some json ->
        Js.truthy_str html && truthy json = true ->
        is_Some (loadable imageRefs (disk w) n))
  /\ (forall n, metas1 !! n
                = if bool_decide (n ∈ names /\ n ∈ jsonNames)
                  then Some (readPageMeta (disk w) n)
                  else metas0 !! n).
Proof.
  revert pages0 metas0 w. induction names as [|name names IH]; intros pages0 metas0 w;
    cbn [fold_each].
  - intros [= <- <- <-]. split_and!; try done. by intros n ?? ?%elem_of_nil.
  - intros ([pages2 metas2] & w1 & (T1 & D1 & H1)%loadPage_ok & H)%bind_ok.
    apply IH in H as (T & D & G & L & M). rewrite D1 in *.
    split_and!; try congruence.
    + intros n. rewrite G. unfold has in H1.
      destruct (decide (name ∈ jsonNames)) as [Hj|Hj];
        [rewrite bool_decide_true in H1 by done|rewrite bool_decide_false in H1 by done];
        (destruct (decide (n = name)) as [->|Hne]).
      * destruct H1 as [-> H1].
        rewrite (bool_decide_true (name ∈ name :: names /\ _)) by (split; [left|done]).
        destruct (loadable imageRefs (disk w) name) as [p|] eqn:Ep.
        -- rewrite H1, get_set_eq. by case_bool_decide.
        -- destruct H1 as [-> _]. by case_bool_decide.
      * assert (JsObject.get n pages2 = JsObject.get n pages0) as ->.
        { destruct H1 as [_ H1]. destruct (loadable imageRefs (disk w) name).
          - rewrite H1. by rewrite get_set_ne.
          - by destruct H1 as [-> _]. }
        apply if_ext. by apply tail_iff.
      * destruct H1 as [-> ->]. rewrite !bool_decide_false; [done|..]; by intros [_ ?].
      * destruct H1 as [-> ->]. apply if_ext. by apply tail_iff.
    + intros n html json [->|Hn]%elem_of_cons Hj Hh Hjs Ht; [|by eapply L].
      unfold has in H1. rewrite bool_decide_true in H1 by done. destruct H1 as [_ H1].
      destruct (loadable imageRefs (disk w) name); [done|].
      destruct H1 as [_ H1]. rewrite (H1 _ _ Hh Hjs) in Ht. done.
    + intros n. rewrite M. unfold has in H1.
      destruct (decide (name ∈ jsonNames)) as [Hj|Hj];
        [rewrite bool_decide_true in H1 by done|rewrite bool_decide_false in H1 by done];
        (destruct (decide (n = name)) as [->|Hne]).
      * destruct H1 as [-> _].
        rewrite (bool_decide_true (name ∈ name :: names /\ _)) by (split; [left|done]).
        case_bool_decide; [done|]. by rewrite lookup_insert_eq.
      * destruct H1 as [-> _]. rewrite lookup_insert_ne by done.
        apply if_ext. by apply tail_iff.
      * destruct H1 as [_ ->]. rewrite !bool_decide_false; [done|..]; by intros [_ ?].
      * destruct H1 as [_ ->]. apply if_ext. by apply tail_iff.
Qed.

Lemma loadMetaOnly_fold d names metas n :
  foldl (loadMetaOnly d) metas names !! n
  = match metas !! n with
    | Some m => Some m
    | None => if bool_decide (n ∈ names) then Some (readPageMeta d n) else None
    end.
Proof.
  revert metas. induction names as [|name names IH]; intros metas; cbn [foldl].
  - by destruct (metas !! n).
  - rewrite IH. unfold loadMetaOnly.
    destruct (decide (n = name)) as [->|Hne].
    + rewrite (bool_decide_true (name ∈ name :: names)) by left.
      destruct (metas !! name) as [m|] eqn:E; [by rewrite E|].
      by rewrite lookup_insert_eq.
    + assert (bool_decide (n ∈ name :: names) = bool_decide (n ∈ names)) as ->.
      { apply bool_decide_ext. rewrite elem_of_cons. split; [by intros [?|?]|by right]. }
      destruct (metas !! name) as [m|] eqn:E; [done|]. by rewrite lookup_insert_ne.
Qed.

Lemma loadable_files d n p :
  loadable imageRefs d n = Some p ->
  htmlFiles d !! n = Some (pi_html p) /\ jsonFiles d !! n = Some (pi_json p)
  /\ Js.truthy_str (pi_html p) = true /\ truthy (pi_json p) = true
  /\ pi_meta p = readPageMeta d n
  /\ (pageHash imageRefs (assets d) n (pi_html p) (pi_json p)).2 = Ok (pi_hash p)
  /\ pi_finalHtml p = None.
Proof.
  unfold loadable.
  destruct (htmlFiles d !! n) as [html|]; [|done].
  destruct (jsonFiles d !! n) as [json|]; [|done].
  destruct (Js.truthy_str html && truthy json) eqn:E; [|done].
  destruct (pageHash imageRefs (assets d) n html json).2 as [h| |] eqn:Eh; [|done..].
  intros [= <-]. cbn. apply andb_prop in E as [? ?]. by split_and!.
Qed.

(** What a completed survey hands to the rest of the run. *)
Lemma survey_ok w lm d loaded metas w' :
  survey w = (Ok (lm, d, loaded, metas), w') ->
  d = disk w'
  /\ same_content (disk w) d
  /\ labyMetaFile d = Some lm
  /\ Js.truthy_ostr (lm_id lm) = true
  /\ (exists h, Laby.computeLabyrinthHash joinContentPath (config d) (assets d) = Ok h
                /\ lm_hash lm = Some h)
  /\ (forall n, metaFiles d !! n
                = match labyMetaFile (disk w) with
                  | Some _ => metaFiles (disk w) !! n
                  | None => None
                  end)
  /\ (forall n, JsObject.get n loaded = loadable imageRefs d n)
  /\ (forall n html json,
        htmlFiles d !! n = Some html -> jsonFiles d !! n = Some json ->
        Js.truthy_str html && truthy json = true ->
        is_Some (loadable imageRefs d n))
  /\ (forall n, metaIdOf metas n = pm_id (readPageMeta d n)).
Proof.
  unfold Main.survey. intros (? & w1 & (? & _ & _ & _ & D1 & _)%retried_ok & H)%bind_ok.
  apply bind_ok in H as (lm' & w2 & (S2 & L2 & I2 & (h & Hh & Hlm) & M2)%syncLabyrinth_ok & H).
  apply bind_ok in H as (d' & w3 & Hr & H). apply readDisk_ok in Hr as [Hd ->].
  injection Hd as ->. cbv zeta in H.
  apply bind_ok in H as ([loaded' metas'] & w4 & (_ & D4 & G & L & M)%loads_ok & H).
  injection H as <- <- <- <- <-. rewrite D1 in *. destruct S2 as (S21 & S22 & S23 & S24).
  split_and!; try done.
  - exists h. by rewrite S21, S24.
  - intros n. rewrite G. cbn. case_bool_decide as Hn; [by destruct (loadable _ _ n)|].
    destruct (loadable imageRefs (disk w2) n) as [p|] eqn:E; [|done].
    apply loadable_files in E as (Eh & Ej & _). exfalso. apply Hn.
    split; apply elem_of_keys; by eexists.
  - intros n html json Hh' Hj' Ht.
    eapply L; [| |done..]; apply elem_of_keys; by eexists.
  - intros n. unfold metaIdOf. rewrite loadMetaOnly_fold, M.
    rewrite lookup_empty. unfold readPageMeta.
    case_bool_decide as Hn; [done|].
    case_bool_decide as Hm; [done|].
    destruct (metaFiles (disk w2) !! n) eqn:E; [|done].
    exfalso. apply Hm, elem_of_keys. by eexists.
Qed.

End Run.
End SurveyFacts.

(** ** The plan against the loaded pages *)

Module PreparedFacts.
Import Json States PageData Images Main Observe.
Import RunFacts WorldFacts StepFacts ListFacts ObjFacts StatesFacts IdFacts PlanFacts.

(** [pageInfo.meta.hash !== pageInfo.hash] *)
Lemma splitNormal_ok pages normal updated0 unchanged0 updated unchanged :
  splitNormal pages normal updated0 unchanged0 = Ok (updated, unchanged) ->
  (forall n, n ∈ normal -> is_Some (JsObject.get n pages))
  /\ (forall n, n ∈ updated <->
        n ∈ updated0
        \/ (n ∈ normal /\ exists p, JsObject.get n pages = Some p
                                    /\ pm_hash (pi_meta p) <> Some (pi_hash p)))
  /\ (forall n, n ∈ unchanged <->
        n ∈ unchanged0
        \/ (n ∈ normal /\ exists p, JsObject.get n pages = Some p
                                    /\ pm_hash (pi_meta p) = Some (pi_hash p)))
  /\ (NoDup normal -> NoDup updated0 -> (forall n, n ∈ updated0 -> n ∉ normal) ->
      NoDup updated).
Proof.
  revert updated0 unchanged0. induction normal as [|name normal IH];
    intros updated0 unchanged0; cbn [splitNormal].
  - intros [= <- <-]. split_and!; try done.
    + by intros n ?%elem_of_nil.
    + intros n. split; [by left|]. by intros [?|[?%elem_of_nil _]].
    + intros n. split; [by left|]. by intros [?|[?%elem_of_nil _]].
  - destruct (JsObject.get name pages) as [p|] eqn:Ep; [|done].
    case_bool_decide as Eh; intros (E & U & C & N)%IH; split_and!.
    + intros n [->|?]%elem_of_cons; [by eexists|auto].
    + intros n. rewrite U, elem_of_cons. split.
      * intros [?|(? & q & ? & ?)]; [by left|right]. split; [by right|by exists q].
      * intros [?|([->|?] & q & Hq & Hne)]; [by left| |right; split; [done|by exists q]].
        rewrite Ep in Hq. by injection Hq as <-.
    + intros n. rewrite C, elem_of_app, list_elem_of_singleton, elem_of_cons. split.
      * intros [[?| ->]|(? & q & ? & ?)]; [by left| |right; split; [by right|by exists q]].
        right. split; [by left|by exists p].
      * intros [?|([->|?] & q & Hq & Hne)]; [by left; left|by left; right|].
        right. split; [done|by exists q].
    + intros [Hname Hnd]%NoDup_cons Hnd0 Hdis. apply N; [done..|].
      intros n Hn. specialize (Hdis n Hn). by apply not_elem_of_cons in Hdis as [_ ?].
    + intros n [->|?]%elem_of_cons; [by eexists|auto].
    + intros n. rewrite U, elem_of_app, list_elem_of_singleton, elem_of_cons. split.
      * intros [[?| ->]|(? & q & ? & ?)]; [by left| |right; split; [by right|by exists q]].
        right. split; [by left|by exists p].
      * intros [?|([->|?] & q & Hq & Hne)]; [by left; left|by left; right|].
        right. split; [done|by exists q].
    + intros n. rewrite C, elem_of_cons. split.
      * intros [?|(? & q & ? & ?)]; [by left|right]. split; [by right|by exists q].
      * intros [?|([->|?] & q & Hq & He)]; [by left| |right; split; [done|by exists q]].
        rewrite Ep in Hq. by injection Hq as <-.
    + intros [Hname Hnd]%NoDup_cons Hnd0 Hdis. apply N; [done| |].
      * apply NoDup_app. split_and!; [done| |apply NoDup_singleton].
        intros n Hn ->%list_elem_of_singleton. specialize (Hdis _ Hn).
        apply Hdis. left.
      * intros n [Hn| ->%list_elem_of_singleton]%elem_of_app; [|done].
        specialize (Hdis n Hn). by apply not_elem_of_cons in Hdis as [_ ?].
Qed.

Lemma resetMissing_ok pages missing prepared :
  resetMissing pages missing = Ok prepared ->
  (forall n, n ∈ missing.*1 -> is_Some (JsObject.get n pages))
  /\ forall n, JsObject.get n prepared
               = if bool_decide (n ∈ missing.*1)
                 then set_meta emptyMeta <$> JsObject.get n pages
                 else JsObject.get n pages.
Proof.
  revert pages. induction missing as [|[name i] missing IH]; intros pages;
    cbn [resetMissing].
  - intros [= <-]. split; [by intros n ?%elem_of_nil|done].
  - destruct (JsObject.get name pages) as [p|] eqn:Ep; [|done].
    intros [E G]%IH. split.
    + intros n [->|Hn]%elem_of_cons; [by eexists|].
      apply E in Hn. rewrite get_set in Hn. destruct (String.eqb n name) eqn:En; [|done].
      apply String.eqb_eq in En as ->. by eexists.
    + intros n. rewrite G, get_set. cbn [fmap list_fmap fst].
      destruct (String.eqb n name) eqn:En.
      * apply String.eqb_eq in En as ->. rewrite Ep.
        rewrite (bool_decide_true (name ∈ name :: _)) by left.
        by case_bool_decide.
      * apply String.eqb_neq in En.
        assert (bool_decide (n ∈ name :: missing.*1) = bool_decide (n ∈ missing.*1)) as ->.
        { apply bool_decide_ext. rewrite elem_of_cons. split; [by intros [?|?]|by right]. }
        done.
Qed.

Section Determine.
Variables htmlNames jsonNames metaNames pageIds : list string.
Variable metas : gmap string PageMeta.

Abbreviation states := (determinePageStates htmlNames jsonNames metaNames pageIds metas).
Abbreviation isNormal := (isNormal jsonNames metaNames pageIds metas).
Abbreviation isNew := (isNew jsonNames metaNames).
Abbreviation isMissing := (isMissing jsonNames metaNames pageIds metas).

Lemma normal_elem n : n ∈ normal states <-> n ∈ htmlNames /\ isNormal n = true.
Proof.
  rewrite determinePageStates_eq. cbn. rewrite list_elem_of_filter, Is_true_true. tauto.
Qed.

Lemma new_elem n : n ∈ new states <-> n ∈ htmlNames /\ isNew n = true.
Proof.
  rewrite determinePageStates_eq. cbn. rewrite list_elem_of_filter, Is_true_true. tauto.
Qed.

Lemma missing_names n :
  n ∈ (pageIds_missing states).*1 <-> n ∈ htmlNames /\ isMissing n = true.
Proof.
  rewrite determinePageStates_eq. cbn. rewrite fmap_fmap_id by done.
  rewrite list_elem_of_filter, Is_true_true. tauto.
Qed.

Lemma missing_elem n i :
  (n, i) ∈ pageIds_missing states <->
  n ∈ htmlNames /\ isMissing n = true /\ metaIdOf metas n = Some i.
Proof.
  rewrite determinePageStates_eq. cbn. rewrite list_elem_of_fmap. split.
  - intros (n' & [= -> ->] & [Hm Hn]%list_elem_of_filter). apply Is_true_true in Hm.
    split_and!; try done. unfold States.isMissing in Hm.
    destruct (metaIdOf metas n'); [done|]. cbn in Hm. by rewrite andb_false_r in Hm.
  - intros (Hn & Hm & Hi). exists n. unfold missing. rewrite Hi. split; [done|].
    apply list_elem_of_filter. by rewrite Is_true_true.
Qed.

Lemma newPages_NoDup :
  NoDup htmlNames -> NoDup (new states ++ (pageIds_missing states).*1).
Proof.
  intros Hnd. apply NoDup_app. split_and!.
  - rewrite determinePageStates_eq. cbn. by apply NoDup_filter.
  - intros n [_ Hn]%new_elem [_ Hm]%missing_names.
    unfold States.isNew in Hn. unfold States.isMissing in Hm.
    destruct (has jsonNames n), (has metaNames n); done.
  - rewrite determinePageStates_eq. cbn. rewrite fmap_fmap_id by done.
    by apply NoDup_filter.
Qed.

Lemma newPages_not_normal n :
  n ∈ new states ++ (pageIds_missing states).*1 -> n ∉ normal states.
Proof.
  intros [[_ Hn]%new_elem|[_ Hn]%missing_names]%elem_of_app [_ Hm]%normal_elem.
  - unfold States.isNew in Hn. unfold States.isNormal in Hm.
    destruct (has jsonNames n), (has metaNames n); done.
  - unfold States.isMissing in Hn. unfold States.isNormal in Hm.
    destruct (has jsonNames n), (has metaNames n), (Js.truthy_ostr _), (inPageIdsOf _ _); done.
Qed.

Lemma metasToDelete_elem n :
  n ∈ incompleteMetas (json_missing states) ++ incompleteMetas (html_missing states)
      ++ (res_name <$> residual_meta states) ->
  n ∈ metaNames /\ (n ∉ htmlNames \/ n ∉ jsonNames).
Proof.
  rewrite determinePageStates_eq. cbn. unfold incompleteMetas.
  rewrite !elem_of_app, !list_elem_of_omap, list_elem_of_fmap.
  intros [(item & (n' & -> & [Hc Hn]%list_elem_of_filter)%list_elem_of_fmap & H)
         |[(item & (n' & -> & [Hc Hn]%list_elem_of_filter)%list_elem_of_fmap & H)
          |(item & -> & (n' & -> & [Hc Hn]%list_elem_of_filter)%list_elem_of_fmap)]];
    cbn in *; apply Is_true_true in Hc.
  - unfold has in H. case_bool_decide; [|done]. injection H as <-.
    split; [done|right]. unfold States.noJson, has in Hc.
    by apply negb_true_iff, bool_decide_eq_false in Hc.
  - unfold has in H. case_bool_decide; [|done]. injection H as <-.
    split; [done|left]. unfold States.noHtml, has in Hc.
    by apply negb_true_iff, bool_decide_eq_false in Hc.
  - split; [done|left]. unfold States.metaOnly, has in Hc.
    apply andb_prop in Hc as [Hc _]. by apply negb_true_iff, bool_decide_eq_false in Hc.
Qed.

End Determine.
End PreparedFacts.

(** ** A completed run *)

Module CompletedFacts.
Import Json States PageData Images Main Observe.
Import RunFacts WorldFacts StepFacts ListFacts ObjFacts StatesFacts IdFacts PlanFacts.
Import CallFacts DeleteFacts ReconcileFacts QuietFacts CreateFacts UpdateFacts LinkFacts.
Import SurveyFacts PreparedFacts.

Lemma startVars_recorded lm d prepared :
  labyMetaFile d = Some lm -> recorded (set_pages prepared (startVars lm)) d.
Proof. intros H. unfold recorded. rewrite H. by destruct lm as [i h im [p|]]. Qed.

Section Run.
Context {R : Type}.
Variable site : Call -> R -> reply * R.
Variable imageRefs : string -> string -> list (string * string).
Variable replaceLocalImages : string -> list (string * string) -> string.
Variable joinContentPath : string -> string.
Implicit Types (w : World R) (v : Vars) (plan : Plan).

Abbreviation survey := (survey site imageRefs joinContentPath).
Abbreviation reconcile := (reconcile site imageRefs replaceLocalImages).

(** A page of [pages] after the plan was made is the page as loaded, but
    for the meta the plan may have reset. *)
Lemma prepared_page d loaded (missing : list string) prepared n p :
  (forall n, JsObject.get n loaded = loadable imageRefs d n) ->
  (forall n, JsObject.get n prepared
             = if bool_decide (n ∈ missing)
               then set_meta emptyMeta <$> JsObject.get n loaded
               else JsObject.get n loaded) ->
  JsObject.get n prepared = Some p ->
  exists q, loadable imageRefs d n = Some q
            /\ pi_html p = pi_html q /\ pi_json p = pi_json q /\ pi_hash p = pi_hash q
            /\ (n ∉ missing -> p = q).
Proof.
  intros Gl Gp. rewrite Gp, Gl. case_bool_decide.
  - destruct (loadable imageRefs d n) as [q|]; [|done]. intros [= <-].
    exists q. by split_and!.
  - intros ->. exists p. by split_and!.
Qed.

Lemma reconcile_completed w0 lm d loaded metas w c w' :
  survey w0 = (Ok (lm, d, loaded, metas), w) ->
  reconcile (lm, d, loaded, metas) w = (Ok c, w') ->
  exists plan prepared t_del t_new t_rest vals v1 v2,
    makePlan (statesOf (lm, d, loaded, metas)) (pageIds (startVars lm)) loaded
    = Ok (plan, prepared)
    /\ trace w' = trace w ++ t_del ++ t_new ++ t_rest
    /\ calls t_del = DeletePage (default "" (lm_id lm)) <$> allPagesToDelete plan
    /\ Forall (permits creating) t_new /\ created t_new = vals
    /\ Forall (permits (fun c => updating c || linking c)) t_rest
    /\ same_content d (disk w')
    /\ (exists lm', labyMetaFile (disk w') = Some lm'
                    /\ lm_id lm' = lm_id lm /\ lm_hash lm' = lm_hash lm
                    /\ default [] (lm_pageIds lm') = pageIds v2)
    /\ pages v1 = prepared
    /\ (forall i, i ∈ pageIds v1 <->
                  i ∈ pageIds (startVars lm) /\ i ∉ allPagesToDelete plan)
    /\ (forall i, i ∈ pageIds v1 -> i ∈ pageIds v2)
    /\ (forall i, i ∈ pageIds v2 ->
          i ∈ pageIds v1 \/ exists val, val ∈ vals /\ value_string val = Some i)
    /\ Forall2 (page_created v1 v2 (disk w')) (newPages plan) vals
    /\ failures_page (counts v1) = 0
    /\ failures_page (counts v2) = failures_page c
    /\ (forall n, n ∈ updatedPages plan ->
          exists p m, JsObject.get n loaded = Some p
                      /\ metaFiles (disk w') !! n = Some m
                      /\ pm_id m = pm_id (pi_meta p)
                      /\ pm_hash m = Some (pi_hash p))
    /\ (forall n, n ∉ newPages plan -> n ∉ updatedPages plan ->
          metaFiles (disk w') !! n
          = if bool_decide (n ∈ metasToDelete plan) then None else metaFiles d !! n).
Proof.
  intros Hs Hr.
  apply survey_ok in Hs as (-> & Sc & Lf & Il & (h & Hh & Lh) & Mf & Gl & Ll & Mi).
  apply reconcile_ok in Hr
    as (warnings & plan & prepared & v1 & w1 & v2 & w2 & v3 & w3 & v4 & w4
        & Hv & Hplan & H1 & H2 & H3 & H4 & -> & T & D).
  exists plan, prepared.
  apply makePlan_ok in Hplan as Hplan'.
  destruct Hplan' as (upd & unch & Hsplit & Hreset & Eplan).
  apply splitNormal_ok in Hsplit as (Hex & Hupd & Hunch & Hndu).
  apply resetMissing_ok in Hreset as (Hmex & Hprep).
  unfold statesOf in *. cbn [pageIds startVars] in *.
  set (htmlNames := findPageHtmlFiles (disk w)) in *.
  set (jsonNames := findPageJsonFiles (disk w)) in *.
  set (metaNames := findPageMetaFiles (disk w)) in *.
  set (P0 := default [] (lm_pageIds lm)) in *.
  set (states := determinePageStates htmlNames jsonNames metaNames P0 metas) in *.
  assert (Hndh : NoDup htmlNames) by apply NoDup_keys.
  assert (Hnew : newPages plan = new states ++ (pageIds_missing states).*1) by by rewrite Eplan.
  assert (Hupd' : updatedPages plan = upd) by by rewrite Eplan.
  assert (Hndn : NoDup (newPages plan)) by (rewrite Hnew; by apply newPages_NoDup).
  assert (Hndup : NoDup upd).
  { apply Hndu; [|constructor|by intros ? ?%elem_of_nil].
    unfold states. rewrite determinePageStates_eq. cbn. by apply NoDup_filter. }
  assert (Hun : forall n, n ∈ upd -> n ∈ normal states /\ n ∉ newPages plan).
  { intros n [[]%elem_of_nil|[Hn _]]%Hupd. split; [done|].
    rewrite Hnew. intros Hin. by apply newPages_not_normal in Hin. }
  pose proof (updatePhase_calls site imageRefs replaceLocalImages _ _ _ _ _ _ _ H3)
    as (t3 & T3 & Ht3).
  pose proof (linkPhase_calls site _ _ _ _ _ _ _ H4) as (t4 & T4 & Ht4).
  pose proof (createPhase_calls site imageRefs replaceLocalImages _ _ _ _ _ _ _ H2)
    as (t2' & T2' & Ht2).
  apply deletePhase_ok in H1 as (t1 & T1 & C1 & S1 & M1 & P1 & R1 & I1 & J1 & _ & G1 & F1).
  cbn [pages set_pages pageIds startVars counts failures_page noCounts] in *.
  apply createPhase_ok in H2
    as (t2 & vals & T2 & C2 & S2 & I2 & J2 & F2 & P2a & P2b & N2 & A2 & R2); [|done|].
  2:{ intros n p Hn. rewrite G1. intros Hp.
      eapply prepared_page in Hp as (q & Hq & -> & _); [|done..].
      by apply loadable_files in Hq as (_ & _ & ? & _). }
  assert (t2' = t2) as -> by (apply (app_inv_head (trace w1)); congruence).
  unfold Main.updatePhase in H3. rewrite Hupd' in H3.
  apply updates_ok in H3 as (S3 & P3 & R3 & I3 & J3 & F3 & N3 & A3); [|done|].
  2:{ intros n p [Hn Hnn]%Hun. destruct (N2 n Hnn) as [_ ->]. rewrite G1. intros Hp.
      eapply prepared_page in Hp as (q & Hq & Eh & _ & _ & Epq); [|done..].
      assert (p = q) as ->.
      { apply Epq. intros Hm. apply Hnn. rewrite Hnew, elem_of_app. by right. }
      apply loadable_files in Hq as (_ & _ & Hh' & _ & Hm & _).
      apply normal_elem in Hn as [_ Hn]. unfold States.isNormal in Hn.
      rewrite Mi, <-Hm in Hn.
      destruct (pm_id (pi_meta q)) as [i|]; [|by rewrite andb_false_r in Hn].
      exists i. split; [done|]. cbn in Hn.
      destruct (Js.truthy_str i); [done|]. by rewrite andb_false_r in Hn. }
  apply linkPhase_ok in H4 as (D4 & P4 & G4 & L4 & F4).
  exists t1, t2, (t3 ++ t4), vals, v1, v2.
  assert (Hd3 : forall n, n ∉ upd ->
            metaFiles (disk w') !! n = metaFiles (disk w2) !! n).
  { intros n Hn. rewrite D, D4. by destruct (N3 n Hn) as [-> _]. }
  split_and!; try done.
  - rewrite T, T4, T3, T2, T1, <-!app_assoc. done.
  - apply Forall_app. split.
    + eapply Forall_impl; [exact Ht3|]. intros [c' r|ms]; [|done]. cbn. by intros ->.
    + eapply Forall_impl; [exact Ht4|]. intros [c' r|ms]; [|done]. cbn. intros ->.
      by rewrite orb_true_r.
  - rewrite D, D4. eapply same_content_trans; [|exact S3].
    eapply same_content_trans; [exact S1|exact S2].
  - destruct (R3 (R2 (R1 (startVars_recorded lm (disk w) prepared Lf)))) as [Rf Rp].
    exists (labyMeta_now v4). rewrite D, D4, L4. split_and!.
    + done.
    + by rewrite I3, I2, I1.
    + by rewrite J3, J2, J1.
    + by rewrite Rp.
  - eapply Forall2_impl_in; [exact A2|]. intros n val Hn (p & Hp & Hval).
    exists p. split; [done|]. destruct (value_string val) as [i|]; [|done].
    destruct Hval as (Hi & p' & Hp' & Hm & Hrest). split; [done|].
    exists p'. split; [done|]. split; [|done].
    rewrite Hd3; [done|]. intros Hu. by apply Hun in Hu as [_ ?].
  - congruence.
  - intros n Hn. rewrite Hupd' in Hn. destruct (A3 n Hn) as (p & m & Hp & Hm & Hi & Hhash).
    apply Hun in Hn as [_ Hnn]. destruct (N2 n Hnn) as [_ Hp2]. rewrite Hp2, G1 in Hp.
    eapply prepared_page in Hp as (q & Hq & _ & _ & _ & Epq); [|done..].
    assert (p = q) as ->.
    { apply Epq. intros Hmis. apply Hnn. rewrite Hnew, elem_of_app. by right. }
    exists q, m. rewrite Gl, D, D4. by split_and!.
  - intros n Hnn Hnu. rewrite Hupd' in Hnu. rewrite Hd3 by done.
    destruct (N2 n Hnn) as [-> _]. by rewrite M1.
Qed.

End Run.
End CompletedFacts.

(** ** Recreating a page whose id is not listed *)

Module RecreateFacts.
Import Json States PageData Images Main Observe.
Import RunFacts WorldFacts StepFacts ListFacts ObjFacts StatesFacts IdFacts PlanFacts.
Import CallFacts DeleteFacts ReconcileFacts QuietFacts CreateFacts UpdateFacts LinkFacts.
Import SurveyFacts PreparedFacts CompletedFacts.

Section Determine.
Variables htmlNames jsonNames metaNames pageIds : list string.
Variable metas : gmap string PageMeta.

Abbreviation states := (determinePageStates htmlNames jsonNames metaNames pageIds metas).

Lemma missing_once name staleId :
  NoDup htmlNames ->
  (forall n1 n2 i, metaIdOf metas n1 = Some i -> metaIdOf metas n2 = Some i ->
                   Js.truthy_str i = true -> n1 = n2) ->
  (name, staleId) ∈ pageIds_missing states ->
  length (filter (eq staleId)
            ((orphan states ++ residualIds (residual_meta states)
              ++ incompleteIds pageIds (json_missing states)
              ++ incompleteIds pageIds (html_missing states))
             ++ (pageIds_missing states).*2)) = 1.
Proof.
  intros Hnd Hdist Hin.
  apply missingIds_recorded in Hin as Hrec.
  destruct Hrec as (Hh & Hj & Hm & Hi & Ht & Hout).
  rewrite !filter_app, !length_app.
  rewrite (count_NoDup staleId (pageIds_missing states).*2).
  - rewrite !count_absent; [done|..].
    + rewrite determinePageStates_eq. cbn.
      by intros (n & _ & _ & _ & ?)%incompleteIds_recorded.
    + rewrite determinePageStates_eq. cbn.
      by intros (n & _ & _ & _ & ?)%incompleteIds_recorded.
    + by intros (n & _ & _ & _ & ?)%residualIds_recorded.
    + by intros [? _]%orphan_spec.
  - apply NoDup_fmap_2_strong.
    + intros [n1 i1] [n2 i2] H1 H2 E. cbn in E. subst i2.
      apply missingIds_recorded in H1 as (_ & _ & _ & E1 & T1 & _).
      apply missingIds_recorded in H2 as (_ & _ & _ & E2 & _).
      by rewrite (Hdist n1 n2 i1).
    + rewrite determinePageStates_eq. cbn.
      apply NoDup_fmap_2_strong; [|by apply NoDup_filter].
      by intros n1 n2 _ _ [= ->].
  - apply list_elem_of_fmap. by exists (name, staleId).
Qed.

End Determine.

Section Run.
Context {R : Type}.
Variable site : Call -> R -> reply * R.
Variable imageRefs : string -> string -> list (string * string).
Variable replaceLocalImages : string -> list (string * string) -> string.
Variable joinContentPath : string -> string.
Implicit Types (w : World R) (v : Vars) (plan : Plan).

Abbreviation survey := (survey site imageRefs joinContentPath).
Abbreviation reconcile := (reconcile site imageRefs replaceLocalImages).


End Run.


End RecreateFacts.

(** ** A folder that is in step *)

Module SyncedFacts.
Import Json States PageData Images Main Observe.
Import RunFacts WorldFacts StepFacts ListFacts ObjFacts StatesFacts IdFacts PlanFacts.
Import CallFacts DeleteFacts ReconcileFacts QuietFacts CreateFacts UpdateFacts LinkFacts.
Import SurveyFacts PreparedFacts CompletedFacts.

Lemma filter_none {A} (P : A -> Prop) `{!forall x, Decision (P x)} (l : list A) :
  (forall x, x ∈ l -> ~ P x) -> filter P l = [].
Proof.
  induction l as [|x l IH]; [done|]. intros Hl.
  rewrite filter_cons_False by (apply Hl; left). apply IH. intros y Hy. apply Hl. by right.
Qed.

Lemma omap_none {A B} (f : A -> option B) (l : list A) :
  (forall x, x ∈ l -> f x = None) -> omap f l = [].
Proof.
  induction l as [|x l IH]; [done|]. intros H. cbn.
  rewrite (H x) by left. apply IH. intros y Hy. apply H. by right.
Qed.

Lemma no_elements {A} (l : list A) : (forall x, x ∉ l) -> l = [].
Proof. destruct l as [|x l]; [done|]. intros H. destruct (H x). left. Qed.

Section Monad.
Context {W : Type}.
Variable Rel : W -> W -> Prop.
Context `{!PreOrder Rel}.

(** A bind whose first part is known to end in one way only. *)
Lemma respects_bind_when {A B} (m : M W A) (k : A -> M W B) (Q : A -> Prop) :
  respects Rel m ->
  (forall w a w', m w = (Ok a, w') -> Q a) ->
  (forall a, Q a -> respects Rel (k a)) ->
  respects Rel (bind m k).
Proof.
  intros Hm HQ Hk w r w' H.
  apply bind_inv in H as [(a & w1 & H1 & H2)|[(e & H1 & _)|(c & H1 & _)]].
  - etrans; [by eapply Hm|]. eapply Hk; [|done]. by eapply HQ.
  - by eapply Hm.
  - by eapply Hm.
Qed.

End Monad.

(** With nothing new and nothing updated, no connection qualifies. *)
Lemma scanAnswers_idle plan pageIdMap name fromPageId connections idx answers result :
  newPages plan = [] -> updatedPages plan = [] ->
  scanAnswers plan pageIdMap [] name fromPageId connections idx answers = Ok result ->
  result = connections.
Proof.
  intros Hn Hu. revert idx. induction answers as [|ans answers IH]; intros idx;
    cbn [scanAnswers].
  - by intros [= <-].
  - destruct (scanAnswer _ _ _ _ _ _ _ ans) as [c| |] eqn:E; [|done..].
    assert (c = connections) as ->; [|apply IH].
    unfold scanAnswer in E. rewrite Hn, Hu in E.
    destruct ans; try done;
      (destruct (targetOf pageIdMap _) as [target|]; [|by injection E as <-]);
      rewrite !bool_decide_false in E by apply not_elem_of_nil;
      by injection E as <-.
Qed.

Lemma scanPages_idle plan pageIdMap entries connections result :
  newPages plan = [] -> updatedPages plan = [] ->
  scanPages plan pageIdMap [] entries connections = Ok result ->
  result = connections.
Proof.
  intros Hn Hu. induction entries as [|[name pageInfo] entries IH]; cbn [scanPages].
  - by intros [= <-].
  - destruct (pm_id (pi_meta pageInfo)) as [i|]; [|done].
    destruct (Js.truthy_str i); [|done].
    destruct (answersOf _) as [answers| |]; [|done..].
    destruct (scanAnswers _ _ _ _ _ _ _ _) as [c| |] eqn:E; [|done..].
    by apply scanAnswers_idle in E as ->.
Qed.

Lemma connectionsOf_idle plan pageIdMap pages result :
  newPages plan = [] -> updatedPages plan = [] ->
  connectionsOf plan pageIdMap pages = Ok result -> result = [].
Proof.
  intros Hn Hu. unfold connectionsOf, newPageIdsOf. rewrite Hn. cbn [omap].
  by apply scanPages_idle.
Qed.

Section Plan.
Variable imageRefs : string -> string -> list (string * string).
Variable joinContentPath : string -> string.

Lemma has_keys {V} (m : gmap string V) (n : string) :
  has (map_to_list m).*1 n = true <-> is_Some (m !! n).
Proof. unfold has. by rewrite bool_decide_eq_true, elem_of_keys. Qed.

(** In a folder that is in step, the plan schedules nothing. *)
Lemma synced_plan lm d loaded metas plan prepared :
  synced imageRefs joinContentPath d ->
  labyMetaFile d = Some lm ->
  (forall n, JsObject.get n loaded = loadable imageRefs d n) ->
  (forall n, metaIdOf metas n = pm_id (readPageMeta d n)) ->
  makePlan (statesOf (lm, d, loaded, metas)) (pageIds (startVars lm)) loaded
  = Ok (plan, prepared) ->
  newPages plan = [] /\ updatedPages plan = []
  /\ allPagesToDelete plan = [] /\ metasToDelete plan = [].
Proof.
  intros (lm' & h & Lf & Il & Hh & Lh & Sm & Sp & Si) Lf' Gl Mi Hplan.
  rewrite Lf in Lf'. injection Lf' as ->.
  apply makePlan_ok in Hplan as (upd & unch & Hsplit & _ & ->).
  apply splitNormal_ok in Hsplit as (_ & Hupd & _).
  unfold statesOf in *. cbn [pageIds startVars newPages updatedPages allPagesToDelete
                               metasToDelete] in *.
  set (P := default [] (lm_pageIds lm)) in *.
  unfold findPageHtmlFiles, findPageJsonFiles, findPageMetaFiles in *.
  set (htmlNames := (map_to_list (htmlFiles d)).*1) in *.
  set (jsonNames := (map_to_list (jsonFiles d)).*1) in *.
  set (metaNames := (map_to_list (metaFiles d)).*1) in *.
  assert (Hmeta : forall n, has metaNames n = true -> exists m,
            metaFiles d !! n = Some m /\ readPageMeta d n = m /\ n <> ""
            /\ has htmlNames n = true /\ has jsonNames n = true).
  { intros n [m Hm]%has_keys. exists m. destruct (Sm n m Hm) as (? & ? & ?).
    unfold readPageMeta. rewrite Hm. split_and!; try done; by apply has_keys. }
  assert (Hnew : filter (isNew jsonNames metaNames) htmlNames = []).
  { apply filter_none. intros n Hn%elem_of_keys Hc%Is_true_true.
    unfold isNew in Hc. apply andb_prop in Hc as [Hj%has_keys Hm%negb_true_iff].
    destruct (Sp n Hn Hj) as (m & Em & _).
    assert (has metaNames n = true) by (apply has_keys; by eexists). congruence. }
  assert (Hmis : filter (isMissing jsonNames metaNames P metas) htmlNames = []).
  { apply filter_none. intros n Hn%elem_of_keys Hc%Is_true_true.
    unfold isMissing in Hc. rewrite Mi in Hc.
    apply andb_prop in Hc as [Hc Hin]. apply andb_prop in Hc as [Hc Hi].
    apply andb_prop in Hc as [Hj%has_keys Hm].
    destruct (Sp n Hn Hj) as (m & Em & Hm'). unfold readPageMeta in *. rewrite Em in *.
    cbn in *. destruct (pm_id m) as [i|]; [|done]. cbn in *.
    destruct (Hm' i eq_refl Hi) as [HiP _].
    unfold has in Hin. rewrite Hi, bool_decide_true in Hin by done. done. }
  assert (Horph : filter (isOrphan metaNames metas) P = []).
  { apply filter_none. intros i (n & m & Em & Ei & Ht)%Si Hc%Is_true_true.
    unfold isOrphan in Hc. apply negb_true_iff in Hc.
    destruct (idToName_recorded metaNames metas n i) as (n' & E' & Hn'); [| |done|].
    - apply elem_of_keys. by eexists.
    - rewrite Mi. unfold readPageMeta. by rewrite Em.
    - rewrite E' in Hc. cbn in Hc. apply elem_of_keys in Hn' as [m' Hm'].
      destruct (Sm n' m' Hm') as (? & _). by destruct n'. }
  assert (Hres : filter (metaOnly htmlNames jsonNames) metaNames = []).
  { apply filter_none. intros n Hn Hc%Is_true_true.
    destruct (Hmeta n) as (m & _ & _ & _ & Hh' & _); [by apply bool_decide_eq_true|].
    unfold metaOnly in Hc. by rewrite Hh' in Hc. }
  assert (Hinc : forall names,
            (forall n, n ∈ names -> has htmlNames n && has jsonNames n = false) ->
            incompleteIds P (incomplete metaNames metas <$> names) = []
            /\ incompleteMetas (incomplete metaNames metas <$> names) = []).
  { intros names Hnames.
    assert (forall item, item ∈ incomplete metaNames metas <$> names -> inc_hasMeta item = false).
    { intros item (n & -> & Hn)%list_elem_of_fmap. cbn.
      destruct (has metaNames n) eqn:E; [|done].
      destruct (Hmeta n E) as (_ & _ & _ & _ & Hh' & Hj'). specialize (Hnames n Hn).
      by rewrite Hh', Hj' in Hnames. }
    split; apply omap_none; intros item Hitem; by rewrite H. }
  rewrite !determinePageStates_eq.
  cbn [normal new json_missing html_missing orphan pageIds_missing residual_meta].
  rewrite Hnew, Hmis, Horph, Hres.
  destruct (Hinc (filter (fun name => noJson jsonNames name) htmlNames)) as [-> ->].
  { intros n [Hc%Is_true_true _]%list_elem_of_filter. unfold noJson in Hc.
    apply negb_true_iff in Hc. by rewrite Hc, andb_false_r. }
  destruct (Hinc (filter (fun name => noHtml htmlNames name) jsonNames)) as [-> ->].
  { intros n [Hc%Is_true_true _]%list_elem_of_filter. unfold noHtml in Hc.
    apply negb_true_iff in Hc. by rewrite Hc. }
  split_and!; try done.
  apply no_elements. intros n [[]%elem_of_nil|[Hn (p & Hp & Hne)]]%Hupd.
  apply Hne. apply normal_elem in Hn as [Hn%elem_of_keys Hc].
  unfold isNormal in Hc. rewrite Mi in Hc.
  apply andb_prop in Hc as [Hc Hin]. apply andb_prop in Hc as [Hc Hi].
  apply andb_prop in Hc as [Hj%has_keys Hm].
  destruct (Sp n Hn Hj) as (m & Em & Hm'). rewrite Gl in Hp.
  apply loadable_files in Hp as Hfiles. destruct Hfiles as (_ & _ & _ & _ & -> & _).
  unfold readPageMeta in *. rewrite Em in *. cbn in *.
  destruct (pm_id m) as [i|]; [|done]. cbn in Hi.
  destruct (Hm' i eq_refl Hi) as [_ Hhash]. by apply Hhash.
Qed.

End Plan.

Section Run.
Context {R : Type}.
Variable site : Call -> R -> reply * R.
Variable imageRefs : string -> string -> list (string * string).
Variable replaceLocalImages : string -> list (string * string) -> string.
Implicit Types (w : World R) (v : Vars) (plan : Plan).

(** The phases of a plan that schedules nothing make no call and write
    nothing. *)
Lemma idle_phases labyrinthId firstPage plan v :
  newPages plan = [] -> updatedPages plan = [] ->
  allPagesToDelete plan = [] -> metasToDelete plan = [] ->
  respects (quietly (permits no_call))
    (bind (deletePhase site labyrinthId plan v)
          (finish site imageRefs replaceLocalImages labyrinthId firstPage plan)).
Proof.
  intros Hn Hu Hd Hm.
  unfold deletePhase, finish, createPhase, updatePhase, linkPhase, failureSummary.
  rewrite Hn, Hu, Hd, Hm. cbn [for_each fold_each].
  apply respects_bind; [apply _|quiet|]. intros v1.
  apply respects_bind; [apply _|quiet|]. intros v2.
  apply respects_bind; [apply _|quiet|]. intros v3.
  apply respects_bind; [apply _| |intros; quiet].
  eapply (respects_bind_when _ _ _ (fun c => c = [])); [quiet| |].
  - intros w c w' [Hc _]%lift_ok. symmetry in Hc. by apply connectionsOf_idle in Hc.
  - intros c ->. cbn. quiet.
Qed.

End Run.

Section Main.
Context {R : Type}.
Variable site : Call -> R -> reply * R.
Variable imageRefs : string -> string -> list (string * string).
Variable replaceLocalImages : string -> list (string * string) -> string.
Variable joinContentPath : string -> string.
Implicit Types (w : World R) (v : Vars) (plan : Plan).

Abbreviation survey := (survey site imageRefs joinContentPath).
Abbreviation reconcile := (reconcile site imageRefs replaceLocalImages).
Abbreviation session := (session site imageRefs replaceLocalImages joinContentPath).
Abbreviation main := (main site imageRefs replaceLocalImages joinContentPath).
Abbreviation synced := (synced imageRefs joinContentPath).

Lemma reconcile_synced lm d loaded metas :
  synced d ->
  labyMetaFile d = Some lm ->
  (forall n, JsObject.get n loaded = loadable imageRefs d n) ->
  (forall n, metaIdOf metas n = pm_id (readPageMeta d n)) ->
  respects (quietly (permits no_call)) (reconcile (lm, d, loaded, metas)).
Proof.
  intros Hsync Lf Gl Mi. unfold Main.reconcile, gate, firstPageGate.
  apply respects_bind; [apply _|quiet|]. intros _.
  apply respects_bind; [apply _|quiet|]. intros _.
  eapply (respects_bind_when _ _ _
            (fun a => newPages a.1 = [] /\ updatedPages a.1 = []
                      /\ allPagesToDelete a.1 = [] /\ metasToDelete a.1 = []));
    [quiet| |].
  - intros w [plan prepared] w' [Hp _]%lift_ok. symmetry in Hp. cbn [fst].
    by eapply synced_plan.
  - intros [plan prepared] (Hn & Hu & Hd & Hm). cbn [fst] in *.
    by apply idle_phases.
Qed.

Lemma syncLabyrinth_synced w :
  synced (disk w) ->
  exists lm, syncLabyrinth site joinContentPath w = (Ok lm, w)
             /\ labyMetaFile (disk w) = Some lm.
Proof.
  intros (lm & h & Lf & Il & Hh & Lh & _). exists lm. split; [|done].
  unfold syncLabyrinth, bind, readDisk, lift. cbn. rewrite Lf. cbn. rewrite Hh, Il. cbn.
  rewrite bool_decide_true by done. done.
Qed.

Lemma survey_synced w r w' :
  synced (disk w) -> survey w = (r, w') -> quietly (permits session_only) w w'.
Proof.
  intros Hsync. unfold Main.survey. intros H.
  apply bind_inv in H as [(? & w1 & H1 & H)|[(e & H1 & _)|(c & H1 & _)]].
  2,3: by (observe (permits session_only) H1; [quiet|]).
  observe (permits session_only) H1; [quiet|].
  etrans; [exact Q|]. destruct Q as [_ D1].
  rewrite <-D1 in Hsync. destruct (syncLabyrinth_synced w1 Hsync) as (lm & Hl & _).
  unfold bind at 1 in H. rewrite Hl in H.
  revert H. generalize w1 r w'.
  change (respects (quietly (R:=R) (permits session_only))
            (let* d := readDisk in
             let* '(loaded, metas) :=
               fold_each (findPageHtmlFiles d) (loadPage imageRefs (findPageJsonFiles d))
                 ([], ∅) in
             ret (lm, d, loaded, foldl (loadMetaOnly d) metas (findPageMetaFiles d)))%run).
  unfold loadPage. quiet.
Qed.

Lemma session_synced w r w' :
  synced (disk w) -> session w = (r, w') -> quietly (permits session_only) w w'.
Proof.
  intros Hsync. unfold Main.session. intros H.
  apply bind_inv in H as [([[[lm d] loaded] metas] & w1 & H1 & H)|[(e & H1 & _)|(c & H1 & _)]].
  2,3: by eapply survey_synced.
  pose proof (survey_synced _ _ _ Hsync H1) as Q1. etrans; [exact Q1|].
  apply survey_ok in H1 as (-> & _ & Lf & _ & _ & _ & Gl & _ & Mi).
  destruct Q1 as [_ D1]. rewrite <-D1 in Hsync.
  eapply (quietly_mono (permits no_call)); [by intros [? ?|?]| |exact H].
  by apply reconcile_synced.
Qed.

(** A run on a folder that is in step opens and closes the session and
    does nothing else; the folder is as it was. *)
Lemma main_synced w r w' :
  synced (disk w) -> main w = (r, w') -> quietly (permits session_only) w w'.
Proof.
  intros Hsync. unfold Main.main.
  destruct (session w) as [[c|e|code] w1] eqn:Es; intros H;
    (etrans; [by eapply session_synced|]).
  - observe (permits session_only) H; [quiet|]. done.
  - observe (permits session_only) H; [quiet|]. done.
  - injection H as <- <-. reflexivity.
Qed.

End Main.
End SyncedFacts.

(** ** The ids a plan keeps *)

Module KeptFacts.
Import Json States PageData Images Main Observe.
Import RunFacts WorldFacts StepFacts ListFacts ObjFacts StatesFacts IdFacts PlanFacts.
Import PreparedFacts.

Section Determine.
Variables htmlNames jsonNames metaNames pageIds : list string.
Variable metas : gmap string PageMeta.

Abbreviation states := (determinePageStates htmlNames jsonNames metaNames pageIds metas).

Lemma residualIds_elem i :
  i ∈ residualIds (residual_meta states) <->
  exists n, n ∈ metaNames /\ (n ∉ htmlNames) /\ (n ∉ jsonNames)
            /\ metaIdOf metas n = Some i /\ Js.truthy_str i = true /\ i ∈ pageIds.
Proof.
  rewrite determinePageStates_eq. cbn. unfold residualIds. rewrite list_elem_of_omap.
  split.
  - intros (item & (n & -> & [Hc%Is_true_true Hn]%list_elem_of_filter)%list_elem_of_fmap & H).
    cbn in H. destruct (metaIdOf metas n) as [j|] eqn:E; [|done].
    unfold inPageIdsOf, has in H. destruct (Js.truthy_str j) eqn:Ej; [|done]. cbn in H.
    case_bool_decide; [|done]. injection H as <-.
    unfold metaOnly, has in Hc. apply andb_prop in Hc as [Hh Hj].
    apply negb_true_iff, bool_decide_eq_false in Hh, Hj. by exists n.
  - intros (n & Hn & Hh & Hj & Hi & Ht & Hp). exists (residual pageIds metas n). split.
    + apply list_elem_of_fmap. exists n. split; [done|]. apply list_elem_of_filter.
      split; [|done]. apply Is_true_true. unfold metaOnly, has.
      by rewrite !bool_decide_false.
    + cbn. rewrite Hi. unfold inPageIdsOf, has. rewrite Ht. cbn.
      by rewrite bool_decide_true.
Qed.

Lemma incompleteIds_elem i names :
  i ∈ incompleteIds pageIds (incomplete metaNames metas <$> names) <->
  exists n, n ∈ names /\ n ∈ metaNames /\ metaIdOf metas n = Some i
            /\ Js.truthy_str i = true /\ i ∈ pageIds.
Proof.
  unfold incompleteIds. rewrite list_elem_of_omap. split.
  - intros (item & (n & -> & Hn)%list_elem_of_fmap & H). cbn in H.
    unfold has in H. case_bool_decide; [|done].
    destruct (metaIdOf metas n) as [j|] eqn:E; [|done].
    destruct (Js.truthy_str j) eqn:Ej; [|done]. cbn in H.
    case_bool_decide; [|done]. injection H as <-. by exists n.
  - intros (n & Hn & Hm & Hi & Ht & Hp). exists (incomplete metaNames metas n). split.
    + apply list_elem_of_fmap. by exists n.
    + cbn. unfold has. rewrite bool_decide_true by done. rewrite Hi, Ht. cbn.
      by rewrite bool_decide_true.
Qed.

Lemma incompleteMetas_elem n names :
  n ∈ incompleteMetas (incomplete metaNames metas <$> names) <->
  n ∈ names /\ n ∈ metaNames.
Proof.
  unfold incompleteMetas. rewrite list_elem_of_omap. split.
  - intros (item & (n' & -> & Hn)%list_elem_of_fmap & H). cbn in H.
    unfold has in H. case_bool_decide; [|done]. by injection H as <-.
  - intros [Hn Hm]. exists (incomplete metaNames metas n). split.
    + apply list_elem_of_fmap. by exists n.
    + cbn. unfold has. by rewrite bool_decide_true.
Qed.

Lemma metasToDelete_iff n :
  n ∈ incompleteMetas (json_missing states) ++ incompleteMetas (html_missing states)
      ++ (res_name <$> residual_meta states) <->
  n ∈ metaNames /\ (n ∉ htmlNames \/ n ∉ jsonNames).
Proof.
  split; [apply metasToDelete_elem|].
  intros [Hm Hout]. rewrite determinePageStates_eq. cbn.
  rewrite !elem_of_app, !incompleteMetas_elem, !list_elem_of_filter.
  rewrite fmap_fmap_id by done. rewrite list_elem_of_filter.
  unfold noJson, noHtml, metaOnly, has. rewrite !Is_true_true, !andb_true_iff, !negb_true_iff,
    !bool_decide_eq_false.
  destruct (decide (n ∈ htmlNames)), (decide (n ∈ jsonNames)); tauto.
Qed.

(** The id of a normal page is not scheduled for deletion. *)
Lemma normal_id_kept n i :
  "" ∉ metaNames ->
  (forall n1 n2 j, metaIdOf metas n1 = Some j -> metaIdOf metas n2 = Some j ->
                   Js.truthy_str j = true -> n1 = n2) ->
  n ∈ normal states -> metaIdOf metas n = Some i ->
  i ∉ (orphan states ++ residualIds (residual_meta states)
       ++ incompleteIds pageIds (json_missing states)
       ++ incompleteIds pageIds (html_missing states))
      ++ (pageIds_missing states).*2.
Proof.
  intros Hne Hdist [Hh Hc]%normal_elem Hi.
  unfold isNormal in Hc. rewrite Hi in Hc.
  apply andb_prop in Hc as [Hc Hin]. apply andb_prop in Hc as [Hc Ht].
  apply andb_prop in Hc as [Hj%bool_decide_eq_true Hm%bool_decide_eq_true].
  cbn in Ht. unfold inPageIdsOf, has in Hin. rewrite Ht in Hin. cbn in Hin.
  apply bool_decide_eq_true in Hin.
  rewrite !elem_of_app. intros [[Ho|[Hr|[Hx|Hx]]]|Hmis].
  - exact (recorded_not_orphan _ _ _ _ _ n i Hne Hm Hi Ht Ho).
  - apply residualIds_elem in Hr as (n2 & _ & Hh2 & _ & Hi2 & _).
    by rewrite <-(Hdist n n2 i) in Hh2.
  - rewrite determinePageStates_eq in Hx. cbn in Hx.
    apply incompleteIds_elem in Hx as (n2 & [Hc2%Is_true_true _]%list_elem_of_filter & _ & Hi2 & _).
    rewrite <-(Hdist n n2 i) in Hc2 by done. unfold noJson, has in Hc2.
    by rewrite bool_decide_true in Hc2.
  - rewrite determinePageStates_eq in Hx. cbn in Hx.
    apply incompleteIds_elem in Hx as (n2 & [Hc2%Is_true_true _]%list_elem_of_filter & _ & Hi2 & _).
    rewrite <-(Hdist n n2 i) in Hc2 by done. unfold noHtml, has in Hc2.
    by rewrite bool_decide_true in Hc2.
  - apply list_elem_of_fmap in Hmis as ([n2 j] & -> & Hmis).
    by apply missingIds_recorded in Hmis as (_ & _ & _ & _ & _ & ?).
Qed.

(** A listed id that is not scheduled for deletion is the id of a normal
    page. *)
Lemma kept_id_normal i :
  i ∈ pageIds ->
  i ∉ (orphan states ++ residualIds (residual_meta states)
       ++ incompleteIds pageIds (json_missing states)
       ++ incompleteIds pageIds (html_missing states))
      ++ (pageIds_missing states).*2 ->
  exists n, n ∈ normal states /\ metaIdOf metas n = Some i /\ Js.truthy_str i = true.
Proof.
  intros Hi Hout. rewrite !elem_of_app in Hout.
  destruct (Js.truthy_ostr (idToName metaNames metas !! i)) eqn:Eo.
  2:{ destruct Hout. left. left. by apply orphan_spec. }
  destruct (idToName metaNames metas !! i) as [n|] eqn:En; [|done].
  apply idToName_lookup in En as (Hn & Hid & Ht).
  exists n. split; [|done]. apply normal_elem.
  destruct (decide (n ∈ htmlNames)) as [Hh|Hh], (decide (n ∈ jsonNames)) as [Hj|Hj].
  - split; [done|]. unfold isNormal, has, inPageIdsOf, has.
    rewrite Hid. cbn. rewrite Ht. by rewrite !bool_decide_true.
  - destruct Hout. left. right. right. left.
    rewrite determinePageStates_eq. cbn. apply incompleteIds_elem. exists n.
    split_and!; try done. apply list_elem_of_filter. split; [|done].
    apply Is_true_true. unfold noJson, has. by rewrite bool_decide_false.
  - destruct Hout. left. right. right. right.
    rewrite determinePageStates_eq. cbn. apply incompleteIds_elem. exists n.
    split_and!; try done. apply list_elem_of_filter. split; [|done].
    apply Is_true_true. unfold noHtml, has. by rewrite bool_decide_false.
  - destruct Hout. left. right. left. apply residualIds_elem. by exists n.
Qed.

End Determine.
End KeptFacts.

(** ** What a completed run leaves *)

Module IdempotenceFacts.
Import Json States PageData Images Main Observe.
Import RunFacts WorldFacts StepFacts ListFacts ObjFacts StatesFacts IdFacts PlanFacts.
Import CallFacts DeleteFacts ReconcileFacts QuietFacts CreateFacts UpdateFacts LinkFacts.
Import SurveyFacts PreparedFacts CompletedFacts SyncedFacts KeptFacts.

Lemma Forall2_elem_l {A B} (P : A -> B -> Prop) (l : list A) (k : list B) (x : A) :
  Forall2 P l k -> x ∈ l -> exists y, y ∈ k /\ P x y.
Proof.
  induction 1 as [|x' y' l k Hxy Hlk IH]; [by intros ?%elem_of_nil|].
  intros [->|Hx]%elem_of_cons.
  - exists y'. split; [left|done].
  - destruct (IH Hx) as (y & Hy & HP). exists y. split; [by right|done].
Qed.

Lemma Forall2_elem_r {A B} (P : A -> B -> Prop) (l : list A) (k : list B) (y : B) :
  Forall2 P l k -> y ∈ k -> exists x, x ∈ l /\ P x y.
Proof.
  induction 1 as [|x' y' l k Hxy Hlk IH]; [by intros ?%elem_of_nil|].
  intros [->|Hy]%elem_of_cons.
  - exists x'. split; [left|done].
  - destruct (IH Hy) as (x & Hx & HP). exists x. split; [by right|done].
Qed.

Section Content.
Variable imageRefs : string -> string -> list (string * string).

(** Loading depends on the meta files for the meta it attaches only. *)
Lemma loadable_same_content d d' n :
  same_content d d' ->
  loadable imageRefs d' n = set_meta (readPageMeta d' n) <$> loadable imageRefs d n.
Proof.
  intros (Hc & Hh & Hj & Ha). unfold loadable. rewrite Hh, Hj, Ha.
  destruct (htmlFiles d !! n) as [html|]; [|done].
  destruct (jsonFiles d !! n) as [json|]; [|done].
  destruct (Js.truthy_str html && truthy json); [|done].
  by destruct (pageHash imageRefs (assets d) n html json).2.
Qed.

End Content.

Section Run.
Context {R : Type}.
Variable site : Call -> R -> reply * R.
Variable imageRefs : string -> string -> list (string * string).
Variable replaceLocalImages : string -> list (string * string) -> string.
Variable joinContentPath : string -> string.
Implicit Types (w : World R) (v : Vars) (plan : Plan).

Abbreviation survey := (survey site imageRefs joinContentPath).
Abbreviation reconcile := (reconcile site imageRefs replaceLocalImages).
Abbreviation main := (main site imageRefs replaceLocalImages joinContentPath).
Abbreviation synced := (synced imageRefs joinContentPath).

(** A run that completes without a page failure leaves the folder in
    step. *)
Lemma run_synced w0 lm d loaded metas w c w' :
  survey w0 = (Ok (lm, d, loaded, metas), w) ->
  reconcile (lm, d, loaded, metas) w = (Ok c, w') ->
  failures_page c = 0 ->
  distinct_ids (metaFiles d) ->
  htmlFiles d !! "" = None -> metaFiles d !! "" = None ->
  synced (disk w').
Proof.
  intros Hs Hr Hfail Hdist Hhe Hme.
  destruct (reconcile_completed _ _ _ _ _ _ _ _ _ _ _ _ Hs Hr)
    as (plan & prepared & t_del & t_new & t_rest & vals & v1 & v2
        & Hplan & _ & _ & _ & _ & _ & Sc & (lm' & Lf' & Li & Lh' & Lp) & G1 & P1 & P2a & P2b
        & A & F1 & F2 & Au & Nn).
  apply survey_ok in Hs as (Ed & _ & Lf & Il & (h & Hh & Lh) & _ & Gl & Ll & Mi).
  apply makePlan_ok in Hplan as (upd & unch & Hsplit & Hreset & Eplan).
  apply splitNormal_ok in Hsplit as (Hex & Hupd & _).
  apply resetMissing_ok in Hreset as (_ & Hprep).
  assert (Hnew : newPages plan
                 = new (statesOf (lm, d, loaded, metas))
                   ++ (pageIds_missing (statesOf (lm, d, loaded, metas))).*1)
    by by rewrite Eplan.
  assert (Hupd' : updatedPages plan = upd) by by rewrite Eplan.
  assert (Hdel : allPagesToDelete plan
                 = (orphan (statesOf (lm, d, loaded, metas))
                    ++ residualIds (residual_meta (statesOf (lm, d, loaded, metas)))
                    ++ incompleteIds (pageIds (startVars lm))
                         (json_missing (statesOf (lm, d, loaded, metas)))
                    ++ incompleteIds (pageIds (startVars lm))
                         (html_missing (statesOf (lm, d, loaded, metas))))
                   ++ (pageIds_missing (statesOf (lm, d, loaded, metas))).*2)
    by by rewrite Eplan.
  assert (Hmd : metasToDelete plan
                = incompleteMetas (json_missing (statesOf (lm, d, loaded, metas)))
                  ++ incompleteMetas (html_missing (statesOf (lm, d, loaded, metas)))
                  ++ (res_name <$> residual_meta (statesOf (lm, d, loaded, metas))))
    by by rewrite Eplan.
  clear Eplan.
  unfold statesOf in *. cbn [pageIds startVars] in *.
  unfold findPageHtmlFiles, findPageJsonFiles, findPageMetaFiles in *.
  set (htmlNames := (map_to_list (htmlFiles d)).*1) in *.
  set (jsonNames := (map_to_list (jsonFiles d)).*1) in *.
  set (metaNames := (map_to_list (metaFiles d)).*1) in *.
  set (P0 := default [] (lm_pageIds lm)) in *.
  set (states := determinePageStates htmlNames jsonNames metaNames P0 metas) in *.
  destruct Sc as (Sc1 & Sc2 & Sc3 & Sc4).
  assert (Sc : same_content d (disk w')) by done.
  (* the ids of the meta files, as the classification reads them *)
  assert (Hid : forall n, metaIdOf metas n = metaFiles d !! n ≫= pm_id).
  { intros n. rewrite Mi. unfold readPageMeta. by destruct (metaFiles d !! n). }
  assert (Hdist' : forall n1 n2 j, metaIdOf metas n1 = Some j -> metaIdOf metas n2 = Some j ->
                     Js.truthy_str j = true -> n1 = n2).
  { intros n1 n2 j. rewrite !Hid.
    destruct (metaFiles d !! n1) as [m1|] eqn:E1; [|done].
    destruct (metaFiles d !! n2) as [m2|] eqn:E2; [|done].
    cbn. intros. by eapply Hdist. }
  assert (Hne : "" ∉ metaNames).
  { intros [m Hm]%elem_of_keys. congruence. }
  (* ids of normal pages stay listed *)
  assert (Hkept : forall n i, n ∈ normal states -> metaIdOf metas n = Some i ->
                    i ∈ pageIds v2).
  { intros n i Hn Hi. apply P2a, P1. split.
    - apply normal_elem in Hn as [_ Hc]. unfold isNormal in Hc. rewrite Hi in Hc.
      apply andb_prop in Hc as [Hc Hin]. apply andb_prop in Hc as [_ Ht]. cbn in Ht.
      unfold inPageIdsOf, has in Hin. rewrite Ht in Hin. by apply bool_decide_eq_true in Hin.
    - rewrite Hdel. by eapply normal_id_kept. }
  (* a new page has been created *)
  assert (Hcreated : forall n, n ∈ newPages plan ->
            exists i p p', JsObject.get n prepared = Some p
                           /\ metaFiles (disk w') !! n = Some (pi_meta p')
                           /\ pm_id (pi_meta p') = Some i
                           /\ pm_hash (pi_meta p') = Some (pi_hash p)
                           /\ i ∈ pageIds v2).
  { intros n Hn. destruct (Forall2_elem_l _ _ _ _ A Hn) as (val & _ & p & Hp & Hval).
    rewrite G1 in Hp. destruct (value_string val) as [i|]; [|lia].
    destruct Hval as (Hi & p' & _ & Hm & Hpi & Hph & _). by exists i, p, p'. }
  (* the final meta of a page that is neither new nor updated *)
  assert (Hsame : forall n, n ∈ htmlNames -> n ∈ jsonNames ->
            n ∉ newPages plan -> n ∉ updatedPages plan ->
            metaFiles (disk w') !! n = metaFiles d !! n).
  { intros n Hh' Hj' Hnn Hnu. rewrite (Nn n Hnn Hnu). case_bool_decide as Hmd'; [|done].
    rewrite Hmd in Hmd'. apply metasToDelete_elem in Hmd' as [_ [?|?]]; done. }
  exists lm', h. split_and!.
  - done.
  - by rewrite Li.
  - by rewrite Sc1, Sc4.
  - by rewrite Lh'.
  - (* meta files belong to pages *)
    intros n m Hm.
    assert (n ∈ htmlNames /\ n ∈ jsonNames) as [Hh' Hj'].
    { destruct (decide (n ∈ newPages plan)) as [Hnn|Hnn].
      { rewrite Hnew, elem_of_app in Hnn.
        destruct Hnn as [[? Hc]%new_elem|[? Hc]%missing_names]; (split; [done|]).
        - unfold isNew, has in Hc. apply andb_prop in Hc as [Hc _].
          by apply bool_decide_eq_true in Hc.
        - unfold isMissing, has in Hc. apply andb_prop in Hc as [Hc _].
          apply andb_prop in Hc as [Hc _]. apply andb_prop in Hc as [Hc _].
          by apply bool_decide_eq_true in Hc. }
      destruct (decide (n ∈ updatedPages plan)) as [Hnu|Hnu].
      { rewrite Hupd' in Hnu. apply Hupd in Hnu as [[]%elem_of_nil|[[? Hc]%normal_elem _]].
        split; [done|]. unfold isNormal, has in Hc. apply andb_prop in Hc as [Hc _].
        apply andb_prop in Hc as [Hc _]. apply andb_prop in Hc as [Hc _].
        by apply bool_decide_eq_true in Hc. }
      rewrite (Nn n Hnn Hnu) in Hm. case_bool_decide as Hmd'; [done|].
      rewrite Hmd in Hmd'.
      destruct (decide (n ∈ htmlNames)) as [?|Hout], (decide (n ∈ jsonNames)) as [?|Hout'];
        try done; destruct Hmd'; apply metasToDelete_iff;
        (split; [apply elem_of_keys; by eexists|auto]). }
    split_and!.
    + intros ->. apply elem_of_keys in Hh' as [? ?]. congruence.
    + rewrite Sc2. by apply elem_of_keys.
    + rewrite Sc3. by apply elem_of_keys.
  - (* pages have their meta file, with a listed id and the right fingerprint *)
    intros n. rewrite Sc2, Sc3. intros Hh'%elem_of_keys Hj'%elem_of_keys. fold htmlNames in Hh'.
    fold jsonNames in Hj'. rewrite Lp.
    assert (Hhash : forall q p, loadable imageRefs d n = Some q ->
              loadable imageRefs (disk w') n = Some p -> pi_hash p = pi_hash q).
    { intros q p Hq. rewrite (loadable_same_content imageRefs d (disk w') n Sc), Hq.
      by intros [= <-]. }
    destruct (decide (n ∈ newPages plan)) as [Hnn|Hnn].
    { destruct (Hcreated n Hnn) as (i & p & p' & Hp & Hm & Hi & Hph & Hin).
      exists (pi_meta p'). split; [done|]. intros i' Hi' _.
      assert (i' = i) as -> by congruence. split; [done|]. intros p2 Hp2.
      eapply prepared_page in Hp as (q & Hq & _ & _ & Ehq & _); [|done..].
      rewrite Hph, Ehq. f_equal. symmetry. by eapply Hhash. }
    destruct (decide (n ∈ updatedPages plan)) as [Hnu|Hnu].
    { destruct (Au n Hnu) as (p & m & Hp & Hm & Hi & Hph).
      exists m. split; [done|]. intros i Hi' Ht.
      rewrite Gl in Hp. apply loadable_files in Hp as Hfiles.
      destruct Hfiles as (_ & _ & _ & _ & Hpm & _).
      split.
      - rewrite Hupd' in Hnu. apply Hupd in Hnu as [[]%elem_of_nil|[Hn _]].
        eapply Hkept; [done|]. rewrite Mi, <-Hpm. congruence.
      - intros p2 Hp2. rewrite Hph. f_equal. symmetry. by eapply Hhash. }
    rewrite (Hsame n Hh' Hj' Hnn Hnu).
    assert (Hhas : has metaNames n = true).
    { destruct (has metaNames n) eqn:E; [done|]. destruct Hnn.
      rewrite Hnew, elem_of_app. left. apply new_elem. split; [done|].
      unfold isNew, has in *. by rewrite E, bool_decide_true. }
    apply has_keys in Hhas as [m Hm]. exists m. split; [done|]. intros i Hi Ht.
    assert (Hmi : metaIdOf metas n = Some i) by (rewrite Hid, Hm; done).
    assert (Hn : n ∈ normal states).
    { apply normal_elem. split; [done|].
      destruct (inPageIdsOf P0 (Some i)) eqn:Ein.
      - unfold isNormal, has. rewrite Hmi, Ein. cbn. rewrite Ht.
        rewrite !bool_decide_true; [done|apply elem_of_keys; by eexists|done].
      - destruct Hnn. rewrite Hnew, elem_of_app. right. apply missing_names.
        split; [done|]. unfold isMissing, has. rewrite Hmi, Ein. cbn. rewrite Ht.
        rewrite !bool_decide_true; [done|apply elem_of_keys; by eexists|done]. }
    split; [by eapply Hkept|]. intros p2 Hp2.
    destruct (Hex n Hn) as [q Hq].
    destruct (decide (pm_hash (pi_meta q) = Some (pi_hash q))) as [Eq|Eq].
    + rewrite Gl in Hq. apply loadable_files in Hq as Hfiles.
      destruct Hfiles as (_ & _ & _ & _ & Hpm & _).
      unfold readPageMeta in Hpm. rewrite Hm in Hpm. cbn in Hpm. rewrite Hpm in Eq.
      rewrite Eq. f_equal. symmetry. by eapply Hhash.
    + destruct Hnu. rewrite Hupd'. apply Hupd. right. split; [done|]. by exists q.
  - (* listed ids are recorded *)
    intros i. rewrite Lp. intros [Hi|(val & Hval & Hv)]%P2b.
    + apply P1 in Hi as [Hi0 Hout]. rewrite Hdel in Hout.
      destruct (kept_id_normal _ _ _ _ _ i Hi0 Hout) as (n & Hn & Hmi & Ht).
      assert (n ∈ htmlNames /\ n ∈ jsonNames /\ n ∉ newPages plan) as (Hh' & Hj' & Hnn).
      { apply normal_elem in Hn as Hn'. destruct Hn' as [? Hc]. split_and!; [done| |].
        - unfold isNormal, has in Hc. apply andb_prop in Hc as [Hc _].
          apply andb_prop in Hc as [Hc _]. apply andb_prop in Hc as [Hc _].
          by apply bool_decide_eq_true in Hc.
        - rewrite Hnew. intros Hin. by apply newPages_not_normal in Hin. }
      destruct (decide (n ∈ updatedPages plan)) as [Hnu|Hnu].
      * destruct (Au n Hnu) as (p & m & Hp & Hm & Hpi & _). exists n, m.
        split_and!; [done| |done]. rewrite Hpi.
        rewrite Gl in Hp. apply loadable_files in Hp as (_ & _ & _ & _ & -> & _).
        by rewrite <-Mi.
      * rewrite Hid in Hmi. destruct (metaFiles d !! n) as [m|] eqn:Em; [|done].
        exists n, m. rewrite (Hsame n Hh' Hj' Hnn Hnu). by split_and!.
    + destruct (Forall2_elem_r _ _ _ _ A Hval) as (n & Hn & p & Hp & Hc).
      rewrite Hv in Hc. destruct Hc as (_ & p' & _ & Hm & Hpi & _).
      exists n, (pi_meta p'). split_and!; [done..|]. by eapply ImageFacts.value_string_truthy.
Qed.

End Run.
End IdempotenceFacts.

(** ** The second run *)

Module SecondRunFacts.
Import Json States PageData Images Main Observe.
Import RunFacts WorldFacts StepFacts SurveyFacts SyncedFacts IdempotenceFacts.

Section Run.
Context {R : Type}.
Variable site : Call -> R -> reply * R.
Variable imageRefs : string -> string -> list (string * string).
Variable replaceLocalImages : string -> list (string * string) -> string.
Variable joinContentPath : string -> string.
Implicit Types (w : World R).

Abbreviation main := (main site imageRefs replaceLocalImages joinContentPath).

(** A completed run without a page failure leaves the folder in step. *)
Lemma main_leaves_synced w c w1 :
  main w = (Ok c, w1) ->
  failures_page c = 0 ->
  distinct_ids (metaFiles (disk w)) ->
  htmlFiles (disk w) !! "" = None -> metaFiles (disk w) !! "" = None ->
  synced imageRefs joinContentPath (disk w1).
Proof.
  intros Hm Hf Hdist Hh Hme. unfold Main.main in Hm.
  destruct (session site imageRefs replaceLocalImages joinContentPath w)
    as [[c'|e|code] w'] eqn:Es.
  - apply bind_ok in Hm as (? & w2 & (_ & D & _)%call_ok & [= -> <-]).
    rewrite D. unfold session in Es.
    apply bind_ok in Es as ([[[lm d] loaded] metas] & w0 & Hs & Hr).
    apply survey_ok in Hs as Hs'.
    destruct Hs' as (_ & (_ & Sh & _) & _ & _ & _ & Sm & _).
    eapply run_synced; [done..| | |].
    + intros n1 n2 m1 m2 i. rewrite !Sm.
      destruct (labyMetaFile (disk w)); [apply Hdist|done].
    + by rewrite Sh.
    + rewrite Sm. by destruct (labyMetaFile (disk w)).
  - apply bind_inv in Hm as [(? & ? & _ & Hm)|[(? & _ & ?)|(? & _ & ?)]]; [|done..].
    apply bind_inv in Hm as [(? & ? & _ & Hm)|[(? & _ & ?)|(? & _ & ?)]]; [|done..].
    apply bind_inv in Hm as [(? & ? & _ & Hm)|[(? & _ & ?)|(? & _ & ?)]]; [|done..].
    done.
  - done.
Qed.


End Run.


End SecondRunFacts.
(** ** Objects as dictionaries *)

Module DictFacts.
Import ListFacts ObjFacts.

Section Obj.
Context {V : Type}.
Implicit Types (o : JsObject.obj V).

Lemma entries_perm o : JsObject.entries o ≡ₚ o.
Proof.
  unfold JsObject.entries. rewrite merge_sort_Permutation.
  induction o as [|kv o IH]; [done|]. cbn.
  destruct (JsObject.is_index kv); cbn.
  - by rewrite IH.
  - rewrite <-Permutation_middle. by rewrite IH.
Qed.

Lemma elem_of_entries o kv : kv ∈ JsObject.entries o <-> kv ∈ o.
Proof. by rewrite entries_perm. Qed.

Lemma get_Some_elem o k v : JsObject.get k o = Some v -> (k, v) ∈ o.
Proof.
  induction o as [|[k' v'] o IH]; cbn; [done|].
  destruct (String.eqb k k') eqn:E.
  - apply String.eqb_eq in E as ->. intros [= ->]. left.
  - intros H. right. by apply IH.
Qed.

Lemma get_None o k : JsObject.get k o = None <-> k ∉ o.*1.
Proof.
  induction o as [|[k' v'] o IH]; cbn.
  - split; [intros _ H; by apply elem_of_nil in H|done].
  - rewrite not_elem_of_cons. destruct (String.eqb k k') eqn:E.
    + apply String.eqb_eq in E as ->. split; [done|]. by intros [? _].
    + apply String.eqb_neq in E. rewrite IH. tauto.
Qed.

Lemma elem_of_objkeys o k : k ∈ JsObject.keys o <-> is_Some (JsObject.get k o).
Proof.
  unfold JsObject.keys. rewrite entries_perm.
  destruct (JsObject.get k o) as [v|] eqn:E.
  - split; [by eexists|]. intros _. apply get_Some_elem in E.
    apply list_elem_of_fmap. by exists (k, v).
  - apply get_None in E. split; [done|]. by intros [? ?].
Qed.

Lemma set_keys o k v :
  (JsObject.set k v o).*1 = if bool_decide (k ∈ o.*1) then o.*1 else o.*1 ++ [k].
Proof.
  induction o as [|[k' v'] o IH]; cbn; [done|].
  destruct (String.eqb k k') eqn:E.
  - apply String.eqb_eq in E as ->. cbn. rewrite bool_decide_true; [done|left].
  - apply String.eqb_neq in E. cbn. rewrite IH.
    case_bool_decide as H1; case_bool_decide as H2; try done.
    + destruct H2. by right.
    + apply elem_of_cons in H2 as [?|?]; done.
Qed.

Lemma set_NoDup o k v : NoDup o.*1 -> NoDup (JsObject.set k v o).*1.
Proof.
  intros H. rewrite set_keys. case_bool_decide as Hk; [done|].
  apply NoDup_app. split_and!; [done| |apply NoDup_singleton].
  intros x Hx [->|[]%elem_of_nil]%elem_of_cons. done.
Qed.

Lemma keys_NoDup o : NoDup o.*1 -> NoDup (JsObject.keys o).
Proof. unfold JsObject.keys. by rewrite entries_perm. Qed.

Lemma elem_get o k v : NoDup o.*1 -> (k, v) ∈ o -> JsObject.get k o = Some v.
Proof.
  induction o as [|[k' v'] o IH]; cbn; [by intros _ ?%elem_of_nil|].
  intros [Hk Hnd]%NoDup_cons [[= -> ->]|Hin]%elem_of_cons.
  - by rewrite eqb_refl'.
  - destruct (String.eqb k k') eqn:E; [|by apply IH].
    apply String.eqb_eq in E as ->. destruct Hk. apply list_elem_of_fmap. by exists (k', v).
Qed.

Lemma get_perm o o' k : NoDup o.*1 -> o ≡ₚ o' -> JsObject.get k o = JsObject.get k o'.
Proof.
  intros Hnd Hp. assert (Hnd' : NoDup o'.*1) by by rewrite <-Hp.
  destruct (JsObject.get k o) as [v|] eqn:E.
  - symmetry. apply elem_get; [done|]. rewrite <-Hp. by apply get_Some_elem.
  - symmetry. apply get_None. rewrite <-Hp. by apply get_None.
Qed.

(** Two objects with the same keys in the same order and the same value
    under every key are the same. *)
Lemma obj_ext o o' :
  o.*1 = o'.*1 -> (forall k, k ∈ o.*1 -> JsObject.get k o = JsObject.get k o') ->
  NoDup o.*1 -> o = o'.
Proof.
  revert o'. induction o as [|[k v] o IH]; intros [|[k' v'] o']; cbn; try done.
  intros [= <- Hk] Hget [Hn Hnd]%NoDup_cons.
  pose proof (Hget k (list_elem_of_here _ _)) as H0. rewrite eqb_refl' in H0.
  injection H0 as <-. f_equal. apply IH; [done| |done].
  intros k0 Hk0. specialize (Hget k0 (list_elem_of_further _ _ _ Hk0)).
  destruct (String.eqb k0 k) eqn:E; [|done].
  apply String.eqb_eq in E as ->. done.
Qed.

(** [{ ...o, ...members }] *)
Lemma spread_keys (members : list (string * V)) : forall o,
  (forall k, k ∈ members.*1 -> k ∈ o.*1) ->
  (foldl (fun acc kv => JsObject.set kv.1 kv.2 acc) o members).*1 = o.*1.
Proof.
  induction members as [|[k v] members IH]; intros o Hsub; cbn [foldl]; [done|].
  cbn [fst snd].
  assert (Hk : (JsObject.set k v o).*1 = o.*1).
  { rewrite set_keys, bool_decide_true; [done|]. apply Hsub. left. }
  rewrite IH; [done|]. intros k' Hk'. rewrite Hk. apply Hsub. by right.
Qed.

Lemma spread_get (members : list (string * V)) k : forall o,
  NoDup members.*1 ->
  JsObject.get k (foldl (fun acc kv => JsObject.set kv.1 kv.2 acc) o members)
  = match JsObject.get k members with
    | Some v => Some v
    | None => JsObject.get k o
    end.
Proof.
  induction members as [|[k0 v0] members IH]; intros o Hnd; cbn [foldl]; [done|].
  apply NoDup_cons in Hnd as [Hk0 Hnd]. cbn [fst snd]. rewrite IH by done.
  cbn [JsObject.get]. rewrite get_set. destruct (String.eqb k k0) eqn:E; [|done].
  apply String.eqb_eq in E as ->. cbn in Hk0. apply get_None in Hk0. by rewrite Hk0.
Qed.

End Obj.

End DictFacts.

(** ** A run never touches the sources *)

Module KeepsFacts.
Import Json States PageData Images Main Observe Keeps.
Import RunFacts WorldFacts StepFacts DeleteFacts.

Section World.
Context {R : Type}.
Variable site : Call -> R -> reply * R.
Implicit Types w : World R.

#[export] Instance keeps_preorder : PreOrder (keeps_content (R:=R)).
Proof.
  split.
  - intros w. apply same_content_refl.
  - intros w1 w2 w3 H1 H2. unfold keeps_content in *. by eapply same_content_trans.
Qed.

Lemma keeps_same_disk w w' : disk w' = disk w -> keeps_content w w'.
Proof. unfold keeps_content. intros ->. apply same_content_refl. Qed.

Lemma keeps_call c : respects keeps_content (call site c).
Proof.
  intros w r w' H. apply keeps_same_disk. unfold call in H.
  destruct (site c (remote w)) as [[?|?] ?]; by simplify_eq.
Qed.

Lemma keeps_sleep ms : respects keeps_content (sleep (R:=R) ms).
Proof. intros w r w' [= <- <-]. by apply keeps_same_disk. Qed.

Lemma keeps_logError line : respects keeps_content (logError (R:=R) line).
Proof. intros w r w' [= <- <-]. by apply keeps_same_disk. Qed.

Lemma keeps_readDisk : respects keeps_content (readDisk (R:=R)).
Proof. intros w r w' [= <- <-]. reflexivity. Qed.

Lemma keeps_lift {A} (r : res A) : respects keeps_content (lift (R:=R) r).
Proof. intros w r' w' [= <- <-]. reflexivity. Qed.

Lemma keeps_emit {A} (l : list string * res A) : respects keeps_content (emit (R:=R) l).
Proof.
  apply respects_bind; [apply _| |intros; apply keeps_lift].
  apply respects_for_each; [apply _|]. intros; apply keeps_logError.
Qed.

Lemma keeps_retried c : respects keeps_content (retried site c).
Proof.
  unfold retried. apply respects_withRetry; [apply _|apply keeps_call|].
  intros ms. apply keeps_sleep.
Qed.

Lemma keeps_writeLabyMeta lm : respects keeps_content (writeLabyMeta (R:=R) lm).
Proof. by intros w r w' [= <- <-]. Qed.

Lemma keeps_writePageMeta name meta : respects keeps_content (writePageMeta (R:=R) name meta).
Proof. by intros w r w' [= <- <-]. Qed.

Lemma keeps_deletePageMeta name : respects keeps_content (deletePageMeta (R:=R) name).
Proof. by intros w r w' [= <- <-]. Qed.

End World.

(** Goals [respects keeps_content m], by the structure of [m]. *)
Ltac keep_step :=
  lazymatch goal with
  | |- respects _ (bind _ _) => apply respects_bind; [apply _| |intros]
  | |- respects _ (ret _) => apply respects_ret; apply _
  | |- respects _ (throw _) => apply respects_throw; apply _
  | |- respects _ (exit _) => apply respects_exit; apply _
  | |- respects _ (for_each _ _) => apply respects_for_each; [apply _|intros]
  | |- respects _ (fold_each _ _ _) => apply respects_fold_each; [apply _|intros]
  | |- respects _ (Retry.withRetry _ _ _) => apply respects_withRetry; [apply _| |intros]
  | |- respects _ (retried _ _) => apply keeps_retried
  | |- respects _ (call _ _) => apply keeps_call
  | |- respects _ (sleep _) => apply keeps_sleep
  | |- respects _ (logError _) => apply keeps_logError
  | |- respects _ readDisk => apply keeps_readDisk
  | |- respects _ (writeLabyMeta _) => apply keeps_writeLabyMeta
  | |- respects _ (writePageMeta _ _) => apply keeps_writePageMeta
  | |- respects _ (deletePageMeta _) => apply keeps_deletePageMeta
  | |- respects _ (lift _) => apply keeps_lift
  | |- respects _ (emit _) => apply keeps_emit
  | |- respects _ (match ?x with _ => _ end) => destruct x
  end.
Ltac keep := repeat keep_step.

Section Run.
Context {R : Type}.
Variable site : Call -> R -> reply * R.
Variable imageRefs : string -> string -> list (string * string).
Variable replaceLocalImages : string -> list (string * string) -> string.
Variable joinContentPath : string -> string.
Implicit Types (w : World R).

Abbreviation session := (session site imageRefs replaceLocalImages joinContentPath).
Abbreviation main := (main site imageRefs replaceLocalImages joinContentPath).

Lemma session_keeps_content : respects keeps_content session.
Proof.
  unfold Main.session, Main.survey, syncLabyrinth, loadPage, createLabyrinth,
    Main.reconcile, gate, firstPageGate, Main.deletePhase, deleteOne, finish,
    Main.createPhase, Main.createOne, Main.updatePhase, Main.updateOne,
    Main.linkPhase, Main.linkOne, connectOne, failureSummary, processAnswer,
    Main.uploadImages, Main.uploadNewImages, Images.uploadNewImages, uploadOne,
    calculateChecksum, Main.findLocalImages, Images.findLocalImages, addAnswer.
  keep.
Qed.

(** X1.  Whatever a run of [main] does and however it ends (completed,
    exit code, an error), it leaves [labyrinth.json], every page's
    [.html] and [.json] file and every image file exactly as they were:
    the only files the script ever writes or removes are [labyrinth.meta]
    and the [.meta] files of the pages.  (Stated, as every property of a
    whole run, for the folders of [Scope.plain].) *)
Theorem main_keeps_content w r w' :
  Scope.plain (disk w) ->
  main w = (r, w') ->
  config (disk w') = config (disk w)
  /\ htmlFiles (disk w') = htmlFiles (disk w)
  /\ jsonFiles (disk w') = jsonFiles (disk w)
  /\ assets (disk w') = assets (disk w).
Proof.
  intros _. unfold Main.main. destruct (session w) as [[c|e|code] w1] eqn:Es;
    apply session_keeps_content in Es; intros H.
  - cut (keeps_content w1 w'); [intros H1; exact (transitivity Es H1)|].
    revert H. generalize w1 r w'. change (respects (keeps_content (R:=R))
      (bind (call site Logout) (fun _ => ret c))). keep.
  - cut (keeps_content w1 w'); [intros H1; exact (transitivity Es H1)|].
    revert H. generalize w1 r w'.
    change (respects (keeps_content (R:=R))
      (bind (logError "") (fun _ =>
       bind (logError ("오류가 발생했습니다: "
                       +:+ match e with Err message => message | NoValue => "" end)) (fun _ =>
       bind (logError "상세 정보를 보려면 --verbose 옵션을 사용하세요.") (fun _ => exit (A:=Counts) 1))))).
    keep.
  - injection H as <- <-. exact Es.
Qed.

End Run.

(** The first run of the two-page example leaves the settings and the
    page sources as it found them. *)
Lemma main_keeps_content_witness :
  config (disk Example.ab_done) = config Example.tree_ab
  /\ htmlFiles (disk Example.ab_done) = htmlFiles Example.tree_ab
  /\ jsonFiles (disk Example.ab_done) = jsonFiles Example.tree_ab
  /\ assets (disk Example.ab_done) = assets Example.tree_ab.
Proof.
  apply (main_keeps_content Example.site Example.imageRefs Example.replaceLocalImages
           Example.joinContentPath (Example.world Example.tree_ab Example.site0)
           (Ok Example.ab_counts) Example.ab_done).
  - apply (bool_decide_unpack _). vm_compute. reflexivity.
  - vm_compute. reflexivity.
Defined.

End KeepsFacts.

(** ** The order of the phases *)

Module PhaseFacts.
Import Json States PageData Images Main Observe Phases.
Import RunFacts WorldFacts StepFacts CallFacts.

Lemma stretches_nil Ps : stretches Ps [].
Proof.
  induction Ps as [|P Ps IH]; [done|]. exists [], []. by split_and!.
Qed.

Lemma stretches_skip P Ps t : stretches Ps t -> stretches (P :: Ps) t.
Proof. intros H. exists [], t. by split_and!. Qed.

Lemma stretches_grow P Ps t1 t : Forall P t1 -> stretches (P :: Ps) t -> stretches (P :: Ps) (t1 ++ t).
Proof.
  intros H1 (t2 & t3 & -> & H2 & H3). exists (t1 ++ t2), t3.
  rewrite app_assoc. split_and!; [done| |done]. by apply Forall_app.
Qed.

Lemma stretches_last P t : Forall P t -> stretches [P] t.
Proof. intros H. exists t, []. by rewrite app_nil_r. Qed.

Section World.
Context {R : Type}.
Implicit Types w : World R.

Lemma phased_refl Ps w : phased Ps w w.
Proof. exists []. rewrite app_nil_r. split; [done|apply stretches_nil]. Qed.

Lemma phased_skip P Ps w w' : phased Ps w w' -> phased (P :: Ps) w w'.
Proof. intros (t & E & H). exists t. split; [done|by apply stretches_skip]. Qed.

Lemma phased_grow P Ps w w1 w' :
  continues P w w1 -> phased (P :: Ps) w1 w' -> phased (P :: Ps) w w'.
Proof.
  intros (t1 & E1 & H1) (t & E & H). exists (t1 ++ t).
  rewrite E, E1, <-app_assoc. split; [done|by apply stretches_grow].
Qed.

(** A step of the current phase, then whatever follows. *)
Lemma phased_bind {A B} P Ps (m : M (World R) A) (k : A -> M (World R) B) :
  respects (continues P) m ->
  (forall a, respects (phased (P :: Ps)) (k a)) ->
  respects (phased (P :: Ps)) (bind m k).
Proof.
  intros Hm Hk w r w' H.
  apply bind_inv in H as [(a & w1 & H1 & H2)|[(e & H1 & _)|(c & H1 & _)]].
  - eapply phased_grow; [by eapply Hm|by eapply Hk].
  - eapply phased_grow; [by eapply Hm|apply phased_refl].
  - eapply phased_grow; [by eapply Hm|apply phased_refl].
Qed.

Lemma phased_next {A} P Ps (m : M (World R) A) :
  respects (phased Ps) m -> respects (phased (P :: Ps)) m.
Proof. intros Hm w r w' H. apply phased_skip. by eapply Hm. Qed.

Lemma phased_last {A} P (m : M (World R) A) :
  respects (continues P) m -> respects (phased [P]) m.
Proof.
  intros Hm w r w' H. destruct (Hm w r w' H) as (t & E & Ht).
  exists t. split; [done|by apply stretches_last].
Qed.

End World.

(** From a step [H : m w = (r, w')], what it added to the trace. *)
Ltac follow P H :=
  lazymatch type of H with
  | ?m ?w = (?r, ?w') =>
      let C := fresh "C" in
      assert (C : continues P w w');
      [ cut (respects (continues P) m);
        [ let Hr := fresh in intros Hr; exact (Hr w r w' H) | cbv beta ]
      | ]
  end.

Section Run.
Context {R : Type}.
Variable site : Call -> R -> reply * R.
Variable imageRefs : string -> string -> list (string * string).
Variable replaceLocalImages : string -> list (string * string) -> string.
Variable joinContentPath : string -> string.
Implicit Types (w : World R).

Abbreviation survey := (survey site imageRefs joinContentPath).
Abbreviation reconcile := (reconcile site imageRefs replaceLocalImages).
Abbreviation session := (session site imageRefs replaceLocalImages joinContentPath).
Abbreviation main := (main site imageRefs replaceLocalImages joinContentPath).

(** A retried call starts with the call. *)
Lemma retry_loop_first c maxRetries todo attempt lastError w r w' :
  Retry.withRetry_loop sleep (call site c) maxRetries (S todo) attempt lastError w = (r, w') ->
  exists rp t, trace w' = trace w ++ Called c rp :: t /\ Forall (only c) t.
Proof.
  cbn [Retry.withRetry_loop]. unfold try_catch at 1. unfold call at 1.
  destruct (site c (remote w)) as [rp remote'] eqn:Ec.
  set (w1 := {| remote := remote'; trace := trace w ++ [Called c rp];
                disk := disk w; stderr := stderr w |}).
  destruct rp as [v|message].
  - intros [= <- <-]. exists (Returned v), []. by rewrite Forall_nil.
  - intros H.
    follow (only c) H.
    { unfold Retry.isRetryableError. frame.
      apply respects_withRetry_loop; [apply _|by apply continues_call|].
      intros ms. by apply continues_sleep. }
    destruct C as (t & E & Ht). exists (Raised message), t.
    rewrite E. cbn. by rewrite <-app_assoc.
Qed.

Lemma retried_first c w r w' :
  retried site c w = (r, w') ->
  exists rp t, trace w' = trace w ++ Called c rp :: t /\ Forall (only c) t.
Proof. apply retry_loop_first. Qed.

Lemma reconcile_phased s :
  respects (phased (tail the_phases)) (reconcile s).
Proof.
  destruct s as [[[lm d] loaded] metas]. unfold Main.reconcile, the_phases. cbn [tail].
  apply phased_bind; [unfold gate; frame|]. intros _.
  apply phased_bind; [unfold firstPageGate; frame|]. intros _.
  apply phased_bind; [frame|]. intros [plan prepared].
  apply phased_bind; [unfold Main.deletePhase, deleteOne; frame|]. intros v.
  apply phased_next. unfold finish.
  apply phased_bind; [apply createPhase_calls|]. intros v1.
  apply phased_next.
  apply phased_bind; [apply updatePhase_calls|]. intros v2.
  apply phased_next. apply phased_last.
  apply respects_bind; [apply _|apply linkPhase_calls|]. intros v3.
  unfold failureSummary. frame.
Qed.

(** The stretches of a session: the login attempt first. *)
Lemma session_phased w r w' :
  session w = (r, w') ->
  exists rp t, trace w' = trace w ++ Called Login rp :: t /\ stretches the_phases t.
Proof.
  unfold Main.session, Main.survey. intros H.
  apply bind_inv in H as [(s & w1 & H1 & H2)|H].
  - apply bind_inv in H1 as [(v & w2 & H0 & H1)|H1].
    + apply retried_first in H0 as (rp & t0 & E0 & Ht0).
      follow (permits opens_labyrinth) H1.
      { unfold syncLabyrinth, loadPage, createLabyrinth. frame. }
      destruct C as (t1 & E1 & Ht1).
      apply reconcile_phased in H2 as (t2 & E2 & Ht2).
      exists rp, ((t0 ++ t1) ++ t2). split.
      * rewrite E2, E1, E0, <-!app_assoc. done.
      * apply stretches_grow; [|by apply stretches_skip].
        apply Forall_app. split; [|done].
        eapply Forall_impl; [exact Ht0|]. by intros [c ?|?]; cbn; [intros ->|].
    + by destruct H1 as [(e & _ & ?)|(c & _ & ?)].
  - assert (exists e : res Survey, survey w = (e, w')) as [e He]
      by (destruct H as [(e & ? & _)|(c & ? & _)]; eauto).
    clear H. unfold Main.survey in He.
    apply bind_inv in He as [(v & w2 & H0 & H1)|H1].
    + apply retried_first in H0 as (rp & t0 & E0 & Ht0).
      follow (permits opens_labyrinth) H1.
      { unfold syncLabyrinth, loadPage, createLabyrinth. frame. }
      destruct C as (t1 & E1 & Ht1).
      exists rp, ((t0 ++ t1) ++ []). split.
      * by rewrite E1, E0, app_nil_r, <-!app_assoc.
      * apply stretches_grow; [|apply stretches_nil].
        apply Forall_app. split; [|done].
        eapply Forall_impl; [exact Ht0|]. by intros [c ?|?]; cbn; [intros ->|].
    + assert (exists e' : res value, retried site Login w = (e', w')) as [e' He']
        by (destruct H1 as [(e' & ? & _)|(c & ? & _)]; eauto).
      apply retried_first in He' as (rp & t0 & E0 & Ht0).
      exists rp, (t0 ++ []). split; [by rewrite app_nil_r|].
      apply stretches_grow; [|apply stretches_nil].
      eapply Forall_impl; [exact Ht0|]. by intros [c ?|?]; cbn; [intros ->|].
Qed.

Lemma phases_without_logout t :
  stretches the_phases t -> Logout ∉ calls t.
Proof.
  intros (t1 & ? & -> & H1 & t2 & ? & -> & H2 & t3 & ? & -> & H3 & t4 & ? & -> & H4
          & t5 & ? & -> & H5 & ->).
  rewrite app_nil_r, !calls_app, !elem_of_app.
  assert (forall allowed t, allowed Logout = false -> Forall (permits allowed) t ->
            Logout ∉ calls t) as No.
  { intros allowed t Ha Ht Hin. apply permits_calls in Ht.
    rewrite Forall_forall in Ht. apply Ht in Hin. congruence. }
  intros [H|[H|[H|[H|H]]]]; revert H; (eapply No; [|eassumption]); done.
Qed.

(** X2.  The steps of a run never interleave.  Whatever the outcome, the
    events of a run of [main] are: a login attempt; then calls of steps 1
    and 2 only (login retries, creating or updating the labyrinth); then
    page deletions only (step 3); then calls of page creation only (step
    4); then calls of page update only (step 5); then calls of the link
    phase only (step 6); then at most the logout.  In particular no page
    is deleted once a page has been created or updated, and no page is
    created after an update has begun.  (For the folders of
    [Scope.plain].) *)
Theorem main_phase_order w r w' :
  Scope.plain (disk w) ->
  main w = (r, w') ->
  exists rp t_open t_del t_new t_upd t_link t_close,
    trace w' = trace w ++ Called Login rp :: t_open ++ t_del ++ t_new ++ t_upd
                 ++ t_link ++ t_close
    /\ Forall (permits opens_labyrinth) t_open
    /\ Forall (permits deleting) t_del
    /\ Forall (permits creating) t_new
    /\ Forall (permits updating) t_upd
    /\ Forall (permits linking) t_link
    /\ Forall (only Logout) t_close.
Proof.
  intros _. unfold Main.main. destruct (session w) as [[c|e|code] w1] eqn:Es; intros H;
    apply session_phased in Es
      as (rp & ? & E & t1 & ? & -> & H1 & t2 & ? & -> & H2 & t3 & ? & -> & H3
          & t4 & ? & -> & H4 & t5 & ? & -> & H5 & ->);
    rewrite app_nil_r in E; exists rp, t1, t2, t3, t4, t5.
  - follow (only Logout) H; [frame|]. destruct C as (t6 & E6 & H6).
    exists t6. rewrite E6, E, <-!app_assoc. cbn. by rewrite <-!app_assoc.
  - follow (only Logout) H; [frame|]. destruct C as (t6 & E6 & H6).
    exists t6. rewrite E6, E, <-!app_assoc. cbn. by rewrite <-!app_assoc.
  - injection H as <- <-. exists []. rewrite app_nil_r. by rewrite E.
Qed.

(** X3.  The session bracket.  Every run of [main] begins with a login
    attempt.  The logout is called exactly when the session (the [try]
    block) has completed, and it is then the last event of the run; the
    run returns when the logout returns and fails with the error of the
    logout when that raises.  A run that ends by [process.exit] (the
    validation gate, or the [catch] block after any error) never calls the
    logout: the exit pre-empts the [finally] block.  (For the folders of
    [Scope.plain].) *)
Theorem main_session_bracket w r w' :
  Scope.plain (disk w) ->
  main w = (r, w') ->
  exists rp t,
    trace w' = trace w ++ Called Login rp :: t
    /\ match r with
       | Ok _ => exists t0 v, t = t0 ++ [Called Logout (Returned v)] /\ (Logout ∉ calls t0)
       | Throw e =>
           exists t0 message,
             t = t0 ++ [Called Logout (Raised message)] /\ (Logout ∉ calls t0)
             /\ e = Err message
       | Exit _ => Logout ∉ calls t
       end.
Proof.
  intros _. unfold Main.main. destruct (session w) as [[c|e|code] w1] eqn:Es; intros H;
    apply session_phased in Es as (rp & t & E & Ht%phases_without_logout);
    exists rp.
  - unfold bind, call in H. destruct (site Logout (remote w1)) as [[v|message] remote'];
      injection H as <- <-; cbn [trace]; rewrite E, <-app_assoc; cbn;
      eexists; (split; [reflexivity|]); eauto.
  - unfold bind, logError, modify, exit in H. injection H as <- <-. cbn [trace].
    by exists t.
  - injection H as <- <-. by exists t.
Qed.

End Run.

(** The first run of the two-page example, cut into its phases. *)
Lemma main_phase_order_witness :
  exists rp t_open t_del t_new t_upd t_link t_close,
    trace Example.ab_done
      = [] ++ Called Login rp :: t_open ++ t_del ++ t_new ++ t_upd ++ t_link ++ t_close
    /\ Forall (permits opens_labyrinth) t_open
    /\ Forall (permits deleting) t_del
    /\ Forall (permits creating) t_new
    /\ Forall (permits updating) t_upd
    /\ Forall (permits linking) t_link
    /\ Forall (only Logout) t_close.
Proof.
  apply (main_phase_order Example.site Example.imageRefs Example.replaceLocalImages
           Example.joinContentPath (Example.world Example.tree_ab Example.site0)
           (Ok Example.ab_counts) Example.ab_done).
  - apply (bool_decide_unpack _). vm_compute. reflexivity.
  - vm_compute. reflexivity.
Defined.

(** The first run of the two-page example logs in first and logs out
    last. *)
Lemma main_session_bracket_witness :
  exists rp t,
    trace Example.ab_done = [] ++ Called Login rp :: t
    /\ exists t0 v, t = t0 ++ [Called Logout (Returned v)] /\ (Logout ∉ calls t0).
Proof.
  apply (main_session_bracket Example.site Example.imageRefs Example.replaceLocalImages
           Example.joinContentPath (Example.world Example.tree_ab Example.site0)
           (Ok Example.ab_counts) Example.ab_done).
  - apply (bool_decide_unpack _). vm_compute. reflexivity.
  - vm_compute. reflexivity.
Defined.

End PhaseFacts.

(** ** The labyrinth step *)

Module LabyrinthFacts.
Import Json States PageData Images Main Observe Attempts.
Import RunFacts WorldFacts StepFacts CallFacts DeleteFacts PhaseFacts.

Section Run.
Context {R : Type}.
Variable site : Call -> R -> reply * R.
Variable joinContentPath : string -> string.
Implicit Types (w : World R).

Abbreviation syncLabyrinth := (syncLabyrinth site joinContentPath).

Lemma attempts_refl c n w : attempts c n w w.
Proof. exists []. rewrite app_nil_r. split_and!; [done|done|cbn; lia]. Qed.

Lemma attempts_trans c n1 n2 w w1 w' :
  attempts c n1 w w1 -> attempts c n2 w1 w' -> attempts c (n1 + n2) w w'.
Proof.
  intros (t1 & E1 & F1 & L1) (t2 & E2 & F2 & L2). exists (t1 ++ t2).
  rewrite E2, E1, <-app_assoc, calls_app, length_app.
  split_and!; [done|by apply Forall_app|lia].
Qed.

Lemma attempts_same_trace c n w w' : trace w' = trace w -> attempts c n w w'.
Proof. intros E. exists []. rewrite app_nil_r. split_and!; [done|done|cbn; lia]. Qed.

(** The retry loop invokes its operation at most [todo] times. *)
Lemma retry_loop_attempts {A} (fn : M (World R) A) c :
  (forall w r w', fn w = (r, w') -> attempts c 1 w w') ->
  forall todo maxRetries attempt lastError w r w',
    Retry.withRetry_loop sleep fn maxRetries todo attempt lastError w = (r, w') ->
    attempts c todo w w'.
Proof.
  intros Hfn. induction todo as [|todo IH]; intros maxRetries attempt lastError w r w';
    cbn [Retry.withRetry_loop].
  - intros [= <- <-]. apply attempts_refl.
  - unfold try_catch. destruct (fn w) as [[a|e|code] w1] eqn:E; apply Hfn in E.
    + intros [= <- <-]. destruct E as (t & ? & ? & ?). exists t. split_and!; [done..|lia].
    + intros H. change (S todo) with (1 + todo). eapply attempts_trans; [exact E|].
      apply bind_inv in H as [(retryable & w2 & H1 & H)|[(e' & H1 & _)|(c' & H1 & _)]].
      * assert (w2 = w1) as ->.
        { unfold Retry.isRetryableError, ret, throw in H1. by destruct e; simplify_eq. }
        destruct (negb retryable || _).
        { injection H as <- <-. apply attempts_refl. }
        apply bind_inv in H as [([] & w3 & H2 & H)|[(e' & H2 & _)|(c' & H2 & _)]];
          try discriminate.
        apply sleep_ok in H2 as (_ & T & _). apply IH in H as (t & Et & Ft & Lt).
        exists (Waited (Retry.delayMs * attempt) :: t). rewrite Et, T, <-app_assoc.
        split_and!; [done|by constructor|done].
      * apply attempts_same_trace.
        unfold Retry.isRetryableError, ret, throw in H1. by destruct e; simplify_eq.
      * unfold Retry.isRetryableError, ret, throw in H1. by destruct e; simplify_eq.
    + intros [= <- <-]. destruct E as (t & ? & ? & ?). exists t. split_and!; [done..|lia].
Qed.

Lemma call_attempts c w r w' : call site c w = (r, w') -> attempts c 1 w w'.
Proof.
  unfold call. destruct (site c (remote w)) as [rp remote']. intros H.
  exists [Called c rp]. destruct rp; simplify_eq; cbn; (split_and!; [done|by repeat constructor|lia]).
Qed.

Lemma retried_attempts c w r w' : retried site c w = (r, w') -> attempts c 3 w w'.
Proof.
  unfold retried, Retry.withRetry. apply retry_loop_attempts. intros ???. apply call_attempts.
Qed.

Lemma createLabyrinth_attempts config w r w' :
  createLabyrinth site config w = (r, w') -> attempts (CreateLabyrinth config) 1 w w'.
Proof.
  unfold createLabyrinth. destruct (negb _).
  { intros [= <- <-]. apply attempts_refl. }
  intros H. apply bind_inv in H as [(v & w1 & H1 & H)|[(e & H1 & _)|(c & H1 & _)]].
  - apply call_attempts in H1. destruct (value_string v); injection H as <- <-; done.
  - by apply call_attempts in H1.
  - by apply call_attempts in H1.
Qed.

(** X4.  Step 2 of a run, whatever its outcome, makes at most three
    calls (the retries of one operation) and they are decided by
    [labyrinth.meta] alone: the creation of the labyrinth from
    [labyrinth.json] when the meta file is missing or records no id; the
    update of the recorded labyrinth when the fingerprint it records is not
    the current one (or none is recorded); no call at all, and no write,
    when the recorded fingerprint is current. *)
Theorem labyrinth_step w r w' :
  syncLabyrinth w = (r, w') ->
  let d := disk w in
  let labyMeta := default emptyLabyMeta (labyMetaFile d) in
  match Laby.computeLabyrinthHash joinContentPath (config d) (assets d) with
  | Ok currentHash =>
      match lm_id labyMeta with
      | Some labyrinthId =>
          if Js.truthy_str labyrinthId then
            if bool_decide (lm_hash labyMeta = Some currentHash)
            then w' = w /\ r = Ok labyMeta
            else attempts (UpdateLabyrinth labyrinthId (config d)) 3 w w'
          else attempts (CreateLabyrinth (config d)) 3 w w'
      | None => attempts (CreateLabyrinth (config d)) 3 w w'
      end
  | _ => trace w' = trace w
  end.
Proof.
  intros H d labyMeta. unfold Main.syncLabyrinth in H.
  apply bind_inv in H as [(d' & w0 & Hr & H)|[(e & Hr & _)|(c & Hr & _)]];
    [|by apply readDisk_ok in Hr as [? _]..].
  apply readDisk_ok in Hr as [Hd ->]. injection Hd as ->. cbv zeta in H.
  fold d in H. fold labyMeta in H.
  apply bind_inv in H as [([] & w1 & H1 & H)|[(e & H1 & _)|(c & H1 & _)]].
  2,3: destruct (labyMetaFile d); [done|by apply deleteMetas_ok in H1 as (? & _)].
  assert (T1 : trace w1 = trace w /\ (is_Some (labyMetaFile d) -> w1 = w)).
  { destruct (labyMetaFile d) as [lm0|].
    - by injection H1 as <-.
    - apply deleteMetas_ok in H1 as (_ & T & _). split; [done|]. by intros [? ?]. }
  destruct T1 as [T1 Same]. clear H1.
  apply bind_inv in H as [(h & w2 & Hl & H)|[(e & Hl & _)|(c & Hl & _)]].
  2,3: apply lift_ok in Hl as [<- ->]; done.
  apply lift_ok in Hl as [<- ->].
  assert (Shift : forall c n, attempts c n w1 w' -> attempts c n w w').
  { intros c n (t & E & F & L). exists t. by rewrite E, T1. }
  destruct (lm_id labyMeta) as [labyrinthId|] eqn:Eid; cbn [Js.truthy_ostr negb] in H.
  - destruct (Js.truthy_str labyrinthId) eqn:Et; cbn [negb] in H.
    + assert (w1 = w) as ->.
      { apply Same. unfold labyMeta in Eid. by destruct (labyMetaFile d). }
      destruct (bool_decide (lm_hash labyMeta = Some h)); cbn [negb] in H.
      * by injection H as <- <-.
      * cbn [default] in H.
        apply bind_inv in H as [(v & w3 & H3 & H)|[(e & H3 & _)|(c & H3 & _)]];
          [|by apply retried_attempts in H3..].
        apply retried_attempts in H3.
        apply bind_inv in H as [([] & w4 & (_ & T4 & _)%writeDisk_ok & H)|
                                [(e & (? & _)%writeDisk_ok & _)|(c & (? & _)%writeDisk_ok & _)]];
          [|done..].
        injection H as <- <-. destruct H3 as (t & E & F & L). exists t. by rewrite T4.
    + apply Shift.
      apply bind_inv in H as [(v & w3 & H3 & H)|[(e & H3 & _)|(c & H3 & _)]].
      * eapply retry_loop_attempts in H3; [|apply createLabyrinth_attempts].
        apply bind_inv in H as [([] & w4 & (_ & T4 & _)%writeDisk_ok & H)|
                                [(e & (? & _)%writeDisk_ok & _)|(c & (? & _)%writeDisk_ok & _)]];
          [|done..].
        injection H as <- <-. destruct H3 as (t & E & F & L). exists t. by rewrite T4.
      * eapply retry_loop_attempts in H3; [done|apply createLabyrinth_attempts].
      * eapply retry_loop_attempts in H3; [done|apply createLabyrinth_attempts].
  - apply Shift.
    apply bind_inv in H as [(v & w3 & H3 & H)|[(e & H3 & _)|(c & H3 & _)]].
    + eapply retry_loop_attempts in H3; [|apply createLabyrinth_attempts].
      apply bind_inv in H as [([] & w4 & (_ & T4 & _)%writeDisk_ok & H)|
                              [(e & (? & _)%writeDisk_ok & _)|(c & (? & _)%writeDisk_ok & _)]];
        [|done..].
      injection H as <- <-. destruct H3 as (t & E & F & L). exists t. by rewrite T4.
    + eapply retry_loop_attempts in H3; [done|apply createLabyrinth_attempts].
    + eapply retry_loop_attempts in H3; [done|apply createLabyrinth_attempts].
Qed.

End Run.

(** The example tree has no [labyrinth.meta]: the step creates the
    labyrinth, in at most three attempts. *)
Lemma labyrinth_step_witness :
  attempts (CreateLabyrinth Example.config0) 3
    (Example.world Example.tree_ab Example.site0) Sample.ab_sync.2.
Proof.
  assert (Hh : Laby.computeLabyrinthHash Example.joinContentPath Example.config0 ∅
               = Ok Sample.ab_fingerprint) by (vm_compute; reflexivity).
  assert (Hs : Main.syncLabyrinth Example.site Example.joinContentPath
                 (Example.world Example.tree_ab Example.site0)
               = (Sample.ab_sync.1, Sample.ab_sync.2)) by (vm_compute; reflexivity).
  pose proof (labyrinth_step Example.site Example.joinContentPath
                (Example.world Example.tree_ab Example.site0)
                Sample.ab_sync.1 Sample.ab_sync.2 Hs) as X.
  cbv zeta in X.
  change (config (disk (Example.world Example.tree_ab Example.site0)))
    with Example.config0 in X.
  change (assets (disk (Example.world Example.tree_ab Example.site0)))
    with (∅ : gmap string string) in X.
  rewrite Hh in X. exact X.
Defined.

End LabyrinthFacts.

(** ** The link phase *)

Module LinkTargetFacts.
Import Json States PageData Images Main Observe Links.
Import RunFacts WorldFacts StepFacts ListFacts ObjFacts CallFacts UpdateFacts LinkFacts.
Import DictFacts.

(** *** The connections the link phase computes *)

Section Scan.
Variable plan : Plan.
Variable pageIdMap : JsObject.obj string.
Implicit Types (connections : JsObject.obj (list Source)).

Abbreviation newPageIds := (newPageIdsOf plan pageIdMap).

Lemma sound_nil : sound [].
Proof. split; [constructor|done]. Qed.

Lemma addConnection_sound target src connections :
  sound connections -> sound (addConnection target src connections).
Proof.
  intros [N E]. unfold addConnection. split; [by apply set_NoDup|].
  intros t l. rewrite get_set. destruct (String.eqb t target).
  - intros [= <-]. by destruct (default [] _).
  - apply E.
Qed.

Lemma addConnection_sources target src connections t :
  default [] (JsObject.get t (addConnection target src connections))
  = default [] (JsObject.get t connections) ++ (if String.eqb t target then [src] else []).
Proof.
  unfold addConnection. rewrite get_set. destruct (String.eqb t target) eqn:E.
  - by apply String.eqb_eq in E as ->.
  - by rewrite app_nil_r.
Qed.

Lemma scanAnswers_spec name fromPageId answers : forall connections idx result,
  scanAnswers plan pageIdMap newPageIds name fromPageId connections idx answers = Ok result ->
  (sound connections -> sound result)
  /\ forall target src,
       src ∈ default [] (JsObject.get target result) <->
       src ∈ default [] (JsObject.get target connections)
       \/ exists k ans,
            answers !! k = Some ans
            /\ targetOf pageIdMap ans = Some target
            /\ (target ∈ newPageIds \/ name ∈ newPages plan \/ name ∈ updatedPages plan)
            /\ src = {| fromPageId := fromPageId; answerIndex := S (idx + k);
                        fromName := name; src_answer := prop "answer" ans |}.
Proof.
  induction answers as [|ans answers IH]; intros connections idx result; cbn [scanAnswers].
  - intros [= <-]. split; [done|]. intros target src. split; [by left|].
    intros [?|(k & a & H & _)]; [done|]. by rewrite lookup_nil in H.
  - destruct (scanAnswer plan pageIdMap newPageIds name fromPageId connections idx ans)
      as [connections'| |] eqn:E; [|done..].
    intros H. apply IH in H as [S1 H]. unfold scanAnswer in E.
    assert (Step :
      (sound connections -> sound connections')
      /\ forall target src,
           src ∈ default [] (JsObject.get target connections') <->
           src ∈ default [] (JsObject.get target connections)
           \/ (targetOf pageIdMap ans = Some target
               /\ (target ∈ newPageIds \/ name ∈ newPages plan \/ name ∈ updatedPages plan)
               /\ src = {| fromPageId := fromPageId; answerIndex := S idx;
                           fromName := name; src_answer := prop "answer" ans |})).
    { assert (Same : connections' = connections ->
                (targetOf pageIdMap ans = None
                 \/ exists t, targetOf pageIdMap ans = Some t
                      /\ ~ (t ∈ newPageIds \/ name ∈ newPages plan \/ name ∈ updatedPages plan)) ->
                (sound connections -> sound connections')
                /\ forall target src,
                     src ∈ default [] (JsObject.get target connections') <->
                     src ∈ default [] (JsObject.get target connections)
                     \/ (targetOf pageIdMap ans = Some target
                         /\ (target ∈ newPageIds \/ name ∈ newPages plan
                             \/ name ∈ updatedPages plan)
                         /\ src = {| fromPageId := fromPageId; answerIndex := S idx;
                                     fromName := name; src_answer := prop "answer" ans |})).
      { intros -> Hno. split; [done|]. intros target src. split; [by left|].
        intros [?|(Ht & Hq & _)]; [done|]. destruct Hno as [Hno|(t & Hno & Hq')]; [congruence|].
        assert (t = target) as -> by congruence. done. }
      destruct ans; try done;
        (destruct (targetOf pageIdMap _) as [t|] eqn:Et;
         [|injection E as <-; apply Same; [done|by left]]);
        (destruct (bool_decide (t ∈ newPageIds)
                   || (bool_decide (name ∈ newPages plan)
                       || bool_decide (name ∈ updatedPages plan))) eqn:Eq;
         [|injection E as <-; apply Same; [done|]; right; exists t; split; [done|];
           apply orb_false_iff in Eq as [Q1 Q2]; apply orb_false_iff in Q2 as [Q2 Q3];
           apply bool_decide_eq_false in Q1, Q2, Q3; tauto]);
        injection E as <-;
        (split; [by apply addConnection_sound|]);
        intros target src; rewrite addConnection_sources, elem_of_app;
        (assert (Q : t ∈ newPageIds \/ name ∈ newPages plan \/ name ∈ updatedPages plan)
           by (apply orb_true_iff in Eq as [Q1|Q2];
               [left; by apply bool_decide_eq_true in Q1|];
               apply orb_true_iff in Q2 as [Q2|Q3];
               [right; left; by apply bool_decide_eq_true in Q2
               |right; right; by apply bool_decide_eq_true in Q3]));
        (destruct (String.eqb target t) eqn:Ett;
         [apply String.eqb_eq in Ett as ->; rewrite list_elem_of_singleton;
          split; [intros [?| ->]; [by left|by right]|intros [?|(_ & _ & ->)]; [by left|by right]]
         |apply String.eqb_neq in Ett; split;
          [intros [?|Hn]; [by left|by apply elem_of_nil in Hn]
          |intros [?|(Ht & _)]; [by left|congruence]]]). }
    destruct Step as [S0 Step]. split; [by intros ?%S0%S1|].
    intros target src. rewrite H, Step. split.
    + intros [[?|(Ht & Hq & ->)]|(k & a & Hk & Ht & Hq & ->)].
      * by left.
      * right. exists 0, ans. rewrite Nat.add_0_r. by split_and!.
      * right. exists (S k), a. rewrite <-Nat.add_succ_comm. by split_and!.
    + intros [?|(k & a & Hk & Ht & Hq & ->)]; [by left; left|].
      destruct k as [|k]; cbn in Hk.
      * injection Hk as <-. left; right. rewrite Nat.add_0_r. by split_and!.
      * right. exists k, a. rewrite <-Nat.add_succ_comm. by split_and!.
Qed.

Lemma scanPages_spec entries : forall connections result,
  scanPages plan pageIdMap newPageIds entries connections = Ok result ->
  (sound connections -> sound result)
  /\ forall target src,
       src ∈ default [] (JsObject.get target result) <->
       src ∈ default [] (JsObject.get target connections)
       \/ (exists pageInfo answers idx ans,
             (fromName src, pageInfo) ∈ entries
             /\ pm_id (pi_meta pageInfo) = Some (fromPageId src)
             /\ Js.truthy_str (fromPageId src) = true
             /\ answersOf (pi_json pageInfo) = Ok answers
             /\ answers !! idx = Some ans
             /\ answerIndex src = S idx
             /\ src_answer src = prop "answer" ans
             /\ targetOf pageIdMap ans = Some target)
          /\ qualifies plan pageIdMap target src.
Proof.
  induction entries as [|[name pageInfo] entries IH]; intros connections result;
    cbn [scanPages].
  - intros [= <-]. split; [done|]. intros target src. split; [by left|].
    intros [?|[(? & ? & ? & ? & H & _) _]]; [done|]. by apply elem_of_nil in H.
  - assert (Skip :
      (pm_id (pi_meta pageInfo) = None
       \/ exists i, pm_id (pi_meta pageInfo) = Some i /\ Js.truthy_str i = false) ->
      scanPages plan pageIdMap newPageIds entries connections = Ok result ->
      (sound connections -> sound result)
      /\ forall target src,
           src ∈ default [] (JsObject.get target result) <->
           src ∈ default [] (JsObject.get target connections)
           \/ (exists pageInfo0 answers idx ans,
                 (fromName src, pageInfo0) ∈ (name, pageInfo) :: entries
                 /\ pm_id (pi_meta pageInfo0) = Some (fromPageId src)
                 /\ Js.truthy_str (fromPageId src) = true
                 /\ answersOf (pi_json pageInfo0) = Ok answers
                 /\ answers !! idx = Some ans
                 /\ answerIndex src = S idx
                 /\ src_answer src = prop "answer" ans
                 /\ targetOf pageIdMap ans = Some target)
              /\ qualifies plan pageIdMap target src).
    { intros Hno H. apply IH in H as [S1 H]. split; [done|].
      intros target src. rewrite H. split.
      - intros [?|[(p & a & k & x & Hin & Hrest) Hq]]; [by left|]. right. split; [|done].
        exists p, a, k, x. split; [by right|done].
      - intros [?|[(p & a & k & x & Hin & Hid & Ht & Hrest) Hq]]; [by left|].
        apply elem_of_cons in Hin as [[= _ ->]|Hin].
        + destruct Hno as [Hno|(i & Hi & Hf)]; congruence.
        + right. split; [|done]. by exists p, a, k, x. }
    destruct (pm_id (pi_meta pageInfo)) as [fromId|] eqn:Eid; [|apply Skip; by left].
    destruct (Js.truthy_str fromId) eqn:Et; [|apply Skip; right; by exists fromId].
    clear Skip.
    destruct (answersOf (pi_json pageInfo)) as [answers| |] eqn:Ea; [|done..].
    destruct (scanAnswers plan pageIdMap newPageIds name fromId connections 0 answers)
      as [connections'| |] eqn:Es; [|done..].
    intros H. apply IH in H as [S1 H]. apply scanAnswers_spec in Es as [S0 Es].
    split; [by intros ?%S0%S1|].
    intros target src. rewrite H, Es. split.
    + intros [[?|(k & x & Hk & Hx & Hq & ->)]|[(p & a & k & x & Hin & Hrest) Hq]].
      * by left.
      * right. split; [|done]. exists pageInfo, answers, k, x. cbn.
        split_and!; try done. left.
      * right. split; [|done]. exists p, a, k, x. split; [by right|done].
    + intros [?|[(p & a & k & x & Hin & Hid & Ht & Ha & Hk & Hi & Hs & Hx) Hq]];
        [by left; left|].
      apply elem_of_cons in Hin as [[= Hn ->]|Hin].
      * left; right. exists k, x. rewrite Ea in Ha. injection Ha as <-.
        split_and!; try done; [by rewrite <-Hn|].
        destruct src as [f i n s0]. cbn in *. congruence.
      * right. split; [|done]. by exists p, a, k, x.
Qed.


End Scan.

Section Run.
Context {R : Type}.
Variable site : Call -> R -> reply * R.
Implicit Types (w : World R) (v : Vars) (plan : Plan).

Lemma connects_answered sources : forall acc w acc' w',
  fold_each sources (connectOne site) acc w = (Ok acc', w') ->
  exists t, trace w' = trace w ++ t
            /\ (answered t).*1
               = (fun src => SetParentConnection (fromPageId src) (answerIndex src))
                   <$> sources.
Proof.
  induction sources as [|src sources IH]; intros acc w acc' w'; cbn [fold_each].
  - intros [= <- <-]. exists []. by rewrite app_nil_r.
  - intros (acc1 & w1 & H1 & (t & E & A)%IH)%bind_ok.
    unfold connectOne in H1. destruct acc as [ok v].
    apply bind_ok in H1 as (success & w2 & (T & _)%call_ok & H1).
    assert (w1 = w2) as -> by (destruct (truthy_value success); by injection H1).
    eexists. rewrite E, T, <-app_assoc. split; [done|].
    rewrite answered_app, fmap_app, A. done.
Qed.

Lemma linkOne_answered labyrinthId pageIdMap connections v target w v' w' :
  linkOne site labyrinthId pageIdMap connections v target w = (Ok v', w') ->
  exists t, trace w' = trace w ++ t
            /\ (answered t).*1 = linkCalls labyrinthId pageIdMap connections (pages v) target.
Proof.
  unfold linkOne, linkCalls.
  intros (? & w1 & (t1 & E1 & A1 & _)%retried_ok & H)%bind_ok.
  apply bind_ok in H as (? & w2 & (E2 & _)%call_ok & H).
  apply bind_ok in H as ([ok v1] & w3 & H3 & H).
  apply connects_ok in H3 as G. destruct G as (_ & G & _). cbn in G.
  apply connects_answered in H3 as (t3 & E3 & A3).
  apply bind_ok in H as ([] & w4 & H4 & H).
  apply bind_ok in H as (? & w5 & (t5 & E5 & A5 & _)%retried_ok & H).
  apply bind_ok in H as ([] & w6 & (_ & E6 & _)%sleep_ok & [= <- <-]).
  rewrite G in H4.
  assert (exists t4, trace w4 = trace w3 ++ t4
            /\ (answered t4).*1
               = match JsObject.get (targetNameOf pageIdMap target) (pages v) with
                 | Some pageInfo =>
                     match pi_finalHtml pageInfo with
                     | Some finalHtml =>
                         if Js.truthy_str finalHtml then [SetEditorContent finalHtml] else []
                     | None => []
                     end
                 | None => []
                 end) as (t4 & E4 & A4).
  { destruct (JsObject.get (targetNameOf pageIdMap target) (pages v)) as [p|];
      [destruct (pi_finalHtml p) as [h|]; [destruct (Js.truthy_str h)|]|].
    - apply bind_ok in H4 as (? & w' & (E4 & _)%call_ok & [= <-]). by eexists.
    - injection H4 as <-. exists []. by rewrite app_nil_r.
    - injection H4 as <-. exists []. by rewrite app_nil_r.
    - injection H4 as <-. exists []. by rewrite app_nil_r. }
  eexists. rewrite E6, E5, E4, E3, E2, E1, <-!app_assoc. split; [done|].
  rewrite !answered_app, !fmap_app, A1, A3, A4, A5. done.
Qed.

(** X6.  Clear, then set.  In a link phase that completes, the calls the
    site answers are, for each target of [connections] in the enumeration
    order of the object: open the edit form of the target, untick every
    predecessor, tick the predecessor of each collected answer in scan
    order, put the final content back when the run has one for the page,
    and save.  Nothing else is asked of the site, and the pages and the
    list of page ids of the run are not touched. *)
Theorem linkPhase_clear_then_set labyrinthId pageIdMap plan v w v' w' :
  linkPhase site labyrinthId pageIdMap plan v w = (Ok v', w') ->
  exists connections t,
    connectionsOf plan pageIdMap (pages v) = Ok connections
    /\ trace w' = trace w ++ t
    /\ (answered t).*1
       = concat (linkCalls labyrinthId pageIdMap connections (pages v)
                   <$> JsObject.keys connections)
    /\ pages v' = pages v /\ pageIds v' = pageIds v /\ disk w' = disk w.
Proof.
  intros H. apply linkPhase_ok in H as G. destruct G as (D & P & G & _).
  unfold linkPhase in H. apply bind_ok in H as (connections & w1 & Hl & H).
  apply lift_ok in Hl as [Hc ->]. exists connections.
  cut (exists t, trace w' = trace w ++ t
         /\ (answered t).*1
            = concat (linkCalls labyrinthId pageIdMap connections (pages v)
                        <$> JsObject.keys connections)).
  { intros (t & E & A). exists t. by split_and!. }
  clear Hc D P G. revert v w H.
  induction (JsObject.keys connections) as [|target targets IH]; intros v w;
    cbn [fold_each].
  - intros [= <- <-]. exists []. by rewrite app_nil_r.
  - intros (v1 & w1 & H1 & H)%bind_ok.
    apply linkOne_ok in H1 as G. destruct G as (_ & G & _).
    apply linkOne_answered in H1 as (t1 & E1 & A1).
    apply IH in H as (t & E & A). exists (t1 ++ t).
    rewrite E, E1, <-app_assoc. split; [done|].
    rewrite answered_app, fmap_app, A1, A, G. done.
Qed.

End Run.


(** The link phase on them asks for the edit form of page 102, unticks,
    ticks the one predecessor, restores the content and saves. *)
Lemma linkPhase_clear_then_set_witness :
  exists connections t,
    connectionsOf Sample.linked_plan Sample.linked_map (pages Sample.linked_vars)
      = Ok connections
    /\ trace Sample.linked_run.2 = trace (Example.again Example.ab_done) ++ t
    /\ (answered t).*1
       = concat (linkCalls "7199" Sample.linked_map connections (pages Sample.linked_vars)
                   <$> JsObject.keys connections)
    /\ pages Sample.linked_vars' = pages Sample.linked_vars
    /\ pageIds Sample.linked_vars' = pageIds Sample.linked_vars
    /\ disk Sample.linked_run.2 = disk (Example.again Example.ab_done).
Proof.
  apply (linkPhase_clear_then_set Example.site "7199" Sample.linked_map
           Sample.linked_plan Sample.linked_vars (Example.again Example.ab_done)
           Sample.linked_vars' Sample.linked_run.2).
  vm_compute. reflexivity.
Defined.

End LinkTargetFacts.

(** ** The plan is safe *)

Module PlanSafety.
Import Json States PageData Images Main Observe.
Import RunFacts WorldFacts StepFacts ListFacts ObjFacts StatesFacts IdFacts PlanFacts.
Import PreparedFacts KeptFacts.

Section Determine.
Variables htmlNames jsonNames metaNames pageIds : list string.
Variable metas : gmap string PageMeta.

Abbreviation states := (determinePageStates htmlNames jsonNames metaNames pageIds metas).

Lemma normal_files n :
  n ∈ normal states -> n ∈ htmlNames /\ n ∈ jsonNames /\ n ∈ metaNames.
Proof.
  intros [Hh Hc]%normal_elem. unfold isNormal, has in Hc.
  apply andb_prop in Hc as [Hc _]. apply andb_prop in Hc as [Hc _].
  apply andb_prop in Hc as [Hj Hm]. apply bool_decide_eq_true in Hj, Hm. done.
Qed.

Lemma newPages_files n :
  n ∈ new states ++ (pageIds_missing states).*1 -> n ∈ htmlNames /\ n ∈ jsonNames.
Proof.
  intros [[Hh Hc]%new_elem|[Hh Hc]%missing_names]%elem_of_app; (split; [done|]).
  - unfold isNew, has in Hc. apply andb_prop in Hc as [Hc _].
    by apply bool_decide_eq_true in Hc.
  - unfold isMissing, has in Hc. apply andb_prop in Hc as [Hc _].
    apply andb_prop in Hc as [Hc _]. apply andb_prop in Hc as [Hc _].
    by apply bool_decide_eq_true in Hc.
Qed.

(** X7.  The plan handles a page in one way at most.  For the plan
    [main] computes from the classification of the folder: no page is
    scheduled twice for creation or twice for update; the pages to create,
    the pages to update and the unchanged pages are pairwise disjoint; all
    of them have both their [.html] and their [.json] file, and none of
    them has its meta file scheduled for removal; and every page with both
    files is in one of the three lists, unless its meta file exists and
    records no id. *)
Theorem plan_partition loaded plan prepared :
  NoDup htmlNames ->
  makePlan states pageIds loaded = Ok (plan, prepared) ->
  NoDup (newPages plan) /\ NoDup (updatedPages plan)
  /\ (forall n, n ∈ newPages plan -> (n ∉ updatedPages plan) /\ (n ∉ unchangedPages plan))
  /\ (forall n, n ∈ updatedPages plan -> n ∉ unchangedPages plan)
  /\ (forall n, n ∈ newPages plan \/ n ∈ updatedPages plan \/ n ∈ unchangedPages plan ->
        n ∈ htmlNames /\ n ∈ jsonNames /\ (n ∉ metasToDelete plan))
  /\ (forall n, n ∈ htmlNames -> n ∈ jsonNames ->
        n ∈ newPages plan \/ n ∈ updatedPages plan \/ n ∈ unchangedPages plan
        \/ (n ∈ metaNames /\ Js.truthy_ostr (metaIdOf metas n) = false)).
Proof.
  intros Hnd (upd & unch & Hs & _ & ->)%makePlan_ok.
  cbn [newPages updatedPages unchangedPages metasToDelete].
  apply splitNormal_ok in Hs as (Hex & Hu & Hc & Hn).
  assert (Hu' : forall n, n ∈ upd -> n ∈ normal states
                  /\ exists p, JsObject.get n loaded = Some p
                               /\ pm_hash (pi_meta p) <> Some (pi_hash p)).
  { intros n [[]%elem_of_nil|?]%Hu. done. }
  assert (Hc' : forall n, n ∈ unch -> n ∈ normal states
                  /\ exists p, JsObject.get n loaded = Some p
                               /\ pm_hash (pi_meta p) = Some (pi_hash p)).
  { intros n [[]%elem_of_nil|?]%Hc. done. }
  split_and!.
  - by apply newPages_NoDup.
  - apply Hn; [|constructor|by intros n ?%elem_of_nil].
    rewrite determinePageStates_eq. cbn. by apply NoDup_filter.
  - intros n Hin. apply newPages_not_normal in Hin.
    split; [intros [? _]%Hu'|intros [? _]%Hc']; done.
  - intros n (_ & p & Hp & Hne)%Hu' (_ & q & Hq & He)%Hc'. congruence.
  - intros n Hin.
    assert (n ∈ htmlNames /\ n ∈ jsonNames) as [Hh Hj].
    { destruct Hin as [Hin|[[Hin _]%Hu'|[Hin _]%Hc']].
      - by apply newPages_files.
      - by apply normal_files in Hin as (? & ? & _).
      - by apply normal_files in Hin as (? & ? & _). }
    split_and!; [done..|]. intros [_ [?|?]]%metasToDelete_elem; done.
  - intros n Hh Hj.
    destruct (decide (n ∈ metaNames)) as [Hm|Hm].
    + destruct (Js.truthy_ostr (metaIdOf metas n)) eqn:Et; [|by right; right; right].
      destruct (inPageIdsOf pageIds (metaIdOf metas n)) eqn:Ei.
      * assert (Hnorm : n ∈ normal states).
        { apply normal_elem. split; [done|]. unfold isNormal, has.
          by rewrite Et, Ei, !bool_decide_true. }
        destruct (Hex n Hnorm) as [p Hp].
        destruct (decide (pm_hash (pi_meta p) = Some (pi_hash p))).
        -- right; right; left. apply Hc. right. split; [done|]. by exists p.
        -- right; left. apply Hu. right. split; [done|]. by exists p.
      * left. apply elem_of_app. right. apply missing_names. split; [done|].
        unfold isMissing, has. by rewrite Et, Ei, !bool_decide_true.
    + left. apply elem_of_app. left. apply new_elem. split; [done|].
      unfold isNew, has. by rewrite bool_decide_true, bool_decide_false.
Qed.


End Determine.

(** The tree whose only meta file records an id the labyrinth does not
    list: both pages are created again, and the recorded id is deleted. *)
Lemma plan_partition_witness :
  NoDup (newPages Sample.plan_ab) /\ NoDup (updatedPages Sample.plan_ab)
  /\ (forall n, n ∈ newPages Sample.plan_ab ->
        (n ∉ updatedPages Sample.plan_ab) /\ (n ∉ unchangedPages Sample.plan_ab))
  /\ (forall n, n ∈ updatedPages Sample.plan_ab -> n ∉ unchangedPages Sample.plan_ab)
  /\ (forall n, n ∈ newPages Sample.plan_ab \/ n ∈ updatedPages Sample.plan_ab
                \/ n ∈ unchangedPages Sample.plan_ab ->
        n ∈ Sample.names_ab /\ n ∈ Sample.names_ab /\ (n ∉ metasToDelete Sample.plan_ab))
  /\ (forall n, n ∈ Sample.names_ab -> n ∈ Sample.names_ab ->
        n ∈ newPages Sample.plan_ab \/ n ∈ updatedPages Sample.plan_ab
        \/ n ∈ unchangedPages Sample.plan_ab
        \/ (n ∈ ["page/a"] /\ Js.truthy_ostr (metaIdOf Sample.metas_a n) = false)).
Proof.
  apply (plan_partition Sample.names_ab Sample.names_ab ["page/a"] [] Sample.metas_a
           Sample.loaded_ab Sample.plan_ab Sample.prepared_ab).
  - apply (bool_decide_unpack _). vm_compute. reflexivity.
  - vm_compute. reflexivity.
Defined.


End PlanSafety.

(** ** The state table *)

Module StateTable.
Import Json States PageData Images Main Observe.
Import ListFacts StatesFacts IdFacts PlanFacts PreparedFacts KeptFacts.

Section Determine.
Variables htmlNames jsonNames metaNames pageIds : list string.
Variable metas : gmap string PageMeta.

Abbreviation states := (determinePageStates htmlNames jsonNames metaNames pageIds metas).


End Determine.
End StateTable.

(** ** Page validation *)

Module ValidateFacts.
Import Json Validate Accepts.

Section Page.
Variable pageName : string.
Variable allPageNames : list string.

Lemma validateAnswer_spec errors i ans errors' :
  validateAnswer pageName allPageNames errors i ans = Ok errors' ->
  exists added, errors' = errors ++ added
                /\ (added = [] <-> answer_ok allPageNames ans).
Proof.
  unfold validateAnswer, answer_ok.
  assert (Next : forall es,
    exists added,
      match prop "next" ans with
      | Some next =>
          if truthy next && negb (includes_value allPageNames next)
          then es ++ [ tag pageName ("answers[" +:+ Js.dec i
                        +:+ "].next가 존재하지 않는 페이지를 참조합니다: "
                        +:+ Js.dq +:+ toString next +:+ Js.dq) ]
          else es
      | None => es
      end = es ++ added
      /\ (added = [] <->
          forall next, prop "next" ans = Some next -> truthy next = true ->
                       includes_value allPageNames next = true)).
  { intros es. destruct (prop "next" ans) as [next|].
    - destruct (truthy next) eqn:Et; cbn.
      + destruct (includes_value allPageNames next) eqn:Ei; cbn.
        * exists []. rewrite app_nil_r. split; [done|]. split; [|done].
          by intros _ n [= <-] _.
        * eexists. split; [done|]. split; [done|]. intros H.
          specialize (H next eq_refl Et). congruence.
      + exists []. rewrite app_nil_r. split; [done|]. split; [|done].
        intros _ n [= <-] ?. congruence.
    - exists []. rewrite app_nil_r. split; [done|]. split; [|done]. by intros _ n ?. }
  destruct (match ans with JNull => true | _ => false end) eqn:Enull.
  { by destruct ans. }
  intros H.
  assert (H' : match text_prop "answer" ans with
               | Falsy =>
                   Ok (match prop "next" ans with
                       | Some next =>
                           if truthy next && negb (includes_value allPageNames next)
                           then (errors ++ [tag pageName ("answers[" +:+ Js.dec i
                                              +:+ "].answer가 비어있습니다.")]) ++
                                [ tag pageName ("answers[" +:+ Js.dec i
                                   +:+ "].next가 존재하지 않는 페이지를 참조합니다: "
                                   +:+ Js.dq +:+ toString next +:+ Js.dq) ]
                           else errors ++ [tag pageName ("answers[" +:+ Js.dec i
                                              +:+ "].answer가 비어있습니다.")]
                       | None => errors ++ [tag pageName ("answers[" +:+ Js.dec i
                                              +:+ "].answer가 비어있습니다.")]
                       end)
               | Text txt =>
                   Ok (match prop "next" ans with
                       | Some next =>
                           if truthy next && negb (includes_value allPageNames next)
                           then (if JsString.blank txt
                                 then errors ++ [tag pageName ("answers[" +:+ Js.dec i
                                              +:+ "].answer가 비어있습니다.")]
                                 else errors) ++
                                [ tag pageName ("answers[" +:+ Js.dec i
                                   +:+ "].next가 존재하지 않는 페이지를 참조합니다: "
                                   +:+ Js.dq +:+ toString next +:+ Js.dq) ]
                           else (if JsString.blank txt
                                 then errors ++ [tag pageName ("answers[" +:+ Js.dec i
                                              +:+ "].answer가 비어있습니다.")]
                                 else errors)
                       | None => (if JsString.blank txt
                                  then errors ++ [tag pageName ("answers[" +:+ Js.dec i
                                              +:+ "].answer가 비어있습니다.")]
                                  else errors)
                       end)
               | NotText => Throw (typeError "ans.answer.trim is not a function")
               end = Ok errors').
  { by destruct ans. }
  clear H Enull.
  destruct (text_prop "answer" ans) as [|txt|] eqn:Ea; [| |done]; injection H' as <-.
  - destruct (Next (errors ++ [tag pageName ("answers[" +:+ Js.dec i
                                  +:+ "].answer가 비어있습니다.")])) as (added & -> & _).
    eexists. rewrite <-app_assoc. split; [done|].
    split; [done|]. by intros [(s' & ? & _) _].
  - destruct (JsString.blank txt) eqn:Eb.
    + destruct (Next (errors ++ [tag pageName ("answers[" +:+ Js.dec i
                                    +:+ "].answer가 비어있습니다.")])) as (added & -> & _).
      eexists. rewrite <-app_assoc. split; [done|].
      split; [done|]. intros [(s' & [= <-] & ?) _]. congruence.
    + destruct (Next errors) as (added & -> & Hn). exists added. split; [done|].
      rewrite Hn. split; [intros ?; split; [by exists txt|done]|by intros [_ ?]].
Qed.

Lemma validateAnswers_spec answers : forall errors i errors',
  validateAnswers pageName allPageNames errors i answers = Ok errors' ->
  exists added, errors' = errors ++ added
                /\ (added = [] <-> Forall (answer_ok allPageNames) answers).
Proof.
  induction answers as [|ans answers IH]; intros errors i errors'; cbn [validateAnswers].
  - intros [= <-]. exists []. by rewrite app_nil_r.
  - destruct (validateAnswer pageName allPageNames errors i ans) as [errors1| |] eqn:E;
      [|done..].
    apply validateAnswer_spec in E as (a1 & -> & H1).
    intros (a2 & -> & H2)%IH. exists (a1 ++ a2). rewrite app_assoc. split; [done|].
    rewrite Forall_cons, <-H1, <-H2. split.
    + by intros [-> ->]%app_eq_nil.
    + by intros [-> ->].
Qed.

Lemma title_part pageData errors :
  match text_prop "title" pageData with
  | Falsy => Ok [tag pageName "title 필드가 필요합니다."]
  | Text s =>
      if JsString.blank s then Ok [tag pageName "title 필드가 필요합니다."]
      else if (title_maxLength <? JsString.utf16_length s)%nat
      then Ok [tag pageName ("title이 " +:+ Js.dec title_maxLength +:+ "자를 초과합니다.")]
      else Ok []
  | NotText => Throw (typeError "pageData.title.trim is not a function")
  end = Ok errors ->
  errors = [] <->
  exists title, text_prop "title" pageData = Text title
                /\ JsString.blank title = false
                /\ JsString.utf16_length title <= title_maxLength.
Proof.
  destruct (text_prop "title" pageData) as [|title|]; [| |done].
  - intros [= <-]. split; [done|]. by intros (? & ? & _).
  - destruct (JsString.blank title) eqn:Eb.
    + intros [= <-]. split; [done|]. intros (? & [= <-] & ? & _). congruence.
    + destruct (title_maxLength <? JsString.utf16_length title)%nat eqn:El; intros [= <-].
      * split; [done|]. intros (? & [= <-] & _ & ?). apply Nat.ltb_lt in El. lia.
      * split; [|done]. intros _. exists title. apply Nat.ltb_ge in El. done.
Qed.

Lemma color_part pageData errors :
  exists added,
    match prop "background_color" pageData with
    | Some color =>
        if truthy color && negb (background_color_pattern (toString color))
        then errors ++
             [ tag pageName ("background_color 형식이 잘못되었습니다: " +:+ toString color
                             +:+ " (예: #000000)") ]
        else errors
    | None => errors
    end = errors ++ added
    /\ (added = [] <->
        forall color, prop "background_color" pageData = Some color -> truthy color = true ->
                      background_color_pattern (toString color) = true).
Proof.
  destruct (prop "background_color" pageData) as [color|].
  - destruct (truthy color) eqn:Et; cbn.
    + destruct (background_color_pattern (toString color)) eqn:Ep; cbn.
      * exists []. rewrite app_nil_r. split; [done|]. split; [|done]. by intros _ c [= <-] _.
      * eexists. split; [done|]. split; [done|]. intros H.
        specialize (H color eq_refl Et). congruence.
    + exists []. rewrite app_nil_r. split; [done|]. split; [|done].
      intros _ c [= <-] ?. congruence.
  - exists []. rewrite app_nil_r. split; [done|]. split; [|done]. by intros _ c ?.
Qed.

Lemma answers_part pageData errors errors' :
  match prop "answers" pageData with
  | Some (JArr answers) => validateAnswers pageName allPageNames errors 0 answers
  | _ => Ok errors
  end = Ok errors' ->
  exists added, errors' = errors ++ added
                /\ (added = [] <->
                    forall answers, prop "answers" pageData = Some (JArr answers) ->
                                    Forall (answer_ok allPageNames) answers).
Proof.
  destruct (prop "answers" pageData) as [[| | | |answers|]|];
    try (intros [= <-]; exists []; rewrite app_nil_r; split; [done|]; split; [|done];
         by intros _ a ?).
  intros (added & -> & H)%validateAnswers_spec. exists added. split; [done|].
  rewrite H. split; [by intros ? a [= <-]|]. intros Ha. by apply Ha.
Qed.

Lemma validatePageJson_iff pageData errors warnings :
  validatePageJson pageName allPageNames pageData = Ok (errors, warnings) ->
  errors = [] <-> page_ok allPageNames pageData.
Proof.
  unfold validatePageJson, page_ok. intros H.
  match type of H with
  | match ?X with Ok _ => _ | Throw _ => _ | Exit _ => _ end = _ =>
      destruct X as [e0| |] eqn:E0; [|done..]
  end.
  apply title_part in E0. cbv zeta in H.
  destruct (color_part pageData e0) as (c & Ec & Hc). rewrite Ec in H.
  match type of H with
  | match ?X with Ok _ => _ | Throw _ => _ | Exit _ => _ end = _ =>
      destruct X as [e2| |] eqn:E2; [|done..]
  end.
  apply answers_part in E2 as (a & -> & Ha). injection H as <- _.
  rewrite <-E0, <-Hc, <-Ha. split.
  - intros [[-> ->]%app_eq_nil ->]%app_eq_nil. done.
  - by intros (-> & -> & ->).
Qed.

(** X10.  When [validatePageJson] returns, its list of errors is empty
    exactly for a page whose title is a string that is not blank and has
    at most 100 UTF-16 units, whose [background_color], when truthy, reads
    as [#] and six hexadecimal digits, and each of whose answers (when
    [answers] is an array) has a text that is not blank and a [next] that
    is falsy or the name of a loaded page.  Nothing else makes a page
    invalid: [header_display] and [is_ending] only ever add warnings. *)
Theorem validatePageJson_valid pageData errors warnings :
  validatePageJson pageName allPageNames pageData = Ok (errors, warnings) ->
  errors = [] <-> page_ok allPageNames pageData.
Proof. exact (validatePageJson_iff pageData errors warnings). Qed.

End Page.

Lemma validateEach_concat names entries : forall accE accW errors warnings,
  validateEach names entries accE accW = Ok (errors, warnings) <->
  exists per,
    Forall2 (fun (e : string * json) r => validatePageJson e.1 names e.2 = Ok r) entries per
    /\ errors = accE ++ concat per.*1 /\ warnings = accW ++ concat per.*2.
Proof.
  induction entries as [|[name data] entries IH]; intros accE accW errors warnings;
    cbn [validateEach].
  - split.
    + intros [= <- <-]. exists []. cbn. rewrite !app_nil_r. by split_and!.
    + intros (per & ->%Forall2_nil_inv_l & -> & ->). cbn. by rewrite !app_nil_r.
  - split.
    + destruct (validatePageJson name names data) as [[es ws]| |] eqn:E; [|done..].
      intros (per & F & -> & ->)%IH. exists ((es, ws) :: per). cbn.
      rewrite !app_assoc. split_and!; [|done..]. by constructor.
    + intros (per & (r & per' & E & F & ->)%Forall2_cons_inv_l & -> & ->).
      cbn in E. rewrite E. destruct r as [es ws]. apply IH. exists per'. cbn.
      by rewrite !app_assoc.
Qed.

(** X11.  [validateAllPages] is the page-by-page validation and nothing
    more: it returns exactly when every page validates, the errors are
    the errors of the pages one after the other in the enumeration order
    of [pages] (likewise the warnings), and every page is checked against
    the names of all the pages, its own included.  So the list of errors
    is empty exactly when every page is acceptable on its own. *)
Theorem validateAllPages_concat entries :
  (forall errors warnings,
     validateAllPages entries = Ok (errors, warnings) <->
     exists per,
       Forall2 (fun (e : string * json) r => validatePageJson e.1 entries.*1 e.2 = Ok r)
               entries per
       /\ errors = concat per.*1 /\ warnings = concat per.*2)
  /\ (forall errors warnings,
        validateAllPages entries = Ok (errors, warnings) ->
        errors = [] <-> Forall (fun e : string * json => page_ok entries.*1 e.2) entries).
Proof.
  split.
  - intros errors warnings. unfold validateAllPages. by rewrite validateEach_concat.
  - intros errors warnings. unfold validateAllPages.
    intros (per & F & -> & _)%validateEach_concat.
    revert F. generalize (entries.*1). intros names F.
    induction F as [|[name data] [es ws] l per E F IH]; [done|].
    cbn in E. apply validatePageJson_iff in E. cbn.
    rewrite Forall_cons, <-E, <-IH. cbn. split.
    + by intros [-> ->]%app_eq_nil.
    + by intros [-> ->].
Qed.


(** Page A of the example is acceptable. *)
Lemma validatePageJson_valid_witness :
  @nil string = [] <-> page_ok ["page/a"; "page/b"] Example.pageA.
Proof.
  apply (validatePageJson_valid "page/a" ["page/a"; "page/b"] Example.pageA [] []).
  vm_compute. reflexivity.
Defined.

End ValidateFacts.

(** ** Images of a page *)

Module ScanFacts.
Import Images Observe RunFacts WorldFacts StepFacts ListFacts ObjFacts ImageFacts.

Lemma elem_of_uniq (l : list string) (x : string) : x ∈ uniq l <-> x ∈ l.
Proof.
  induction l as [|y l IH]; cbn [uniq]; [done|].
  rewrite !elem_of_cons, elem_of_bfilter, IH.
  destruct (String.eqb y x) eqn:E.
  - apply String.eqb_eq in E as ->. cbn. split; [intros [?|[? ?]]; [by left|done]|].
    intros [?|?]; by left.
  - apply String.eqb_neq in E. cbn. split.
    + intros [?|[? _]]; [by left|by right].
    + intros [?|?]; [by left|by right].
Qed.

Lemma NoDup_bfilter {A} (f : A -> bool) (l : list A) : NoDup l -> NoDup (List.filter f l).
Proof.
  induction 1 as [|x l Hx Hl IH]; cbn; [constructor|].
  destruct (f x); [|done]. constructor; [|done].
  rewrite elem_of_bfilter. by intros [? _].
Qed.

Lemma NoDup_uniq (l : list string) : NoDup (uniq l).
Proof.
  induction l as [|y l IH]; cbn [uniq]; constructor.
  - rewrite elem_of_bfilter. intros [_ H]. by rewrite eqb_refl' in H.
  - by apply NoDup_bfilter.
Qed.

Section Scan.
Variable imageRefs : string -> string -> list (string * string).
Variable assets : gmap string string.

(** X12.  [findLocalImages] on the references of a page.  When every
    referenced file exists, it returns the resolved paths of the
    references, each once (in the order of first reference) and logs
    nothing.  When some referenced file is missing it uploads nothing of
    the page: it throws, the message counting the missing references (a
    file referenced twice counts twice), after logging a header line and
    two lines for each of them.  It never ends the process. *)
Theorem scan_spec name html :
  let refs := imageRefs name html in
  let missing := List.filter (fun r => negb (bool_decide (is_Some (assets !! r.2)))) refs in
  match scan imageRefs assets name html with
  | (lines, Ok images) =>
      lines = [] /\ missing = []
      /\ NoDup images
      /\ (forall p, p ∈ images <-> p ∈ refs.*2)
      /\ Forall (fun p => is_Some (assets !! p)) images
  | (lines, Throw e) =>
      missing <> []
      /\ e = Err (Js.dec (length missing) +:+ "개의 이미지 파일을 찾을 수 없습니다.")
      /\ length lines = 1 + 2 * length missing
  | (lines, Exit _) => False
  end.
Proof.
  intros refs missing. unfold scan. fold refs. fold missing.
  destruct missing as [|m missing'] eqn:Em.
  - split_and!; [done|done|apply NoDup_uniq| |].
    + intros p. rewrite elem_of_uniq, !list_elem_of_fmap. split.
      * intros (r & -> & [? _]%elem_of_bfilter). by exists r.
      * intros (r & -> & Hr). exists r. split; [done|]. apply elem_of_bfilter.
        split; [done|]. destruct (bool_decide (is_Some (assets !! r.2))) eqn:E; [done|].
        assert (r ∈ missing) as Hin.
        { unfold missing. apply elem_of_bfilter. by rewrite E. }
        rewrite Em in Hin. by apply elem_of_nil in Hin.
    + apply Forall_forall. intros p. rewrite elem_of_uniq, list_elem_of_fmap.
      intros (r & -> & [_ Hr]%elem_of_bfilter). by apply bool_decide_eq_true in Hr.
  - split_and!; [done|done|]. cbn [length].
    assert (L : forall l : list (string * string),
              length (concat ((fun r : string * string =>
                                 ["  - " +:+ r.1; "    (resolved: " +:+ r.2 +:+ ")"]) <$> l))
              = 2 * length l).
    { induction l as [|r l IH]; [done|]. cbn [fmap list_fmap concat length app].
      rewrite IH. lia. }
    rewrite L. cbn [length]. lia.
Qed.

End Scan.

Section Images.
Context {R : Type}.
Variable site : Call -> R -> reply * R.
Implicit Types (w : World R) (cache : gmap string string) (pathMap : JsObject.obj string).

Lemma uploads_cached imagePaths cache w : forall pathMap,
  (forall p, p ∈ imagePaths ->
     exists sum url, checksum (assets (disk w)) p = Ok sum /\ cached cache sum = Some url) ->
  exists pathMap',
    fold_each imagePaths (uploadOne site) (cache, pathMap) w = (Ok (cache, pathMap'), w)
    /\ (forall p, p ∈ imagePaths ->
          exists sum, checksum (assets (disk w)) p = Ok sum
                      /\ JsObject.get p pathMap' = cached cache sum)
    /\ (forall p, p ∉ imagePaths -> JsObject.get p pathMap' = JsObject.get p pathMap).
Proof.
  induction imagePaths as [|path imagePaths IH]; intros pathMap Hall; cbn [fold_each].
  - exists pathMap. split_and!; [done| |done]. by intros p ?%elem_of_nil.
  - destruct (Hall path) as (sum & url & Hsum & Hurl); [left|].
    destruct (IH (JsObject.set path url pathMap)) as (pathMap' & Hrun & Hin & Hout).
    { intros p Hp. apply Hall. by right. }
    exists pathMap'. split_and!.
    + unfold bind. unfold uploadOne at 1, calculateChecksum, bind, readDisk, lift.
      rewrite Hsum, Hurl. cbn. exact Hrun.
    + intros p Hp. destruct (decide (p ∈ imagePaths)) as [?|Hn]; [by apply Hin|].
      apply elem_of_cons in Hp as [->|?]; [|done].
      exists sum. split; [done|]. by rewrite (Hout _ Hn), get_set_eq.
    + intros p [Hne Hn]%not_elem_of_cons. by rewrite (Hout _ Hn), get_set_ne.
Qed.

(** X13.  A page whose images are all in the upload cache costs no
    upload.  When the checksum of every given file has a (non-empty) URL
    in the cache, [uploadNewImages] returns without calling the site or
    waiting, leaves the cache as it is, and maps every path to the cached
    URL of its checksum. *)
Theorem uploadNewImages_cached imagePaths cache w :
  (forall p, p ∈ imagePaths ->
     exists sum url, checksum (assets (disk w)) p = Ok sum /\ cached cache sum = Some url) ->
  exists pathMap,
    uploadNewImages site imagePaths cache w = (Ok (cache, pathMap), w)
    /\ (forall p, p ∈ imagePaths ->
          exists sum, checksum (assets (disk w)) p = Ok sum
                      /\ JsObject.get p pathMap = cached cache sum)
    /\ (forall p, p ∉ imagePaths -> JsObject.get p pathMap = None).
Proof.
  intros Hall. destruct (uploads_cached imagePaths cache w [] Hall) as (pm & H1 & H2 & H3).
  by exists pm.
Qed.

End Images.

(** The example: after [cat.png] has been uploaded, [kitty.png] with the
    same bytes is served from the cache. *)
Lemma uploadNewImages_cached_witness :
  exists pathMap,
    uploadNewImages Example.site [Example.kitty] Example.first_cache Example.first_upload.2
    = (Ok (Example.first_cache, pathMap), Example.first_upload.2)
    /\ (forall p, p ∈ [Example.kitty] ->
          exists sum, checksum (assets (disk Example.first_upload.2)) p = Ok sum
                      /\ JsObject.get p pathMap = cached Example.first_cache sum)
    /\ (forall p, p ∉ [Example.kitty] -> JsObject.get p pathMap = None).
Proof.
  apply (uploadNewImages_cached Example.site [Example.kitty] Example.first_cache
           Example.first_upload.2).
  intros p ->%list_elem_of_singleton.
  exists Sample.png_sum, "https://www.thelabyrinth.co.kr/upload/0.png".
  split; vm_compute; reflexivity.
Defined.

End ScanFacts.

(** ** The labyrinth fingerprint *)

Module ConfigFacts.
Import Json Laby.
Import ListFacts ObjFacts DictFacts.

Lemma defaults_NoDup : NoDup LABYRINTH_DEFAULTS.*1.
Proof. apply (bool_decide_unpack _). vm_compute. exact I. Qed.

Section Hash.
Variable joinContentPath : string -> string.

(** X14.  The labyrinth fingerprint does not depend on how
    [labyrinth.json] lists the known settings.  For a configuration whose
    keys are all keys of LABYRINTH_DEFAULTS (each at most once),
    [computeLabyrinthHash] gives the same result for any reordering of the
    members, and also when a setting is added that spells out its default
    value: the spread over the defaults puts every value at the place of
    its default.  (So neither edit makes the next run update the
    labyrinth.) *)
Theorem computeLabyrinthHash_known_keys members assets :
  NoDup members.*1 ->
  (forall k, k ∈ members.*1 -> k ∈ LABYRINTH_DEFAULTS.*1) ->
  (forall members', members ≡ₚ members' ->
     computeLabyrinthHash joinContentPath (JObj members') assets
     = computeLabyrinthHash joinContentPath (JObj members) assets)
  /\ (forall k v, (k, v) ∈ LABYRINTH_DEFAULTS -> k ∉ members.*1 ->
        computeLabyrinthHash joinContentPath (JObj ((k, v) :: members)) assets
        = computeLabyrinthHash joinContentPath (JObj members) assets).
Proof.
  intros Hnd Hsub.
  assert (Same : forall members',
            NoDup members'.*1 ->
            (forall k, k ∈ members'.*1 -> k ∈ LABYRINTH_DEFAULTS.*1) ->
            (forall k, k ∈ LABYRINTH_DEFAULTS.*1 ->
               match JsObject.get k members' with
               | Some v => Some v
               | None => JsObject.get k LABYRINTH_DEFAULTS
               end
               = match JsObject.get k members with
                 | Some v => Some v
                 | None => JsObject.get k LABYRINTH_DEFAULTS
                 end) ->
            normalizeConfig (JObj members') = normalizeConfig (JObj members)).
  { intros members' Hnd' Hsub' Hget. unfold normalizeConfig. apply obj_ext.
    - by rewrite !spread_keys.
    - intros k Hk. rewrite spread_keys in Hk by done. rewrite !spread_get by done.
      by apply Hget.
    - rewrite spread_keys by done. apply defaults_NoDup. }
  split.
  - intros members' Hp. unfold computeLabyrinthHash. rewrite (Same members'); [done|..].
    + by rewrite <-Hp.
    + intros k. rewrite <-Hp. apply Hsub.
    + intros k _. by rewrite (get_perm members members' k).
  - intros k v Hin Hk. unfold computeLabyrinthHash.
    rewrite (Same ((k, v) :: members)); [done|..].
    + cbn. by constructor.
    + intros k' [->|?]%elem_of_cons; [|by apply Hsub].
      apply list_elem_of_fmap. by exists (k, v).
    + intros k' _. cbn [JsObject.get]. destruct (String.eqb k' k) eqn:E; [|done].
      apply String.eqb_eq in E as ->. apply get_None in Hk. rewrite Hk.
      symmetry. apply elem_get; [apply defaults_NoDup|done].
Qed.

End Hash.

(** The example: the two settings of the example configuration the other
    way round. *)
Lemma computeLabyrinthHash_known_keys_witness :
  computeLabyrinthHash Example.joinContentPath
    (JObj [("start_page", JStr "page/a"); ("title", JStr "Example")]) ∅
  = computeLabyrinthHash Example.joinContentPath
      (JObj [("title", JStr "Example"); ("start_page", JStr "page/a")]) ∅.
Proof.
  apply (computeLabyrinthHash_known_keys Example.joinContentPath
           [("title", JStr "Example"); ("start_page", JStr "page/a")] ∅).
  - apply (bool_decide_unpack _). vm_compute. exact I.
  - intros k Hk.
    apply elem_of_cons in Hk as [->|Hk]; [apply (bool_decide_unpack _); vm_compute; exact I|].
    apply list_elem_of_singleton in Hk as ->. apply (bool_decide_unpack _). vm_compute. exact I.
  - apply perm_swap.
Defined.

End ConfigFacts.

(** ** Settings validation *)

Module ConfigValidFacts.
Import Json Validate Tags Config.
Import ListFacts ObjFacts DictFacts.

Lemma tagsToIds_loop_spec tags : forall ids warns,
  tagsToIds_loop tags ids warns = (ids ++ omap idOf tags, warns ++ omap warningOf tags).
Proof.
  induction tags as [|t tags IH]; intros ids warns.
  - cbn. by rewrite !app_nil_r.
  - destruct t as [n|s|].
    + cbn [tagsToIds_loop]. rewrite IH. cbn. by rewrite <-app_assoc.
    + cbn [tagsToIds_loop]. change (omap idOf (TagString s :: tags))
        with (match idOf (TagString s) with
              | Some y => y :: omap idOf tags
              | None => omap idOf tags
              end).
      change (omap warningOf (TagString s :: tags))
        with (match warningOf (TagString s) with
              | Some y => y :: omap warningOf tags
              | None => omap warningOf tags
              end).
      unfold idOf, warningOf, unknownTag.
      destruct (TAG_MAP_get s) as [id|]; [destruct (truthy_id id)|]; cbn [negb];
        rewrite IH, <-?app_assoc; done.
    + cbn [tagsToIds_loop]. by rewrite IH.
Qed.

(** X15.  [tagsToIds] in one line: the ids of the elements in their
    order, cut after the fifth.  A number is its own id (whatever the
    number); a string is the id TAG_MAP holds for it when that is truthy,
    and is dropped with one warning otherwise; an element of another kind
    is dropped silently.  The warnings come in the order of the unknown
    strings, also for those behind the fifth id. *)
Theorem tagsToIds_spec tags :
  tagsToIds_log (Some tags) = (take 5 (omap idOf tags), omap warningOf tags).
Proof. unfold tagsToIds_log. by rewrite tagsToIds_loop_spec. Qed.

Section Validate.
Variable exceeds : json -> nat -> bool.

Lemma cfg_title normalized errors :
  match text_prop "title" normalized with
  | Falsy => Ok ["title 필드가 필요합니다."]
  | Text s =>
      if JsString.blank s then Ok ["title 필드가 필요합니다."]
      else if (Config.title_maxLength <? JsString.utf16_length s)%nat
      then Ok ["title이 " +:+ Js.dec Config.title_maxLength +:+ "자를 초과합니다."]
      else Ok []
  | NotText => Throw (typeError "normalized.title.trim is not a function")
  end = Ok errors ->
  errors = [] <->
  exists title, text_prop "title" normalized = Text title
                /\ JsString.blank title = false
                /\ JsString.utf16_length title <= Config.title_maxLength.
Proof.
  destruct (text_prop "title" normalized) as [|title|]; [| |done].
  - intros [= <-]. split; [done|]. by intros (? & ? & _).
  - destruct (JsString.blank title) eqn:Eb.
    + intros [= <-]. split; [done|]. intros (? & [= <-] & ? & _). congruence.
    + destruct (Config.title_maxLength <? JsString.utf16_length title)%nat eqn:El;
        intros [= <-].
      * split; [done|]. intros (? & [= <-] & _ & ?). apply Nat.ltb_lt in El. lia.
      * split; [|done]. intros _. exists title. apply Nat.ltb_ge in El. done.
Qed.

(** An optional check that appends at most one error. *)
Lemma cfg_check (key : string) (normalized : json) (bad : json -> bool) (msg : json -> string)
    (errors : list string) :
  exists added,
    match prop key normalized with
    | Some v => if truthy v && bad v then errors ++ [msg v] else errors
    | None => errors
    end = errors ++ added
    /\ (added = [] <->
        forall v, prop key normalized = Some v -> truthy v = true -> bad v = false).
Proof.
  destruct (prop key normalized) as [v|].
  - destruct (truthy v) eqn:Et; cbn.
    + destruct (bad v) eqn:Eb; cbn.
      * eexists. split; [done|]. split; [done|]. intros H.
        specialize (H v eq_refl Et). congruence.
      * exists []. rewrite app_nil_r. split; [done|]. split; [|done]. by intros _ c [= <-] _.
    + exists []. rewrite app_nil_r. split; [done|]. split; [|done].
      intros _ c [= <-] ?. congruence.
  - exists []. rewrite app_nil_r. split; [done|]. split; [|done]. by intros _ c ?.
Qed.

Lemma cfg_tags normalized errors errors' :
  match prop "tags" normalized with
  | Some t =>
      if truthy t && longer exceeds t 0 then
        match t with
        | JArr items =>
            match invalidTags items with
            | [] => Ok errors
            | invalid => Ok (errors ++ ["알 수 없는 태그: " +:+ Main.join_comma invalid])
            end
        | _ => Throw (typeError "normalized.tags.filter is not a function")
        end
      else Ok errors
  | None => Ok errors
  end = Ok errors' ->
  exists added,
    errors' = errors ++ added
    /\ (added = [] <->
        forall t, prop "tags" normalized = Some t -> truthy t = true ->
                  longer exceeds t 0 = true ->
                  exists items, t = JArr items /\ invalidTags items = []).
Proof.
  destruct (prop "tags" normalized) as [t|].
  2:{ intros [= <-]. exists []. rewrite app_nil_r. split; [done|]. split; [|done].
      by intros _ ? ?. }
  destruct (truthy t) eqn:Et; cbn.
  2:{ intros [= <-]. exists []. rewrite app_nil_r. split; [done|]. split; [|done].
      intros _ ? [= <-] ?. congruence. }
  destruct (longer exceeds t 0) eqn:El.
  2:{ intros [= <-]. exists []. rewrite app_nil_r. split; [done|]. split; [|done].
      intros _ ? [= <-] _ ?. congruence. }
  destruct t as [| | | |items|]; try done.
  destruct (invalidTags items) as [|bad rest] eqn:Ei; intros [= <-].
  - exists []. rewrite app_nil_r. split; [done|]. split; [|done].
    intros _ ? [= <-] _ _. by exists items.
  - eexists. split; [done|]. split; [done|]. intros H.
    destruct (H _ eq_refl Et El) as (items' & [= <-] & Hi). congruence.
Qed.

Lemma cfg_image normalized errors errors' :
  match prop "image" normalized with
  | Some (JStr image) =>
      if Js.truthy_str image
         && negb (bool_decide (toLowerCase (lastSegment image) ∈ allowedExts))
      then Ok (errors ++ ["이미지 형식이 잘못되었습니다. (허용: bmp, jpg, jpeg, gif, png)"])
      else Ok errors
  | Some v =>
      if truthy v
      then Throw (typeError "normalized.image.split is not a function")
      else Ok errors
  | None => Ok errors
  end = Ok errors' ->
  exists added,
    errors' = errors ++ added
    /\ (added = [] <->
        forall image, prop "image" normalized = Some (JStr image) ->
                      Js.truthy_str image = true ->
                      toLowerCase (lastSegment image) ∈ allowedExts).
Proof.
  destruct (prop "image" normalized) as [v|].
  2:{ intros [= <-]. exists []. rewrite app_nil_r. split; [done|]. split; [|done].
      by intros _ ? ?. }
  destruct v as [|b|lit|image|items|members];
    try (destruct (truthy _); [done|]; intros [= <-]; exists []; rewrite app_nil_r;
         split; [done|]; split; [|done]; by intros _ ? ?).
  destruct (Js.truthy_str image) eqn:Et; cbn.
  2:{ intros [= <-]. exists []. rewrite app_nil_r. split; [done|]. split; [|done].
      intros _ ? [= <-] ?. congruence. }
  case_bool_decide as Hin; cbn; intros [= <-].
  - exists []. rewrite app_nil_r. split; [done|]. split; [|done]. by intros _ ? [= <-] _.
  - eexists. split; [done|]. split; [done|]. intros H. destruct Hin. by apply H.
Qed.

Lemma validateConfig_iff config errors :
  validateConfig exceeds config = Ok errors ->
  errors = [] <-> config_ok exceeds config.
Proof.
  unfold validateConfig, config_ok. cbv zeta.
  set (normalized := JObj (Laby.normalizeConfig (JObj config))). intros H.
  match type of H with
  | match ?X with Ok _ => _ | Throw _ => _ | Exit _ => _ end = _ =>
      destruct X as [e0| |] eqn:E0; [|done..]
  end.
  apply cfg_title in E0.
  destruct (cfg_check "description" normalized
              (fun d => longer exceeds d description_maxLength)
              (fun d => "description이 " +:+ Js.dec description_maxLength
                        +:+ "자를 초과합니다. (현재: " +:+ lengthText d +:+ "자)") e0)
    as (a1 & E1 & H1).
  rewrite E1 in H.
  destruct (cfg_check "tags" normalized
              (fun t => longer exceeds t tags_maxLength)
              (fun _ => "태그는 최대 " +:+ Js.dec tags_maxLength +:+ "개까지 가능합니다.")
              (e0 ++ a1))
    as (a2 & E2 & H2).
  rewrite E2 in H.
  match type of H with
  | match ?X with Ok _ => _ | Throw _ => _ | Exit _ => _ end = _ =>
      destruct X as [e3| |] eqn:E3; [|done..]
  end.
  apply cfg_tags in E3 as (a3 & -> & H3).
  match type of H with
  | match ?X with Ok _ => _ | Throw _ => _ | Exit _ => _ end = _ =>
      destruct X as [e4| |] eqn:E4; [|done..]
  end.
  apply cfg_image in E4 as (a4 & -> & H4).
  destruct (cfg_check "clear_visibility" normalized
              (fun v => negb (includes_value validVisibility v))
              (fun _ => "clear_visibility 값이 잘못되었습니다. (허용: hidden, count, list, full)")
              ((((e0 ++ a1) ++ a2) ++ a3) ++ a4))
    as (a5 & E5 & H5).
  rewrite E5 in H. injection H as <-.
  rewrite <-E0. split.
  - intros [[[[[-> ->]%app_eq_nil ->]%app_eq_nil ->]%app_eq_nil ->]%app_eq_nil ->]%app_eq_nil.
    split_and!; [done|by apply H1| |by apply H4|].
    + intros t Ht Htt. split; [by apply H2|]. by apply H3.
    + intros v Hv Hvt. apply negb_false_iff. by apply H5.
  - intros (-> & Hd & Ht & Hi & Hv).
    assert (a1 = []) as -> by by apply H1.
    assert (a2 = []) as -> by (apply H2; intros t ? ?; by apply Ht).
    assert (a3 = []) as -> by (apply H3; intros t ? ?; by apply Ht).
    assert (a4 = []) as -> by by apply H4.
    assert (a5 = []) as ->; [|done].
    apply H5. intros v ? ?. apply negb_false_iff. by apply Hv.
Qed.

(** X16.  When [validateConfig] returns, its list of errors is empty
    exactly for settings (after the defaults are filled in) with a title
    that is a string, not blank, of at most 100 UTF-16 units; a
    description, when truthy, of length at most 500; at most 5 tags, and,
    when there are any, an array of tags none of whose strings is unknown
    to TAG_MAP; an image, when a non-empty string, whose text after the
    last dot is one of bmp, jpg, jpeg, gif, png in any letter case (the
    whole name when it has no dot); and a [clear_visibility], when truthy,
    that is one of the four strings. *)
Theorem validateConfig_valid config errors :
  validateConfig exceeds config = Ok errors ->
  errors = [] <-> config_ok exceeds config.
Proof. exact (validateConfig_iff config errors). Qed.

(** X17.  Settings that pass [validateConfig] lose no tag.  When
    [validateConfig] reports no error and the settings hold an array of
    tags, [tagsToIds] on that array logs no warning and cuts nothing off:
    it returns one id for every element that is a number or a string. *)
Theorem validateConfig_tags config items tags :
  validateConfig exceeds config = Ok [] ->
  prop "tags" (JObj (Laby.normalizeConfig (JObj config))) = Some (JArr items) ->
  Forall2 represents items tags ->
  tagsToIds_log (Some tags)
  = (omap idOf tags, [])
  /\ length (tagsToIds (Some tags)) = length (List.filter counted tags).
Proof.
  intros Hv Ht Hrep.
  apply validateConfig_iff in Hv as [Hv _]. destruct (Hv eq_refl) as (_ & _ & Htags & _).
  destruct (Htags _ Ht eq_refl) as [H5 H0]. unfold longer in H5, H0. cbn [lengthOf] in H5, H0.
  apply Nat.ltb_ge in H5.
  assert (Hi : invalidTags items = []).
  { destruct items as [|item items']; [done|].
    destruct H0 as (items0 & [= <-] & Hi); [done|done]. }
  assert (Hw : omap warningOf tags = [] /\ length (omap idOf tags)
               = length (List.filter counted tags)).
  { clear -Hrep Hi. unfold invalidTags in Hi.
    induction Hrep as [|item t items tags Hr Hrep IH]; [done|].
    destruct item, t; cbn in Hr; try done; subst;
      cbn -[TAG_MAP_get] in *; unfold unknownTag in *;
      try (destruct (TAG_MAP_get _) as [id|]; [destruct (truthy_id id)|];
           cbn -[TAG_MAP_get] in *; try done);
      destruct (IH Hi) as [IH1 IH2]; rewrite ?IH1, ?IH2; done. }
  destruct Hw as [Hw Hl].
  assert (Hlen : length (omap idOf tags) <= 5).
  { rewrite Hl. pose proof (List.filter_length_le counted tags).
    apply Forall2_length in Hrep. unfold tags_maxLength in H5. lia. }
  unfold tagsToIds, tagsToIds_log. rewrite tagsToIds_loop_spec, Hw. cbn [fst].
  rewrite take_ge by done. done.
Qed.

End Validate.

(** Settings with two tags pass, and keep both. *)
Lemma validateConfig_valid_witness :
  @nil string = [] <-> config_ok Sample.never Sample.settings.
Proof.
  apply (validateConfig_valid Sample.never Sample.settings []).
  vm_compute. reflexivity.
Defined.

Lemma validateConfig_tags_witness :
  tagsToIds_log (Some [TagString "puzzle"; TagNumber 7])
  = (omap idOf [TagString "puzzle"; TagNumber 7], [])
  /\ length (tagsToIds (Some [TagString "puzzle"; TagNumber 7]))
     = length (List.filter counted [TagString "puzzle"; TagNumber 7]).
Proof.
  apply (validateConfig_tags Sample.never Sample.settings [JStr "puzzle"; JNum "7"]).
  - vm_compute. reflexivity.
  - vm_compute. reflexivity.
  - repeat constructor.
Defined.

End ConfigValidFacts.

(** ** Command line, log levels and account *)

Module CliFacts.
Import Json Validate Cli.

Lemma parseArgs_snoc args arg : parseArgs (args ++ [arg]) = parseArg (parseArgs args) arg.
Proof. unfold parseArgs. by rewrite foldl_app. Qed.

Lemma parseArgs_table args :
  let options := parseArgs args in
  contentFolder options = last (List.filter (fun a => negb (String.prefix "-" a)) args)
  /\ showBrowser options = bool_decide ("--show-browser" ∈ args)
  /\ verbose options = bool_decide ("--verbose" ∈ args)
  /\ quiet options = bool_decide ("--quiet" ∈ args \/ "-q" ∈ args)
  /\ help options = bool_decide ("--help" ∈ args \/ "-h" ∈ args).
Proof.
  cbv zeta. induction args as [|arg args IH] using rev_ind.
  - done.
  - rewrite parseArgs_snoc. destruct IH as (Hc & Hs & Hv & Hq & Hh).
    assert (In : forall x : string,
              bool_decide (x ∈ args ++ [arg]) = bool_decide (x ∈ args) || String.eqb arg x).
    { intros x. destruct (String.eqb arg x) eqn:E.
      - apply String.eqb_eq in E as ->. rewrite orb_true_r. apply bool_decide_eq_true.
        apply elem_of_app. right. left.
      - apply String.eqb_neq in E. rewrite orb_false_r. apply bool_decide_ext.
        rewrite elem_of_app, list_elem_of_singleton. split; [intros [?|?]; [done|]|by left].
        by subst. }
    assert (In2 : forall x y : string,
              bool_decide (x ∈ args ++ [arg] \/ y ∈ args ++ [arg])
              = bool_decide (x ∈ args \/ y ∈ args) || (String.eqb arg x || String.eqb arg y)).
    { intros x y. rewrite !bool_decide_or, !In.
      destruct (bool_decide (x ∈ args)), (bool_decide (y ∈ args)),
        (String.eqb arg x), (String.eqb arg y); done. }
    rewrite !In, !In2, List.filter_app, <-Hs, <-Hv, <-Hq, <-Hh. cbn [List.filter].
    unfold parseArg.
    destruct (String.eqb arg "--show-browser") eqn:E1.
    { apply String.eqb_eq in E1 as ->. cbn. rewrite app_nil_r, !orb_false_r, orb_true_r.
      by split_and!. }
    destruct (String.eqb arg "--verbose") eqn:E2.
    { apply String.eqb_eq in E2 as ->. cbn. rewrite app_nil_r, !orb_false_r, orb_true_r.
      by split_and!. }
    destruct (String.eqb arg "--quiet") eqn:E3.
    { apply String.eqb_eq in E3 as ->. cbn. rewrite app_nil_r, !orb_false_r, orb_true_r.
      by split_and!. }
    destruct (String.eqb arg "-q") eqn:E4.
    { apply String.eqb_eq in E4 as ->. cbn. rewrite app_nil_r, !orb_false_r, orb_true_r.
      by split_and!. }
    destruct (String.eqb arg "--help") eqn:E5.
    { apply String.eqb_eq in E5 as ->. cbn. rewrite app_nil_r, !orb_false_r, orb_true_r.
      by split_and!. }
    destruct (String.eqb arg "-h") eqn:E6.
    { apply String.eqb_eq in E6 as ->. cbn. rewrite app_nil_r, !orb_false_r, orb_true_r.
      by split_and!. }
    cbn [orb]. rewrite !orb_false_r.
    destruct (String.prefix "-" arg) eqn:Ep; cbn [negb].
    + rewrite app_nil_r. by split_and!.
    + cbn. rewrite last_snoc. by split_and!.
Qed.

(** X18.  [parseArgs] in closed form.  The content folder is the last
    argument that does not start with a dash ([null] when there is none);
    each flag is set exactly when one of its spellings occurs among the
    arguments; the order of the arguments does not matter otherwise, and
    an unknown option that starts with a dash is ignored. *)
Theorem parseArgs_spec args :
  let options := parseArgs args in
  contentFolder options = last (List.filter (fun a => negb (String.prefix "-" a)) args)
  /\ showBrowser options = bool_decide ("--show-browser" ∈ args)
  /\ verbose options = bool_decide ("--verbose" ∈ args)
  /\ quiet options = bool_decide ("--quiet" ∈ args \/ "-q" ∈ args)
  /\ help options = bool_decide ("--help" ∈ args \/ "-h" ∈ args).
Proof. exact (parseArgs_table args). Qed.

(** X19.  The log levels.  Whatever the command line, a line logged with
    [log.error] or [log.fail] is printed; [--quiet] (or [-q]) silences
    every other channel, [--verbose] included; and verbose lines are
    printed exactly when [--verbose] is given without [--quiet]. *)
Theorem printed_spec args c :
  let options := parseArgs args in
  printed options c
  = match c with
    | LogError | LogFail => true
    | LogVerbose =>
        bool_decide ("--verbose" ∈ args)
        && negb (bool_decide ("--quiet" ∈ args \/ "-q" ∈ args))
    | _ => negb (bool_decide ("--quiet" ∈ args \/ "-q" ∈ args))
    end.
Proof.
  cbv zeta. destruct (parseArgs_table args) as (_ & _ & Hv & Hq & _).
  unfold printed. rewrite Hv, Hq. by destruct c.
Qed.

(** X20.  [loadAccount] hands out credentials exactly when
    [account.json] parses to a value whose [password] is truthy and whose
    [email] or, failing that, [id] is truthy: the user id is then the
    [email] when that is truthy and the [id] otherwise, and nothing is
    logged.  In every other case but one it logs what is wrong and ends
    the process with code 1 (the exception: a file that holds [null]
    raises a TypeError). *)
Theorem loadAccount_spec accountPath accountFile :
  match loadAccount accountPath accountFile with
  | (lines, Ok (userId, password)) =>
      lines = []
      /\ exists account,
           accountFile = Parsed account
           /\ userIdOf account = Some userId /\ truthy userId = true
           /\ prop "password" account = Some password /\ truthy password = true
           /\ (forall email, prop "email" account = Some email -> truthy email = true ->
                             userId = email)
  | (lines, Exit code) =>
      code = 1 /\ lines <> []
      /\ forall account userId password,
           accountFile = Parsed account -> userIdOf account = Some userId ->
           prop "password" account = Some password ->
           truthy userId && truthy password = false
  | (lines, Throw _) => accountFile = Parsed JNull
  end.
Proof.
  destruct accountFile as [|message|account]; cbn [loadAccount].
  - split_and!; [done|done|]. by intros ???.
  - split_and!; [done|done|]. by intros ???.
  - assert (Spec :
      match
        match userIdOf account, prop "password" account with
        | Some userId, Some password =>
            if truthy userId && truthy password then ([], Ok (userId, password))
            else
              ([ "account.json에 이메일과 비밀번호가 필요합니다.";
                 "형식: { " +:+ Js.dq +:+ "email" +:+ Js.dq +:+ ": " +:+ Js.dq +:+ "이메일" +:+ Js.dq
                   +:+ ", " +:+ Js.dq +:+ "password" +:+ Js.dq +:+ ": " +:+ Js.dq +:+ "비밀번호"
                   +:+ Js.dq +:+ " }" ],
               Exit 1)
        | _, _ =>
            ([ "account.json에 이메일과 비밀번호가 필요합니다.";
               "형식: { " +:+ Js.dq +:+ "email" +:+ Js.dq +:+ ": " +:+ Js.dq +:+ "이메일" +:+ Js.dq
                 +:+ ", " +:+ Js.dq +:+ "password" +:+ Js.dq +:+ ": " +:+ Js.dq +:+ "비밀번호"
                 +:+ Js.dq +:+ " }" ],
             Exit 1)
        end
      with
      | (lines, Ok (userId, password)) =>
          lines = []
          /\ exists account0,
               Parsed account = Parsed account0
               /\ userIdOf account0 = Some userId /\ truthy userId = true
               /\ prop "password" account0 = Some password /\ truthy password = true
               /\ (forall email, prop "email" account0 = Some email -> truthy email = true ->
                                 userId = email)
      | (lines, Exit code) =>
          code = 1 /\ lines <> []
          /\ forall account0 userId password,
               Parsed account = Parsed account0 -> userIdOf account0 = Some userId ->
               prop "password" account0 = Some password ->
               truthy userId && truthy password = false
      | (lines, Throw _) => Parsed account = Parsed JNull
      end).
    { destruct (userIdOf account) as [userId|] eqn:Eu.
      - destruct (prop "password" account) as [password|] eqn:Ep.
        + destruct (truthy userId && truthy password) eqn:Et.
          * apply andb_prop in Et as [Et1 Et2]. split; [done|]. exists account.
            split_and!; try done. intros email He Hte. unfold userIdOf in Eu.
            rewrite He, Hte in Eu. congruence.
          * split_and!; [done|done|]. intros a u p [= <-]. congruence.
        + split_and!; [done|done|]. intros a u p [= <-]. congruence.
      - split_and!; [done|done|]. intros a u p [= <-]. congruence. }
    destruct account; try exact Spec. done.
Qed.

End CliFacts.

(** ** Retrying, in general *)

Module RetryMoreFacts.
Import Retry RetryMore Config.

Section Observed.
Context {B A : Type}.
Variable op : B -> res A * B.

Lemma decidingFrom_ge b0 todo : forall i, i <= decidingFrom op b0 i todo.
Proof.
  induction todo as [|todo IH]; intros i; cbn; [done|].
  destruct (transient _); [|done]. specialize (IH (S i)). lia.
Qed.

Lemma gained_step i k : S i <= k -> gained i k = [Invoked; Slept (delayMs * S i)] ++ gained (S i) k.
Proof.
  intros H. unfold gained. replace (k - i) with (S (k - S i)) by lia.
  cbn [seq fmap list_fmap concat]. done.
Qed.

Lemma fn_at b0 i log :
  fn op (state_after op b0 i, log)
  = (outcome op b0 i, (state_after op b0 (S i), log ++ [Invoked])).
Proof.
  unfold fn, outcome. cbn [fst snd state_after]. by destruct (op (state_after op b0 i)).
Qed.

Lemma loop_unfold (maxRetries todo attempt : nat) (lastError : thrown) :
  withRetry_loop (sleep (B:=B)) (fn op) maxRetries (S todo) attempt lastError
  = try_catch (fn op) (fun error =>
      bind (isRetryableError error) (fun retryable =>
        if negb retryable || (attempt =? maxRetries)%nat
        then throw error
        else bind (sleep (delayMs * attempt)) (fun _ =>
               withRetry_loop sleep (fn op) maxRetries todo (S attempt) error))).
Proof. reflexivity. Qed.

Lemma gained_here i : gained i i = [Invoked].
Proof. unfold gained. by rewrite Nat.sub_diag. Qed.

Lemma loop_from b0 todo : forall i log lastError,
  withRetry_loop (sleep (B:=B)) (fn op) (S i + todo) (S todo) (S i) lastError
    (state_after op b0 i, log)
  = (propagated (outcome op b0 (decidingFrom op b0 i todo)),
     (state_after op b0 (S (decidingFrom op b0 i todo)),
      log ++ gained i (decidingFrom op b0 i todo))).
Proof.
  induction todo as [|todo IH]; intros i log lastError.
  - cbn [withRetry_loop decidingFrom]. unfold try_catch. rewrite fn_at, gained_here.
    destruct (outcome op b0 i) as [v|[m|]|c]; cbn [propagated]; try done.
    unfold bind, isRetryableError, ret. by rewrite Nat.add_0_r, Nat.eqb_refl, orb_true_r.
  - rewrite loop_unfold. cbn [decidingFrom]. unfold try_catch. rewrite fn_at.
    destruct (outcome op b0 i) as [v|[m|]|c] eqn:Eo; cbn [transient].
    + by rewrite Eo, gained_here.
    + unfold bind at 1, isRetryableError, ret.
      destruct (retryableMessage m) eqn:Rm; cbn [negb orb].
      * assert ((S i =? S i + S todo)%nat = false) as -> by (apply Nat.eqb_neq; lia).
        unfold bind, sleep at 1. cbn [fst snd].
        replace (S i + S todo) with (S (S i) + todo) by lia.
        rewrite IH. rewrite (gained_step i) by apply decidingFrom_ge.
        by rewrite <-!app_assoc.
      * by rewrite Eo, gained_here.
    + by rewrite Eo, gained_here.
    + by rewrite Eo, gained_here.
Qed.

(** X21.  [withRetry] for any number of attempts.  With [maxRetries]
    at least 1 the operation is invoked until an invocation succeeds, fails
    with an error that is not retryable, or is the last one allowed; the
    outcome of that invocation is the outcome of the whole; before
    invocation number [j+1] the wrapper waits [delayMs * j] ms (a linear
    back-off), and it never waits after the deciding invocation.  With
    [maxRetries] 0 the operation is not invoked at all and [undefined] is
    thrown. *)
Theorem withRetry_any_attempts (b0 : B) (n : nat) :
  withRetry (sleep (B:=B)) (fn op) (S n) (b0, [])
  = (propagated (outcome op b0 (decidingFrom op b0 0 n)),
     (state_after op b0 (S (decidingFrom op b0 0 n)),
      gained 0 (decidingFrom op b0 0 n)))
  /\ withRetry (sleep (B:=B)) (fn op) 0 (b0, []) = (Throw NoValue, (b0, [])).
Proof.
  split; [|done]. unfold withRetry.
  pose proof (loop_from b0 n 0 [] NoValue) as H. cbn [state_after plus] in H. exact H.
Qed.

End Observed.

(** *** The retryable messages *)

Lemma prefix_ci_variant (pat v rest : string) :
  toLowerCase v = toLowerCase pat -> Js.prefix_ci pat (v +:+ rest) = true.
Proof.
  revert v. induction pat as [|p pat IH]; intros v; [done|].
  destruct v as [|c v]; [done|]. cbn [toLowerCase]. intros [= Hc Hv].
  change (Js.eqb_ci p c && Js.prefix_ci pat (v +:+ rest) = true).
  unfold Js.eqb_ci. rewrite Hc, Ascii.eqb_refl. by apply IH.
Qed.

Lemma test_ci_here (pat s : string) : Js.prefix_ci pat s = true -> Js.test_ci pat s = true.
Proof. intros H. destruct s; cbn [Js.test_ci]; by rewrite H. Qed.

Lemma test_ci_later (pat pre s : string) :
  Js.test_ci pat s = true -> Js.test_ci pat (pre +:+ s) = true.
Proof.
  induction pre as [|c pre IH]; [done|]. intros H.
  change (Js.prefix_ci pat (String c (pre +:+ s)) || Js.test_ci pat (pre +:+ s) = true).
  rewrite (IH H). apply orb_true_r.
Qed.

(** X22.  Which errors are retried.  An error is retryable as soon as
    its message contains one of the ten patterns of
    RETRY_CONFIG.retryableErrors anywhere, in any mix of upper and lower
    case. *)
Theorem retryable_anywhere (pattern variant pre post : string) :
  pattern ∈ retryableErrors ->
  toLowerCase variant = toLowerCase pattern ->
  retryableMessage (pre +:+ variant +:+ post) = true.
Proof.
  intros Hin Hv. unfold retryableMessage. apply existsb_exists. exists pattern.
  split; [by apply list_elem_of_In|].
  apply test_ci_later, test_ci_here. by apply prefix_ci_variant.
Qed.

(** The message of a timed-out navigation, shouted. *)
Lemma retryable_anywhere_witness :
  retryableMessage ("TimeoutError: NAVIGATION " +:+ "TIMEOUT" +:+ " of 30000 ms exceeded") = true.
Proof.
  apply (retryable_anywhere "timeout" "TIMEOUT" "TimeoutError: NAVIGATION "
           " of 30000 ms exceeded").
  - apply list_elem_of_In. vm_compute. by left.
  - reflexivity.
Defined.

End RetryMoreFacts.

(** ** The inventory of the content folder *)

Module ScanDirFacts.
Import Scan.

Lemma entry_ind' (P : entry -> Prop) :
  (forall item, P (File item)) ->
  (forall item items, Forall P items -> P (Dir item items)) ->
  forall e, P e.
Proof.
  intros Hf Hd. fix IH 1. intros [item|item items]; [apply Hf|apply Hd].
  induction items as [|e items IHl]; constructor; [apply IH|exact IHl].
Qed.

Lemma elem_of_concat_map {A B} (f : A -> list B) (l : list A) (y : B) :
  y ∈ concat (List.map f l) <-> exists x, x ∈ l /\ y ∈ f x.
Proof.
  induction l as [|a l IH]; cbn.
  - split; [by intros ?%elem_of_nil|by intros (? & ?%elem_of_nil & _)].
  - rewrite elem_of_app, IH. split.
    + intros [?|(x & ? & ?)]; [exists a|exists x]; split; try done; [left|by right].
    + intros (x & [->|?]%elem_of_cons & ?); [by left|right; by exists x].
Qed.

Section ScanDir.
Variable wanted : string -> bool.
Variable ext : string.

Lemma scanItem_files e : forall dir,
  scanItem wanted ext dir e = pageNameOf ext <$> filesOfItem wanted dir e.
Proof.
  induction e as [item|item items IH] using entry_ind'; intros dir; cbn.
  - by destruct (wanted item).
  - case_bool_decide; [done|]. generalize (dir ++ [item]). intros dir'.
    induction IH as [|e items He _ IHl]; [done|]. cbn. by rewrite fmap_app, He, IHl.
Qed.

Lemma scanDir_files dir items :
  scanDir wanted ext dir items = pageNameOf ext <$> filesOf wanted dir items.
Proof.
  unfold scanDir, filesOf. induction items as [|e items IH]; [done|].
  cbn. by rewrite fmap_app, scanItem_files, IH.
Qed.

Lemma visible_one items dir item :
  visible items dir item <-> exists e, e ∈ items /\ visible [e] dir item.
Proof.
  split.
  - intros V. inversion V as [? ? Hin|? d sub dir' ? Hin Hd Hv]; subst.
    + exists (File item). split; [done|]. constructor. left.
    + exists (Dir d sub). split; [done|]. econstructor; [left|done..].
  - intros (e & He & V). inversion V as [? ? Hin|? d sub dir' ? Hin Hd Hv]; subst;
      apply list_elem_of_singleton in Hin as <-; by econstructor.
Qed.

Lemma visible_File item0 dir item :
  visible [File item0] dir item <-> dir = [] /\ item = item0.
Proof.
  split.
  - intros V. inversion V as [? ? Hin|? d sub dir' ? Hin Hd Hv]; subst;
      apply list_elem_of_singleton in Hin; [by injection Hin as ->|done].
  - intros [-> ->]. constructor. left.
Qed.

Lemma visible_Dir d items dir item :
  visible [Dir d items] dir item <->
  (d ∉ excludeDirs) /\ exists sub, dir = d :: sub /\ visible items sub item.
Proof.
  split.
  - intros V. inversion V as [? ? Hin|? d' sub dir' ? Hin Hd Hv]; subst;
      apply list_elem_of_singleton in Hin; [done|].
    injection Hin as -> ->. split; [done|]. by exists dir'.
  - intros (Hd & sub & -> & V). econstructor; [left|done..].
Qed.

Lemma filesOfItem_spec e : forall dir rel,
  rel ∈ filesOfItem wanted dir e <->
  exists sub item, visible [e] sub item /\ wanted item = true
                   /\ rel = relativePath (dir ++ sub) item.
Proof.
  induction e as [item0|d items IH] using entry_ind'; intros dir rel; cbn.
  - split.
    + destruct (wanted item0) eqn:W; [|by intros ?%elem_of_nil].
      intros ->%list_elem_of_singleton. exists [], item0. rewrite app_nil_r.
      split_and!; [|done..]. by apply visible_File.
    + intros (sub & item & [-> ->]%visible_File & W & ->).
      rewrite W, app_nil_r. left.
  - case_bool_decide as Hex.
    + split; [by intros ?%elem_of_nil|].
      by intros (sub & item & [? _]%visible_Dir & _).
    + rewrite elem_of_concat_map. rewrite Forall_forall in IH. split.
      * intros (e & He & Hrel).
        apply (IH e He) in Hrel as (sub & item & V & W & ->).
        exists (d :: sub), item. rewrite <-app_assoc. split_and!; [|done..].
        apply visible_Dir. split; [done|]. exists sub. split; [done|].
        apply visible_one. by exists e.
      * intros (sub & item & (_ & sub' & -> & (e & He & V)%visible_one)%visible_Dir & W & ->).
        exists e. split; [done|]. apply (IH e He). exists sub', item.
        by rewrite <-app_assoc.
Qed.

Lemma filesOf_spec items rel :
  rel ∈ filesOf wanted [] items <->
  exists dir item, visible items dir item /\ wanted item = true
                   /\ rel = relativePath dir item.
Proof.
  unfold filesOf. rewrite elem_of_concat_map. split.
  - intros (e & He & (sub & item & V & W & ->)%filesOfItem_spec).
    exists sub, item. split_and!; [|done..]. apply visible_one. by exists e.
  - intros (dir & item & (e & He & V)%visible_one & W & ->).
    exists e. split; [done|]. apply filesOfItem_spec. by exists dir, item.
Qed.

End ScanDir.

(** *** Strings *)

Lemma append_nil_l s : EmptyString +:+ s = s.
Proof. reflexivity. Qed.

Lemma append_cons c a b : String c a +:+ b = String c (a +:+ b).
Proof. reflexivity. Qed.

Lemma append_length a b : String.length (a +:+ b) = String.length a + String.length b.
Proof. induction a as [|x a IH]; simpl; [done|]. by rewrite IH. Qed.

Lemma append_inj_r a b e : a +:+ e = b +:+ e -> a = b.
Proof.
  revert b. induction a as [|x a IH]; intros [|y b]; simpl; [done| | |].
  - intros H. apply (f_equal String.length) in H. simpl in H.
    rewrite !append_length in H. simpl in H. lia.
  - intros H. apply (f_equal String.length) in H. simpl in H.
    rewrite !append_length in H. simpl in H. lia.
  - intros [= -> ?]. f_equal. by apply IH.
Qed.

Lemma stripPrefix_spec pat : forall s rest,
  stripPrefix pat s = Some rest <-> s = pat +:+ rest.
Proof.
  induction pat as [|a pat IH]; intros s rest; cbn.
  - split; [by intros [= ->]|by intros ->].
  - destruct s as [|b s]; [done|]. destruct (Ascii.eqb_spec a b) as [->|N].
    + rewrite IH. split; [by intros ->|by intros [= ->]].
    + split; [done|]. intros [= ? _]. by destruct N.
Qed.

Lemma endsWith_spec ext : forall s,
  endsWith ext s = true <-> exists pre, s = pre +:+ ext.
Proof.
  induction s as [|c s IH]; cbn [endsWith].
  - rewrite orb_false_r, String.eqb_eq. split.
    + intros <-. by exists EmptyString.
    + intros ([|? ?] & H); [done|by simpl in H].
  - rewrite orb_true_iff, IH, String.eqb_eq. split.
    + intros [<-|(pre & ->)]; [by exists EmptyString|by exists (String c pre)].
    + intros ([|x pre] & H); [by left|].
      right. simpl in H. injection H as -> ->. by exists pre.
Qed.

Lemma concat_last sep dir item :
  exists pre, String.concat sep (dir ++ [item]) = pre +:+ item.
Proof.
  induction dir as [|d dir [pre IH]]; [by exists EmptyString|].
  destruct dir as [|d' dir]; cbn in *.
  - exists (d +:+ sep). by rewrite HashFacts.sapp_assoc.
  - exists (d +:+ sep +:+ pre). by rewrite IH, !HashFacts.sapp_assoc.
Qed.

Lemma endsWith_relativePath ext dir item :
  endsWith ext item = true -> endsWith ext (relativePath dir item) = true.
Proof.
  rewrite !endsWith_spec. intros (pre & ->). unfold relativePath.
  destruct (concat_last "/" dir (pre +:+ ext)) as (pre' & ->).
  exists (pre' +:+ pre). by rewrite HashFacts.sapp_assoc.
Qed.

Lemma endsEach_spec ext : forall rel,
  endsEach ext rel = true ->
  forall pre post, rel = pre +:+ ext +:+ post -> post = EmptyString.
Proof.
  induction rel as [|c rel IH]; cbn [endsEach]; intros [H1 H2]%andb_prop pre post E.
  - destruct pre; [|done]. rewrite ?append_nil_l, ?append_cons in E. apply stripPrefix_spec in E.
    rewrite E in H1. by apply String.eqb_eq in H1.
  - destruct pre as [|x pre].
    + rewrite ?append_nil_l, ?append_cons in E. apply stripPrefix_spec in E.
      rewrite E in H1. by apply String.eqb_eq in H1.
    + rewrite ?append_nil_l, ?append_cons in E. injection E as -> ->. by eapply IH.
Qed.

(** A path that passes the test is clean. *)
Lemma clean_check ext rel : cleanb ext rel = true -> clean ext rel.
Proof.
  intros [H1%String.eqb_eq H2]%andb_prop. split; [done|]. by apply endsEach_spec.
Qed.

Lemma removeFirst_last ext : ext <> EmptyString -> forall s,
  (exists pre, s = pre +:+ ext) ->
  (forall pre post, s = pre +:+ ext +:+ post -> post = EmptyString) ->
  removeFirst ext s +:+ ext = s.
Proof.
  intros Hne. induction s as [|c s IH]; intros (pre & E) Hend.
  - destruct pre; [|done]. rewrite ?append_nil_l, ?append_cons in E. by destruct Hne.
  - cbn [removeFirst]. destruct (stripPrefix ext (String c s)) as [rest|] eqn:Es.
    + apply stripPrefix_spec in Es. pose proof (Hend EmptyString rest Es) as ->.
      by rewrite HashFacts.sapp_nil_r in Es.
    + rewrite append_cons. f_equal. destruct pre as [|x pre].
      * rewrite ?append_nil_l, ?append_cons in E. assert (stripPrefix ext (String c s) = Some EmptyString) as Hs.
        { apply stripPrefix_spec. by rewrite HashFacts.sapp_nil_r. }
        congruence.
      * rewrite ?append_nil_l, ?append_cons in E. injection E as Ec Es'.
        apply IH; [by exists pre|].
        intros pre' post Hpp. apply (Hend (String x pre') post).
        rewrite append_cons. by rewrite Ec, Hpp.
Qed.

Lemma pageName_back ext rel :
  ext <> EmptyString -> endsWith ext rel = true -> clean ext rel ->
  pageNameOf ext rel +:+ ext = rel.
Proof.
  intros Hne He%endsWith_spec [Hs Hc]. unfold pageNameOf. rewrite Hs.
  by apply removeFirst_last.
Qed.

Lemma wantedJson_spec item :
  wantedJson item = true <->
  endsWith ".json" item = true /\ item <> "labyrinth.json" /\ item <> "account.json".
Proof.
  unfold wantedJson.
  assert (D : endsWith ".json" item = true -> endsWith ".meta" item = false).
  { induction item as [|c item IH]; [done|]. cbn [endsWith].
    intros [H%String.eqb_eq|H]%orb_prop.
    - injection H as -> ->. reflexivity.
    - rewrite (IH H), orb_false_r. apply String.eqb_neq. intros E.
      injection E as -> ->. discriminate. }
  rewrite !andb_true_iff, !negb_true_iff, bool_decide_eq_false.
  rewrite !elem_of_cons, elem_of_nil. split.
  - intros [[? _] ?]. split_and!; [done|tauto..].
  - intros (? & ? & ?). split_and!; [done|by apply D|tauto].
Qed.

Lemma wantedMeta_spec item :
  wantedMeta item = true <-> endsWith ".meta" item = true /\ item <> "labyrinth.meta".
Proof.
  unfold wantedMeta.
  rewrite !andb_true_iff, !negb_true_iff, bool_decide_eq_false.
  rewrite !elem_of_cons, elem_of_nil. tauto.
Qed.

Lemma scanDir_spec wanted ext items n :
  n ∈ scanDir wanted ext [] items <->
  exists dir item, visible items dir item /\ wanted item = true
                   /\ n = pageNameOf ext (relativePath dir item).
Proof.
  rewrite scanDir_files, list_elem_of_fmap. split.
  - intros (rel & -> & (dir & item & V & W & ->)%filesOf_spec). by exists dir, item.
  - intros (dir & item & V & W & ->). eexists. split; [done|]. apply filesOf_spec.
    by exists dir, item.
Qed.

(** X23.  What the three scans of the content folder find.  A file is
    listed when its name ends with the extension and no directory on the
    way to it is called node_modules, lib, .git or preview; the scan for
    [.json] files also skips every file called labyrinth.json or
    account.json, and the scan for [.meta] files every file called
    labyrinth.meta, in whatever directory they lie (not only at the top).
    The name listed is the relative path with every backslash made a slash
    and the first occurrence of the extension taken out. *)
Theorem found_names items :
  (forall n, n ∈ findPageHtmlFiles items <->
     exists dir item, visible items dir item /\ endsWith ".html" item = true
                      /\ n = pageNameOf ".html" (relativePath dir item))
  /\ (forall n, n ∈ findPageJsonFiles items <->
        exists dir item, visible items dir item /\ endsWith ".json" item = true
                         /\ item <> "labyrinth.json" /\ item <> "account.json"
                         /\ n = pageNameOf ".json" (relativePath dir item))
  /\ (forall n, n ∈ findPageMetaFiles items <->
        exists dir item, visible items dir item /\ endsWith ".meta" item = true
                         /\ item <> "labyrinth.meta"
                         /\ n = pageNameOf ".meta" (relativePath dir item)).
Proof.
  split_and!; intros n.
  - apply scanDir_spec.
  - unfold findPageJsonFiles. rewrite scanDir_spec. split.
    + intros (dir & item & V & (? & ? & ?)%wantedJson_spec & ->). by exists dir, item.
    + intros (dir & item & V & ? & ? & ? & ->). exists dir, item.
      split_and!; [done| |done]. by apply wantedJson_spec.
  - unfold findPageMetaFiles. rewrite scanDir_spec. split.
    + intros (dir & item & V & (? & ?)%wantedMeta_spec & ->). by exists dir, item.
    + intros (dir & item & V & ? & ? & ->). exists dir, item.
      split_and!; [done| |done]. by apply wantedMeta_spec.
Qed.

(** X24.  The names lead back to the files.  When the relative path of
    no listed file holds a backslash, or the extension anywhere but at
    its end, the names a scan lists are exactly the relative paths of the
    listed files without their extension, so that [name + ext] is the file
    the name came from, and files with different paths get different
    names. *)
Theorem names_lead_back wanted ext items :
  ext <> EmptyString ->
  (forall item, wanted item = true -> endsWith ext item = true) ->
  Forall (clean ext) (filesOf wanted [] items) ->
  (fun n => n +:+ ext) <$> scanDir wanted ext [] items = filesOf wanted [] items
  /\ (forall n, n ∈ scanDir wanted ext [] items <->
        exists dir item, visible items dir item /\ wanted item = true
                         /\ n +:+ ext = relativePath dir item)
  /\ (NoDup (filesOf wanted [] items) -> NoDup (scanDir wanted ext [] items)).
Proof.
  intros Hne Hw Hc.
  assert (Hback : forall rel, rel ∈ filesOf wanted [] items ->
                    pageNameOf ext rel +:+ ext = rel).
  { intros rel Hin. apply pageName_back; [done| |].
    - apply filesOf_spec in Hin as (dir & item & _ & W & ->).
      by apply endsWith_relativePath, Hw.
    - by eapply Forall_forall in Hc. }
  assert (E : (fun n => n +:+ ext) <$> scanDir wanted ext [] items = filesOf wanted [] items).
  { rewrite scanDir_files, <-list_fmap_compose.
    revert Hback. generalize (filesOf wanted [] items). intros l.
    induction l as [|rel l IH]; intros Hback; [done|]. cbn. f_equal.
    - apply Hback. left.
    - apply IH. intros ? ?. apply Hback. by right. }
  split_and!; [done| |].
  - intros n. rewrite scanDir_spec. split.
    + intros (dir & item & V & W & ->). exists dir, item. split_and!; [done..|].
      apply Hback, filesOf_spec. by exists dir, item.
    + intros (dir & item & V & W & E'). exists dir, item. split_and!; [done..|].
      apply (append_inj_r _ _ ext). rewrite E'. symmetry.
      apply Hback, filesOf_spec. by exists dir, item.
  - rewrite <-E. apply NoDup_fmap_1.
Qed.

(** In the sample folder the page [page/a] is found, and its three
    files lead back to it. *)
Lemma names_lead_back_witness :
  (fun n => n +:+ ".html") <$> findPageHtmlFiles sample = filesOf wantedHtml [] sample
  /\ (forall n, n ∈ findPageHtmlFiles sample <->
        exists dir item, visible sample dir item /\ wantedHtml item = true
                         /\ n +:+ ".html" = relativePath dir item)
  /\ (NoDup (filesOf wantedHtml [] sample) -> NoDup (findPageHtmlFiles sample)).
Proof.
  apply (names_lead_back wantedHtml ".html" sample).
  - discriminate.
  - intros item H. exact H.
  - repeat constructor; apply clean_check; vm_compute; reflexivity.
Defined.

End ScanDirFacts.

(** ** Before the session *)

Module PreflightFacts.
Import Json Validate Config Cli Preflight.
Import ConfigValidFacts CliFacts.

Section Preflight.
Variable exceeds : json -> nat -> bool.
Variable resolve : string -> string.
Variable join : string -> string -> string.
Variable folderExists : string -> bool.
Variable readJson : string -> file.

Lemma loadAccount_lines accountPath accountFile :
  match loadAccount accountPath accountFile with
  | (lines, Ok _) => lines = []
  | (lines, Exit code) => code = 1 /\ lines <> []
  | (lines, Throw _) => lines = [] /\ accountFile = Parsed JNull
  end.
Proof.
  unfold loadAccount. destruct accountFile as [|message|account]; [done..|].
  destruct account; try done;
    destruct (userIdOf _) as [u|]; try done;
    destruct (prop "password" _) as [p|]; try done;
    destruct (truthy u && truthy p); done.
Qed.

Lemma validateConfig_no_exit members code :
  validateConfig exceeds members <> Exit code.
Proof.
  unfold validateConfig. cbv zeta.
  repeat match goal with
         | |- match ?X with Ok _ => _ | Throw _ => _ | Exit _ => _ end <> _ =>
             let E := fresh "E" in
             destruct X eqn:E; [|done|exfalso; revert E; repeat case_match; done]
         end.
  done.
Qed.


End Preflight.

End PreflightFacts.

(** ** What the site is asked for one page *)

Module ProtocolFacts.
Import Json States PageData Images Main Observe Protocol.
Import RunFacts WorldFacts StepFacts ListFacts ObjFacts CallFacts CreateFacts.

Lemma formCalls_app t1 t2 : formCalls (t1 ++ t2) = formCalls t1 ++ formCalls t2.
Proof. unfold formCalls. by rewrite answered_app, fmap_app, List.filter_app. Qed.

Lemma formCalls_uploads t : Forall (permits is_upload) t -> formCalls t = [].
Proof.
  unfold formCalls. induction 1 as [|[c [v|m]|ms] t H _ IH]; cbn in *; [done| |done|done].
  by rewrite H.
Qed.

Lemma formCalls_none t : Forall (permits no_call) t -> formCalls t = [].
Proof.
  intros H. apply formCalls_uploads. eapply Forall_impl; [exact H|].
  by intros [c ?|?].
Qed.

Lemma formCalls_one t c v :
  answered t = [(c, v)] -> is_upload c = false -> formCalls t = [c].
Proof. unfold formCalls. intros -> H. cbn. by rewrite H. Qed.

Section Run.
Context {R : Type}.
Variable site : Call -> R -> reply * R.
Variable imageRefs : string -> string -> list (string * string).
Variable replaceLocalImages : string -> list (string * string) -> string.
Implicit Types (w : World R) (v : Vars).

Abbreviation createOne := (createOne site imageRefs replaceLocalImages).
Abbreviation updateOne := (updateOne site imageRefs replaceLocalImages).
Abbreviation uploadImages := (Main.uploadImages site replaceLocalImages).

Lemma findLocalImages_silent name html :
  respects (continues (permits no_call)) (Main.findLocalImages (R:=R) imageRefs name html).
Proof. unfold Main.findLocalImages, Images.findLocalImages. frame. Qed.

Lemma uploadImages_uploads v html localImages processedAnswers :
  respects (continues (permits is_upload))
    (uploadImages v html localImages processedAnswers).
Proof.
  unfold Main.uploadImages, Main.uploadNewImages, Images.uploadNewImages, uploadOne,
    calculateChecksum. frame.
Qed.

(** The loop that prepares the answers. *)
Lemma processAnswers_ok name answers : forall acc w acc' w',
  fold_each answers (processAnswer (R:=R) imageRefs name) acc w = (Ok acc', w') ->
  continues (permits no_call) w w'
  /\ exists added,
       acc'.2 = acc.2 ++ added /\ added.*1 = answers
       /\ Forall (fun a : json * string => explanationOf a.1 = Ok a.2) added
       /\ (answers = [] -> acc'.1 = acc.1).
Proof.
  induction answers as [|ans answers IH]; intros acc w acc' w'; cbn [fold_each].
  - intros [= <- <-]. split; [reflexivity|]. exists []. by rewrite app_nil_r.
  - intros (acc1 & w1 & H1 & (C & added & E & A & F & _)%IH)%bind_ok.
    unfold processAnswer in H1. destruct acc as [localImages processed].
    apply bind_ok in H1 as (explanation & w2 & [He ->]%lift_ok & H1).
    apply bind_ok in H1 as (localImages' & w3 & H1 & [= <- <-]).
    assert (C1 : continues (permits no_call) w w3).
    { destruct (Js.truthy_str explanation && Js.includes "<" explanation).
      - apply bind_ok in H1 as (? & w4 & C1%findLocalImages_silent & [= _ <-]). done.
      - injection H1 as _ <-. reflexivity. }
    split; [by etransitivity|].
    exists ((ans, explanation) :: added). cbn in *. rewrite E, <-app_assoc. cbn.
    split_and!; [done|by rewrite A|by constructor|done].
Qed.

(** The upload step, as far as the form is concerned. *)
Lemma uploadImages_form v html localImages processed w v' html' processed' w' :
  uploadImages v html localImages processed w = (Ok (v', html', processed'), w') ->
  continues (permits is_upload) w w'
  /\ (localImages = [] -> html' = html /\ processed' = processed)
  /\ (html' = html \/ exists substitution, html' = replaceLocalImages html substitution)
  /\ processed'.*1 = processed.*1
  /\ Forall2 (fun a a' : json * string =>
                a'.1 = a.1
                /\ (a'.2 = a.2 \/ exists substitution,
                                    a'.2 = replaceLocalImages a.2 substitution))
       processed processed'.
Proof.
  intros H. split; [by apply uploadImages_uploads in H|].
  unfold Main.uploadImages in H. destruct localImages as [|img imgs].
  - injection H as _ <- <- _. split_and!; [done|by left|done|].
    induction processed; constructor; [by split; [|left]|done].
  - apply bind_ok in H as ([newCache pathMap] & w1 & _ & H).
    apply bind_ok in H as ([] & w2 & _ & [= _ <- <- _]).
    split_and!; [done|right; by eexists| |].
    + rewrite <-list_fmap_compose. by apply list_fmap_ext.
    + induction processed as [|a processed IH]; constructor; [|done].
      split; [done|]. cbn. destruct (Js.truthy_str a.2); [right; by eexists|by left].
Qed.

Lemma addAnswers_answered processed : forall w r w',
  for_each processed (addAnswer site) w = (Ok r, w') ->
  exists t, trace w' = trace w ++ t /\ formCalls t = answerCall <$> processed.
Proof.
  induction processed as [|a processed IH]; intros w r w'; cbn [for_each].
  - intros [= <- <-]. exists []. by rewrite app_nil_r.
  - intros ([] & w1 & H1 & (t & E & A)%IH)%bind_ok.
    unfold addAnswer in H1.
    apply bind_ok in H1 as (? & w2 & (T & _)%call_ok & [= <-]).
    eexists. rewrite E, T, <-app_assoc. split; [done|].
    by rewrite formCalls_app, A.
Qed.

Lemma explained_of (processed0 processed : list (json * string)) :
  Forall (fun a : json * string => explanationOf a.1 = Ok a.2) processed0 ->
  Forall2 (fun a a' : json * string =>
             a'.1 = a.1
             /\ (a'.2 = a.2 \/ exists substitution,
                                 a'.2 = replaceLocalImages a.2 substitution))
    processed0 processed ->
  Forall (explained replaceLocalImages) processed.
Proof.
  intros F F2. induction F2 as [|a a' l l' [E1 E2] _ IH]; [done|].
  apply Forall_cons in F as [Fa F]. constructor; [|by apply IH].
  exists a.2. by rewrite E1.
Qed.

(** X26.  What the site is asked to create a page.  For a page with
    content whose creation completes, the calls the site answers are, the
    image uploads aside and in this order: one opening of the creation
    form; one [fillPageForm] with the fields of the page (the title, the
    colour or black, whether it is the first page, [is_ending],
    whether there are answers, the hint, and the content with the
    uploaded images put in); one [addAnswer] for each answer of the page,
    in their order; one submission, under the title of the page.  The
    placeholder answer [temp] is never added: a page without answers gets
    no answer at all. *)
Theorem createOne_protocol labyrinthId firstPage v name pageInfo w v' w' :
  JsObject.get name (pages v) = Some pageInfo ->
  Js.truthy_str (pi_html pageInfo) = true ->
  Scope.plain_page (pi_json pageInfo) = true ->
  createOne labyrinthId firstPage v name w = (Ok v', w') ->
  exists t answers html' processed,
    trace w' = trace w ++ t
    /\ answersOf (pi_json pageInfo) = Ok answers
    /\ processed.*1 = answers
    /\ Forall (explained replaceLocalImages) processed
    /\ (html' = pi_html pageInfo
        \/ exists substitution, html' = replaceLocalImages (pi_html pageInfo) substitution)
    /\ formCalls t
       = NavigateToCreatePage labyrinthId
         :: FillPageForm
              (formData (pi_json pageInfo) (is_first firstPage name)
                 (or_else (prop "is_ending" (pi_json pageInfo)) (JBool false))
                 (0 <? length answers)%nat html')
         :: (answerCall <$> processed)
         ++ [SubmitPageForm (Some labyrinthId) (prop "title" (pi_json pageInfo))].
Proof.
  intros Hget Hhtml _ H. unfold Main.createOne in H. rewrite Hget in H.
  cbv zeta in H. rewrite Hhtml in H. cbn [negb] in H.
  apply bind_ok in H as (? & w1 & (t1 & E1 & A1 & _)%retried_ok & H).
  apply bind_ok in H as (localImages & w2 & [t2 [E2 F2]]%findLocalImages_silent & H).
  apply bind_ok in H as (answers & w3 & [Ha ->]%lift_ok & H).
  apply bind_ok in H as ([localImages' processed0] & w4 & H4 & H).
  apply processAnswers_ok in H4 as ([t4 [E4 F4]] & added & Ea & Aa & Fa & _).
  cbn in Ea. subst processed0.
  apply bind_ok in H as ([[v1 html'] processed] & w5 & H5 & H).
  apply uploadImages_form in H5 as ([t5 [E5 F5]] & _ & Hh & Hp & F2p).
  apply bind_ok in H as (? & w6 & (E6 & _)%call_ok & H).
  apply bind_ok in H as ([] & w7 & H7 & H).
  apply bind_ok in H as (pageId & w8 & (t8 & E8 & A8 & _)%retried_ok & H).
  assert (exists t7, trace w7 = trace w6 ++ t7 /\ formCalls t7 = answerCall <$> processed)
    as (t7 & E7 & A7).
  { destruct processed as [|a processed].
    - assert (answers = []) as -> by (by rewrite <-Aa, <-Hp).
      cbn in H7. injection H7 as <-. exists []. by rewrite app_nil_r.
    - by apply addAnswers_answered in H7. }
  assert (exists t9, trace w' = trace w8 ++ t9 /\ formCalls t9 = []) as (t9 & E9 & A9).
  { destruct (value_string pageId) as [i|].
    - apply bind_ok in H as ([] & w9 & (_ & T & _)%writeDisk_ok & [= _ <-]).
      exists []. by rewrite app_nil_r.
    - apply bind_ok in H as ([] & w9 & (_ & T & _)%logError_ok & [= _ <-]).
      exists []. by rewrite app_nil_r. }
  eexists _, answers, html', processed. split_and!; [|done|by rewrite Hp|
    by eapply explained_of|done|].
  - rewrite E9, E8, E7, E6, E5, E4, E2, E1, <-!app_assoc. reflexivity.
  - rewrite !formCalls_app, (formCalls_one t1 _ _ A1), (formCalls_none t2),
      (formCalls_none t4), (formCalls_uploads t5), A7, (formCalls_one t8 _ _ A8), A9;
      [|done..].
    cbn. by rewrite ?app_nil_r.
Qed.


End Run.

(** Page A of the example, created: the form is opened, filled, given
    its one answer, and submitted. *)
Lemma createOne_protocol_witness :
  exists t answers html' processed,
    trace Sample.create_run.2 = trace (Example.again Example.ab_done) ++ t
    /\ answersOf (pi_json Sample.pageInfoA) = Ok answers
    /\ processed.*1 = answers
    /\ Forall (explained Example.replaceLocalImages) processed
    /\ (html' = pi_html Sample.pageInfoA
        \/ exists substitution,
             html' = Example.replaceLocalImages (pi_html Sample.pageInfoA) substitution)
    /\ formCalls t
       = NavigateToCreatePage "7199"
         :: FillPageForm
              (formData (pi_json Sample.pageInfoA) (is_first (Some (JStr "page/a")) "page/a")
                 (or_else (prop "is_ending" (pi_json Sample.pageInfoA)) (JBool false))
                 (0 <? length answers)%nat html')
         :: (answerCall <$> processed)
         ++ [SubmitPageForm (Some "7199") (prop "title" (pi_json Sample.pageInfoA))].
Proof.
  apply (createOne_protocol Example.site Example.imageRefs Example.replaceLocalImages
           "7199" (Some (JStr "page/a")) Sample.linked_vars "page/a" Sample.pageInfoA
           (Example.again Example.ab_done) Sample.create_vars Sample.create_run.2).
  - vm_compute. reflexivity.
  - vm_compute. reflexivity.
  - vm_compute. reflexivity.
  - vm_compute. reflexivity.
Defined.


End ProtocolFacts.

(** ** Pages that cannot be loaded *)

Module UnloadableFacts.
Import Json States PageData Images Main Observe.
Import RunFacts WorldFacts StepFacts ListFacts ObjFacts StatesFacts IdFacts PlanFacts.
Import SurveyFacts PreparedFacts CompletedFacts IdempotenceFacts.

Section Run.
Context {R : Type}.
Variable site : Call -> R -> reply * R.
Variable imageRefs : string -> string -> list (string * string).
Variable replaceLocalImages : string -> list (string * string) -> string.
Variable joinContentPath : string -> string.
Implicit Types (w : World R) (v : Vars) (plan : Plan).

Abbreviation survey := (survey site imageRefs joinContentPath).
Abbreviation reconcile := (reconcile site imageRefs replaceLocalImages).
Abbreviation main := (main site imageRefs replaceLocalImages joinContentPath).

(** A run that completes has loaded every page it had to handle. *)
Lemma completed_loaded w0 lm d loaded metas w c w' n :
  survey w0 = (Ok (lm, d, loaded, metas), w) ->
  reconcile (lm, d, loaded, metas) w = (Ok c, w') ->
  is_Some (htmlFiles d !! n) -> is_Some (jsonFiles d !! n) ->
  match metaFiles d !! n with
  | Some m => Js.truthy_ostr (pm_id m) = true
  | None => True
  end ->
  is_Some (loadable imageRefs d n).
Proof.
  intros Hs Hr Hh Hj Hm.
  destruct (reconcile_completed _ _ _ _ _ _ _ _ _ _ _ _ Hs Hr)
    as (plan & prepared & t_del & t_new & t_rest & vals & v1 & v2
        & Hplan & _ & _ & _ & _ & _ & _ & _ & G1 & _ & _ & _ & A & _).
  apply survey_ok in Hs as (_ & _ & _ & _ & _ & _ & Gl & _ & Mi).
  apply makePlan_ok in Hplan as (upd & unch & Hsplit & Hreset & Eplan).
  apply splitNormal_ok in Hsplit as (Hex & _).
  apply resetMissing_ok in Hreset as (Hmiss & Hprep).
  assert (Hnew : newPages plan
                 = new (statesOf (lm, d, loaded, metas))
                   ++ (pageIds_missing (statesOf (lm, d, loaded, metas))).*1)
    by by rewrite Eplan.
  clear Eplan. unfold statesOf in *. cbn [pageIds startVars] in *.
  unfold findPageHtmlFiles, findPageJsonFiles, findPageMetaFiles in *.
  set (htmlNames := (map_to_list (htmlFiles d)).*1) in *.
  set (jsonNames := (map_to_list (jsonFiles d)).*1) in *.
  set (metaNames := (map_to_list (metaFiles d)).*1) in *.
  set (P0 := default [] (lm_pageIds lm)) in *.
  set (states := determinePageStates htmlNames jsonNames metaNames P0 metas) in *.
  rewrite <-Gl.
  apply elem_of_keys in Hh, Hj. fold htmlNames in Hh. fold jsonNames in Hj.
  assert (Hid : metaIdOf metas n = metaFiles d !! n ≫= pm_id).
  { rewrite Mi. unfold readPageMeta. by destruct (metaFiles d !! n). }
  destruct (metaFiles d !! n) as [m|] eqn:Em.
  - assert (Hmn : n ∈ metaNames) by (apply elem_of_keys; by eexists).
    cbn in Hid.
    destruct (inPageIdsOf P0 (metaIdOf metas n)) eqn:Hin.
    + apply Hex, normal_elem. split; [done|]. unfold isNormal, has.
      by rewrite Hin, Hid, Hm, !bool_decide_true.
    + apply Hmiss, missing_names. split; [done|]. unfold isMissing, has.
      by rewrite Hin, Hid, Hm, !bool_decide_true.
  - assert (Hmn : n ∉ metaNames).
    { intros [? ?]%elem_of_keys. congruence. }
    assert (Hn : n ∈ newPages plan).
    { rewrite Hnew, elem_of_app. left. apply new_elem. split; [done|].
      unfold isNew, has. by rewrite bool_decide_true, bool_decide_false. }
    destruct (Forall2_elem_l _ _ _ _ A Hn) as (val & _ & p & Hp & _).
    rewrite G1, Hprep in Hp. case_bool_decide; [|by eexists].
    destruct (JsObject.get n loaded); [by eexists|done].
Qed.

(** X28.  A page that cannot be loaded stops the run.  When a page has
    both its files but the [.html] file is empty, or the [.json] file
    holds a falsy value ([null], [false], [0] or an empty string), no run
    completes: the page is classified with the others but never loaded,
    and the step that reaches for it fails.  (The branches of steps 4 and
    5 that would skip a page without content are never reached with such
    a page.)  The one exception is a page that the classification leaves
    out: one whose meta file exists, with [labyrinth.meta], and records no
    id. *)
Theorem unloadable_page_fails w r w' n html json :
  Scope.plain (disk w) ->
  htmlFiles (disk w) !! n = Some html ->
  jsonFiles (disk w) !! n = Some json ->
  Js.truthy_str html && truthy json = false ->
  match labyMetaFile (disk w), metaFiles (disk w) !! n with
  | Some _, Some m => Js.truthy_ostr (pm_id m) = true
  | _, _ => True
  end ->
  main w = (r, w') ->
  forall c, r <> Ok c.
Proof.
  intros _ Hh Hj Hf Hm H c ->. unfold Main.main in H.
  destruct (session site imageRefs replaceLocalImages joinContentPath w)
    as [[c'|e|code] w1] eqn:Es.
  - unfold session in Es.
    apply bind_ok in Es as ([[[lm d] loaded] metas] & w0 & Hs & Hr).
    apply survey_ok in Hs as Hs'.
    destruct Hs' as (_ & (_ & Sh & Sj & _) & _ & _ & _ & Sm & _).
    destruct (completed_loaded _ _ _ _ _ _ _ _ n Hs Hr) as [p Hp].
    + rewrite Sh. by eexists.
    + rewrite Sj. by eexists.
    + rewrite Sm. destruct (labyMetaFile (disk w)); [|done].
      by destruct (metaFiles (disk w) !! n).
    + apply loadable_files in Hp as (Hh' & Hj' & Th & Tj & _).
      rewrite Sh, Hh in Hh'. rewrite Sj, Hj in Hj'.
      injection Hh' as ->. injection Hj' as ->. by rewrite Th, Tj in Hf.
  - apply bind_inv in H as [(? & ? & _ & H)|[(? & _ & ?)|(? & _ & ?)]]; [|done..].
    apply bind_inv in H as [(? & ? & _ & H)|[(? & _ & ?)|(? & _ & ?)]]; [|done..].
    apply bind_inv in H as [(? & ? & _ & H)|[(? & _ & ?)|(? & _ & ?)]]; [|done..].
    done.
  - done.
Qed.

End Run.

(** With a third page whose [.html] file is empty, the run of the
    example ends with code 1. *)
Lemma unloadable_page_fails_witness :
  Sample.empty_run.1 = Exit 1 /\ forall c, Sample.empty_run.1 <> Ok c.
Proof.
  split; [reflexivity|].
  apply (unloadable_page_fails Example.site Example.imageRefs Example.replaceLocalImages
           Example.joinContentPath (Example.world Sample.tree_empty Example.site0)
           Sample.empty_run.1 Sample.empty_run.2 "page/c" "" Example.pageB).
  - apply (bool_decide_unpack _). vm_compute. reflexivity.
  - vm_compute. reflexivity.
  - vm_compute. reflexivity.
  - reflexivity.
  - exact I.
  - vm_compute. reflexivity.
Defined.

End UnloadableFacts.

